(** * HandyRL learner: a shallow embedding of [train.py]

    The development follows the coordination code of [train.py]: the
    episode store kept by [Learner.feed_episodes], the registration loop
    of [Learner.entry_server], the model bookkeeping of [Learner.update],
    [Learner.update_model] and the request loop of [Learner.server], the
    recency-biased sampler [Batcher.select_episode], the windowing of
    [make_batch], and the return estimators of [vtrace].

    Conventions.
    - Python integers are [Z]; Python floats are exact rationals [Q], and
      every equation about them is stated with the operations the code
      performs, in the order it performs them.  The one test that
      compares a rounded product with an integer, that of
      [Learner.entry_server], is computed on IEEE 754 doubles (module
      [Num]).
    - A Python exception is [None] in an [option] result.
    - A [collections.deque] is a list whose head is the left end. *)

From Stdlib Require Import ZArith QArith Lia Lqa List.
From Stdlib Require SpecFloat.
From stdpp Require Import gmap strings list pretty sorting.

Open Scope Z_scope.

(** ** Python sequence helpers *)

Module Py.

(** [len(l)] as a Python integer. *)
Definition len {A} (l : list A) : Z := Z.of_nat (length l).

(** [l[i]] with Python's negative indices; [IndexError] is [None]. *)
Definition index {A} (l : list A) (i : Z) : option A :=
  if i <? 0
  then (if len l + i <? 0 then None else l !! Z.to_nat (len l + i))
  else l !! Z.to_nat i.

(** [range(start, stop, -1)], the indices [start, start-1, ..., stop+1]. *)
Definition range_down (start stop : Z) : list Z :=
  (fun k => start - Z.of_nat k) <$> seq 0 (Z.to_nat (start - stop)).

(** [range(start, stop)]. *)
Definition range (start stop : Z) : list Z :=
  (fun k => start + Z.of_nat k) <$> seq 0 (Z.to_nat (stop - start)).

(** [l[st:ed]] for [0 <= st] and [0 <= ed]: out-of-range bounds are
    clipped, as Python does. *)
Definition slice {A} (l : list A) (st ed : Z) : list A :=
  take (Z.to_nat ed - Z.to_nat st)%nat (drop (Z.to_nat st) l).

End Py.

(** ** Episode store: [Learner.feed_episodes]

    [self.trainer.episodes] is a deque; episodes enter on the right and
    leave on the left, so the head of the list is the oldest episode. *)

Module Store.
Section WithEpisode.

Context {episode : Type}.

(** [[e for e in episodes if e is not None]] *)
Definition not_none (episodes : list (option episode)) : list episode :=
  omap id episodes.

(** [while len(d) > maximum_episodes: d.popleft()].  [popleft] on an
    empty deque raises [IndexError]. *)
Fixpoint evict (maximum_episodes : Z) (d : list episode)
  : option (list episode) :=
  match d with
  | [] => if maximum_episodes <? 0 then None else Some []
  | _ :: d' =>
      if maximum_episodes <? Py.len d
      then evict maximum_episodes d'
      else Some d
  end.

Definition feed_episodes (maximum_episodes : Z) (d : list episode)
    (episodes : list (option episode)) : option (list episode) :=
  evict maximum_episodes (d ++ not_none episodes).

(** A run of [episode] requests, one call of [feed_episodes] each. *)
Fixpoint feed_all (maximum_episodes : Z) (d : list episode)
    (reqs : list (list (option episode))) : option (list episode) :=
  match reqs with
  | [] => Some d
  | episodes :: reqs' =>
      match feed_episodes maximum_episodes d episodes with
      | Some d' => feed_all maximum_episodes d' reqs'
      | None => None
      end
  end.

(** Everything ever admitted, oldest first. *)
Definition admitted (d : list episode)
    (reqs : list (list (option episode))) : list episode :=
  d ++ concat (not_none <$> reqs).

(** The newest [n] elements of [l]. *)
Definition newest (n : Z) (l : list episode) : list episode :=
  drop (length l - Z.to_nat n) l.

End WithEpisode.
End Store.

(** ** Python numbers: [int] and [float]

    A configuration value such as [eworker_rate] is a Python [int] or a
    Python [float].  A [float] is an IEEE 754 binary64 number: a
    [spec_float] at precision 53 with exponent bound 1024.  The product
    of two floats is the exact product rounded to the nearest double,
    ties to even; an [int] that meets a [float] in a product is
    converted first, as [float(n)] converts it; and Python compares two
    numbers, of whichever types, by their exact values, a NaN being
    neither below nor above anything. *)

Module Num.

Definition prec : Z := 53.
Definition emax : Z := 1024.

Abbreviation float := SpecFloat.spec_float.

Inductive number :=
  | Int (n : Z)
  | Float (x : float).

(** [float(n)]: the double nearest to [n], ties to even.  From [2^1024]
    on Python raises [OverflowError] where this is an infinity; the
    length of a list is below [2^63]. *)
Definition of_int (n : Z) : float :=
  SpecFloat.binary_normalize prec emax n 0 false.

(** The double nearest to [m / n], for [m] and [n] below [2^53]: what
    Python reads in the literal [0.57], for [m = 57] and [n = 100]. *)
Definition quotient (m n : Z) : float :=
  SpecFloat.SFdiv prec emax (of_int m) (of_int n).

(** [x * y] *)
Definition mul (x y : number) : number :=
  match x, y with
  | Int m, Int n => Int (m * n)
  | Int m, Float b => Float (SpecFloat.SFmul prec emax (of_int m) b)
  | Float a, Int n => Float (SpecFloat.SFmul prec emax a (of_int n))
  | Float a, Float b => Float (SpecFloat.SFmul prec emax a b)
  end.

(** The exact value of a zero or of a finite float
    [(-1)^s * m * 2^e]. *)
Definition value (x : float) : option Q :=
  match x with
  | SpecFloat.S754_zero _ => Some 0%Q
  | SpecFloat.S754_finite s m e =>
      let q := if 0 <=? e then inject_Z (Z.pos m * 2 ^ e)
               else (Z.pos m # Pos.pow 2 (Z.to_pos (- e)))%Q in
      Some (if s then (- q)%Q else q)
  | _ => None
  end.

(** A number that is not a NaN, on the extended real line. *)
Inductive extended :=
  | NegInf
  | Finite (q : Q)
  | PosInf.

Definition extend (x : number) : option extended :=
  match x with
  | Int n => Some (Finite (inject_Z n))
  | Float SpecFloat.S754_nan => None
  | Float (SpecFloat.S754_infinity s) => Some (if s then NegInf else PosInf)
  | Float a => Finite <$> value a
  end.

(** [x < y] *)
Definition ltb (x y : number) : bool :=
  match extend x, extend y with
  | Some NegInf, Some (Finite _ | PosInf) => true
  | Some (Finite _), Some PosInf => true
  | Some (Finite p), Some (Finite q) => if Qlt_le_dec p q then true else false
  | _, _ => false
  end.

(** A float without a minus sign that counts: a NaN, a zero of either
    sign, a positive double or the positive infinity. *)
Definition not_negative (x : float) : Prop :=
  match x with
  | SpecFloat.S754_infinity s | SpecFloat.S754_finite s _ _ => s = false
  | _ => True
  end.

End Num.

(** ** Registration: [Learner.entry_server]

    The loop keeps three locals across handshakes: the generator ids and
    evaluator ids issued so far and the next worker id.
    [self.args['eworker_rate']] is a number of the configuration. *)

Module Entry.

Record state := State {
  total_gids : list Z;
  total_eids : list Z;
  worker_cnt : Z
}.

(** [total_gids, total_eids, worker_cnt = [], [], 0] *)
Definition init : state := State [] [] 0.

(** [len(total_gids) * self.args['eworker_rate'] < len(total_eids) - 1] *)
Definition wants_generator (eworker_rate : Num.number) (st : state) : bool :=
  Num.ltb (Num.mul (Num.Int (Py.len (total_gids st))) eworker_rate)
          (Num.Int (Py.len (total_eids st) - 1)).

(** The body of [for _ in range(entry_args['num_process'])]; the
    accumulator carries the loop state and the handshake's own [gids] and
    [eids]. *)
Definition assign (eworker_rate : Num.number)
    (acc : state * list Z * list Z) : state * list Z * list Z :=
  let '(st, gids, eids) := acc in
  if wants_generator eworker_rate st
  then (State (total_gids st ++ [worker_cnt st]) (total_eids st)
              (worker_cnt st + 1),
        gids ++ [worker_cnt st], eids)
  else (State (total_gids st) (total_eids st ++ [worker_cnt st])
              (worker_cnt st + 1),
        gids, eids ++ [worker_cnt st]).

(** The first [k] slots of a handshake. *)
Definition slots (eworker_rate : Num.number) (st : state) (k : nat)
  : state * list Z * list Z :=
  Nat.iter k (assign eworker_rate) (st, [], []).

(** One accepted connection asking for [num_process] slots: the new loop
    state and the [gids], [eids] sent back. *)
Definition handshake (eworker_rate : Num.number) (st : state)
    (num_process : Z) : state * list Z * list Z :=
  slots eworker_rate st (Z.to_nat num_process).

(** [entry_server]: the loop state after a run of accepted connections,
    each asking for the given number of slots. *)
Definition entry_server (eworker_rate : Num.number) (reqs : list Z)
  : state :=
  foldl (fun st n => (handshake eworker_rate st n).1.1) init reqs.

(** The loop state seen by slot [k] of a handshake. *)
Definition slot_state (eworker_rate : Num.number) (st : state) (k : nat)
  : state :=
  (slots eworker_rate st k).1.1.

(** The criterion in the words of the specification: the ratio of
    already-assigned evaluators to already-assigned generators exceeds
    the rate, a rate of exact value [q]. *)
Definition ratio_exceeds_rate (eworker_rate : Num.number) (st : state)
  : Prop :=
  exists q : Q,
    Num.extend eworker_rate = Some (Num.Finite q) /\
    (q < inject_Z (Py.len (total_eids st))
         / inject_Z (Py.len (total_gids st)))%Q.

(** Ids issued so far are distinct and below the next id. *)
Definition issued_ok (st : state) : Prop :=
  NoDup (total_gids st ++ total_eids st) /\
  Forall (fun i => 0 <= i < worker_cnt st) (total_gids st ++ total_eids st) /\
  0 <= worker_cnt st.

End Entry.

(** ** The coordinator: [Trainer.update] and class [Learner]

    The network is an external collaborator.  A model object is a value
    of type [model]; [get_state_dict] is [model.state_dict()],
    [model_class] is the object [self.model_class(self.env, self.args)]
    builds (a network as initialised by its constructor) and
    [load_state_dict m sd] is the object [m] after
    [m.load_state_dict(sd)], whether or not that call raised.  The
    [models] directory is a finite map from paths to saved state dicts. *)

Module Learner.

Record args := Args {
  minimum_episodes : Z;
  maximum_episodes : Z;
  update_episodes : Z
}.

(** The line printed at the start of [Learner.update]: either
    [win rate = Nan (0)] or the three numbers formatted by
    ['win rate = %.3f (%.1f / %d)' % (win / n, win, n)]. *)
Inductive report :=
| WinRateNan
| WinRate (rate win : Q) (n : Z).

(** [os.path.join('models', str(model_id) + '.pth')] *)
Definition model_path (model_id : Z) : string :=
  "models/" +:+ pretty model_id +:+ ".pth".

(** The body of the loop of [feed_results] for one [(model_id, reward)]. *)
Definition feed_result (results : gmap Z (gmap Z Z)) (r : Z * option Z)
  : gmap Z (gmap Z Z) :=
  match r.2 with
  | None => results
  | Some reward =>
      let distribution := default ∅ (results !! r.1) in
      let cnt := default 0 (distribution !! reward) in
      <[r.1 := <[reward := cnt + 1]> distribution]> results
  end.

Definition feed_results (results : gmap Z (gmap Z Z))
    (data : list (Z * option Z)) : gmap Z (gmap Z Z) :=
  foldl feed_result results data.

(** [{k: distribution[k] for k in sorted(distribution.keys(), reverse=True)}]
    as the list of its items in iteration order: keys in descending
    order. *)
Definition key_ge (a b : Z * Z) : Prop := b.1 <= a.1.

#[global] Instance key_ge_dec : RelDecision key_ge.
Proof. intros a b. unfold key_ge. apply _. Defined.

Definition items_desc (distribution : gmap Z Z) : list (Z * Z) :=
  merge_sort key_ge (map_to_list distribution).

(** The loop [for r, cnt in results.items(): n += cnt; win += (r + 1) / 2 * cnt]. *)
Definition tally_step (acc : Z * Q) (item : Z * Z) : Z * Q :=
  (acc.1 + item.2, (acc.2 + inject_Z (item.1 + 1) / 2 * inject_Z item.2)%Q).

Definition tally (items : list (Z * Z)) : Z * Q :=
  foldl tally_step (0, 0%Q) items.

(** The win-rate line of [Learner.update]; [win / n] raises
    [ZeroDivisionError] when [n] is zero. *)
Definition win_rate (results : gmap Z (gmap Z Z)) (model_era : Z)
  : option report :=
  match results !! model_era with
  | None => Some WinRateNan
  | Some distribution =>
      let '(n, win) := tally (items_desc distribution) in
      if n =? 0 then None else Some (WinRate (win / inject_Z n) win n)
  end.

(** The count-weighted mean of [(outcome + 1) / 2], in the words of the
    specification: the sum of count times normalised outcome over the
    sum of the counts. *)
Definition weighted_mean (items : list (Z * Z)) : Q :=
  (foldr (fun item s => inject_Z item.2 * (inject_Z (item.1 + 1) / 2) + s)
         0 items
   / inject_Z (foldr (fun item s => item.2 + s)%Z 0%Z items))%Q.

(** Sums over the items of a histogram. *)
Definition qsum (f : Z -> Z -> Q) (items : list (Z * Z)) : Q :=
  foldr (fun item s => (f item.1 item.2 + s)%Q) 0%Q items.

Definition zsum (items : list (Z * Z)) : Z :=
  foldr (fun item s => item.2 + s) 0 items.

Definition score (r cnt : Z) : Q :=
  (inject_Z cnt * (inject_Z (r + 1) / 2))%Q.

Section WithModel.

Context {model state_dict episode : Type}.
Variable get_state_dict : model -> state_dict.
Variable model_class : model.
Variable load_state_dict : model -> state_dict -> model.

Record learner := Learner_ {
  model_era : Z;
  current : model;                    (* self.model *)
  num_episodes : Z;
  results : gmap Z (gmap Z Z);
  num_results : Z;
  episodes : list episode;            (* self.trainer.episodes *)
  files : gmap string state_dict      (* the models directory *)
}.

(** The polling loop of [Trainer.update].  [polls] lists what the
    successive calls of [recheck_update] return, as the training thread
    sets them; running out of polls means the loop is still waiting. *)
Fixpoint await (polls : list (option model * Z)) : option (model * Z) :=
  match polls with
  | [] => None
  | (Some m, steps) :: _ => Some (m, steps)
  | (None, _) :: polls' => await polls'
  end.

(** [Trainer.update]: [Some] is the pair it returns, [None] is a call
    that has not returned. *)
Definition trainer_update (a : args) (eps : list episode)
    (polls : list (option model * Z)) : option (option model * Z) :=
  if Py.len eps <? minimum_episodes a
  then Some (None, 0)
  else match await polls with
       | Some (m, steps) => Some (Some m, steps)
       | None => None
       end.

(** [Learner.update_model] *)
Definition update_model (st : learner) (m : model) (steps : Z) : learner :=
  let era := model_era st + 1 in
  Learner_ era m (num_episodes st) (results st) (num_results st)
           (episodes st)
           (<[model_path era := get_state_dict m]> (files st)).

(** [Learner.update] *)
Definition update (a : args) (st : learner)
    (polls : list (option model * Z)) : option (learner * report) :=
  match win_rate (results st) (model_era st) with
  | None => None
  | Some rep =>
      match trainer_update a (episodes st) polls with
      | None => None
      | Some (m, steps) =>
          let m := match m with None => current st | Some m => m end in
          Some (update_model st m steps, rep)
      end
  end.

(** The [req == 'model'] branch of [Learner.server] for one [model_id]:
    the object appended to [send_data].  The [try] block first binds
    [model] to a new network and then loads the file into it; the
    [except] clause swallows whatever [torch.load] or [load_state_dict]
    raised and leaves [model] bound. *)
Definition fetch_model (st : learner) (model_id : Z) : model :=
  if decide (model_id = model_era st)
  then current st
  else
    let m := model_class in
    match files st !! model_path model_id with
    | Some sd => load_state_dict m sd
    | None => m
    end.

(** Requests.  [multi] records whether the payload came as a list; a
    single item has been wrapped by [data = [data]]. *)
Inductive request :=
| Gargs (multi : bool) (count : nat)
| Eargs (multi : bool) (count : nat)
| Episodes (multi : bool) (data : list (option episode))
| Results (multi : bool) (data : list (Z * option Z))
| Models (multi : bool) (data : list Z).

Inductive item :=
| GenArgs (episode_id player : Z) (model_id0 model_id1 : list Z)
| EvalArgs (model_id player : Z)
| Ack
| Snapshot (m : model).

Inductive reply :=
| One (x : item)
| Many (xs : list item).

(** [if not multi_req and len(send_data) == 1: send_data = send_data[0]] *)
Definition shape (multi : bool) (send_data : list item) : reply :=
  match multi, send_data with
  | false, [x] => One x
  | _, _ => Many send_data
  end.

(** The body of [for _ in data] for [req == 'gargs']. *)
Definition gargs_one (acc : learner * list item) : learner * list item :=
  let st := acc.1 in
  (Learner_ (model_era st) (current st) (num_episodes st + 1) (results st)
            (num_results st) (episodes st) (files st),
   acc.2 ++ [GenArgs (num_episodes st) (num_episodes st `mod` 2)
                     [model_era st] [model_era st]]).

(** The body of [for _ in data] for [req == 'eargs']. *)
Definition eargs_one (acc : learner * list item) : learner * list item :=
  let st := acc.1 in
  (Learner_ (model_era st) (current st) (num_episodes st) (results st)
            (num_results st + 1) (episodes st) (files st),
   acc.2 ++ [EvalArgs (model_era st) (num_results st `mod` 2)]).

(** One pass of the inner loop of [Learner.server]. *)
Definition serve (a : args) (st : learner) (req : request)
  : option (learner * reply) :=
  match req with
  | Gargs multi count =>
      let '(st', send_data) := Nat.iter count gargs_one (st, []) in
      Some (st', shape multi send_data)
  | Eargs multi count =>
      let '(st', send_data) := Nat.iter count eargs_one (st, []) in
      Some (st', shape multi send_data)
  | Episodes multi data =>
      match Store.feed_episodes (maximum_episodes a) (episodes st) data with
      | None => None
      | Some eps =>
          Some (Learner_ (model_era st) (current st) (num_episodes st)
                         (results st) (num_results st) eps (files st),
                shape multi (replicate (length data) Ack))
      end
  | Results multi data =>
      Some (Learner_ (model_era st) (current st) (num_episodes st)
                     (feed_results (results st) data) (num_results st)
                     (episodes st) (files st),
            shape multi (replicate (length data) Ack))
  | Models multi data =>
      Some (st, shape multi ((fun i => Snapshot (fetch_model st i)) <$> data))
  end.

(** What the coordinator does next: serve a request or run
    [self.update()]. *)
Inductive event :=
| Request (req : request)
| Update (polls : list (option model * Z)).

Definition step (a : args) (st : learner) (ev : event) : option learner :=
  match ev with
  | Request req => fst <$> serve a st req
  | Update polls => fst <$> update a st polls
  end.

Fixpoint run (a : args) (st : learner) (evs : list event) : option learner :=
  match evs with
  | [] => Some st
  | ev :: evs' =>
      match step a st ev with
      | None => None
      | Some st' => run a st' evs'
      end
  end.

(** The inner loop of [Learner.server],
    [while ... self.num_episodes < next_update_episodes], fed with the
    messages the workers send, in order of arrival; [None] when a call
    raised or when the loop is still waiting in [self.workers.recv()].
    The result carries the messages not yet received. *)
Fixpoint server_until (a : args) (next_update_episodes : Z) (st : learner)
    (inbox : list request) : option (learner * list request) :=
  match inbox with
  | [] => if num_episodes st <? next_update_episodes then None
          else Some (st, [])
  | req :: inbox' =>
      if num_episodes st <? next_update_episodes
      then match serve a st req with
           | None => None
           | Some (st', _) => server_until a next_update_episodes st' inbox'
           end
      else Some (st, inbox)
  end.

(** [Learner.server], observed for as many passes of [while True] as
    there are entries in [pollss]; entry [k] lists what the training
    thread reports to the [k]-th call of [self.update()]. *)
Fixpoint server_from (a : args) (prev_update_episodes : Z) (st : learner)
    (inbox : list request) (pollss : list (list (option model * Z)))
  : option (learner * list request) :=
  match pollss with
  | [] => Some (st, inbox)
  | polls :: pollss' =>
      let next_update_episodes := prev_update_episodes + update_episodes a in
      match server_until a next_update_episodes st inbox with
      | None => None
      | Some (st1, inbox1) =>
          match update a st1 polls with
          | None => None
          | Some (st2, _) =>
              server_from a next_update_episodes st2 inbox1 pollss'
          end
      end
  end.

Definition server (a : args) (st : learner) (inbox : list request)
    (pollss : list (list (option model * Z)))
  : option (learner * list request) :=
  server_from a (minimum_episodes a) st inbox pollss.

(** The number of [self.update()] calls in a run. *)
Fixpoint updates (evs : list event) : Z :=
  match evs with
  | [] => 0
  | Request _ :: evs' => updates evs'
  | Update _ :: evs' => 1 + updates evs'
  end.

(** [Learner.__init__]: era 0 with the [RandomModel], nothing generated
    or evaluated yet, an empty deque; [files0] is whatever the models
    directory holds at start-up. *)
Definition init (random_model : model) (files0 : gmap string state_dict)
  : learner :=
  Learner_ 0 random_model 0 ∅ 0 [] files0.

(** Every histogram kept in [self.results] has an entry, and every
    count in it is positive. *)
Definition results_ok (results : gmap Z (gmap Z Z)) : Prop :=
  forall model_id distribution,
    results !! model_id = Some distribution ->
    distribution <> ∅ /\
    forall r cnt, distribution !! r = Some cnt -> 0 < cnt.

End WithModel.
End Learner.

(** ** The random source

    [random.randrange] and [random.random] read and advance the state of
    Python's generator; the state is passed explicitly. *)

Class PyRandom (rng : Type) := {
  randrange : Z -> rng -> option (Z * rng);
  random : rng -> Q * rng
}.

(** The contract of the [random] module: [randrange(n)] raises
    [ValueError] unless [n] is positive and otherwise returns an index
    below [n], and [random()] returns a float in the half-open unit
    interval. *)
Class PyRandomLaws (rng : Type) `{PyRandom rng} : Prop := {
  randrange_some : forall n g,
    0 < n -> exists r g', randrange n g = Some (r, g') /\ 0 <= r < n;
  randrange_none : forall n g, n <= 0 -> randrange n g = None;
  random_unit : forall g, (0 <= (random g).1)%Q /\ ((random g).1 < 1)%Q
}.

(** A generator for examples: a counter, read modulo the range, and
    read in tenths for [random()]. *)
Module Counter.

Definition randrange (n : Z) (g : Z) : option (Z * Z) :=
  if 0 <? n then Some (g `mod` n, g + 1) else None.

Definition random (g : Z) : Q * Z := ((g `mod` 10) # 10, g + 1).

#[global] Instance counter_random : PyRandom Z :=
  Build_PyRandom Z randrange random.

End Counter.

(** ** Recency-biased sampling: [Batcher.select_episode] *)

Module Sampler.
Section WithRandom.

Context {episode rng : Type} `{PyRandom rng}.

(** [1 - (len(self.episodes) - 1 - ep_idx) / self.args['maximum_episodes']] *)
Definition accept_rate (n maximum_episodes ep_idx : Z) : Q :=
  (1 - inject_Z (n - 1 - ep_idx) / inject_Z maximum_episodes)%Q.

(** One pass of [while True]: the drawn index, whether it was accepted,
    and the generator afterwards; [None] when [randrange] raises. *)
Definition draw (episodes : list episode) (maximum_episodes : Z) (g : rng)
  : option (Z * bool * rng) :=
  match randrange (Z.min (Py.len episodes) maximum_episodes) g with
  | None => None
  | Some (ep_idx, g1) =>
      let rate := accept_rate (Py.len episodes) maximum_episodes ep_idx in
      let '(u, g2) := random g1 in
      Some (ep_idx, if Qlt_le_dec u rate then true else false, g2)
  end.

(** [select_episode], cut off after [fuel] draws: [None] when a call
    raised or when no draw has been accepted yet. *)
Fixpoint select_episode (fuel : nat) (episodes : list episode)
    (maximum_episodes : Z) (g : rng) : option (episode * rng) :=
  match fuel with
  | O => None
  | S fuel' =>
      match draw episodes maximum_episodes g with
      | None => None
      | Some (ep_idx, true, g') =>
          match Py.index episodes ep_idx with
          | Some ep => Some (ep, g')
          | None => None
          end
      | Some (_, false, g') =>
          select_episode fuel' episodes maximum_episodes g'
      end
  end.

(** Of the [k * maximum_episodes] equally spaced values
    [j / (k * maximum_episodes)] in the unit interval, those that pass
    the test [random.random() < accept_rate]. *)
Definition accepted_grid (n maximum_episodes ep_idx k : Z) : list Z :=
  filter (fun j => (if Qlt_le_dec (inject_Z j / inject_Z (k * maximum_episodes))
                                  (accept_rate n maximum_episodes ep_idx)
                    then true else false) = true)
         (Py.range 0 (k * maximum_episodes)).

End WithRandom.
End Sampler.

(** ** Off-policy correction: [vtrace_base] and [vtrace]

    A tensor of shape [(T, B, P)] is a list over time of lists over the
    batch of rows over the last axis.  Arithmetic is elementwise with
    torch's broadcasting: an axis of size 1 is stretched along the other
    operand.  Shapes torch rejects are outside the model ([bzip] then
    works on the common prefix); the theorems assume the shapes
    [make_batch] produces.  The transcendental functions [torch.exp] and
    [F.log_softmax] are parameters. *)

Module VTrace.

Abbreviation row := (list Q).
Abbreviation slice := (list (list Q)).
Abbreviation tensor := (list (list (list Q))).

(** One axis of a broadcast binary operation. *)
Definition bzip {A B C} (f : A -> B -> C) (xs : list A) (ys : list B)
  : list C :=
  match xs, ys with
  | [x], _ => f x <$> ys
  | _, [y] => (fun x => f x y) <$> xs
  | _, _ => zip_with f xs ys
  end.

Definition sadd : slice -> slice -> slice := bzip (bzip Qplus).
Definition ssub : slice -> slice -> slice := bzip (bzip Qminus).
Definition smul : slice -> slice -> slice := bzip (bzip Qmult).
(** [q * s] for a Python float [q]. *)
Definition sscale (q : Q) (s : slice) : slice :=
  (fun r : row => Qmult q <$> r) <$> s.

Definition tadd : tensor -> tensor -> tensor := bzip sadd.
Definition tsub : tensor -> tensor -> tensor := bzip ssub.
Definition tmul : tensor -> tensor -> tensor := bzip smul.
Definition tmap (f : Q -> Q) (t : tensor) : tensor :=
  (fun s : slice => (fun r : row => f <$> r) <$> s) <$> t.

(** [t.sum(-1, keepdim=True)] *)
Definition sum_last (t : tensor) : tensor :=
  (fun s : slice => (fun r : row => [foldr Qplus 0%Q r]) <$> s) <$> t.

(** [torch.clamp(x, lo, hi)] on one entry. *)
Definition clamp (lo hi x : Q) : Q :=
  if Qlt_le_dec x lo then lo else if Qlt_le_dec hi x then hi else x.

(** [t.gather(-1, index)]: an index outside the last axis raises. *)
Definition gather_row (r : row) (idx : list Z) : option row :=
  mapM (fun a => if a <? 0 then None else r !! Z.to_nat a) idx.

Definition gather (t : tensor) (index : list (list (list Z)))
  : option tensor :=
  mapM (fun si => mapM (fun ri => gather_row ri.1 ri.2) (zip si.1 si.2))
       (zip t index).

(** [t.size(2)] *)
Definition size2 (t : tensor) : Z := Py.len (hd [] (hd [] t)).

(** [-torch.stack([v[:, :, 1], v[:, :, 0]], dim=-1)] *)
Definition opponent (t : tensor) : tensor :=
  (fun s : slice => (fun r : row => [(- nth 1 r 0)%Q; (- nth 0 r 0)%Q]) <$> s)
    <$> t.

(** The fields of the batch read by [vtrace_base] and [vtrace]. *)
Record batch := Batch {
  action : list (list (list Z));   (* (T, B, 1) *)
  tmask : tensor;                  (* (T, B, P) *)
  vmask : tensor;                  (* (T, B, P) *)
  policy : tensor;                 (* (T, B, A) *)
  returns : tensor                 (* batch['return'], (1, B, P) *)
}.

(** What [vtrace_base] hands to [vtrace], without the two tensors that
    still carry gradients. *)
Record base := Base {
  log_selected_t_policies : tensor;
  values_nograd : tensor;
  clipped_rhos : tensor;
  cs : tensor
}.

Section WithTorch.

Variable exp : Q -> Q.
Variable log_softmax : row -> row.

(** [F.log_softmax(t, dim=-1)] *)
Definition softmax_last (t : tensor) : tensor :=
  (fun s : slice => log_softmax <$> s) <$> t.

(** [vtrace_base]; [t_policies] and [t_values] are the results of
    [forward_prediction], [observation] is [args['observation']]. *)
Definition vtrace_base (observation : bool) (b : batch)
    (t_policies t_values : tensor) : option base :=
  let gmasks := sum_last (tmask b) in
  let clip_rho_threshold := 1%Q in
  let clip_c_threshold := 1%Q in
  b_sel ← gather (softmax_last (policy b)) (action b);
  t_sel ← gather (softmax_last t_policies) (action b);
  let log_selected_b_policies := tmul b_sel gmasks in
  let log_selected_t_policies := tmul t_sel gmasks in
  let log_rhos := tsub log_selected_t_policies log_selected_b_policies in
  let rhos := tmap exp log_rhos in
  let clipped_rhos := tmap (clamp 0 clip_rho_threshold) rhos in
  let cs := tmap (clamp 0 clip_c_threshold) rhos in
  let values_nograd := t_values in
  let values_nograd :=
    if size2 values_nograd =? 2
    then
      let values_nograd_opponent := opponent values_nograd in
      if observation
      then tmap (fun x => x / 2)%Q (tadd values_nograd values_nograd_opponent)
      else tadd values_nograd values_nograd_opponent
    else values_nograd in
  let values_nograd :=
    tadd (tmul values_nograd gmasks)
         (tmul (returns b) (tmap (fun g => 1 - g)%Q gmasks)) in
  Some (Base log_selected_t_policies values_nograd clipped_rhos cs).

(** The body of the TD0 loop, [appendleft(deltas[i] + cs[i] * xs[0])]. *)
Definition td0_step (deltas cs : tensor) (xs : option (list slice)) (i : Z)
  : option (list slice) :=
  xs ← xs;
  d ← Py.index deltas i;
  c ← Py.index cs i;
  x0 ← Py.index xs 0;
  Some (sadd d (smul c x0) :: xs).

(** The body of the TDLAMBDA loop,
    [appendleft((1 - lmb) * values_nograd[i] + lmb * lambda_returns[0])]. *)
Definition lambda_step (lmb : Q) (values_nograd : tensor)
    (xs : option (list slice)) (i : Z) : option (list slice) :=
  xs ← xs;
  v ← Py.index values_nograd i;
  x0 ← Py.index xs 0;
  Some (sadd (sscale (1 - lmb) v) (sscale lmb x0) :: xs).

(** [vtrace] up to its call of [compose_losses]: the [value_targets]
    and [advantages] passed on.  [ret] is [args['return']]; with any
    other string the two names are unbound at the call. *)
Definition vtrace (ret : string) (observation : bool) (b : batch)
    (t_policies t_values : tensor) : option (tensor * tensor) :=
  '(Base _ values_nograd clipped_rhos cs) ←
    vtrace_base observation b t_policies t_values;
  let returns := returns b in
  let time_length := Py.len (vmask b) in
  if decide (ret = "MC") then
    let value_targets := returns in
    let advantages := tmul clipped_rhos (tsub returns values_nograd) in
    Some (value_targets, advantages)
  else if decide (ret = "TD0") then
    let values_t_plus_1 := drop 1 values_nograd ++ returns in
    let deltas := tmul clipped_rhos (tsub values_t_plus_1 values_nograd) in
    d_last ← Py.index deltas (-1);
    vs_minus_v_xs ←
      foldl (td0_step deltas cs) (Some [d_last])
            (Py.range_down (time_length - 2) (-1));
    let vs := tadd vs_minus_v_xs values_nograd in
    let value_targets := vs in
    let vs_t_plus_1 := drop 1 vs ++ returns in
    let advantages := tmul clipped_rhos (tsub vs_t_plus_1 values_nograd) in
    Some (value_targets, advantages)
  else if decide (ret = "TDLAMBDA") then
    let lmb := (7 # 10)%Q in
    r_last ← Py.index returns (-1);
    lambda_returns ←
      foldl (lambda_step lmb values_nograd) (Some [r_last])
            (Py.range_down (time_length - 1) 0);
    let value_targets := lambda_returns in
    let advantages := tmul clipped_rhos (tsub value_targets values_nograd) in
    Some (value_targets, advantages)
  else None.

End WithTorch.

(** The batch has the shapes [make_batch] and [forward_prediction]
    produce, and every action indexes the policy axis. *)
Definition shaped {X} (T B P : nat) (t : list (list (list X))) : Prop :=
  length t = T /\
  Forall (fun s => length s = B /\ Forall (fun r => length r = P) s) t.

Definition batch_ok (T B P A : nat) (b : batch) (t_policies t_values : tensor)
  : Prop :=
  shaped T B 1 (action b) /\
  Forall (Forall (Forall (fun a => 0 <= a < Z.of_nat A))) (action b) /\
  shaped T B P (tmask b) /\ shaped T B P (vmask b) /\
  shaped T B A (policy b) /\ shaped 1 B P (returns b) /\
  shaped T B A t_policies /\ shaped T B P t_values.

(** The recursions in the words of the specification. *)

(** [vs[T-1] = delta[T-1]] and [vs[t] = delta[t] + c[t] * vs[t+1]]. *)
Fixpoint td0_rec (deltas cs : list slice) : list slice :=
  match deltas with
  | [] => []
  | d :: deltas' =>
      match td0_rec deltas' (tail cs) with
      | [] => [d]
      | x :: rest => sadd d (smul (hd [] cs) x) :: x :: rest
      end
  end.

(** [target[T-1] = last] and
    [target[t] = (1 - lmb) * v[t+1] + lmb * target[t+1]], where [later]
    lists [v[1], ..., v[T-1]]. *)
Fixpoint lambda_rec (lmb : Q) (later : list slice) (last : slice)
  : list slice :=
  match later with
  | [] => [last]
  | v :: later' =>
      let rest := lambda_rec lmb later' last in
      sadd (sscale (1 - lmb) v) (sscale lmb (hd [] rest)) :: rest
  end.

End VTrace.

(** ** Shapes of numpy arrays

    [np.array(x)] on a sequence [x] stacks its entries along a new
    first axis.  The entries must be arrays of one shape: with entries
    of different shapes [np.array] raises [ValueError] (older versions
    of numpy build an array of objects, which the calls that follow
    refuse).  [shape] is the shape numpy finds, [None] where it finds
    none. *)

Module Np.

Class Shaped (X : Type) := shape : X -> option (list nat).

(** A number is an array without axes. *)
#[global] Instance shaped_Q : Shaped Q := fun _ => Some [].

#[global] Instance shaped_Z : Shaped Z := fun _ => Some [].

(** A sequence of [n] arrays of shape [s] is an array of shape
    [(n, *s)]; the empty sequence is an array of shape [(0,)]. *)
#[global] Instance shaped_list {X} `{Shaped X} : Shaped (list X) :=
  fun l =>
    match l with
    | [] => Some [0%nat]
    | x :: l' =>
        match shape x with
        | Some s =>
            if forallb (fun y => bool_decide (shape y = Some s)) l'
            then Some (length l :: s)
            else None
        | None => None
        end
    end.

End Np.

(** ** Batch assembly: [make_batch]

    Episodes are taken as already decompressed.  An observation
    component is a numpy array of an opaque type [arr] with
    [np.zeros_like] and a shape; all other arrays are lists of
    numbers. *)

Module MakeBatch.

Record args := Args {
  forward_steps : Z;
  observation_mode : bool          (* args['observation'] *)
}.

(** Row [i] of [np.eye(n)], with numpy's negative indices; an index
    outside [-n .. n-1] raises [IndexError]. *)
Definition eye_row (n : nat) (i : Z) : option (list Q) :=
  if (i <? - Z.of_nat n) || (Z.of_nat n <=? i) then None
  else
    let k := if i <? 0 then i + Z.of_nat n else i in
    Some ((fun j : nat => if decide (Z.of_nat j = k) then 1%Q else 0%Q)
            <$> seq 0 n).

(** [np.pad(a, [(0, pad_len), (0, 0)], 'constant', constant_values=c)]
    on an array of rows. *)
Definition pad_rows {X} (pad_len : nat) (c : X) (a : list (list X))
  : list (list X) :=
  a ++ replicate pad_len (replicate (length (hd [] a)) c).

(** [np.swapaxes(a, 0, 1)] on an array given by its rows, which are of
    one length: the first two axes are exchanged. *)
Definition swapaxes {X} (rows : list (list X)) : option (list (list X)) :=
  let n := length (hd [] rows) in
  if forallb (fun r => Nat.eqb (length r) n) rows
  then mapM (fun t : nat => mapM (fun r : list X => r !! t) rows) (seq 0 n)
  else None.

(** [to_torch(x, transpose)] of [model.py] on a sequence [x] of arrays.
    [a = np.array(x)] raises unless the entries of [x] are arrays of
    one shape, in all their axes; [np.swapaxes(a, 0, 1)] needs an array
    of two axes at least.  The tensor made of [a] is kept as the nested
    list of its entries. *)
Definition to_torch {X} `{Np.Shaped X} (x : list (list X))
    (transpose : bool) : option (list (list X)) :=
  match Np.shape x with
  | None => None
  | Some s =>
      if transpose
      then match s with
           | _ :: _ :: _ => swapaxes x
           | _ => None
           end
      else Some x
  end.

(** Python's [zip] applied to the unpacked rows: the columns, as many
    as the shortest row has. *)
Definition zip_star {X} (rows : list (list X)) : list (list X) :=
  match rows with
  | [] => []
  | r :: rows' =>
      let n := foldr Nat.min (length r) (length <$> rows') in
      (fun i : nat => omap (fun r : list X => r !! i) rows) <$> seq 0 n
  end.

Section WithArray.

Context {arr rng : Type} `{PyRandom rng} `{Np.Shaped arr}.
Variable zeros_like : arr -> arr.

Record episode := Episode {
  observation : gmap Z (list (option (list arr)));
  value : gmap Z (list (option Q));
  turn : list Z;
  pmask : list (list Q);
  action : list Z;
  policy : list (list Q);
  reward : list Q
}.

(** One entry of [datum]. *)
Record datum := Datum {
  obs : list (list (list arr));    (* component, step, player *)
  tmsk : list (list Q);
  pmsk : list (list Q);
  vmsk : list (list Q);
  act : list (list Z);
  p : list (list Q);
  v : list (list Q);
  ret : list (list Q);
  progress : list Q
}.

(** [sorted([player for player in ep['value'].keys() if player >= 0])] *)
Definition players (ep : episode) : list Z :=
  merge_sort Z.le (filter (fun player => 0 <= player)
                          (map_to_list (value ep)).*1).

(** [ep['observation'][player][t]] *)
Definition observation_at (ep : episode) (player t : Z)
  : option (option (list arr)) :=
  l ← observation ep !! player; Py.index l t.

(** The transposed observation of the full-observation mode. *)
Definition obs_full (ep : episode) (st ed : Z) (obs_zeros : list arr)
  : option (list (list (list arr))) :=
  mapM (fun i : nat =>
          mapM (fun t =>
                  mapM (fun player =>
                          o ← observation_at ep player t;
                          match o with
                          | Some tuple => tuple !! i
                          | None => obs_zeros !! i
                          end)
                       (players ep))
               (Py.range st ed))
       (seq 0 (length obs_zeros)).

(** The turn player's observation of the turn-only mode. *)
Definition obs_turn (ep : episode) (st ed : Z) (obs_sample : list arr)
  : option (list (list (list arr))) :=
  mapM (fun i : nat =>
          mapM (fun t =>
                  player ← Py.index (turn ep) t;
                  o ← observation_at ep player t;
                  tuple ← o;
                  x ← tuple !! i;
                  Some [x])
               (Py.range st ed))
       (seq 0 (length obs_sample)).

(** [[[ep['value'][player][t] or 0 for player in players]
      for t in range(st, ed)]] *)
Definition values (ep : episode) (st ed : Z) : option (list (list Q)) :=
  mapM (fun t =>
          mapM (fun player =>
                  l ← value ep !! player;
                  x ← Py.index l t;
                  Some (default 0%Q x))
               (players ep))
       (Py.range st ed).

(** The body of [for ep in episodes]: the entry appended to [datum]. *)
Definition window (a : args) (ep : episode) (g : rng)
  : option (datum * rng) :=
  let steps := forward_steps a in
  let ep_train_length := Py.len (turn ep) in
  let turn_candidates := 1 + Z.max 0 (ep_train_length - forward_steps a) in
  '(st, g') ← randrange turn_candidates g;
  let ed := Z.min (st + steps) (Py.len (turn ep)) in
  player_st ← Py.index (turn ep) st;
  o ← observation_at ep player_st st;
  obs_sample ← o;
  obs ← (if observation_mode a
         then obs_full ep st ed (zeros_like <$> obs_sample)
         else obs_turn ep st ed obs_sample);
  v ← values ep st ed;
  tmsk ← mapM (eye_row (length (players ep))) (Py.slice (turn ep) st ed);
  let pmsk := Py.slice (pmask ep) st ed in
  let vmsk :=
    if observation_mode a then (fun r : list Q => (fun _ => 1%Q) <$> r) <$> tmsk
    else tmsk in
  let act := (fun x => [x]) <$> Py.slice (action ep) st ed in
  let p := Py.slice (policy ep) st ed in
  let progress :=
    (fun t => inject_Z t / inject_Z (Py.len (turn ep)))%Q <$> Py.range st ed in
  let traj_steps := Py.len tmsk in
  let ret := [reward ep] in
  if traj_steps <? steps then
    let pad_len := Z.to_nat (steps - traj_steps) in
    if decide (length (reward ep) = length (players ep)) then
      Some (Datum
              (zip_with (fun o s =>
                           o ++ replicate pad_len
                                  (replicate (length (hd [] o)) (zeros_like s)))
                        obs obs_sample)
              (pad_rows pad_len 0%Q tmsk)
              (pad_rows pad_len (100000000000000000000000000000000 # 1)%Q pmsk)
              (pad_rows pad_len 0%Q vmsk)
              (pad_rows pad_len 0 act)
              (pad_rows pad_len 0%Q p)
              (v ++ replicate pad_len (reward ep))
              ret
              (progress ++ replicate pad_len 1%Q),
            g')
    else None
  else Some (Datum obs tmsk pmsk vmsk act p v ret progress, g').

(** [for ep in episodes], threading the generator. *)
Fixpoint windows (a : args) (episodes : list episode) (g : rng)
  : option (list datum * rng) :=
  match episodes with
  | [] => Some ([], g)
  | ep :: episodes' =>
      '(d, g') ← window a ep g;
      '(ds, g'') ← windows a episodes' g';
      Some (d :: ds, g'')
  end.

(** The time-major batch. *)
Record batch := Batch {
  b_observation : list (list (list (list arr)));
  b_tmask : list (list (list Q));
  b_pmask : list (list (list Q));
  b_vmask : list (list (list Q));
  b_action : list (list (list Z));
  b_policy : list (list (list Q));
  b_value : list (list (list Q));
  b_return : list (list (list Q));
  b_progress : list (list Q)
}.

(** [make_batch]; unpacking the zipped [datum] needs at least one
    episode. *)
Definition make_batch (a : args) (episodes : list episode) (g : rng)
  : option (batch * rng) :=
  '(ds, g') ← windows a episodes g;
  if decide (ds = []) then None else
  o ← mapM (fun o => to_torch o true) (zip_star (obs <$> ds));
  tm ← to_torch (tmsk <$> ds) true;
  pm ← to_torch (pmsk <$> ds) true;
  vm ← to_torch (vmsk <$> ds) true;
  ac ← to_torch (act <$> ds) true;
  po ← to_torch (p <$> ds) true;
  va ← to_torch (v <$> ds) true;
  re ← to_torch (ret <$> ds) true;
  pr ← to_torch (progress <$> ds) true;
  Some (Batch o tm pm vm ac po va re pr, g').

(** The episode invariant of the data model: every per-step array has
    one entry per turn, the turn player is a player and has an
    observation, observations have [n_obs] components, and there is one
    final reward per player. *)
Definition episode_ok (n_obs : nat) (ep : episode) : Prop :=
  let L := length (turn ep) in
  let P := length (players ep) in
  length (pmask ep) = L /\ length (action ep) = L /\
  length (policy ep) = L /\ length (reward ep) = P /\
  Forall (fun player => 0 <= player < Z.of_nat P /\ player ∈ players ep)
         (turn ep) /\
  (forall player, player ∈ players ep ->
     exists vs os, value ep !! player = Some vs /\ length vs = L /\
                   observation ep !! player = Some os /\ length os = L /\
                   Forall (fun o => forall tuple, o = Some tuple ->
                                                  length tuple = n_obs) os) /\
  (forall (t : nat) player,
     turn ep !! t = Some player ->
     exists tuple, observation_at ep player (Z.of_nat t) = Some (Some tuple)).

(** Episodes of one game, as stacking their windows needs them: the
    same number of players, action masks and policies of one width,
    and observation components of fixed shapes. *)
Definition episode_uniform (n_players n_actions : nat)
    (obs_shapes : list (list nat)) (ep : episode) : Prop :=
  length (players ep) = n_players /\
  Forall (fun r => length r = n_actions) (pmask ep) /\
  Forall (fun r => length r = n_actions) (policy ep) /\
  (forall player os,
     player ∈ players ep -> observation ep !! player = Some os ->
     Forall (fun o => forall tuple, o = Some tuple ->
               Forall2 (fun x s => Np.shape x = Some s) tuple obs_shapes)
            os).

(** The shapes of the arrays of a window: [T] steps of [P] players or
    [A] actions, and [T] steps of observations of [P] players, or of
    the turn player alone. *)
Definition datum_shaped (a : args) (n_players n_actions : nat)
    (obs_shapes : list (list nat)) (d : datum) : Prop :=
  let T := Z.to_nat (forward_steps a) in
  let W := if observation_mode a then n_players else 1%nat in
  Np.shape (tmsk d) = Some [T; n_players] /\
  Np.shape (pmsk d) = Some [T; n_actions] /\
  Np.shape (vmsk d) = Some [T; n_players] /\
  Np.shape (act d) = Some [T; 1%nat] /\
  Np.shape (p d) = Some [T; n_actions] /\
  Np.shape (v d) = Some [T; n_players] /\
  Np.shape (ret d) = Some [1%nat; n_players] /\
  Np.shape (progress d) = Some [T] /\
  Forall2 (fun c s => Np.shape c = Some (T :: W :: s)) (obs d) obs_shapes.

(** Every per-step array of a window has [forward_steps] steps. *)
Definition window_shape (a : args) (n_obs : nat) (d : datum) : Prop :=
  let n := Z.to_nat (forward_steps a) in
  length (tmsk d) = n /\ length (pmsk d) = n /\
  length (vmsk d) = n /\ length (act d) = n /\
  length (p d) = n /\ length (v d) = n /\
  length (progress d) = n /\
  length (obs d) = n_obs /\
  Forall (fun c => length c = n) (obs d) /\
  length (ret d) = 1%nat.

End WithArray.
End MakeBatch.

(** A two-step batch with one episode, one player and one action.
    With a single action [log_softmax] is exactly zero, so the two
    policies agree and [exp] is only applied to zero, where it is 1. *)
Module Fixture.

Definition log_softmax (r : VTrace.row) : VTrace.row := (fun _ => 0%Q) <$> r.

Definition exp (x : Q) : Q := (1 + x)%Q.

Definition b2 : VTrace.batch :=
  VTrace.Batch [[[0]]; [[0]]]
               [[[1%Q]]; [[1%Q]]]
               [[[1%Q]]; [[1%Q]]]
               [[[0%Q]]; [[0%Q]]]
               [[[0%Q]]].

Definition t_policies : VTrace.tensor := [[[0%Q]]; [[0%Q]]].
Definition t_values : VTrace.tensor := [[[0%Q]]; [[1%Q]]].

End Fixture.

(** A two-turn episode of a two-player game, windowed with
    [forward_steps = 3]: one padded step. *)
Module WindowFixture.

Definition ep : @MakeBatch.episode Z :=
  MakeBatch.Episode
    {[ 0 := [Some [5]; None]; 1 := [None; Some [6]] ]}
    {[ 0 := [Some (1 # 2)%Q; None]; 1 := [None; Some (- (1 # 2))%Q] ]}
    [0; 1]
    [[0%Q; 0%Q]; [0%Q; 0%Q]]
    [1; 0]
    [[0%Q; 0%Q]; [0%Q; 0%Q]]
    [1%Q; (-1)%Q].

Definition a : MakeBatch.args := MakeBatch.Args 3 false.

(** A two-turn episode of a game for one player. *)
Definition ep1 : @MakeBatch.episode Z :=
  MakeBatch.Episode
    {[ 0 := [Some [5]; Some [6]] ]}
    {[ 0 := [Some (1 # 2)%Q; None] ]}
    [0; 0]
    [[0%Q; 0%Q]; [0%Q; 0%Q]]
    [1; 0]
    [[0%Q; 0%Q]; [0%Q; 0%Q]]
    [1%Q].

End WindowFixture.

(** ** Reading the coordinator's state *)

Module Coordinator.

(** [self.results[model_id][reward]], zero where a key is missing. *)
Definition count_of (results : gmap Z (gmap Z Z)) (model_id reward : Z) : Z :=
  default 0 (results !! model_id ≫= fun distribution => distribution !! reward).

(** How often [(model_id, reward)] is reported in the payload of a
    result request. *)
Definition occurrences (data : list (Z * option Z)) (model_id reward : Z)
  : Z :=
  Py.len (filter (fun r => r = (model_id, Some reward)) data).

Section WithModel.

Context {model episode : Type}.

(** Whether the payload of a request came as a list, and how many
    items it holds. *)
Definition is_multi (req : @Learner.request episode) : bool :=
  match req with
  | Learner.Gargs multi _ | Learner.Eargs multi _
  | Learner.Episodes multi _ | Learner.Results multi _
  | Learner.Models multi _ => multi
  end.

Definition payload_length (req : @Learner.request episode) : nat :=
  match req with
  | Learner.Gargs _ count | Learner.Eargs _ count => count
  | Learner.Episodes _ data => length data
  | Learner.Results _ data => length data
  | Learner.Models _ data => length data
  end.

(** The items of a reply. *)
Definition reply_items (rep : @Learner.reply model) : list Learner.item :=
  match rep with
  | Learner.One x => [x]
  | Learner.Many xs => xs
  end.

End WithModel.
End Coordinator.

(** ** Loading a saved model: [model.load_state_dict(torch.load(path))]

    Inside the [try] of a [model] request the call either returns, and
    the network then holds the state dict it was given, or raises and
    leaves the network in some state: unchanged when the keys of the
    state dict are not those of the network, as with the state dict of
    the parameterless [RandomModel] and a network that has parameters.
    Either way the request sends the network. *)

Module Loader.
Section WithModel.

Context {model state_dict : Type}.

Record attempt := Attempt {
  network : model;               (* the object after the call *)
  raised : bool                  (* whether the call raised *)
}.

Variable get_state_dict : model -> state_dict.
Variable try_load : model -> state_dict -> attempt.

(** The object [m] after [m.load_state_dict(sd)], whether or not the
    call raised. *)
Definition load_state_dict (m : model) (sd : state_dict) : model :=
  network (try_load m sd).

(** The contract of [torch.nn.Module.load_state_dict]: after a call
    that returns, given the state dict of a model, [state_dict()] is
    that state dict. *)
Definition installs : Prop :=
  forall m saved,
    raised (try_load m (get_state_dict saved)) = false ->
    get_state_dict (network (try_load m (get_state_dict saved)))
    = get_state_dict saved.

End WithModel.
End Loader.

(** A network whose state dict is the list of its parameters: a state
    dict with another number of entries is refused, and the network
    stays as it was. *)
Module LoaderFixture.

Definition try_load (m sd : list Z) : @Loader.attempt (list Z) :=
  if decide (length sd = length m)
  then Loader.Attempt sd false
  else Loader.Attempt m true.

End LoaderFixture.

(** ** The balance kept by the registration loop *)

Module EntryBalance.

(** No generator is issued before two evaluators. *)
Definition two_first (st : Entry.state) : Prop :=
  1 <= Py.len (Entry.total_gids st) -> 2 <= Py.len (Entry.total_eids st).

(** With an [int] rate [r], [G] generators and [E] evaluators issued so
    far: the evaluators are at most two ahead of [G * r], and every
    generator was issued when the evaluators were more than one ahead
    of [r] times the generators before it. *)
Definition balanced (r : Z) (st : Entry.state) : Prop :=
  let G := Py.len (Entry.total_gids st) in
  let E := Py.len (Entry.total_eids st) in
  E <= G * r + 2 /\ (1 <= G -> (G - 1) * r + 1 < E).

End EntryBalance.

(** ** The hand-over between the threads: [Trainer.update],
       [Trainer.report_update] and [Trainer.recheck_update]

    The server thread raises [update_flag] and polls; the training
    thread lowers it when it reports a model.  Both methods that touch
    the pair hold [self.lock], so each is one step. *)

Module Trainer.
Section WithModel.

Context {model episode : Type}.

Record state := State {
  update_flag : bool;
  updated_model : option model * Z
}.

(** [self.updated_model = None, 0] and [self.update_flag = False] of
    [Trainer.__init__]. *)
Definition init : state := State false (None, 0).

(** [Trainer.report_update] *)
Definition report_update (st : state) (m : option model) (steps : Z)
  : state :=
  State false (m, steps).

(** [Trainer.recheck_update] *)
Definition recheck_update (st : state) : option model * Z :=
  if update_flag st then (None, -1) else updated_model st.

(** What the training thread does during one [time.sleep(0.1)] of the
    server thread: the calls of [report_update] it makes, in order. *)
Definition reports (st : state) (rs : list (option model * Z)) : state :=
  foldl (fun s r => report_update s r.1 r.2) st rs.

(** The loop of [Trainer.update].  Entry [k] of [schedule] lists the
    reports made during the [k]-th sleep; running out of entries means
    the loop is still polling. *)
Fixpoint poll (st : state) (schedule : list (list (option model * Z)))
  : option (model * Z * state) :=
  match schedule with
  | [] => None
  | rs :: schedule' =>
      let st' := reports st rs in
      match recheck_update st' with
      | (Some m, steps) => Some (m, steps, st')
      | (None, _) => poll st' schedule'
      end
  end.

(** [Trainer.update]: the pair returned and the state left behind. *)
Definition update (a : Learner.args) (eps : list episode) (st : state)
    (schedule : list (list (option model * Z)))
  : option (option model * Z * state) :=
  if Py.len eps <? Learner.minimum_episodes a
  then Some (None, 0, st)
  else
    let st := State true (updated_model st) in
    match poll st schedule with
    | Some (m, steps, st') => Some (Some m, steps, st')
    | None => None
    end.

(** What the successive calls of [recheck_update] return under a
    schedule. *)
Fixpoint rechecks (st : state) (schedule : list (list (option model * Z)))
  : list (option model * Z) :=
  match schedule with
  | [] => []
  | rs :: schedule' =>
      let st' := reports st rs in
      recheck_update st' :: rechecks st' schedule'
  end.

End WithModel.
End Trainer.

(** ** The training loop: [Trainer.train]

    What the loop takes from outside is given explicitly: [flag k] is the
    value of [self.update_flag or self.shutdown_flag] at the [k]-th
    evaluation of the loop test, and each batch stands for the losses
    and the count of training data [vtrace] returns for it.  The
    numbers printed are kept by key. *)

Module TrainLoop.

Record batch_result := BatchResult {
  losses : list (string * Q);      (* losses.items(), after .item() *)
  dcnt : Q
}.

Record locals := Locals {
  batch_cnt : Z;
  data_cnt : Q;
  loss_sum : gmap string Q;
  steps : Z                        (* self.steps *)
}.

(** [loss_sum[k] = loss_sum.get(k, 0.0) + l.item()] *)
Definition add_loss (loss_sum : gmap string Q) (kl : string * Q)
  : gmap string Q :=
  <[kl.1 := (default 0 (loss_sum !! kl.1) + kl.2)%Q]> loss_sum.

(** The body of the loop, from the result of [vtrace] on. *)
Definition body (c : locals) (b : batch_result) : locals :=
  Locals (batch_cnt c + 1) (data_cnt c + dcnt b)%Q
         (foldl add_loss (loss_sum c) (losses b)) (steps c + 1).

(** [while data_cnt == 0 or not (self.update_flag or self.shutdown_flag)];
    [None] while the loop is waiting for its next batch. *)
Fixpoint loop (flag : nat -> bool) (k : nat) (c : locals)
    (batches : list batch_result) : option locals :=
  if Qeq_bool (data_cnt c) 0 || negb (flag k)
  then match batches with
       | [] => None
       | b :: batches' => loop flag (S k) (body c b) batches'
       end
  else Some c.

(** The fields of the trainer that [train] reads and writes. *)
Record trainer := Trainer_ {
  has_optimizer : bool;            (* self.optimizer is not None *)
  defalut_lr : Q;
  data_cnt_ema : Q;
  lr : Q;                          (* param_group['lr'] *)
  trainer_steps : Z
}.

Inductive outcome :=
| Waiting                              (* still in the loop *)
| Raised                               (* ZeroDivisionError *)
| NoParameters                         (* returns None *)
| Returned (tr : trainer) (printed : gmap string Q) (c : locals).

(** [Trainer.train] *)
Definition train (tr : trainer) (flag : nat -> bool)
    (batches : list batch_result) : outcome :=
  if negb (has_optimizer tr) then NoParameters
  else
    match loop flag 0 (Locals 0 0 ∅ (trainer_steps tr)) batches with
    | None => Waiting
    | Some c =>
        if Qeq_bool (data_cnt c) 0 && negb (bool_decide (loss_sum c = ∅))
        then Raised
        else
          let printed := (fun l => l / data_cnt c)%Q <$> loss_sum c in
          let data_cnt_ema :=
            (data_cnt_ema tr * (8 # 10)
             + data_cnt c / ((1 # 100) + inject_Z (batch_cnt c)) * (2 # 10))%Q in
          let lr :=
            (defalut_lr tr * data_cnt_ema
             * (1 + inject_Z (steps c) * (1 # 100000)))%Q in
          Returned (Trainer_ true (defalut_lr tr) data_cnt_ema lr (steps c))
                   printed c
    end.

(** [dcnt] summed over the batches. *)
Definition total (batches : list batch_result) : Q :=
  foldr (fun b s => (dcnt b + s)%Q) 0%Q batches.

End TrainLoop.

(** ** Grouping episodes into batches: the [worker] of [Batcher]

    The worker appends each episode it receives to its local list and
    calls [make_batch] on the list once it holds [batch_size] episodes.
    The model gives the arguments of those calls, in order, and the
    episodes still waiting in the list; a call that raises ends the
    thread, so the list is what is called as long as none does. *)

Module Batcher.

Fixpoint worker {episode : Type} (batch_size : Z)
    (episodes received : list episode) : list (list episode) * list episode :=
  match received with
  | [] => ([], episodes)
  | ep :: received' =>
      let episodes := episodes ++ [ep] in
      if batch_size <=? Py.len episodes
      then
        let '(calls, waiting) := worker batch_size [] received' in
        (episodes :: calls, waiting)
      else worker batch_size episodes received'
  end.

End Batcher.

(** ** Reading a time-major array *)

Module TimeMajor.

(** [n] time steps of [B] entries each. *)
Definition shape {X} (B n : nat) (t : list (list X)) : Prop :=
  length t = n /\ Forall (fun col => length col = B) t.

(** [t[k][bi]] *)
Definition entry {X} (t : list (list X)) (k bi : nat) : option X :=
  t !! k ≫= (fun col : list X => col !! bi).

(** [t[k][bi][j]] *)
Definition entry3 {X} (t : list (list (list X))) (k bi j : nat) : option X :=
  entry t k bi ≫= (fun r : list X => r !! j).

End TimeMajor.

(** ** What holds of the coordinator whatever it has done *)

Module Reachable.
Section WithModel.

Context {model state_dict episode : Type}.

(** The era and the counters are not negative, every era from 1 up to
    the current one has a saved file, the results are well formed, and
    the store respects a non-negative bound. *)
Definition consistent (a : Learner.args)
    (st : @Learner.learner model state_dict episode) : Prop :=
  0 <= Learner.model_era st /\
  0 <= Learner.num_episodes st /\
  0 <= Learner.num_results st /\
  (forall e, 1 <= e <= Learner.model_era st ->
     is_Some (Learner.files st !! Learner.model_path e)) /\
  Learner.results_ok (Learner.results st) /\
  (0 <= Learner.maximum_episodes a ->
   Py.len (Learner.episodes st) <= Learner.maximum_episodes a).

(** Every era from 1 up to the current one has a file, and the file
    holds the state dict of a model, as [update_model] saved it. *)
Definition saved (get_state_dict : model -> state_dict)
    (st : @Learner.learner model state_dict episode) : Prop :=
  forall e, 1 <= e <= Learner.model_era st ->
    exists m,
      Learner.files st !! Learner.model_path e = Some (get_state_dict m).

End WithModel.
End Reachable.

(** A two-step batch of a two-player game with one episode: the first
    step is a turn of player 0, the second step is padding. *)
Module Fixture2.

Definition b : VTrace.batch :=
  VTrace.Batch [[[0]]; [[0]]]
               [[[1%Q; 0%Q]]; [[0%Q; 0%Q]]]
               [[[1%Q; 0%Q]]; [[0%Q; 0%Q]]]
               [[[0%Q]]; [[0%Q]]]
               [[[1%Q; (-1)%Q]]].

Definition t_policies : VTrace.tensor := [[[0%Q]]; [[0%Q]]].
Definition t_values : VTrace.tensor :=
  [[[(1 # 2)%Q; (- (1 # 4))%Q]]; [[(3 # 4)%Q; 0%Q]]].

End Fixture2.

(** ** [softmax] of [model.py]

    The function is applied to a vector of logits; [np.exp] is a
    parameter. *)

Module Model.

(** [np.max(x, axis=-1)] of a vector; an empty one raises
    [ValueError]. *)
Definition max (x : list Q) : option Q :=
  match x with
  | [] => None
  | x0 :: xs => Some (foldl (fun m v => if Qlt_le_dec m v then v else m) x0 xs)
  end.

Section WithExp.

Variable exp : Q -> Q.

(** [x = np.exp(x - np.max(x, axis=-1)); return x / x.sum(axis=-1)] *)
Definition softmax (x : list Q) : option (list Q) :=
  m ← max x;
  let x := (fun v => exp (v - m)) <$> x in
  Some ((fun v => v / foldr Qplus 0 x) <$> x)%Q.

End WithExp.
End Model.

(** ** The training thread: [Trainer.run]

    Each pass of the loop of [run] is given what it reads from outside:
    the number of stored episodes at its test, the flags and batches
    seen by its call of [train], and the copy of the network that call
    returns.  The thread's trace is the list of its calls of
    [report_update] and the number of its calls of
    [self.batcher.run()]. *)

Module TrainerRun.
Section WithModel.

Context {model : Type}.

Record pass := Pass {
  stored : Z;                              (* len(self.episodes) *)
  flag : nat -> bool;
  batches : list TrainLoop.batch_result;
  trained : model                          (* copy.deepcopy(self.model) *)
}.

Record thread := Thread {
  trainer : TrainLoop.trainer;
  reported : list (option model * Z);      (* calls of report_update *)
  batcher_runs : Z                         (* calls of self.batcher.run() *)
}.

(** One pass of [while not self.shutdown_flag]; [None] when [train] has
    not returned. *)
Definition run_pass (minimum_episodes : Z) (th : thread) (p : pass)
  : option thread :=
  if stored p <? minimum_episodes then Some th
  else
    let runs :=
      if TrainLoop.trainer_steps (trainer th) =? 0
      then batcher_runs th + 1 else batcher_runs th in
    match TrainLoop.train (trainer th) (flag p) (batches p) with
    | TrainLoop.Waiting | TrainLoop.Raised => None
    | TrainLoop.NoParameters =>
        Some (Thread (trainer th)
                     (reported th
                        ++ [(None, TrainLoop.trainer_steps (trainer th))])
                     runs)
    | TrainLoop.Returned tr' _ _ =>
        Some (Thread tr'
                     (reported th
                        ++ [(Some (trained p), TrainLoop.trainer_steps tr')])
                     runs)
    end.

Fixpoint run (minimum_episodes : Z) (th : thread) (passes : list pass)
  : option thread :=
  match passes with
  | [] => Some th
  | p :: passes' =>
      match run_pass minimum_episodes th p with
      | None => None
      | Some th' => run minimum_episodes th' passes'
      end
  end.

(** The thread at its start: [self.steps = 0], nothing reported. *)
Definition start (tr : TrainLoop.trainer) : thread :=
  Thread (TrainLoop.Trainer_ (TrainLoop.has_optimizer tr)
                             (TrainLoop.defalut_lr tr)
                             (TrainLoop.data_cnt_ema tr)
                             (TrainLoop.lr tr) 0)
         [] 0.

(** The passes that went on to train. *)
Definition training_passes (minimum_episodes : Z) (passes : list pass)
  : list pass :=
  filter (fun p => minimum_episodes <= stored p) passes.

End WithModel.
End TrainerRun.

(** ** The losses: [compose_losses]

    The entropy of [dist.Categorical(logits=...)] is a parameter; it is
    taken row by row over the last axis.  [progress] has the shape
    [(T, B)]. *)

Module Losses.

(** [.sum()] of a row, of a matrix and of a tensor. *)
Definition rsum (r : VTrace.row) : Q := foldr Qplus 0%Q r.
Definition ssum (s : VTrace.slice) : Q := rsum (rsum <$> s).
Definition tsum (t : VTrace.tensor) : Q := rsum (ssum <$> t).

Record losses := Losses_ {
  p : Q;                           (* losses['p'] *)
  v : Q;                           (* losses['v'] *)
  ent : Q;                         (* losses['ent'] *)
  total : Q                        (* losses['total'] *)
}.

Section WithEntropy.

Variable entropy : VTrace.row -> Q.

(** [dist.Categorical(logits=policies).entropy().mul(tmasks.sum(-1))] *)
Definition masked_entropy (policies tmasks : VTrace.tensor) : VTrace.slice :=
  VTrace.bzip (VTrace.bzip Qmult)
    ((fun s : VTrace.slice => entropy <$> s) <$> policies)
    ((fun s : VTrace.slice => rsum <$> s) <$> tmasks).

(** [compose_losses]: the losses and [dcnt]. *)
Definition compose_losses
    (policies values log_selected_policies advantages value_targets
       tmasks vmasks : VTrace.tensor) (progress : VTrace.slice)
  : losses * Q :=
  let dcnt := tsum tmasks in
  let turn_advantages := VTrace.sum_last (VTrace.tmul advantages tmasks) in
  let p :=
    tsum (VTrace.tmul (VTrace.tmap Qopp log_selected_policies)
                      turn_advantages) in
  let v :=
    (tsum (VTrace.tmul
             (VTrace.tmap (fun x => x ^ 2)%Q
                          (VTrace.tsub values value_targets))
             vmasks) / 2)%Q in
  let entropy := masked_entropy policies tmasks in
  let ent := ssum entropy in
  let total :=
    (p + v
     + ssum (VTrace.bzip (VTrace.bzip Qmult) entropy
               ((fun r : VTrace.row => (fun x => 1 - x * (9 # 10))%Q <$> r)
                  <$> progress))
       * - (3 # 10))%Q in
  (Losses_ p v ent total, dcnt).

End WithEntropy.

End Losses.


(** * Facts *)

(** ** Facts about the sequence helpers *)

Module PyFacts.
Import Py.

Lemma len_nonneg {A} (l : list A) : 0 <= len l.
Proof. unfold len. lia. Qed.

Lemma len_app {A} (l k : list A) : len (l ++ k) = len l + len k.
Proof. unfold len. rewrite length_app. lia. Qed.

Lemma index_nonneg {A} (l : list A) (i : nat) :
  index l (Z.of_nat i) = l !! i.
Proof.
  unfold index. destruct (Z.ltb_spec (Z.of_nat i) 0); [lia|].
  by rewrite Nat2Z.id.
Qed.

Lemma index_last {A} (l : list A) : index l (-1) = last l.
Proof.
  unfold index, len. simpl (-1 <? 0).
  destruct l as [|x l] using rev_ind; [reflexivity|].
  rewrite length_app, last_snoc. simpl length.
  destruct (Z.ltb_spec (Z.of_nat (length l + 1) + -1) 0); [lia|].
  replace (Z.to_nat (Z.of_nat (length l + 1) + -1)) with (length l) by lia.
  by rewrite list_lookup_middle.
Qed.

Lemma length_range_down start stop :
  length (range_down start stop) = Z.to_nat (start - stop).
Proof. unfold range_down. by rewrite length_fmap, length_seq. Qed.

Lemma length_slice {A} (l : list A) (st ed : Z) :
  0 <= st -> st <= ed -> ed <= len l ->
  len (slice l st ed) = ed - st.
Proof.
  unfold slice, len. intros. rewrite length_take, length_drop. lia.
Qed.

End PyFacts.

(** ** Facts about the episode store *)

Module StoreFacts.
Import Store.
Section WithEpisode.

Context {episode : Type}.

Lemma evict_newest (m : Z) (d : list episode) :
  0 <= m -> evict m d = Some (newest m d).
Proof.
  intros Hm. unfold newest. induction d as [|x d IH]; simpl evict.
  - destruct (Z.ltb_spec m 0); [lia|reflexivity].
  - unfold Py.len. simpl length.
    destruct (Z.ltb_spec m (Z.of_nat (S (length d)))) as [Hlt|Hge].
    + rewrite IH.
      replace (S (length d) - Z.to_nat m)%nat
        with (S (length d - Z.to_nat m)) by lia.
      reflexivity.
    + replace (S (length d) - Z.to_nat m)%nat with 0%nat by lia.
      reflexivity.
Qed.

Lemma length_newest (m : Z) (l : list episode) :
  0 <= m -> Py.len (newest m l) <= m.
Proof. intros. unfold newest, Py.len. rewrite length_drop. lia. Qed.

Lemma newest_app_newest (m : Z) (l k : list episode) :
  newest m (newest m l ++ k) = newest m (l ++ k).
Proof.
  unfold newest. rewrite !length_app, length_drop.
  destruct (decide (length l <= Z.to_nat m)%nat) as [Hle|Hgt].
  - replace (length l - Z.to_nat m)%nat with 0%nat by lia.
    simpl drop. do 2 f_equal. lia.
  - rewrite !drop_app, !length_drop, drop_drop. f_equal.
    + f_equal. lia.
    + f_equal. lia.
Qed.

Lemma feed_all_newest (m : Z) (reqs : list (list (option episode))) :
  0 <= m ->
  forall d, feed_all m d reqs
            = Some (match reqs with
                    | [] => d
                    | _ => newest m (admitted d reqs)
                    end).
Proof.
  intros Hm. induction reqs as [|r reqs IH]; intros d; [reflexivity|].
  simpl feed_all. unfold feed_episodes. rewrite evict_newest by done.
  rewrite IH. f_equal. unfold admitted. destruct reqs as [|r' reqs].
  - simpl. by rewrite app_nil_r.
  - rewrite newest_app_newest. f_equal. simpl. by rewrite <- app_assoc.
Qed.

End WithEpisode.
End StoreFacts.

(** ** Facts about Python numbers *)

Module NumFacts.
Import Num.

Lemma ltb_int (m n : Z) : ltb (Int m) (Int n) = true <-> m < n.
Proof.
  unfold ltb. simpl. destruct (Qlt_le_dec _ _) as [H|H].
  - rewrite <- Zlt_Qlt in H. tauto.
  - rewrite <- Zle_Qle in H. split; [discriminate|lia].
Qed.

Lemma ltb_int_false (m n : Z) : ltb (Int m) (Int n) = false <-> n <= m.
Proof.
  destruct (ltb (Int m) (Int n)) eqn:E.
  - apply ltb_int in E. split; [discriminate|lia].
  - split; [|done]. intros _. destruct (Z.lt_ge_cases m n) as [H|H]; [|done].
    apply ltb_int in H. congruence.
Qed.

(** Rounding keeps the sign. *)
Lemma binary_round_aux_sign (s : bool) (m e : Z) (l : SpecFloat.location) :
  match SpecFloat.binary_round_aux prec emax s m e l with
  | SpecFloat.S754_zero s' | SpecFloat.S754_infinity s'
  | SpecFloat.S754_finite s' _ _ => s' = s
  | SpecFloat.S754_nan => True
  end.
Proof.
  unfold SpecFloat.binary_round_aux.
  destruct (SpecFloat.shr_fexp prec emax m e l) as [mrs' e'].
  destruct (SpecFloat.shr_fexp prec emax _ e' SpecFloat.loc_Exact)
    as [mrs'' e''].
  destruct (SpecFloat.shr_m mrs''); [done| |done].
  by destruct (e'' <=? emax - prec).
Qed.

Lemma round_not_negative (m e : Z) (l : SpecFloat.location) :
  not_negative (SpecFloat.binary_round_aux prec emax false m e l).
Proof.
  pose proof (binary_round_aux_sign false m e l) as H.
  by destruct (SpecFloat.binary_round_aux prec emax false m e l).
Qed.

Lemma of_int_not_negative (n : Z) : 0 <= n -> not_negative (of_int n).
Proof.
  intros Hn. unfold of_int, SpecFloat.binary_normalize.
  destruct n as [|p|p]; [done| |lia].
  unfold SpecFloat.binary_round.
  destruct (SpecFloat.shl_align _ _ _) as [mz ez].
  apply round_not_negative.
Qed.

Lemma mul_not_negative (x y : float) :
  not_negative x -> not_negative y ->
  not_negative (SpecFloat.SFmul prec emax x y).
Proof.
  destruct x as [sx|sx| |sx mx ex], y as [sy|sy| |sy my ey]; simpl;
    try done; try (by intros -> ->); try (by intros _ ->);
    try (by intros -> _).
  intros -> ->. apply round_not_negative.
Qed.

Lemma value_finite_pos (m : positive) (e : Z) (q : Q) :
  value (SpecFloat.S754_finite false m e) = Some q -> (0 < q)%Q.
Proof.
  simpl. intros [= <-]. destruct (0 <=? e) eqn:E.
  - change 0%Q with (inject_Z 0). rewrite <- Zlt_Qlt.
    apply Z.mul_pos_pos; [lia|]. apply Z.pow_pos_nonneg; lia.
  - done.
Qed.

(** A float that is not below zero is not negative. *)
Lemma ltb_zero_not_negative (x : float) :
  ltb (Float x) (Int 0) = false -> not_negative x.
Proof.
  destruct x as [s|s| |s m e]; simpl; try done.
  - by destruct s.
  - destruct s; [|done]. intros H. exfalso. revert H. unfold ltb. simpl.
    pose proof (value_finite_pos m e _ eq_refl) as Hq. simpl in Hq.
    destruct (Qlt_le_dec _ _) as [H|H]; [done|]. intros _.
    change (inject_Z 0) with 0%Q in H. lra.
Qed.

(** A product that is not negative is below positive integers only. *)
Lemma ltb_not_negative (x : float) (n : Z) :
  not_negative x -> ltb (Float x) (Int n) = true -> 0 < n.
Proof.
  destruct x as [s|s| |s m e]; simpl; unfold ltb; simpl.
  - intros _. destruct (Qlt_le_dec _ _) as [H|H]; [|done]. intros _.
    change 0%Q with (inject_Z 0) in H. by rewrite <- Zlt_Qlt in H.
  - by intros ->.
  - done.
  - intros ->.
    pose proof (value_finite_pos m e _ eq_refl) as Hq. simpl in Hq.
    destruct (Qlt_le_dec _ _) as [H|H]; [|done]. intros _.
    assert (H0 : (inject_Z 0 < inject_Z n)%Q)
      by (change (inject_Z 0) with 0%Q; lra).
    by rewrite <- Zlt_Qlt in H0.
Qed.

End NumFacts.

(** ** Facts about registration *)

Module EntryFacts.
Import Entry.

(** With an [int] rate the test is the exact inequality. *)
Lemma wants_generator_int (r : Z) (st : state) :
  wants_generator (Num.Int r) st = true <->
  Py.len (total_gids st) * r < Py.len (total_eids st) - 1.
Proof. unfold wants_generator. simpl. apply NumFacts.ltb_int. Qed.

(** With a rate that is not below zero the test fails as long as there
    are fewer than two evaluators. *)
Lemma wants_generator_two (rate : Num.number) (st : state) :
  Num.ltb rate (Num.Int 0) = false ->
  wants_generator rate st = true -> 2 <= Py.len (total_eids st).
Proof.
  intros Hrate Hw. destruct rate as [r|x].
  - apply NumFacts.ltb_int_false in Hrate.
    apply wants_generator_int in Hw. unfold Py.len in *. nia.
  - unfold wants_generator in Hw. simpl in Hw.
    apply NumFacts.ltb_not_negative in Hw; [lia|].
    apply NumFacts.mul_not_negative.
    + apply NumFacts.of_int_not_negative. unfold Py.len. lia.
    + by apply NumFacts.ltb_zero_not_negative.
Qed.

(** The product is rounded.  At the rate [0.57] the loop reaches 100
    generators and 58 evaluators; there [100 * 0.57] is the double next
    below 57, and the slot is made a generator, although 100 times
    57/100 is not below 57. *)
Lemma wants_generator_rounds :
  let rate := Num.Float (Num.quotient 57 100) in
  let st := entry_server rate [158] in
  Py.len (total_gids st) = 100 /\ Py.len (total_eids st) = 58 /\
  wants_generator rate st = true /\
  ~ (100 * 57 < (58 - 1) * 100).
Proof. vm_compute. repeat split; try reflexivity. discriminate. Qed.

Lemma slots_S (rate : Num.number) (st : state) (k : nat) :
  slots rate st (S k) = assign rate (slots rate st k).
Proof. reflexivity. Qed.

Lemma slot_state_cnt (rate : Num.number) (st : state) (k : nat) :
  worker_cnt (slot_state rate st k) = worker_cnt st + Z.of_nat k.
Proof.
  unfold slot_state. induction k as [|k IH]; [simpl; lia|].
  rewrite slots_S. destruct (slots rate st k) as [[s g] e].
  simpl in IH. unfold assign.
  destruct (wants_generator rate s); simpl; lia.
Qed.

Lemma slots_totals (rate : Num.number) (st : state) (k : nat) :
  total_gids (slot_state rate st k) = total_gids st ++ (slots rate st k).1.2 /\
  total_eids (slot_state rate st k) = total_eids st ++ (slots rate st k).2.
Proof.
  unfold slot_state. induction k as [|k IH].
  - simpl. by rewrite !app_nil_r.
  - pose proof (slot_state_cnt rate st k) as Hc. unfold slot_state in Hc.
    rewrite slots_S. destruct (slots rate st k) as [[s g] e].
    simpl in IH, Hc. destruct IH as [IHg IHe]. unfold assign.
    destruct (wants_generator rate s); simpl;
      rewrite ?IHg, ?IHe, ?app_assoc; done.
Qed.

(** The ids sent back, slot by slot. *)
Lemma slots_ids (rate : Num.number) (st : state) (k : nat) :
  (slots rate st k).1.2
    = (fun j => worker_cnt st + Z.of_nat j)
        <$> filter (fun j => wants_generator rate (slot_state rate st j) = true)
                   (seq 0 k) /\
  (slots rate st k).2
    = (fun j => worker_cnt st + Z.of_nat j)
        <$> filter (fun j => wants_generator rate (slot_state rate st j) <> true)
                   (seq 0 k).
Proof.
  induction k as [|k IH]; [done|].
  pose proof (slot_state_cnt rate st k) as Hc. unfold slot_state in *.
  rewrite seq_S, !filter_app, !fmap_app, slots_S. simpl seq.
  rewrite !filter_cons, !filter_nil. change (0 + k)%nat with k.
  destruct (slots rate st k) as [[s g] e]. simpl in IH, Hc.
  destruct IH as [IHg IHe]. unfold assign.
  destruct (wants_generator rate s) eqn:E; simpl;
    repeat case_decide; try congruence; simpl;
    rewrite ?app_nil_r, <- ?IHg, <- ?IHe, ?Hc; done.
Qed.

Lemma assign_issued_ok (rate : Num.number) (acc : state * list Z * list Z) :
  issued_ok acc.1.1 -> issued_ok (assign rate acc).1.1.
Proof.
  destruct acc as [[s g] e]. simpl. intros (Hnd & Hall & Hpos).
  assert (Hfresh : worker_cnt s ∉ total_gids s ++ total_eids s).
  { intros Hin. rewrite Forall_forall in Hall. specialize (Hall _ Hin). lia. }
  assert (Hall' : Forall (fun i => 0 <= i < worker_cnt s + 1)
                         (total_gids s ++ total_eids s)).
  { eapply Forall_impl; [exact Hall|]. simpl. intros; lia. }
  unfold assign, issued_ok. destruct (wants_generator rate s); simpl.
  - split; [|split; [|lia]].
    + rewrite <- app_assoc. simpl. apply NoDup_app in Hnd as (H1 & H2 & H3).
      apply NoDup_app. split; [done|]. split.
      * intros x Hx Hx'. apply elem_of_cons in Hx' as [->|Hx'].
        -- apply Hfresh. apply elem_of_app. by left.
        -- by apply (H2 x).
      * apply NoDup_cons. split; [|done].
        intros Hx. apply Hfresh. apply elem_of_app. by right.
    + rewrite <- app_assoc. simpl. apply Forall_app in Hall' as [Ha Hb].
      apply Forall_app. split; [done|]. apply Forall_cons. split; [lia|done].
  - split; [|split; [|lia]].
    + rewrite app_assoc. apply NoDup_app. split; [done|]. split.
      * intros x Hx Hx'. apply list_elem_of_singleton in Hx' as ->. done.
      * apply NoDup_singleton.
    + rewrite app_assoc. apply Forall_app. split; [done|].
      apply Forall_singleton. lia.
Qed.

Lemma slots_issued_ok (rate : Num.number) (st : state) (k : nat) :
  issued_ok st -> issued_ok (slot_state rate st k).
Proof.
  intros H. unfold slot_state. induction k as [|k IH]; [done|].
  rewrite slots_S. by apply assign_issued_ok.
Qed.

Lemma entry_server_issued_ok (rate : Num.number) (reqs : list Z) :
  issued_ok (entry_server rate reqs).
Proof.
  unfold entry_server. induction reqs as [|n reqs IH] using rev_ind.
  - simpl. unfold issued_ok, init. simpl.
    split; [apply NoDup_nil_2|]. split; [apply Forall_nil_2|lia].
  - rewrite foldl_app. simpl. by apply slots_issued_ok.
Qed.

End EntryFacts.

(** ** Facts about the win-rate line *)

Module WinRate.
Import Learner.

Lemma weighted_mean_unfold (items : list (Z * Z)) :
  weighted_mean items = (qsum score items / inject_Z (zsum items))%Q.
Proof. reflexivity. Qed.

Lemma qsum_perm (f : Z -> Z -> Q) (l l' : list (Z * Z)) :
  l ≡ₚ l' -> (qsum f l == qsum f l')%Q.
Proof.
  induction 1 as [|x l l' _ IH|x y l|l l' l'' _ IH1 _ IH2]; simpl.
  - reflexivity.
  - by rewrite IH.
  - ring.
  - by rewrite IH1.
Qed.

Lemma zsum_perm (l l' : list (Z * Z)) : l ≡ₚ l' -> zsum l = zsum l'.
Proof.
  induction 1 as [|x l l' _ IH|x y l|l l' l'' _ IH1 _ IH2]; simpl; lia.
Qed.

Lemma zsum_pos (l : list (Z * Z)) :
  l <> [] -> Forall (fun item => 0 < item.2) l -> 0 < zsum l.
Proof.
  intros Hne Hall. assert (Hnn : forall k, Forall (fun item : Z * Z => 0 < item.2) k -> 0 <= zsum k).
  { induction 1 as [|x k Hx _ IH]; simpl; lia. }
  destruct Hall as [|x k Hx Hk]; [done|]. simpl. specialize (Hnn k Hk). lia.
Qed.

Lemma inject_zsum (l : list (Z * Z)) :
  (inject_Z (zsum l) == qsum (fun _ cnt => inject_Z cnt) l)%Q.
Proof.
  induction l as [|x l IH]; simpl; [reflexivity|].
  by rewrite inject_Z_plus, IH.
Qed.

(** The accumulators of the loop are the two sums. *)
Lemma tally_sums (items : list (Z * Z)) :
  (tally items).1 = zsum items /\ ((tally items).2 == qsum score items)%Q.
Proof.
  unfold tally.
  assert (H : forall l n w,
             (foldl tally_step (n, w) l).1 = n + zsum l /\
             ((foldl tally_step (n, w) l).2 == w + qsum score l)%Q).
  { induction l as [|x l IH]; intros n w; cbn [foldl].
    - simpl. split; [lia|ring].
    - change (tally_step (n, w) x)
        with (n + x.2, (w + inject_Z (x.1 + 1) / 2 * inject_Z x.2)%Q).
      simpl zsum. simpl qsum.
      destruct (IH (n + x.2) (w + inject_Z (x.1 + 1) / 2 * inject_Z x.2)%Q)
        as [-> ->].
      split; [lia|]. unfold score. field. }
  destruct (H items 0 0%Q) as [-> ->]. split; [lia|ring].
Qed.

(** A sum over the items of a histogram, read off a list of keys that
    covers its domain. *)
Lemma qsum_by_keys (f : Z -> Z -> Q) (keys : list Z) :
  (forall r, f r 0%Z == 0)%Q ->
  NoDup keys ->
  forall d : gmap Z Z,
    (forall r cnt, d !! r = Some cnt -> r ∈ keys) ->
    (qsum f (map_to_list d)
       == foldr (fun r s => f r (default 0%Z (d !! r)) + s) 0 keys)%Q.
Proof.
  intros Hf0 Hnd. induction Hnd as [|k keys Hk Hnd IH]; intros d Hdom.
  - assert (d = ∅) as ->.
    { apply map_empty. intros r. destruct (d !! r) as [cnt|] eqn:E; [|done].
      apply Hdom in E. by apply not_elem_of_nil in E. }
    rewrite map_to_list_empty. reflexivity.
  - simpl foldr. destruct (d !! k) as [cnt|] eqn:E.
    + rewrite <- (qsum_perm f _ _ (map_to_list_delete d k cnt E)). simpl.
      rewrite (IH (delete k d)).
      * apply Qplus_comp; [reflexivity|].
        clear IH Hnd Hdom. induction keys as [|r keys IHk]; simpl; [reflexivity|].
        apply not_elem_of_cons in Hk as [Hne Hk].
        rewrite lookup_delete_ne by done.
        apply Qplus_comp; [reflexivity|]. by apply IHk.
      * intros r c Hr. apply lookup_delete_Some in Hr as [Hne Hr].
        apply Hdom in Hr. apply elem_of_cons in Hr as [->|Hr]; done.
    + simpl. rewrite Hf0, Qplus_0_l. apply IH.
      intros r c Hr. pose proof Hr as Hr'. apply Hdom in Hr.
      apply elem_of_cons in Hr as [->|Hr]; [congruence|done].
Qed.

End WinRate.

(** ** Facts about the coordinator *)

Module LearnerFacts.
Import Learner.

Lemma length_append (s t : string) :
  String.length (s +:+ t) = (String.length s + String.length t)%nat.
Proof. induction s as [|c s IH]; simpl; [done|]. by rewrite IH. Qed.

Lemma append_suffix_inj (suffix x y : string) :
  x +:+ suffix = y +:+ suffix -> x = y.
Proof.
  revert y. induction x as [|c x IH]; intros [|d y] H; simpl in H.
  - done.
  - apply (f_equal String.length) in H.
    rewrite !length_append in H. simpl in H. lia.
  - apply (f_equal String.length) in H.
    rewrite !length_append in H. simpl in H. lia.
  - injection H as -> H. f_equal. by apply IH.
Qed.

(** Distinct eras are saved under distinct paths. *)
Lemma model_path_inj (i j : Z) : model_path i = model_path j -> i = j.
Proof.
  unfold model_path. intros H. apply String.app_inj in H.
  apply append_suffix_inj in H. by apply pretty_Z_inj in H.
Qed.

Lemma feed_result_ok (results : gmap Z (gmap Z Z)) (r : Z * option Z) :
  results_ok results -> results_ok (feed_result results r).
Proof.
  intros Hok. unfold feed_result. destruct r as [model_id [reward|]]; [|done].
  simpl. intros i d Hi. destruct (decide (i = model_id)) as [->|Hne].
  - rewrite lookup_insert_eq in Hi. injection Hi as <-. split.
    + apply insert_non_empty.
    + intros r cnt Hr. destruct (decide (r = reward)) as [->|Hr'].
      * rewrite lookup_insert_eq in Hr. injection Hr as <-.
        destruct (results !! model_id) as [d|] eqn:E; simpl.
        -- destruct (d !! reward) as [c|] eqn:Ec; simpl; [|lia].
           destruct (Hok _ _ E) as [_ Hpos]. specialize (Hpos _ _ Ec). lia.
        -- rewrite lookup_empty. simpl. lia.
      * rewrite lookup_insert_ne in Hr by done.
        destruct (results !! model_id) as [d|] eqn:E; simpl in Hr.
        -- destruct (Hok _ _ E) as [_ Hpos]. by apply (Hpos r).
        -- by rewrite lookup_empty in Hr.
  - rewrite lookup_insert_ne in Hi by done. by apply (Hok i).
Qed.

Lemma feed_results_ok (results : gmap Z (gmap Z Z)) (data : list (Z * option Z)) :
  results_ok results -> results_ok (feed_results results data).
Proof.
  unfold feed_results. revert results.
  induction data as [|r data IH]; intros results Hok; [done|].
  simpl. apply IH. by apply feed_result_ok.
Qed.

(** With well-formed results the win-rate line never divides by zero. *)
Lemma win_rate_is_Some (results : gmap Z (gmap Z Z)) (era : Z) :
  results_ok results -> is_Some (win_rate results era).
Proof.
  intros Hok. unfold win_rate. destruct (results !! era) as [d|] eqn:E; [|done].
  destruct (Hok _ _ E) as [Hne Hpos].
  destruct (WinRate.tally_sums (items_desc d)) as [Hn _].
  pose proof (merge_sort_Permutation key_ge (map_to_list d)) as Hperm.
  fold (items_desc d) in Hperm. rewrite (WinRate.zsum_perm _ _ Hperm) in Hn.
  assert (0 < Learner.zsum (map_to_list d)).
  { apply WinRate.zsum_pos.
    - intros E'. by apply map_to_list_empty_iff in E'.
    - apply Forall_forall. intros [r cnt] Hin.
      apply elem_of_map_to_list in Hin. simpl. by apply (Hpos r). }
  destruct (tally (items_desc d)) as [n win]. simpl in Hn. subst n.
  destruct (Z.eqb_spec (Learner.zsum (map_to_list d)) 0); [lia|done].
Qed.

Section WithModel.

Context {model state_dict episode : Type}.
Variable get_state_dict : model -> state_dict.
Variable model_class : model.
Variable load_state_dict : model -> state_dict -> model.

Abbreviation learner := (@learner model state_dict episode).
Abbreviation serve := (@serve model state_dict episode model_class load_state_dict).
Abbreviation update := (@update model state_dict episode get_state_dict).
Abbreviation step := (@step model state_dict episode get_state_dict model_class load_state_dict).
Abbreviation run := (@run model state_dict episode get_state_dict model_class load_state_dict).
Abbreviation fetch_model := (@fetch_model model state_dict episode model_class load_state_dict).
Abbreviation server_until := (@server_until model state_dict episode model_class load_state_dict).
Abbreviation server_from := (@server_from model state_dict episode get_state_dict model_class load_state_dict).
Abbreviation server := (@server model state_dict episode get_state_dict model_class load_state_dict).

Lemma gargs_iter (st : learner) (count : nat) :
  let st' := (Nat.iter count gargs_one (st, [])).1 in
  model_era st' = model_era st /\ current st' = current st /\
  files st' = files st /\ results st' = results st /\
  episodes st' = episodes st.
Proof.
  induction count as [|count IH]; [done|].
  simpl. destruct (Nat.iter count gargs_one (st, [])) as [s l].
  simpl in *. done.
Qed.

Lemma eargs_iter (st : learner) (count : nat) :
  let st' := (Nat.iter count eargs_one (st, [])).1 in
  model_era st' = model_era st /\ current st' = current st /\
  files st' = files st /\ results st' = results st /\
  episodes st' = episodes st.
Proof.
  induction count as [|count IH]; [done|].
  simpl. destruct (Nat.iter count eargs_one (st, [])) as [s l].
  simpl in *. done.
Qed.

(** Serving a request changes neither the era, nor the current model,
    nor the saved files, and keeps the results well formed. *)
Lemma serve_keeps (a : args) (st st' : learner) (req : request) (rep : reply) :
  serve a st req = Some (st', rep) ->
  model_era st' = model_era st /\ current st' = current st /\
  files st' = files st /\ (results_ok (results st) -> results_ok (results st')).
Proof.
  destruct req as [multi count|multi count|multi data|multi data|multi data];
    simpl; intros H.
  - pose proof (gargs_iter st count) as (? & ? & ? & Hr & ?).
    destruct (Nat.iter count gargs_one (st, [])) as [s l].
    injection H as <- _. simpl in *. by rewrite Hr.
  - pose proof (eargs_iter st count) as (? & ? & ? & Hr & ?).
    destruct (Nat.iter count eargs_one (st, [])) as [s l].
    injection H as <- _. simpl in *. by rewrite Hr.
  - destruct (Store.feed_episodes _ _ _); [|done]. by injection H as <- _.
  - injection H as <- _. simpl. do 3 (split; [done|]).
    apply feed_results_ok.
  - by injection H as <- _.
Qed.

Lemma update_spec (a : args) (st st' : learner) (polls : list (option model * Z))
    (rep : report) :
  update a st polls = Some (st', rep) ->
  model_era st' = model_era st + 1 /\
  files st' = <[model_path (model_era st') := get_state_dict (current st')]>
                (files st) /\
  results st' = results st /\ episodes st' = episodes st.
Proof.
  unfold update. destruct (win_rate _ _); [|done].
  destruct (trainer_update _ _ _) as [[m steps]|]; [|done].
  intros H. injection H as <- _. done.
Qed.

Lemma run_app (a : args) (st st2 : learner) (evs1 evs2 : list event) :
  run a st (evs1 ++ evs2) = Some st2 <->
  exists st1, run a st evs1 = Some st1 /\ run a st1 evs2 = Some st2.
Proof.
  revert st. induction evs1 as [|ev evs1 IH]; intros st; simpl.
  - split; [eauto|]. by intros (st1 & [= <-] & ?).
  - destruct (step a st ev) as [s|]; [apply IH|].
    split; [done|]. by intros (? & ? & ?).
Qed.

(** Along a run the era grows by one per update, files of eras up to the
    starting era are left as they are, and the results stay well
    formed. *)
Lemma run_era (a : args) (evs : list event) :
  forall st st' : learner,
    run a st evs = Some st' ->
    model_era st' = model_era st + updates evs /\
    (forall e, e <= model_era st ->
               files st' !! model_path e = files st !! model_path e) /\
    (results_ok (results st) -> results_ok (results st')).
Proof.
  induction evs as [|ev evs IH]; intros st st' H; simpl in H.
  - injection H as <-. simpl. split; [lia|done].
  - destruct (step a st ev) as [s|] eqn:Es; [|done].
    destruct (IH _ _ H) as (He & Hf & Hr).
    destruct ev as [req|polls]; simpl in Es.
    + destruct (serve a st req) as [[s' rep]|] eqn:E; [|done].
      injection Es as <-. apply serve_keeps in E as (E1 & _ & E3 & E4).
      simpl updates. rewrite He, E1. split; [done|]. split; [|tauto].
      intros e Hle. rewrite Hf by lia. by rewrite E3.
    + destruct (update a st polls) as [[s' rep]|] eqn:E; [|done].
      injection Es as <-. apply update_spec in E as (E1 & E2 & E3 & _).
      simpl updates. rewrite He, E1. split; [lia|].
      split; [|intros ?; apply Hr; by rewrite E3].
      intros e Hle. rewrite Hf by lia. rewrite E2.
      apply lookup_insert_ne. intros Heq%model_path_inj. lia.
Qed.

Lemma updates_nonneg (evs : list (@event model episode)) : 0 <= updates evs.
Proof. induction evs as [|[?|?] evs IH]; simpl; lia. Qed.

(** The server loop is a run of requests and updates, one update per
    pass of its outer loop. *)
Lemma server_until_run (a : args) (next : Z) (inbox : list request) :
  forall (st st' : learner) (rest : list request),
    server_until a next st inbox = Some (st', rest) ->
    exists evs, run a st evs = Some st' /\ updates evs = 0.
Proof.
  induction inbox as [|req inbox IH]; intros st st' rest; simpl.
  - destruct (num_episodes st <? next); [done|].
    intros [= <- _]. by exists [].
  - destruct (num_episodes st <? next).
    + destruct (serve a st req) as [[s rep]|] eqn:E; [|done].
      intros Hs. destruct (IH _ _ _ Hs) as (evs & Hrun & Hup).
      exists (Request req :: evs). simpl. rewrite E. simpl. done.
    + intros [= <- _]. by exists [].
Qed.

Lemma server_from_run (a : args) (pollss : list (list (option model * Z))) :
  forall (prev : Z) (st st' : learner) (inbox rest : list request),
    server_from a prev st inbox pollss = Some (st', rest) ->
    exists evs, run a st evs = Some st' /\ updates evs = Py.len pollss.
Proof.
  induction pollss as [|polls pollss IH]; intros prev st st' inbox rest; simpl.
  - intros [= <- _]. by exists [].
  - destruct (server_until a (prev + update_episodes a) st inbox)
      as [[st1 inbox1]|] eqn:E1; [|done].
    destruct (update a st1 polls) as [[st2 rep]|] eqn:E2; [|done].
    intros Hs. destruct (IH _ _ _ _ _ Hs) as (evs2 & Hrun2 & Hup2).
    destruct (server_until_run _ _ _ _ _ _ E1) as (evs1 & Hrun1 & Hup1).
    exists (evs1 ++ Update polls :: evs2). split.
    + apply run_app. exists st1. split; [done|]. simpl. rewrite E2. done.
    + assert (Happ : forall l1 l2 : list (@event model episode),
                 updates (l1 ++ l2) = updates l1 + updates l2).
      { induction l1 as [|[?|?] l1 IHl]; intros l2; simpl;
          rewrite ?IHl; lia. }
      rewrite Happ. simpl. rewrite Hup1, Hup2. unfold Py.len. simpl length. lia.
Qed.

(** Each pass of the outer loop of [server] raises the era by one. *)
Lemma server_era (a : args) (st st' : learner) (inbox rest : list request)
    (pollss : list (list (option model * Z))) :
  server a st inbox pollss = Some (st', rest) ->
  model_era st' = model_era st + Py.len pollss.
Proof.
  intros Hs. destruct (server_from_run _ _ _ _ _ _ _ Hs) as (evs & Hrun & Hup).
  destruct (run_era _ _ _ _ Hrun) as (He & _). by rewrite He, Hup.
Qed.

(** The three outcomes of a model request. *)
Lemma fetch_model_current (st : learner) :
  fetch_model st (model_era st) = current st.
Proof. unfold Learner.fetch_model. by rewrite decide_True. Qed.

Lemma fetch_model_loaded (st : learner) (model_id : Z) (sd : state_dict) :
  model_id <> model_era st ->
  files st !! model_path model_id = Some sd ->
  fetch_model st model_id = load_state_dict model_class sd.
Proof.
  intros Hne Hf. unfold Learner.fetch_model.
  rewrite decide_False by done. by rewrite Hf.
Qed.

Lemma fetch_model_missing (st : learner) (model_id : Z) :
  model_id <> model_era st ->
  files st !! model_path model_id = None ->
  fetch_model st model_id = model_class.
Proof.
  intros Hne Hf. unfold Learner.fetch_model.
  rewrite decide_False by done. by rewrite Hf.
Qed.

End WithModel.
End LearnerFacts.

(** ** The example generator keeps the contract *)

Module CounterFacts.
Import Counter.

Lemma randrange_some (n g : Z) :
  0 < n -> exists r g', randrange n g = Some (r, g') /\ 0 <= r < n.
Proof.
  intros Hn. exists (g `mod` n), (g + 1). unfold randrange.
  destruct (Z.ltb_spec 0 n); [|lia]. split; [done|].
  by apply Z.mod_pos_bound.
Qed.

Lemma randrange_none (n g : Z) : n <= 0 -> randrange n g = None.
Proof. intros Hn. unfold randrange. by destruct (Z.ltb_spec 0 n); [lia|]. Qed.

Lemma random_unit (g : Z) :
  (0 <= (random g).1)%Q /\ ((random g).1 < 1)%Q.
Proof.
  pose proof (Z.mod_pos_bound g 10 ltac:(lia)).
  unfold random, Qle, Qlt. simpl. lia.
Qed.

#[global] Instance counter_laws : PyRandomLaws Z.
Proof.
  split; [exact randrange_some|exact randrange_none|exact random_unit].
Qed.

End CounterFacts.

(** ** Facts about the sampler *)

Module SamplerFacts.
Import Sampler.

Lemma accept_rate_bounds (n m i : Z) :
  1 <= n -> n <= m -> 0 <= i < n ->
  (0 < accept_rate n m i)%Q /\ (accept_rate n m i <= 1)%Q.
Proof.
  intros Hn Hm Hi. unfold accept_rate.
  assert (Hq : (inject_Z (n - 1 - i) / inject_Z m
                == (n - 1 - i) # Z.to_pos m)%Q).
  { unfold Qdiv, Qinv, Qmult, Qeq, inject_Z. simpl.
    destruct m as [|p|p]; try lia. simpl. lia. }
  rewrite Hq. unfold Qlt, Qle, Qminus, Qplus, Qopp. simpl.
  rewrite Z2Pos.id by lia. split; nia.
Qed.

Lemma accept_rate_newest (n m : Z) :
  0 < m -> (accept_rate n m (n - 1) == 1)%Q.
Proof.
  intros Hm. unfold accept_rate.
  replace (n - 1 - (n - 1)) with 0 by lia.
  unfold Qeq, Qminus, Qplus, Qopp, Qdiv, Qmult, Qinv. simpl.
  destruct m; simpl; lia.
Qed.

Lemma length_filter_below (c : Z) (P : Z -> Prop) `{!forall j, Decision (P j)}
    (m : nat) :
  0 <= c <= Z.of_nat m ->
  (forall j, 0 <= j < Z.of_nat m -> P j <-> j < c) ->
  Py.len (filter P ((fun k => 0 + Z.of_nat k) <$> seq 0 m)) = c.
Proof.
  revert c. induction m as [|m IH]; intros c Hc HP.
  - unfold Py.len. simpl. lia.
  - rewrite seq_S, fmap_app, filter_app, PyFacts.len_app. simpl.
    rewrite filter_cons, filter_nil. destruct (decide (c <= Z.of_nat m)).
    + rewrite (IH c) by (try lia; intros; apply HP; lia).
      rewrite decide_False; [unfold Py.len; simpl; lia|].
      intros HPm. apply HP in HPm; lia.
    + rewrite (IH (Z.of_nat m)).
      * rewrite decide_True; [unfold Py.len; simpl; lia|]. apply HP; lia.
      * lia.
      * intros j Hj. rewrite HP by lia. lia.
Qed.

Lemma accepted_grid_count (n m i k : Z) :
  1 <= n -> n <= m -> 0 <= i < n -> 0 < k ->
  (inject_Z (Py.len (accepted_grid n m i k))
     == accept_rate n m i * inject_Z (k * m))%Q.
Proof.
  intros Hn Hm Hi Hk. unfold accepted_grid, Py.range.
  replace (k * m - 0) with (k * m) by lia.
  rewrite (length_filter_below ((m - (n - 1 - i)) * k)).
  - unfold accept_rate, Z.sub.
    rewrite ?inject_Z_mult, ?inject_Z_plus, ?inject_Z_opp, ?inject_Z_plus,
      ?inject_Z_opp.
    field. intros E. unfold Qeq in E. simpl in E. lia.
  - split; nia.
  - intros j Hj. rewrite Z2Nat.id in Hj by nia.
    assert (Hq : (inject_Z j / inject_Z (k * m) < accept_rate n m i)%Q
                 <-> j < (m - (n - 1 - i)) * k).
    { unfold accept_rate.
      assert (Hj' : (inject_Z j / inject_Z (k * m) == j # Z.to_pos (k * m))%Q).
      { unfold Qdiv, Qinv, Qmult, Qeq, inject_Z. simpl.
        destruct (k * m) as [|p|p] eqn:E; try nia. simpl. lia. }
      assert (Hd : (inject_Z (n - 1 - i) / inject_Z m
                    == (n - 1 - i) # Z.to_pos m)%Q).
      { unfold Qdiv, Qinv, Qmult, Qeq, inject_Z. simpl.
        destruct m as [|p|p]; try lia. simpl. lia. }
      rewrite Hj', Hd. unfold Qlt, Qminus, Qplus, Qopp. simpl.
      rewrite !Z2Pos.id by nia. nia. }
    destruct (Qlt_le_dec _ _) as [Hlt|Hge].
    + split; [intros _; by apply Hq|done].
    + split; [done|]. intros Hc%Hq. exfalso. exact (Qlt_not_le _ _ Hc Hge).
Qed.

End SamplerFacts.

(** ** Facts about the return estimators *)

Module VTraceFacts.
Import VTrace.

(** On operands of equal size broadcasting is the pointwise zip. *)
Lemma bzip_same {A B C} (f : A -> B -> C) (xs : list A) (ys : list B) :
  length xs = length ys -> bzip f xs ys = zip_with f xs ys.
Proof.
  destruct xs as [|x [|x' xs]], ys as [|y [|y' ys]]; simpl; try done.
Qed.

Lemma bzip_length_same {A B C} (f : A -> B -> C) (xs : list A) (ys : list B) :
  length xs = length ys -> length (bzip f xs ys) = length xs.
Proof.
  intros E. rewrite bzip_same by done. rewrite length_zip_with. lia.
Qed.

Lemma bzip_length_one_l {A B C} (f : A -> B -> C) (xs : list A) (ys : list B) :
  length xs = 1%nat -> length (bzip f xs ys) = length ys.
Proof.
  destruct xs as [|x [|x' xs]]; simpl; try done. intros _.
  by rewrite length_fmap.
Qed.

Lemma bzip_lookup {A B C} (f : A -> B -> C) (xs : list A) (ys : list B)
    (i : nat) (x : A) (y : B) :
  length xs = length ys -> xs !! i = Some x -> ys !! i = Some y ->
  bzip f xs ys !! i = Some (f x y).
Proof.
  intros E Hx Hy. rewrite bzip_same by done.
  rewrite lookup_zip_with, Hx, Hy. done.
Qed.

Lemma length_td0_rec (deltas cs : list slice) :
  length (td0_rec deltas cs) = length deltas.
Proof.
  revert cs. induction deltas as [|d deltas IH]; intros cs; [done|].
  simpl. specialize (IH (tail cs)).
  destruct (td0_rec deltas (tail cs)); simpl in *; lia.
Qed.

Lemma td0_rec_last (deltas cs : list slice) :
  td0_rec deltas cs !! (length deltas - 1)%nat
  = deltas !! (length deltas - 1)%nat.
Proof.
  revert cs. induction deltas as [|d deltas IH]; intros cs; [done|].
  simpl. specialize (IH (tail cs)).
  pose proof (length_td0_rec deltas (tail cs)) as Hl.
  destruct (td0_rec deltas (tail cs)) as [|x rest].
  - destruct deltas; [done|discriminate].
  - destruct deltas as [|d' deltas]; [discriminate|].
    simpl in *. by rewrite Nat.sub_0_r in *.
Qed.

Lemma td0_rec_step (deltas cs : list slice) (t : nat) (d c x : slice) :
  deltas !! t = Some d -> cs !! t = Some c ->
  td0_rec deltas cs !! S t = Some x ->
  td0_rec deltas cs !! t = Some (sadd d (smul c x)).
Proof.
  revert cs t. induction deltas as [|d0 deltas IH]; intros cs t Hd Hc Hx;
    [done|].
  simpl in Hx |- *. specialize (IH (tail cs)).
  destruct (td0_rec deltas (tail cs)) as [|x0 rest] eqn:E; [done|].
  destruct t as [|t].
  - simpl in *. injection Hd as ->. injection Hx as ->.
    destruct cs as [|c0 cs]; [done|]. simpl in *. by injection Hc as ->.
  - simpl in Hd, Hx |- *. apply IH; [done| |done].
    destruct cs; [done|]. done.
Qed.

Lemma length_lambda_rec (lmb : Q) (later : list slice) (last : slice) :
  length (lambda_rec lmb later last) = S (length later).
Proof. induction later as [|v later IH]; simpl; [done|]. by rewrite IH. Qed.

Lemma lambda_rec_last (lmb : Q) (later : list slice) (last : slice) :
  lambda_rec lmb later last !! length later = Some last.
Proof. induction later as [|v later IH]; simpl; done. Qed.

Lemma lambda_rec_step (lmb : Q) (later : list slice) (last : slice)
    (t : nat) (v x : slice) :
  later !! t = Some v ->
  lambda_rec lmb later last !! S t = Some x ->
  lambda_rec lmb later last !! t
  = Some (sadd (sscale (1 - lmb) v) (sscale lmb x)).
Proof.
  revert t. induction later as [|v0 later IH]; intros t Hv Hx; [done|].
  destruct t as [|t].
  - simpl in *. injection Hv as ->.
    destruct (lambda_rec lmb later last); simpl in *; [done|].
    by injection Hx as ->.
  - simpl in *. by apply IH.
Qed.

(** *** The loops compute the recursions *)

Lemma drop_lookup_cons {A} (l : list A) (i : nat) (x : A) :
  l !! i = Some x -> drop i l = x :: drop (S i) l.
Proof. intros H. by rewrite (drop_S _ _ _ H). Qed.

Lemma td0_loop (deltas cs : tensor) (T : nat) (d_last : slice) :
  length deltas = T -> length cs = T ->
  deltas !! (T - 1)%nat = Some d_last ->
  forall k, (k <= T - 1)%nat ->
    foldl (td0_step deltas cs) (Some [d_last])
          ((fun j => Z.of_nat T - 2 - Z.of_nat j) <$> seq 0 k)
    = Some (td0_rec (drop (T - 1 - k) deltas) (drop (T - 1 - k) cs)).
Proof.
  intros Hd Hc Hlast. induction k as [|k IH]; intros Hk.
  - simpl. rewrite Nat.sub_0_r. rewrite (drop_lookup_cons _ _ _ Hlast).
    pose proof (lookup_lt_Some _ _ _ Hlast).
    replace (S (T - 1)) with (length deltas) by lia.
    rewrite drop_all. done.
  - rewrite seq_S, fmap_app, foldl_app, IH by lia. simpl.
    assert (Hi : Z.of_nat T - 2 - Z.of_nat k = Z.of_nat (T - 1 - S k)) by lia.
    rewrite Hi. unfold td0_step. simpl. rewrite !PyFacts.index_nonneg.
    destruct (lookup_lt_is_Some_2 deltas (T - 1 - S k) ltac:(lia)) as [d Hdk].
    destruct (lookup_lt_is_Some_2 cs (T - 1 - S k) ltac:(lia)) as [c Hck].
    rewrite Hdk, Hck. simpl.
    rewrite (drop_lookup_cons _ _ _ Hdk), (drop_lookup_cons _ _ _ Hck).
    replace (S (T - 1 - S k)) with (T - 1 - k)%nat by lia.
    simpl td0_rec.
    pose proof (length_td0_rec (drop (T - 1 - k) deltas)
                  (drop (T - 1 - k) cs)) as Hl.
    rewrite length_drop in Hl.
    destruct (td0_rec (drop (T - 1 - k) deltas) (drop (T - 1 - k) cs))
      as [|x rest]; [simpl in Hl; lia|].
    change (Py.index (x :: rest) 0) with (Some x). done.
Qed.

Lemma lambda_loop (lmb : Q) (values : tensor) (T : nat) (r_last : slice) :
  length values = T ->
  forall k, (k <= T - 1)%nat ->
    foldl (lambda_step lmb values) (Some [r_last])
          ((fun j => Z.of_nat T - 1 - Z.of_nat j) <$> seq 0 k)
    = Some (lambda_rec lmb (drop (T - k) values) r_last).
Proof.
  intros Hv. induction k as [|k IH]; intros Hk.
  - simpl. rewrite Nat.sub_0_r. replace T with (length values).
    by rewrite drop_all.
  - rewrite seq_S, fmap_app, foldl_app, IH by lia. simpl.
    assert (Hi : Z.of_nat T - 1 - Z.of_nat k = Z.of_nat (T - S k)) by lia.
    rewrite Hi. unfold lambda_step. simpl. rewrite !PyFacts.index_nonneg.
    destruct (lookup_lt_is_Some_2 values (T - S k) ltac:(lia)) as [v Hvk].
    rewrite Hvk. simpl. rewrite (drop_lookup_cons _ _ _ Hvk).
    replace (S (T - S k)) with (T - k)%nat by lia.
    simpl lambda_rec.
    pose proof (length_lambda_rec lmb (drop (T - k) values) r_last) as Hl.
    destruct (lambda_rec lmb (drop (T - k) values) r_last) as [|x rest];
      [simpl in Hl; lia|].
    change (Py.index (x :: rest) 0) with (Some x). done.
Qed.

(** *** Shapes along the time axis *)

Lemma length_tmap (f : Q -> Q) (t : tensor) : length (tmap f t) = length t.
Proof. unfold tmap. by rewrite length_fmap. Qed.

Lemma Forall_tmap (P : Q -> Prop) (f : Q -> Q) (t : tensor) :
  (forall x, P (f x)) -> Forall (Forall (Forall P)) (tmap f t).
Proof.
  intros HP. unfold tmap. apply Forall_fmap, Forall_true. intros s. simpl.
  apply Forall_fmap, Forall_true. intros r. simpl.
  apply Forall_fmap, Forall_true. intros x. apply HP.
Qed.

Lemma clamp_le (lo hi x : Q) : (lo <= hi)%Q -> (clamp lo hi x <= hi)%Q.
Proof.
  intros Hlh. unfold clamp.
  destruct (Qlt_le_dec x lo); [done|].
  destruct (Qlt_le_dec hi x) as [|Hle]; [apply Qle_refl|done].
Qed.

Lemma gather_some (t : tensor) (index : list (list (list Z))) (T B A : nat) :
  shaped T B A t -> shaped T B 1 index ->
  Forall (Forall (Forall (fun a => 0 <= a < Z.of_nat A))) index ->
  exists g, gather t index = Some g /\ length g = T.
Proof.
  intros [Ht Hts] [Hi His] Hrange.
  assert (Hsome : is_Some (gather t index)).
  { unfold gather. apply mapM_is_Some, Forall_forall. intros [s si] Hin.
    simpl. apply mapM_is_Some, Forall_forall. intros [r ri] Hin'. simpl.
    unfold gather_row. apply mapM_is_Some, Forall_forall. intros a Ha. simpl.
    pose proof (elem_of_zip_l _ _ _ _ Hin) as Hs.
    pose proof (elem_of_zip_r _ _ _ _ Hin) as Hsi.
    pose proof (elem_of_zip_l _ _ _ _ Hin') as Hr.
    pose proof (elem_of_zip_r _ _ _ _ Hin') as Hri.
    rewrite Forall_forall in Hts. rewrite Forall_forall in Hrange.
    destruct (Hts _ Hs) as [_ Hrows]. rewrite Forall_forall in Hrows.
    specialize (Hrows _ Hr). specialize (Hrange _ Hsi).
    rewrite Forall_forall in Hrange. specialize (Hrange _ Hri).
    rewrite Forall_forall in Hrange. specialize (Hrange _ Ha).
    destruct (Z.ltb_spec a 0); [lia|]. apply lookup_lt_is_Some. lia. }
  destruct Hsome as [g Hg]. exists g. split; [done|].
  unfold gather in Hg. apply length_mapM in Hg. rewrite length_zip in Hg. lia.
Qed.

Section WithTorch.

Variable exp : Q -> Q.
Variable log_softmax : row -> row.
Hypothesis log_softmax_length : forall r, length (log_softmax r) = length r.

Lemma shaped_softmax_last (T B A : nat) (t : tensor) :
  shaped T B A t -> shaped T B A (softmax_last log_softmax t).
Proof.
  intros [Ht Hs]. unfold softmax_last. split; [by rewrite length_fmap|].
  apply Forall_fmap. eapply Forall_impl; [exact Hs|].
  intros s [Hb Hr]. simpl. split; [by rewrite length_fmap|].
  apply Forall_fmap. eapply Forall_impl; [exact Hr|].
  intros r Hl. simpl. by rewrite log_softmax_length.
Qed.

(** [vtrace_base] succeeds on a well-shaped batch; its outputs keep the
    time length, and the two clipped ratios are at most 1. *)
Lemma vtrace_base_some (observation : bool) (b : batch)
    (t_policies t_values : tensor) (T B P A : nat) :
  batch_ok T B P A b t_policies t_values ->
  exists base,
    vtrace_base exp log_softmax observation b t_policies t_values
      = Some base /\
    length (values_nograd base) = T /\
    length (clipped_rhos base) = T /\
    length (cs base) = T /\
    Forall (Forall (Forall (fun x => (x <= 1)%Q))) (clipped_rhos base) /\
    Forall (Forall (Forall (fun x => (x <= 1)%Q))) (cs base).
Proof.
  intros (Hact & Hrange & Htm & Hvm & Hpol & Hret & Htp & Htv).
  destruct (gather_some _ _ T B A (shaped_softmax_last _ _ _ _ Hpol) Hact Hrange)
    as (b_sel & Hb & Hbl).
  destruct (gather_some _ _ T B A (shaped_softmax_last _ _ _ _ Htp) Hact Hrange)
    as (t_sel & Ht & Htl).
  unfold vtrace_base. rewrite Hb. simpl. rewrite Ht. simpl.
  eexists. split; [reflexivity|]. simpl.
  assert (Hg : length (sum_last (tmask b)) = T).
  { unfold sum_last. rewrite length_fmap. apply Htm. }
  assert (Hrho : forall f : Q -> Q,
             length (tmap f (tmap exp
                       (tsub (tmul t_sel (sum_last (tmask b)))
                             (tmul b_sel (sum_last (tmask b)))))) = T).
  { intros f. rewrite !length_tmap. unfold tsub, tmul.
    rewrite bzip_length_same; rewrite !bzip_length_same; lia. }
  split; [|split; [apply Hrho|split; [apply Hrho|]]].
  - destruct Hret as [Hr1 _]. destruct Htv as [Hv1 _].
    unfold tadd at 1. rewrite bzip_length_same.
    + unfold tmul at 1. rewrite bzip_length_same; [|].
      * destruct (size2 t_values =? 2); [destruct observation|];
          rewrite ?length_tmap; unfold tadd, opponent;
          rewrite ?bzip_length_same; rewrite ?length_fmap; lia.
      * destruct (size2 t_values =? 2); [destruct observation|];
          rewrite ?length_tmap; unfold tadd, opponent;
          rewrite ?bzip_length_same; rewrite ?length_fmap; lia.
    + unfold tmul. rewrite (bzip_length_one_l _ (returns b)) by done.
      rewrite length_tmap, bzip_length_same.
      * destruct (size2 t_values =? 2); [destruct observation|];
          rewrite ?length_tmap; unfold tadd, opponent;
          rewrite ?bzip_length_same; rewrite ?length_fmap; lia.
      * destruct (size2 t_values =? 2); [destruct observation|];
          rewrite ?length_tmap; unfold tadd, opponent;
          rewrite ?bzip_length_same; rewrite ?length_fmap; lia.
  - split; apply Forall_tmap; intros x; by apply clamp_le.
Qed.

End WithTorch.

End VTraceFacts.

Module VTraceRun.
Import VTrace VTraceFacts.
Section WithTorch.

Variable exp : Q -> Q.
Variable log_softmax : row -> row.

Lemma string_TD0_ne_MC : "TD0" <> "MC".
Proof. discriminate. Qed.

Lemma string_TDLAMBDA_ne_MC : "TDLAMBDA" <> "MC".
Proof. discriminate. Qed.

Lemma string_TDLAMBDA_ne_TD0 : "TDLAMBDA" <> "TD0".
Proof. discriminate. Qed.

(** The TD0 branch on a batch whose tensors have time length [T]. *)
Lemma vtrace_td0_run (observation : bool) (b : batch)
    (t_policies t_values : tensor) (T : nat) (l v r c : tensor) :
  vtrace_base exp log_softmax observation b t_policies t_values
    = Some (Base l v r c) ->
  (1 <= T)%nat ->
  length v = T -> length r = T -> length c = T ->
  length (vmask b) = T -> length (returns b) = 1%nat ->
  let deltas := tmul r (tsub (drop 1 v ++ returns b) v) in
  let vs := tadd (td0_rec deltas c) v in
  length deltas = T /\
  vtrace exp log_softmax "TD0" observation b t_policies t_values
  = Some (vs, tmul r (tsub (drop 1 vs ++ returns b) v)).
Proof.
  intros Hbase HT Hv Hr Hc Hvm Hret deltas vs.
  assert (Hd : length deltas = T).
  { assert (Hx : length (tsub (drop 1 v ++ returns b) v) = T).
    { unfold tsub. rewrite bzip_length_same;
        rewrite length_app, length_drop; lia. }
    unfold deltas, tmul. rewrite bzip_length_same; lia. }
  split; [done|].
  unfold vtrace. rewrite Hbase. cbn [mbind option_bind].
  rewrite decide_False by apply string_TD0_ne_MC.
  rewrite decide_True by done. fold deltas.
  rewrite PyFacts.index_last, last_lookup, Hd.
  destruct (lookup_lt_is_Some_2 deltas (pred T) ltac:(lia)) as [d_last Hl].
  rewrite Hl. cbn [mbind option_bind].
  unfold Py.range_down, Py.len. rewrite Hvm.
  replace (Z.to_nat (Z.of_nat T - 2 - -1)) with (T - 1)%nat by lia.
  rewrite (td0_loop deltas c T d_last Hd Hc); [| |lia].
  - replace (T - 1 - (T - 1))%nat with 0%nat by lia. simpl drop.
    cbn [mbind option_bind]. done.
  - by replace (T - 1)%nat with (pred T) by lia.
Qed.

(** The TDLAMBDA branch on a batch whose tensors have time length [T]. *)
Lemma vtrace_tdlambda_run (observation : bool) (b : batch)
    (t_policies t_values : tensor) (T : nat) (l v r c : tensor)
    (r_last : slice) :
  vtrace_base exp log_softmax observation b t_policies t_values
    = Some (Base l v r c) ->
  (1 <= T)%nat ->
  length v = T -> length (vmask b) = T -> returns b = [r_last] ->
  let targets := lambda_rec (7 # 10) (drop 1 v) r_last in
  vtrace exp log_softmax "TDLAMBDA" observation b t_policies t_values
  = Some (targets, tmul r (tsub targets v)).
Proof.
  intros Hbase HT Hv Hvm Hret targets.
  unfold vtrace. rewrite Hbase. cbn [mbind option_bind].
  rewrite decide_False by apply string_TDLAMBDA_ne_MC.
  rewrite decide_False by apply string_TDLAMBDA_ne_TD0.
  rewrite decide_True by done. rewrite Hret.
  change (Py.index [r_last] (-1)) with (Some r_last).
  cbn [mbind option_bind].
  unfold Py.range_down, Py.len. rewrite Hvm.
  replace (Z.to_nat (Z.of_nat T - 1 - 0)) with (T - 1)%nat by lia.
  rewrite (lambda_loop (7 # 10) v T r_last Hv) by lia.
  replace (T - (T - 1))%nat with 1%nat by lia.
  cbn [mbind option_bind]. done.
Qed.

End WithTorch.
End VTraceRun.

Module FixtureFacts.
Import Fixture.

Lemma log_softmax_length (r : VTrace.row) :
  length (log_softmax r) = length r.
Proof. unfold log_softmax. by rewrite length_fmap. Qed.

Lemma b2_ok : VTrace.batch_ok 2 1 1 1 b2 t_policies t_values.
Proof.
  unfold VTrace.batch_ok, VTrace.shaped. simpl.
  repeat split; repeat constructor; lia.
Qed.

End FixtureFacts.

(** ** Facts about batch assembly *)

Module MakeBatchFacts.
Import MakeBatch.

Lemma elem_of_range (st ed t : Z) : t ∈ Py.range st ed <-> st <= t < ed.
Proof.
  unfold Py.range. rewrite list_elem_of_fmap. split.
  - intros (k & -> & Hk). apply elem_of_seq in Hk. lia.
  - intros Ht. exists (Z.to_nat (t - st)). split; [lia|].
    apply elem_of_seq. lia.
Qed.

Lemma length_range (st ed : Z) :
  length (Py.range st ed) = Z.to_nat (ed - st).
Proof. unfold Py.range. by rewrite length_fmap, length_seq. Qed.

Lemma lookup_range (st ed : Z) (k : nat) :
  (k < Z.to_nat (ed - st))%nat ->
  Py.range st ed !! k = Some (st + Z.of_nat k).
Proof.
  intros Hk. unfold Py.range. rewrite list_lookup_fmap.
  rewrite lookup_seq_lt by done. done.
Qed.

Lemma mapM_range {X} (f : Z -> option X) (st ed : Z) :
  (forall t, st <= t < ed -> is_Some (f t)) ->
  exists l, mapM f (Py.range st ed) = Some l /\
            length l = Z.to_nat (ed - st).
Proof.
  intros Hf.
  assert (Hs : is_Some (mapM f (Py.range st ed))).
  { apply mapM_is_Some, Forall_forall. intros t Ht.
    apply elem_of_range in Ht. by apply Hf. }
  destruct Hs as [l Hl]. exists l. split; [done|].
  apply length_mapM in Hl. by rewrite <- Hl, length_range.
Qed.

Lemma mapM_seq {X} (f : nat -> option X) (n : nat) :
  (forall i, (i < n)%nat -> is_Some (f i)) ->
  exists l, mapM f (seq 0 n) = Some l /\ length l = n.
Proof.
  intros Hf.
  assert (Hs : is_Some (mapM f (seq 0 n))).
  { apply mapM_is_Some, Forall_forall. intros i Hi.
    apply elem_of_seq in Hi. apply Hf. lia. }
  destruct Hs as [l Hl]. exists l. split; [done|].
  apply length_mapM in Hl. by rewrite <- Hl, length_seq.
Qed.

Lemma length_slice_nat {X} (l : list X) (st ed : Z) :
  0 <= st -> st <= ed -> ed <= Py.len l ->
  length (Py.slice l st ed) = Z.to_nat (ed - st).
Proof.
  intros. pose proof (PyFacts.length_slice l st ed) as Hl. unfold Py.len in *. lia.
Qed.

Lemma lookup_slice {X} (l : list X) (st ed : Z) (k : nat) :
  0 <= st -> (k < Z.to_nat (ed - st))%nat ->
  Py.slice l st ed !! k = l !! (Z.to_nat st + k)%nat.
Proof.
  intros Hst Hk. unfold Py.slice. rewrite lookup_take_lt by lia.
  by rewrite lookup_drop.
Qed.

Lemma Forall_slice {X} (Q : X -> Prop) (l : list X) (st ed : Z) :
  Forall Q l -> Forall Q (Py.slice l st ed).
Proof. intros Hl. unfold Py.slice. by apply Forall_take, Forall_drop. Qed.

Lemma eye_row_some (n : nat) (i : Z) :
  0 <= i < Z.of_nat n ->
  exists r, eye_row n i = Some r /\ length r = n.
Proof.
  intros Hi. unfold eye_row.
  destruct (Z.ltb_spec i (- Z.of_nat n)); [lia|].
  destruct (Z.leb_spec (Z.of_nat n) i); [lia|]. simpl.
  eexists. split; [reflexivity|]. by rewrite length_fmap, length_seq.
Qed.

Lemma length_pad_rows {X} (pad_len : nat) (c : X) (a : list (list X)) :
  length (pad_rows pad_len c a) = (length a + pad_len)%nat.
Proof. unfold pad_rows. by rewrite length_app, length_replicate. Qed.

Lemma lookup_pad_rows {X} (pad_len : nat) (c : X) (a : list (list X))
    (k : nat) :
  (length a <= k < length a + pad_len)%nat ->
  pad_rows pad_len c a !! k = Some (replicate (length (hd [] a)) c).
Proof.
  intros Hk. unfold pad_rows. rewrite lookup_app_r by lia.
  apply lookup_replicate_2. lia.
Qed.

Lemma mapM_prop {X Y} (f : X -> option Y) (Q : Y -> Prop) (l : list X) :
  (forall x, x ∈ l -> exists y, f x = Some y /\ Q y) ->
  exists k, mapM f l = Some k /\ length k = length l /\ Forall Q k.
Proof.
  induction l as [|x l IH]; intros Hf.
  - exists []. by repeat split.
  - destruct (Hf x) as (y & Hy & HQ); [by left|].
    destruct IH as (k & Hk & Hlen & HQk); [intros; apply Hf; by right|].
    exists (y :: k). cbn. rewrite Hy. cbn. rewrite Hk. cbn.
    repeat split; [by rewrite Hlen|by constructor].
Qed.

Lemma mapM_lookup {X Y} (f : X -> option Y) (l : list X) (k : list Y)
    (i : nat) (x : X) :
  mapM f l = Some k -> l !! i = Some x -> k !! i = f x.
Proof.
  intros Hm Hx. apply mapM_Some in Hm.
  destruct (Forall2_lookup_l _ _ _ _ _ Hm Hx) as (y & Hy & Hfy).
  by rewrite Hy, Hfy.
Qed.

Section WithArray.

Context {arr rng : Type} `{PyRandom rng}.
Variable zeros_like : arr -> arr.

Abbreviation episode := (@episode arr).
Abbreviation window := (@window arr rng _ zeros_like).

Section Episode.

Variable n_obs : nat.
Variable ep : episode.
Hypothesis ok : episode_ok n_obs ep.

Lemma observation_some (player t : Z) :
  player ∈ players ep -> 0 <= t < Py.len (turn ep) ->
  exists o, observation_at ep player t = Some o /\
            forall tuple, o = Some tuple -> length tuple = n_obs.
Proof.
  intros Hp Ht. destruct ok as (_ & _ & _ & _ & _ & Hpl & _).
  destruct (Hpl _ Hp) as (vs & os & _ & _ & Hos & Hlen & Hall).
  unfold observation_at. rewrite Hos. cbn.
  replace t with (Z.of_nat (Z.to_nat t)) by lia. rewrite PyFacts.index_nonneg.
  destruct (lookup_lt_is_Some_2 os (Z.to_nat t)) as [o Ho];
    [unfold Py.len in Ht; lia|].
  exists o. split; [done|]. rewrite Forall_lookup in Hall. by apply (Hall _ _ Ho).
Qed.

Lemma turn_some (t : Z) :
  0 <= t < Py.len (turn ep) ->
  exists player tuple,
    Py.index (turn ep) t = Some player /\
    0 <= player < Z.of_nat (length (players ep)) /\
    player ∈ players ep /\
    observation_at ep player t = Some (Some tuple) /\
    length tuple = n_obs.
Proof.
  intros Ht. destruct ok as (_ & _ & _ & _ & Hturn & _ & Hobs).
  replace t with (Z.of_nat (Z.to_nat t)) by lia. rewrite PyFacts.index_nonneg.
  destruct (lookup_lt_is_Some_2 (turn ep) (Z.to_nat t)) as [player Hpl];
    [unfold Py.len in Ht; lia|].
  rewrite Forall_lookup in Hturn. destruct (Hturn _ _ Hpl) as [Hr Hin].
  destruct (Hobs _ _ Hpl) as [tuple Htuple].
  exists player, tuple. repeat split; try done; try lia.
  destruct (observation_some player (Z.of_nat (Z.to_nat t)) Hin ltac:(lia))
    as (o & Ho & Hlen).
  rewrite Htuple in Ho. injection Ho as <-. by apply Hlen.
Qed.

Lemma obs_full_some (st ed : Z) (obs_zeros : list arr) :
  0 <= st -> ed <= Py.len (turn ep) -> length obs_zeros = n_obs ->
  exists o, obs_full ep st ed obs_zeros = Some o /\
            length o = n_obs /\
            Forall (fun c => length c = Z.to_nat (ed - st)) o.
Proof.
  intros Hst Hed Hz. unfold obs_full.
  destruct (mapM_prop
              (fun i : nat =>
                 mapM (fun t =>
                         mapM (fun player =>
                                 o ← observation_at ep player t;
                                 match o with
                                 | Some tuple => tuple !! i
                                 | None => obs_zeros !! i
                                 end)
                              (players ep))
                      (Py.range st ed))
              (fun c => length c = Z.to_nat (ed - st))
              (seq 0 (length obs_zeros))) as (o & Ho & Hlen & Hall).
  - intros i Hi. apply elem_of_seq in Hi.
    destruct (mapM_prop
                (fun t =>
                   mapM (fun player =>
                           o ← observation_at ep player t;
                           match o with
                           | Some tuple => tuple !! i
                           | None => obs_zeros !! i
                           end)
                        (players ep))
                (fun _ => True) (Py.range st ed)) as (c & Hc & Hcl & _).
    + intros t Ht. apply elem_of_range in Ht.
      destruct (mapM_prop
                  (fun player =>
                     o ← observation_at ep player t;
                     match o with
                     | Some tuple => tuple !! i
                     | None => obs_zeros !! i
                     end)
                  (fun _ => True) (players ep)) as (r & Hr & _).
      * intros player Hp.
        destruct (observation_some player t Hp ltac:(lia)) as (o & Ho & Hl).
        rewrite Ho. cbn. destruct o as [tuple|].
        -- destruct (lookup_lt_is_Some_2 tuple i) as [x Hx];
             [rewrite (Hl tuple eq_refl); lia|]. by exists x.
        -- destruct (lookup_lt_is_Some_2 obs_zeros i) as [x Hx]; [lia|].
           by exists x.
      * by exists r.
    + exists c. split; [done|]. by rewrite Hcl, length_range.
  - exists o. rewrite length_seq in Hlen. split; [done|]. split; [lia|done].
Qed.

Lemma obs_turn_some (st ed : Z) (obs_sample : list arr) :
  0 <= st -> ed <= Py.len (turn ep) -> length obs_sample = n_obs ->
  exists o, obs_turn ep st ed obs_sample = Some o /\
            length o = n_obs /\
            Forall (fun c => length c = Z.to_nat (ed - st)) o.
Proof.
  intros Hst Hed Hz. unfold obs_turn.
  destruct (mapM_prop
              (fun i : nat =>
                 mapM (fun t =>
                         player ← Py.index (turn ep) t;
                         o ← observation_at ep player t;
                         tuple ← o;
                         x ← tuple !! i;
                         Some [x])
                      (Py.range st ed))
              (fun c => length c = Z.to_nat (ed - st))
              (seq 0 (length obs_sample))) as (o & Ho & Hlen & Hall).
  - intros i Hi. apply elem_of_seq in Hi.
    destruct (mapM_prop
                (fun t =>
                   player ← Py.index (turn ep) t;
                   o ← observation_at ep player t;
                   tuple ← o;
                   x ← tuple !! i;
                   Some [x])
                (fun _ => True) (Py.range st ed)) as (c & Hc & Hcl & _).
    + intros t Ht. apply elem_of_range in Ht.
      destruct (turn_some t ltac:(lia)) as (player & tuple & Hp & _ & _ & Ho & Hl).
      rewrite Hp. cbn. rewrite Ho. cbn.
      destruct (lookup_lt_is_Some_2 tuple i) as [x Hx]; [lia|].
      rewrite Hx. cbn. by eexists.
    + exists c. split; [done|]. by rewrite Hcl, length_range.
  - exists o. rewrite length_seq in Hlen. split; [done|]. split; [lia|done].
Qed.

Lemma values_some (st ed : Z) :
  0 <= st -> ed <= Py.len (turn ep) ->
  exists vs, values ep st ed = Some vs /\
             length vs = Z.to_nat (ed - st).
Proof.
  intros Hst Hed. unfold values.
  destruct (mapM_prop
              (fun t =>
                 mapM (fun player =>
                         l ← value ep !! player;
                         x ← Py.index l t;
                         Some (default 0%Q x))
                      (players ep))
              (fun _ => True) (Py.range st ed)) as (vs & Hvs & Hlen & _).
  - intros t Ht. apply elem_of_range in Ht.
    destruct (mapM_prop
                (fun player =>
                   l ← value ep !! player;
                   x ← Py.index l t;
                   Some (default 0%Q x))
                (fun _ => True) (players ep)) as (r & Hr & _).
    + intros player Hp. destruct ok as (_ & _ & _ & _ & _ & Hpl & _).
      destruct (Hpl _ Hp) as (l & os & Hl & Hlen & _). rewrite Hl. cbn.
      replace t with (Z.of_nat (Z.to_nat t)) by lia. rewrite PyFacts.index_nonneg.
      destruct (lookup_lt_is_Some_2 l (Z.to_nat t)) as [x Hx];
        [unfold Py.len in Hed; lia|].
      rewrite Hx. cbn. by eexists.
    + by exists r.
  - exists vs. split; [done|]. by rewrite Hlen, length_range.
Qed.

Lemma tmsk_some (st ed : Z) :
  0 <= st -> st <= ed -> ed <= Py.len (turn ep) ->
  exists tm,
    mapM (eye_row (length (players ep))) (Py.slice (turn ep) st ed) = Some tm /\
    length tm = Z.to_nat (ed - st) /\
    Forall (fun r => length r = length (players ep)) tm /\
    forall k : nat, (k < Z.to_nat (ed - st))%nat ->
      exists player,
        turn ep !! (Z.to_nat st + k)%nat = Some player /\
        tm !! k = eye_row (length (players ep)) player.
Proof.
  intros Hst Hse Hed. destruct ok as (_ & _ & _ & _ & Hturn & _).
  destruct (mapM_prop (eye_row (length (players ep)))
              (fun r => length r = length (players ep))
              (Py.slice (turn ep) st ed)) as (tm & Htm & Hlen & Hall).
  - intros player Hp.
    pose proof (Forall_slice _ _ st ed Hturn) as Hs.
    rewrite Forall_forall in Hs. destruct (Hs _ Hp) as [Hr _].
    by apply eye_row_some.
  - exists tm. rewrite length_slice_nat in Hlen by done.
    split; [done|]. split; [done|]. split; [done|].
    intros k Hk.
    destruct (lookup_lt_is_Some_2 (turn ep) (Z.to_nat st + k)) as [player Hp];
      [unfold Py.len in Hed; lia|].
    exists player. split; [done|].
    apply (mapM_lookup _ _ _ _ _ Htm). by rewrite lookup_slice.
Qed.

End Episode.
End WithArray.
End MakeBatchFacts.

Module MakeBatchWindow.

(** What [window] returns on a well-formed episode. *)
Lemma window_spec {arr rng : Type} `{PyRandom rng} `{!PyRandomLaws rng}
    (zeros_like : arr -> arr) (a : MakeBatch.args)
    (ep : @MakeBatch.episode arr) (g : rng) (n_obs : nat) :
  1 <= Py.len (MakeBatch.turn ep) ->
  1 <= MakeBatch.forward_steps a ->
  MakeBatch.episode_ok n_obs ep ->
  exists st g' d,
    let L := Py.len (MakeBatch.turn ep) in
    let steps := MakeBatch.forward_steps a in
    let real := Z.min (st + steps) L - st in
    let P := length (MakeBatch.players ep) in
    randrange (1 + Z.max 0 (L - steps)) g = Some (st, g') /\
    0 <= st < 1 + Z.max 0 (L - steps) /\
    MakeBatch.window zeros_like a ep g = Some (d, g') /\
    real = Z.min steps L /\
    Py.len (MakeBatch.tmsk d) = steps /\
    Py.len (MakeBatch.vmsk d) = steps /\
    Py.len (MakeBatch.pmsk d) = steps /\
    Py.len (MakeBatch.act d) = steps /\
    Py.len (MakeBatch.p d) = steps /\
    Py.len (MakeBatch.v d) = steps /\
    Py.len (MakeBatch.progress d) = steps /\
    Forall (fun c => Py.len c = steps) (MakeBatch.obs d) /\
    length (MakeBatch.obs d) = n_obs /\
    MakeBatch.ret d = [MakeBatch.reward ep] /\
    (forall k : nat, Z.of_nat k < real ->
       exists player,
         MakeBatch.turn ep !! (Z.to_nat st + k)%nat = Some player /\
         MakeBatch.tmsk d !! k = MakeBatch.eye_row P player) /\
    (forall k : nat, real <= Z.of_nat k < steps ->
       MakeBatch.tmsk d !! k = Some (replicate P 0%Q) /\
       MakeBatch.vmsk d !! k = Some (replicate P 0%Q)).
Proof.
  intros HL Hsteps Hok.
  set (L := Py.len (MakeBatch.turn ep)) in *.
  set (steps := MakeBatch.forward_steps a) in *.
  destruct (randrange_some (1 + Z.max 0 (L - steps)) g ltac:(lia))
    as (st & g' & Hr & Hst).
  set (ed := Z.min (st + steps) L).
  assert (Hed : st < ed /\ ed <= L /\ ed - st = Z.min steps L) by lia.
  destruct (MakeBatchFacts.turn_some n_obs ep Hok st ltac:(lia))
    as (player_st & obs_sample & Hturn & _ & _ & Hobs & Hn).
  destruct (MakeBatchFacts.values_some n_obs ep Hok st ed ltac:(lia) ltac:(lia))
    as (vs & Hvs & Hvl).
  destruct (MakeBatchFacts.tmsk_some n_obs ep Hok st ed
              ltac:(lia) ltac:(lia) ltac:(lia))
    as (tm & Htm & Htl & Htw & Htk).
  assert (Hobs' : exists o,
             (if MakeBatch.observation_mode a
              then MakeBatch.obs_full ep st ed (zeros_like <$> obs_sample)
              else MakeBatch.obs_turn ep st ed obs_sample) = Some o /\
             length o = n_obs /\
             Forall (fun c => length c = Z.to_nat (ed - st)) o).
  { destruct (MakeBatch.observation_mode a).
    - apply (MakeBatchFacts.obs_full_some n_obs ep Hok); try lia.
      by rewrite length_fmap.
    - apply (MakeBatchFacts.obs_turn_some n_obs ep Hok); try lia. }
  destruct Hobs' as (o & Ho & Hol & Hoc).
  exists st, g'.
  unfold MakeBatch.window. cbv zeta. fold L steps. rewrite Hr.
  cbn [mbind option_bind]. fold ed. rewrite Hturn. cbn [mbind option_bind].
  rewrite Hobs. cbn [mbind option_bind]. rewrite Ho. cbn [mbind option_bind].
  rewrite Hvs. cbn [mbind option_bind]. rewrite Htm. cbn [mbind option_bind].
  destruct Hok as (Hpm & Hac & Hpo & Hrw & _).
  assert (Hlen_tm : Py.len tm = ed - st) by (unfold Py.len; lia).
  assert (Hhd : forall l : list (list Q),
             (1 <= length l)%nat ->
             Forall (fun r => length r = length (MakeBatch.players ep)) l ->
             length (hd [] l) = length (MakeBatch.players ep)).
  { intros [|r l] Hl Hall; [simpl in Hl; lia|]. by inversion Hall. }
  assert (Hones : Forall (fun r => length r = length (MakeBatch.players ep))
                         ((fun r : list Q => (fun _ : Q => 1%Q) <$> r) <$> tm)).
  { apply Forall_fmap. eapply Forall_impl; [exact Htw|].
    intros r Hrl. simpl. by rewrite length_fmap. }
  assert (Hpm' : length (Py.slice (MakeBatch.pmask ep) st ed)
                 = Z.to_nat (ed - st)).
  { apply MakeBatchFacts.length_slice_nat; unfold Py.len; unfold L, Py.len in *; lia. }
  assert (Hac' : length (Py.slice (MakeBatch.action ep) st ed)
                 = Z.to_nat (ed - st)).
  { apply MakeBatchFacts.length_slice_nat; unfold Py.len; unfold L, Py.len in *; lia. }
  assert (Hpo' : length (Py.slice (MakeBatch.policy ep) st ed)
                 = Z.to_nat (ed - st)).
  { apply MakeBatchFacts.length_slice_nat; unfold Py.len; unfold L, Py.len in *; lia. }
  rewrite Hlen_tm.
  destruct (Z.ltb_spec (ed - st) steps) as [Hpad|Hfull].
  - rewrite decide_True by done.
    eexists. split; [reflexivity|]. split; [done|]. split; [reflexivity|].
    cbn [MakeBatch.obs MakeBatch.tmsk MakeBatch.pmsk MakeBatch.vmsk
         MakeBatch.act MakeBatch.p MakeBatch.v MakeBatch.progress].
    unfold Py.len.
    rewrite !MakeBatchFacts.length_pad_rows, !length_app, !length_replicate,
      !length_fmap, MakeBatchFacts.length_range.
    split; [lia|]. split; [lia|].
    split; [destruct (MakeBatch.observation_mode a);
            rewrite ?length_fmap; lia|].
    split; [lia|]. split; [lia|]. split; [lia|]. split; [lia|].
    split; [lia|]. split; [|split; [|split; [done|split]]].
    + apply Forall_lookup. intros i c Hc.
      apply lookup_zip_with_Some in Hc as (o0 & s & -> & Ho0 & _).
      rewrite Forall_lookup in Hoc. specialize (Hoc _ _ Ho0).
      rewrite length_app, length_replicate. lia.
    + rewrite length_zip_with. lia.
    + intros k Hk. destruct (Htk k ltac:(lia)) as (player & Hp & Hrow).
      exists player. split; [done|]. unfold MakeBatch.pad_rows.
      rewrite lookup_app_l by lia. done.
    + intros k Hk. split.
      * rewrite MakeBatchFacts.lookup_pad_rows by lia.
        by rewrite Hhd by (done || lia).
      * rewrite MakeBatchFacts.lookup_pad_rows
          by (destruct (MakeBatch.observation_mode a);
              rewrite ?length_fmap; lia).
        destruct (MakeBatch.observation_mode a);
          rewrite Hhd by (done || rewrite ?length_fmap; lia); done.
  - assert (Heq : ed - st = steps) by lia.
    eexists. split; [reflexivity|]. split; [done|]. split; [reflexivity|].
    cbn [MakeBatch.obs MakeBatch.tmsk MakeBatch.pmsk MakeBatch.vmsk
         MakeBatch.act MakeBatch.p MakeBatch.v MakeBatch.progress].
    unfold Py.len. rewrite !length_fmap, MakeBatchFacts.length_range.
    split; [lia|]. split; [lia|].
    split; [destruct (MakeBatch.observation_mode a);
            rewrite ?length_fmap; lia|].
    split; [lia|]. split; [lia|]. split; [lia|]. split; [lia|].
    split; [lia|]. split; [|split; [done|split; [done|split]]].
    + eapply Forall_impl; [exact Hoc|]. intros c Hc. simpl in Hc. lia.
    + intros k Hk. destruct (Htk k ltac:(lia)) as (player & Hp & Hrow).
      by exists player.
    + intros k Hk. lia.
Qed.


(** [swapaxes] succeeds on rows of one length and exchanges the two
    indices. *)
Lemma swapaxes_spec {X} (rows : list (list X)) (n : nat) :
  rows <> [] -> Forall (fun r => length r = n) rows ->
  exists t,
    MakeBatch.swapaxes rows = Some t /\ length t = n /\
    forall (k bi : nat) (r : list X),
      (k < n)%nat -> rows !! bi = Some r ->
      exists col, t !! k = Some col /\ col !! bi = r !! k.
Proof.
  intros Hne Hall. unfold MakeBatch.swapaxes.
  assert (Hhd : length (hd [] rows) = n).
  { destruct rows as [|r rows]; [done|]. by inversion Hall. }
  rewrite Hhd.
  assert (Hfb : forallb (fun r => Nat.eqb (length r) n) rows = true).
  { apply forallb_forall. intros r Hr. apply Nat.eqb_eq.
    rewrite Forall_forall in Hall. apply Hall. by apply list_elem_of_In. }
  rewrite Hfb.
  destruct (MakeBatchFacts.mapM_prop
              (fun t : nat => mapM (fun r : list X => r !! t) rows)
              (fun _ => True) (seq 0 n)) as (t & Ht & Hlen & _).
  - intros k Hk. apply elem_of_seq in Hk.
    destruct (MakeBatchFacts.mapM_prop (fun r : list X => r !! k)
                (fun _ => True) rows) as (col & Hcol & _).
    + intros r Hr. rewrite Forall_forall in Hall.
      destruct (lookup_lt_is_Some_2 r k) as [x Hx];
        [rewrite (Hall _ Hr); lia|].
      by exists x.
    + by exists col.
  - exists t. rewrite length_seq in Hlen. split; [done|]. split; [done|].
    intros k bi r Hk Hr.
    pose proof (MakeBatchFacts.mapM_lookup _ _ _ k k Ht
                  (lookup_seq_lt 0 n k Hk)) as Hcol.
    destruct (t !! k) as [col|] eqn:E.
    + exists col. split; [done|]. symmetry in Hcol.
      by apply (MakeBatchFacts.mapM_lookup _ _ _ bi r Hcol).
    + rewrite Forall_forall in Hall.
      assert (Hs : is_Some (mapM (fun r : list X => r !! k) rows)).
      { apply mapM_is_Some, Forall_forall. intros r' Hr'.
        apply lookup_lt_is_Some. rewrite (Hall _ Hr'). lia. }
      rewrite <- Hcol in Hs. by destruct Hs.
Qed.

Lemma foldr_min_same (n : nat) (ls : list nat) :
  Forall (fun m => m = n) ls -> foldr Nat.min n ls = n.
Proof. induction 1 as [|m ls -> _ IH]; simpl; [done|]. rewrite IH. lia. Qed.

(** The columns of rows of one length [n]: there are [n] of them, none
    is empty, and column [i] collects the entries [i]. *)
Lemma zip_star_spec {X} (rows : list (list X)) (n : nat) (Q : X -> Prop) :
  rows <> [] -> Forall (fun r => length r = n /\ Forall Q r) rows ->
  length (MakeBatch.zip_star rows) = n /\
  Forall (fun col => col <> [] /\ Forall Q col) (MakeBatch.zip_star rows).
Proof.
  intros Hne Hall. destruct rows as [|r rows]; [done|].
  unfold MakeBatch.zip_star.
  assert (Hr : length r = n) by (inversion Hall as [|? ? [? _]]; done).
  rewrite foldr_min_same, Hr.
  - split; [by rewrite length_fmap, length_seq|].
    apply Forall_fmap, Forall_forall. intros i Hi. apply elem_of_seq in Hi.
    simpl. destruct (lookup_lt_is_Some_2 r i) as [x Hx]; [lia|].
    rewrite Hx. simpl. split; [done|].
    apply Forall_forall. intros y Hy. apply elem_of_cons in Hy as [->|Hy].
    + inversion Hall as [|? ? [_ HQ]]. subst.
      rewrite Forall_lookup in HQ. by apply (HQ _ _ Hx).
    + apply list_elem_of_omap in Hy as (r' & Hr' & Hy).
      inversion Hall as [|? ? _ Hrest]. subst.
      rewrite Forall_forall in Hrest. destruct (Hrest _ Hr') as [_ HQ].
      rewrite Forall_lookup in HQ. by apply (HQ _ _ Hy).
  - apply Forall_fmap. inversion Hall as [|? ? _ Hrest]. subst.
    eapply Forall_impl; [exact Hrest|]. intros r' [Hl _]. simpl. lia.
Qed.

Section Batch.

Context {arr rng : Type} `{PyRandom rng} `{!PyRandomLaws rng}.
Variable zeros_like : arr -> arr.
Variable a : MakeBatch.args.
Variable n_obs : nat.
Hypothesis steps_pos : 1 <= MakeBatch.forward_steps a.

Abbreviation window_shape := (@MakeBatch.window_shape arr a n_obs).

Lemma windows_spec (episodes : list (@MakeBatch.episode arr)) :
  Forall (fun ep => 1 <= Py.len (MakeBatch.turn ep) /\
                    MakeBatch.episode_ok n_obs ep) episodes ->
  forall g : rng,
  exists ds g',
    MakeBatch.windows zeros_like a episodes g = Some (ds, g') /\
    length ds = length episodes /\ Forall window_shape ds.
Proof.
  induction 1 as [|ep episodes [HL Hok] _ IH]; intros g.
  - exists [], g. by repeat split.
  - destruct (window_spec zeros_like a ep g n_obs HL steps_pos Hok)
      as (st & g1 & d & _ & _ & Hw & _ & H1 & H2 & H3 & H4 & H5 & H6 & H7
          & H8 & H9 & H10 & _).
    destruct (IH g1) as (ds & g2 & Hws & Hlen & Hall).
    exists (d :: ds), g2. simpl. rewrite Hw. cbn. rewrite Hws. cbn.
    split; [done|]. split; [by rewrite Hlen|]. constructor; [|done].
    unfold MakeBatch.window_shape, Py.len in *. rewrite H10. simpl.
    repeat split; try lia.
    eapply Forall_impl; [exact H8|]. intros c Hc. simpl in Hc. lia.
Qed.

End Batch.
End MakeBatchWindow.

Module WindowFixtureFacts.
Import WindowFixture.

Lemma players_ep : MakeBatch.players ep = [0; 1].
Proof. vm_compute. reflexivity. Qed.

Lemma ep_ok : MakeBatch.episode_ok 1 ep.
Proof.
  unfold MakeBatch.episode_ok. rewrite players_ep. simpl.
  repeat split; try done.
  - repeat constructor; try lia; set_solver.
  - intros player Hp.
    apply elem_of_cons in Hp as [->|Hp];
      [|apply list_elem_of_singleton in Hp as ->].
    + exists [Some (1 # 2)%Q; None], [Some [5]; None].
      repeat split; try done.
      repeat constructor; intros tuple [= <-]; done.
    + exists [None; Some (- (1 # 2))%Q], [None; Some [6]].
      repeat split; try done.
      repeat constructor; intros tuple [= <-]; done.
  - intros [|[|t]] player Ht; simpl in Ht; try done;
      injection Ht as <-; eexists; vm_compute; reflexivity.
Qed.

End WindowFixtureFacts.

(** ** More facts about the episode store and the results *)

Module StoreMore.
Import Store.

Lemma evict_negative {episode : Type} (m : Z) (d : list episode) :
  m < 0 -> evict m d = None.
Proof.
  intros Hm. induction d as [|x d IH]; simpl.
  - destruct (Z.ltb_spec m 0); [done|lia].
  - pose proof (PyFacts.len_nonneg (x :: d)).
    destruct (Z.ltb_spec m (Py.len (x :: d))); [done|lia].
Qed.

End StoreMore.

Module ResultsFacts.
Import Learner Coordinator.

Lemma count_of_feed_result (results : gmap Z (gmap Z Z)) (x : Z * option Z)
    (model_id reward : Z) :
  count_of (feed_result results x) model_id reward
  = count_of results model_id reward
    + (if decide (x = (model_id, Some reward)) then 1 else 0).
Proof.
  unfold count_of, feed_result. destruct x as [i [r|]]; simpl.
  - destruct (decide (i = model_id)) as [->|Hi].
    + rewrite lookup_insert_eq. simpl.
      destruct (decide (r = reward)) as [->|Hr].
      * rewrite lookup_insert_eq, decide_True by done. simpl.
        destruct (results !! model_id) as [d|]; simpl.
        -- destruct (d !! reward); simpl; lia.
        -- rewrite lookup_empty. simpl. lia.
      * rewrite lookup_insert_ne by done.
        rewrite decide_False by congruence.
        destruct (results !! model_id) as [d|]; simpl; [lia|].
        rewrite lookup_empty. simpl. lia.
    + rewrite lookup_insert_ne by done.
      rewrite decide_False by congruence. lia.
  - rewrite decide_False by congruence. lia.
Qed.

(** Outcomes between a loss and a win score between nothing and the
    count. *)
Lemma tally_bounds (items : list (Z * Z)) :
  Forall (fun item => -1 <= item.1 <= 1 /\ 0 < item.2) items ->
  (0 <= qsum score items)%Q /\
  (qsum score items <= inject_Z (zsum items))%Q.
Proof.
  induction 1 as [|[r cnt] items [Hr Hc] _ [IH1 IH2]].
  - split; apply Qle_refl.
  - simpl in Hr, Hc.
    change (qsum score ((r, cnt) :: items))
      with (score r cnt + qsum score items)%Q.
    change (zsum ((r, cnt) :: items)) with (cnt + zsum items).
    assert (H0 : (0 <= score r cnt)%Q).
    { unfold score. apply Qmult_le_0_compat.
      - change 0%Q with (inject_Z 0). rewrite <- Zle_Qle. lia.
      - apply Qle_shift_div_l; [reflexivity|]. rewrite Qmult_0_l.
        change 0%Q with (inject_Z 0). rewrite <- Zle_Qle. lia. }
    assert (H1 : (score r cnt <= inject_Z cnt)%Q).
    { unfold score. rewrite <- (Qmult_1_r (inject_Z cnt)) at 2.
      apply Qmult_le_l; [change 0%Q with (inject_Z 0); rewrite <- Zlt_Qlt; lia|].
      apply Qle_shift_div_r; [reflexivity|]. rewrite Qmult_1_l.
      change 2%Q with (inject_Z 2). rewrite <- Zle_Qle. lia. }
    split.
    + replace 0%Q with (0 + 0)%Q by reflexivity. by apply Qplus_le_compat.
    + rewrite (inject_Z_plus cnt (zsum items)). by apply Qplus_le_compat.
Qed.

End ResultsFacts.

(** ** More facts about the request loop *)

Module ServeFacts.
Import Learner Coordinator.

Section WithModel.

Context {model state_dict episode : Type}.
Variable get_state_dict : model -> state_dict.
Variable model_class : model.
Variable load_state_dict : model -> state_dict -> model.

Abbreviation learner := (@learner model state_dict episode).
Abbreviation serve := (@serve model state_dict episode model_class load_state_dict).
Abbreviation update := (@update model state_dict episode get_state_dict).
Abbreviation run := (@run model state_dict episode get_state_dict model_class load_state_dict).
Abbreviation server_until := (@server_until model state_dict episode model_class load_state_dict).
Abbreviation server_from := (@server_from model state_dict episode get_state_dict model_class load_state_dict).

(** The generation arguments issued for episode [k] in era [era]. *)
Lemma gargs_iter_items (st : learner) (count : nat) (acc : list (@item model)) :
  Nat.iter count gargs_one (st, acc)
  = (Learner_ (model_era st) (current st) (num_episodes st + Z.of_nat count)
              (results st) (num_results st) (episodes st) (files st),
     acc ++ ((fun k : nat =>
                GenArgs (num_episodes st + Z.of_nat k)
                        ((num_episodes st + Z.of_nat k) `mod` 2)
                        [model_era st] [model_era st]) <$> seq 0 count)).
Proof.
  induction count as [|count IH].
  - simpl. rewrite Z.add_0_r, app_nil_r. by destruct st.
  - rewrite Nat.iter_succ, IH. unfold gargs_one at 1. simpl fst. simpl snd.
    cbn [model_era current num_episodes results num_results episodes files].
    rewrite seq_S, fmap_app, app_assoc. simpl.
    do 2 f_equal. lia.
Qed.

Lemma eargs_iter_items (st : learner) (count : nat) (acc : list (@item model)) :
  Nat.iter count eargs_one (st, acc)
  = (Learner_ (model_era st) (current st) (num_episodes st) (results st)
              (num_results st + Z.of_nat count) (episodes st) (files st),
     acc ++ ((fun k : nat =>
                EvalArgs (model_era st)
                         ((num_results st + Z.of_nat k) `mod` 2))
             <$> seq 0 count)).
Proof.
  induction count as [|count IH].
  - simpl. rewrite Z.add_0_r, app_nil_r. by destruct st.
  - rewrite Nat.iter_succ, IH. unfold eargs_one at 1. simpl fst. simpl snd.
    cbn [model_era current num_episodes results num_results episodes files].
    rewrite seq_S, fmap_app, app_assoc. simpl.
    do 2 f_equal. lia.
Qed.

Lemma reply_items_shape (multi : bool) (send_data : list (@item model)) :
  reply_items (shape multi send_data) = send_data.
Proof. by destruct multi, send_data as [|x [|y l]]. Qed.

Lemma shape_one (multi : bool) (send_data : list (@item model)) :
  (exists x, shape multi send_data = One x)
  <-> multi = false /\ length send_data = 1%nat.
Proof.
  destruct multi, send_data as [|x [|y l]]; simpl; split;
    try (intros [? ?]; done); try (intros [? ?]; eauto; done).
Qed.

(** Requests leave the current model alone. *)
Lemma run_requests_current (a : args) (evs : list event) :
  forall st st' : learner,
    run a st evs = Some st' -> updates evs = 0 ->
    current st' = current st.
Proof.
  induction evs as [|ev evs IH]; intros st st' H Hup; simpl in H.
  - by injection H as <-.
  - destruct (step _ _ _ a st ev) as [s|] eqn:Es; [|done].
    destruct ev as [req|polls]; simpl in Es, Hup.
    + destruct (serve a st req) as [[s' rep]|] eqn:E; [|done].
      injection Es as <-.
      apply LearnerFacts.serve_keeps in E as (_ & E2 & _).
      rewrite (IH _ _ H Hup). done.
    + pose proof (LearnerFacts.updates_nonneg evs). lia.
Qed.

(** The inner loop is left only once enough episodes have been handed
    out, and it takes its requests from the front of the inbox. *)
Lemma server_until_reaches (a : args) (next : Z) (inbox : list request) :
  forall (st st' : learner) (rest : list request),
    server_until a next st inbox = Some (st', rest) ->
    next <= num_episodes st' /\ exists consumed, inbox = consumed ++ rest.
Proof.
  induction inbox as [|req inbox IH]; intros st st' rest; simpl.
  - destruct (Z.ltb_spec (num_episodes st) next); [done|].
    intros [= <- <-]. split; [done|]. by exists [].
  - destruct (Z.ltb_spec (num_episodes st) next).
    + destruct (serve a st req) as [[s rep]|] eqn:E; [|done].
      intros Hs. destruct (IH _ _ _ Hs) as (Hn & consumed & ->).
      split; [done|]. by exists (req :: consumed).
    + intros [= <- <-]. split; [done|]. by exists [].
Qed.

Lemma update_num_episodes (a : args) (st st' : learner)
    (polls : list (option model * Z)) (rep : report) :
  update a st polls = Some (st', rep) -> num_episodes st' = num_episodes st.
Proof.
  unfold Learner.update. destruct (win_rate _ _); [|done].
  destruct (trainer_update _ _ _) as [[m steps]|]; [|done].
  by intros [= <- _].
Qed.

Lemma server_from_reaches (a : args) (pollss : list (list (option model * Z))) :
  forall (prev : Z) (st st' : learner) (inbox rest : list request),
    pollss <> [] ->
    server_from a prev st inbox pollss = Some (st', rest) ->
    prev + Py.len pollss * update_episodes a <= num_episodes st' /\
    exists consumed, inbox = consumed ++ rest.
Proof.
  induction pollss as [|polls pollss IH]; intros prev st st' inbox rest Hne;
    [done|]. simpl.
  destruct (server_until a (prev + update_episodes a) st inbox)
    as [[st1 inbox1]|] eqn:E1; [|done].
  destruct (update a st1 polls) as [[st2 rep]|] eqn:E2; [|done].
  apply server_until_reaches in E1 as (Hn & consumed & ->).
  apply update_num_episodes in E2.
  destruct pollss as [|polls' pollss].
  - simpl. intros [= <- <-]. split; [|by exists consumed].
    unfold Py.len. simpl. lia.
  - intros Hs. destruct (IH _ _ _ _ _ ltac:(done) Hs) as (Hn' & consumed' & ->).
    split; [|exists (consumed ++ consumed'); by rewrite app_assoc].
    unfold Py.len in *. simpl length in *. lia.
Qed.

End WithModel.
End ServeFacts.

(** ** More facts about the sampler *)

Module SamplerMore.
Import Sampler.

(** A positive acceptance rate: the index is less than
    [maximum_episodes] positions behind the newest. *)
Lemma accept_rate_pos_inv (n m i : Z) :
  0 < m -> (0 < accept_rate n m i)%Q -> n - 1 - i < m.
Proof.
  intros Hm. unfold accept_rate.
  assert (Hq : (inject_Z (n - 1 - i) / inject_Z m
                == (n - 1 - i) # Z.to_pos m)%Q).
  { unfold Qdiv, Qinv, Qmult, Qeq, inject_Z. simpl.
    destruct m as [|p|p]; try lia. simpl. lia. }
  rewrite Hq. unfold Qlt, Qminus, Qplus, Qopp. simpl.
  rewrite Z2Pos.id by lia. nia.
Qed.

Section WithRandom.

Context {episode rng : Type} `{PyRandom rng} `{!PyRandomLaws rng}.

(** A successful [randrange(n)] had a positive [n] and returned an
    index below it. *)
Lemma randrange_inv (n r : Z) (g g' : rng) :
  randrange n g = Some (r, g') -> 0 < n /\ 0 <= r < n.
Proof.
  intros Hr. destruct (Z.lt_ge_cases 0 n) as [Hn|Hn].
  - split; [done|].
    destruct (randrange_some n g Hn) as (r' & g'' & Hr' & Hb).
    rewrite Hr in Hr'. by injection Hr' as -> _.
  - rewrite (randrange_none n g Hn) in Hr. done.
Qed.

(** What an accepted draw tells about its index. *)
Lemma draw_accepted (episodes : list episode) (maximum_episodes idx : Z)
    (g g' : rng) :
  draw episodes maximum_episodes g = Some (idx, true, g') ->
  0 <= idx < Z.min (Py.len episodes) maximum_episodes /\
  Py.len episodes - 1 - maximum_episodes < idx.
Proof.
  unfold draw.
  destruct (randrange _ g) as [[i g1]|] eqn:Hr; [|done].
  apply randrange_inv in Hr as [Hn Hi].
  pose proof (random_unit g1) as [Hu0 _].
  destruct (random g1) as [u g2]. simpl in Hu0.
  destruct (Qlt_le_dec u _) as [Hlt|]; [|done].
  intros [= -> <-]. split; [done|].
  assert (Hpos : (0 < accept_rate (Py.len episodes) maximum_episodes idx)%Q)
    by (eapply Qle_lt_trans; [exact Hu0|exact Hlt]).
  apply accept_rate_pos_inv in Hpos; lia.
Qed.

End WithRandom.
End SamplerMore.

(** ** Facts about the example loader *)

Module LoaderFacts.

Lemma fixture_installs : Loader.installs id LoaderFixture.try_load.
Proof.
  intros m saved. unfold LoaderFixture.try_load, id.
  by destruct (decide (length saved = length m)).
Qed.

(** An era reached without training saves the state dict of the
    [RandomModel], which has no parameters.  Loading it into a network
    with two parameters raises, and a later request for that era is
    answered with the new network, untrained. *)
Lemma random_model_era_not_loaded :
  let a := Learner.Args 1 10 2 in
  let load := Loader.load_state_dict LoaderFixture.try_load in
  exists st : @Learner.learner (list Z) (list Z) nat,
    Learner.run id [0; 0] load a (Learner.init [] ∅)
      [Learner.Update []; Learner.Update []] = Some st /\
    Learner.model_era st = 2 /\
    Learner.files st !! Learner.model_path 1 = Some [] /\
    Loader.raised (LoaderFixture.try_load [0; 0] []) = true /\
    Learner.fetch_model [0; 0] load st 1 = [0; 0].
Proof. eexists. repeat split; vm_compute; reflexivity. Qed.

End LoaderFacts.

(** ** More facts about the registration loop *)

Module EntryMore.
Import Entry EntryBalance.

Lemma len_snoc {A} (l : list A) (x : A) : Py.len (l ++ [x]) = Py.len l + 1.
Proof. unfold Py.len. rewrite length_app. simpl. lia. Qed.

Lemma assign_two_first (rate : Num.number) (acc : state * list Z * list Z) :
  Num.ltb rate (Num.Int 0) = false ->
  two_first acc.1.1 -> two_first (assign rate acc).1.1.
Proof.
  destruct acc as [[s g] e]. simpl. intros Hrate Htwo.
  unfold assign, two_first.
  destruct (wants_generator rate s) eqn:Ew; simpl.
  - intros _. by apply (EntryFacts.wants_generator_two rate).
  - rewrite len_snoc. intros HG. specialize (Htwo HG). lia.
Qed.

Lemma slots_two_first (rate : Num.number) (st : state) (k : nat) :
  Num.ltb rate (Num.Int 0) = false ->
  two_first st -> two_first (slot_state rate st k).
Proof.
  intros Hrate Hb. unfold slot_state. induction k as [|k IH]; [done|].
  rewrite EntryFacts.slots_S. by apply assign_two_first.
Qed.

Lemma entry_server_two_first (rate : Num.number) (reqs : list Z) :
  Num.ltb rate (Num.Int 0) = false -> two_first (entry_server rate reqs).
Proof.
  intros Hrate. unfold entry_server.
  induction reqs as [|n reqs IH] using rev_ind.
  - unfold two_first, init, Py.len. simpl. lia.
  - rewrite foldl_app. simpl. by apply slots_two_first.
Qed.

Lemma assign_balanced (r : Z) (acc : state * list Z * list Z) :
  0 <= r -> balanced r acc.1.1 -> balanced r (assign (Num.Int r) acc).1.1.
Proof.
  destruct acc as [[s g] e]. simpl. intros Hrate [Hle Hlt].
  unfold assign, balanced.
  destruct (wants_generator (Num.Int r) s) eqn:Ew; simpl.
  - apply EntryFacts.wants_generator_int in Ew.
    rewrite len_snoc. split; [nia|]. intros _.
    replace (Py.len (total_gids s) + 1 - 1) with (Py.len (total_gids s))
      by lia.
    lia.
  - assert (Hge : Py.len (total_eids s) - 1 <= Py.len (total_gids s) * r).
    { destruct (Z.lt_ge_cases (Py.len (total_gids s) * r)
                              (Py.len (total_eids s) - 1)) as [H|H]; [|lia].
      apply EntryFacts.wants_generator_int in H. congruence. }
    rewrite len_snoc. split; [lia|]. intros HG. specialize (Hlt HG). lia.
Qed.

Lemma slots_balanced (r : Z) (st : state) (k : nat) :
  0 <= r -> balanced r st -> balanced r (slot_state (Num.Int r) st k).
Proof.
  intros Hrate Hb. unfold slot_state. induction k as [|k IH]; [done|].
  rewrite EntryFacts.slots_S. by apply assign_balanced.
Qed.

Lemma entry_server_balanced (r : Z) (reqs : list Z) :
  0 <= r -> balanced r (entry_server (Num.Int r) reqs).
Proof.
  intros Hrate. unfold entry_server.
  induction reqs as [|n reqs IH] using rev_ind.
  - unfold balanced, init, Py.len. simpl. lia.
  - rewrite foldl_app. simpl. by apply slots_balanced.
Qed.

End EntryMore.

(** ** Facts about the hand-over between the threads *)

Module TrainerFacts.
Import Trainer.

Section WithModel.

Context {model : Type}.

Abbreviation state := (@Trainer.state model).

Lemma reports_snoc (st : state) (rs : list (option model * Z))
    (r : option model * Z) :
  reports st (rs ++ [r]) = State false r.
Proof.
  unfold reports. rewrite foldl_app. simpl. unfold report_update.
  by destruct r.
Qed.

(** After the reports of one sleep the pair is the last report, if
    there was one. *)
Lemma reports_last (st : state) (rs : list (option model * Z)) :
  reports st rs = match last rs with
                  | Some r => State false r
                  | None => st
                  end.
Proof.
  destruct rs as [|r0 rs] using rev_ind; [done|].
  by rewrite reports_snoc, last_snoc.
Qed.

(** As long as [recheck_update] has no model to give, whatever [poll]
    returns was reported during one of the sleeps. *)
Lemma poll_fresh (schedule : list (list (option model * Z))) :
  forall (st st' : state) (m : model) (steps : Z),
    (recheck_update st).1 = None ->
    poll st schedule = Some (m, steps, st') ->
    exists (k : nat) (rs : list (option model * Z)),
      schedule !! k = Some rs /\ last rs = Some (Some m, steps) /\
      st' = State false (Some m, steps).
Proof.
  induction schedule as [|rs schedule IH]; intros st st' m steps Hst; simpl;
    [done|].
  rewrite reports_last. destruct (last rs) as [[[m0|] s0]|] eqn:El.
  - simpl. intros [= <- <- <-]. by exists 0%nat, rs.
  - simpl. intros Hp.
    destruct (IH (State false (None, s0)) st' m steps eq_refl Hp)
      as (k & rs' & Hk & Hl & ->).
    by exists (S k), rs'.
  - destruct (recheck_update st) as [[m0|] s0] eqn:Er; [done|].
    intros Hp. destruct (IH st st' m steps) as (k & rs' & Hk & Hl & ->);
      [by rewrite Er|done|].
    by exists (S k), rs'.
Qed.

(** The loop returns the first model among the values of
    [recheck_update]. *)
Lemma poll_rechecks (schedule : list (list (option model * Z))) :
  forall st : state,
    (fun x : model * Z * state => x.1) <$> poll st schedule
    = Learner.await (rechecks st schedule).
Proof.
  induction schedule as [|rs schedule IH]; intros st; simpl; [done|].
  destruct (recheck_update (reports st rs)) as [[m|] steps]; [done|].
  apply IH.
Qed.

(** Reports without a model never end the loop. *)
Lemma poll_none (schedule : list (list (option model * Z))) :
  Forall (Forall (fun r => r.1 = None)) schedule ->
  forall st : state, (recheck_update st).1 = None -> poll st schedule = None.
Proof.
  induction 1 as [|rs schedule Hrs _ IH]; intros st Hst; simpl; [done|].
  rewrite reports_last. destruct (last rs) as [[m0 s0]|] eqn:El.
  - apply last_Some in El as [rs' ->].
    rewrite Forall_app in Hrs. destruct Hrs as [_ Hr].
    rewrite Forall_singleton in Hr. simpl in Hr. subst m0. simpl.
    by apply IH.
  - destruct (recheck_update st) as [[m0|] s0] eqn:Er; [done|].
    apply IH. by rewrite Er.
Qed.

End WithModel.
End TrainerFacts.

(** ** Facts about the training loop *)

Module TrainLoopFacts.
Import TrainLoop.

(** The loop is left after some number of batches, with their counts
    of training data added up to something other than zero, at a test
    that found one of the flags up. *)
Lemma loop_spec (flag : nat -> bool) (batches : list batch_result) :
  forall (k : nat) (c c' : locals),
    loop flag k c batches = Some c' ->
    exists n : nat,
      (n <= length batches)%nat /\
      batch_cnt c' = batch_cnt c + Z.of_nat n /\
      steps c' = steps c + Z.of_nat n /\
      (data_cnt c' == data_cnt c + total (take n batches))%Q /\
      ~ (data_cnt c' == 0)%Q /\
      flag (k + n)%nat = true.
Proof.
  induction batches as [|b batches IH]; intros k c c'; simpl.
  - destruct (Qeq_bool (data_cnt c) 0) eqn:E0; simpl; [done|].
    destruct (flag k) eqn:Ef; simpl; [|done].
    intros [= <-]. exists 0%nat. rewrite Nat.add_0_r. simpl.
    split; [lia|]. split; [lia|]. split; [lia|]. split; [lra|].
    split; [by apply Qeq_bool_neq|done].
  - destruct (Qeq_bool (data_cnt c) 0 || negb (flag k)) eqn:E.
    + intros Hl. destruct (IH _ _ _ Hl) as (n & Hn & Hb & Hs & Hd & Hz & Hf).
      exists (S n). simpl in Hb, Hs, Hd.
      split; [lia|]. split; [lia|]. split; [lia|].
      split; [|split; [done|]].
      * rewrite Hd. simpl. lra.
      * by replace (k + S n)%nat with (S k + n)%nat by lia.
    + apply orb_false_iff in E as [E0 Ef]. apply negb_false_iff in Ef.
      intros [= <-]. exists 0%nat. rewrite Nat.add_0_r. simpl.
      split; [lia|]. split; [lia|]. split; [lia|]. split; [lra|].
      split; [by apply Qeq_bool_neq|done].
Qed.

Lemma total_nonneg (batches : list batch_result) :
  Forall (fun b => (0 <= dcnt b)%Q) batches -> (0 <= total batches)%Q.
Proof.
  induction 1 as [|b batches Hb _ IH]; simpl; [apply Qle_refl|]. lra.
Qed.

End TrainLoopFacts.

(** ** Facts about the grouping into batches *)

Module BatcherFacts.
Import Batcher.

Lemma worker_chunks {episode : Type} (batch_size : Z)
    (received : list episode) :
  forall episodes : list episode,
    Py.len episodes < Z.max 1 batch_size ->
    concat (worker batch_size episodes received).1
      ++ (worker batch_size episodes received).2
    = episodes ++ received /\
    Forall (fun call => Py.len call = Z.max 1 batch_size)
           (worker batch_size episodes received).1 /\
    Py.len (worker batch_size episodes received).2 < Z.max 1 batch_size.
Proof.
  induction received as [|ep received IH]; intros episodes Hlen; simpl.
  - rewrite app_nil_r. repeat split; [by constructor|done].
  - pose proof (EntryMore.len_snoc episodes ep) as Hsnoc.
    pose proof (PyFacts.len_nonneg episodes) as Hnn.
    destruct (Z.leb_spec batch_size (Py.len (episodes ++ [ep]))) as [Hle|Hlt].
    + destruct (IH []) as (Hc & Hf & Hw); [unfold Py.len; simpl; lia|].
      destruct (worker batch_size [] received) as [calls waiting].
      simpl in *. split; [|split; [|done]].
      * rewrite <- !app_assoc. f_equal. simpl. f_equal. done.
      * constructor; [lia|done].
    + destruct (IH (episodes ++ [ep])) as (Hc & Hf & Hw); [lia|].
      split; [|done]. rewrite Hc, <- app_assoc. done.
Qed.

End BatcherFacts.

(** ** Facts about shapes *)

Module NpFacts.
Import Np.

Lemma shape_cons {X} `{Shaped X} (x : X) (l : list X) :
  shape (x :: l)
  = match shape x with
    | Some s =>
        if forallb (fun y => bool_decide (shape y = Some s)) l
        then Some (length (x :: l) :: s)
        else None
    | None => None
    end.
Proof. reflexivity. Qed.

(** A sequence, not empty, of arrays of one shape. *)
Lemma shape_regular {X} `{Shaped X} (l : list X) (s : list nat) :
  l <> [] -> Forall (fun x => shape x = Some s) l ->
  shape l = Some (length l :: s).
Proof.
  intros Hne Hall. destruct l as [|x l]; [done|].
  inversion Hall as [|? ? Hx Hl]; subst.
  rewrite shape_cons, Hx.
  assert (Hf : forallb (fun y => bool_decide (shape y = Some s)) l = true).
  { apply forallb_forall. intros y Hy. apply bool_decide_eq_true_2.
    rewrite Forall_forall in Hl. apply Hl. by apply list_elem_of_In. }
  by rewrite Hf.
Qed.

(** A sequence that has a shape holds arrays of one shape. *)
Lemma shape_inv {X} `{Shaped X} (l : list X) (sh : list nat) :
  shape l = Some sh ->
  exists s, sh = length l :: s /\ Forall (fun x => shape x = Some s) l.
Proof.
  destruct l as [|x l].
  - intros [= <-]. by exists [].
  - rewrite shape_cons. destruct (shape x) as [s|] eqn:Ex; [|done].
    destruct (forallb _ l) eqn:Ef; [|done]. intros [= <-]. exists s.
    split; [done|]. constructor; [done|].
    rewrite forallb_forall in Ef. apply Forall_forall. intros y Hy.
    eapply bool_decide_eq_true_1, Ef. by apply list_elem_of_In.
Qed.

Lemma shape_length {X} `{Shaped X} (l : list X) (n : nat) (s : list nat) :
  shape l = Some (n :: s) -> length l = n.
Proof. intros Hs. destruct (shape_inv l _ Hs) as (s' & [= -> _] & _). done. Qed.

Lemma shape_row_Q (r : list Q) : shape r = Some [length r].
Proof.
  destruct r as [|x r]; [done|].
  apply (shape_regular _ []); [done|]. by apply Forall_forall.
Qed.

Lemma shape_row_Z (r : list Z) : shape r = Some [length r].
Proof.
  destruct r as [|x r]; [done|].
  apply (shape_regular _ []); [done|]. by apply Forall_forall.
Qed.

Lemma shape_matrix_Q (m : list (list Q)) (w : nat) :
  m <> [] -> Forall (fun r => length r = w) m ->
  shape m = Some [length m; w].
Proof.
  intros Hne Hall. apply shape_regular; [done|].
  eapply Forall_impl; [exact Hall|]. intros r <-. apply shape_row_Q.
Qed.

Lemma shape_matrix_Z (m : list (list Z)) (w : nat) :
  m <> [] -> Forall (fun r => length r = w) m ->
  shape m = Some [length m; w].
Proof.
  intros Hne Hall. apply shape_regular; [done|].
  eapply Forall_impl; [exact Hall|]. intros r <-. apply shape_row_Z.
Qed.

(** Steps of [w] arrays of shape [s] each. *)
Lemma shape_steps {X} `{Shaped X} (c : list (list X)) (w : nat)
    (s : list nat) :
  c <> [] -> w <> 0%nat ->
  Forall (fun step => length step = w /\
                      Forall (fun x => shape x = Some s) step) c ->
  shape c = Some (length c :: w :: s).
Proof.
  intros Hne Hw Hall. apply shape_regular; [done|].
  eapply Forall_impl; [exact Hall|]. intros step [<- Hs].
  apply shape_regular; [by destruct step|done].
Qed.

End NpFacts.

(** ** More facts about the windows of [make_batch] *)

Module WindowMore.
Import MakeBatch.

Section WithArray.

Context {arr rng : Type} `{PyRandom rng}.
Variable zeros_like : arr -> arr.

Abbreviation window := (@window arr rng _ zeros_like).

(** A window that was built, taken apart: the start that was drawn,
    the arrays cut out of the episode, and whether they were padded. *)
Lemma window_inv (a : args) (ep : @episode arr) (g g' : rng) (d : datum) :
  window a ep g = Some (d, g') ->
  exists st player_st obs_sample obs0 v0 tm,
    let steps := forward_steps a in
    let ed := Z.min (st + steps) (Py.len (turn ep)) in
    let vm := if observation_mode a
              then (fun r : list Q => (fun _ => 1%Q) <$> r) <$> tm else tm in
    let pad_len := Z.to_nat (steps - Py.len tm) in
    randrange (1 + Z.max 0 (Py.len (turn ep) - steps)) g = Some (st, g') /\
    Py.index (turn ep) st = Some player_st /\
    observation_at ep player_st st = Some (Some obs_sample) /\
    (if observation_mode a
     then obs_full ep st ed (zeros_like <$> obs_sample)
     else obs_turn ep st ed obs_sample) = Some obs0 /\
    values ep st ed = Some v0 /\
    mapM (eye_row (length (players ep))) (Py.slice (turn ep) st ed) = Some tm /\
    ((Py.len tm < steps /\
      d = Datum
            (zip_with (fun o s =>
                         o ++ replicate pad_len
                                (replicate (length (hd [] o)) (zeros_like s)))
                      obs0 obs_sample)
            (pad_rows pad_len 0%Q tm)
            (pad_rows pad_len (100000000000000000000000000000000 # 1)%Q
                      (Py.slice (pmask ep) st ed))
            (pad_rows pad_len 0%Q vm)
            (pad_rows pad_len 0 ((fun x => [x]) <$> Py.slice (action ep) st ed))
            (pad_rows pad_len 0%Q (Py.slice (policy ep) st ed))
            (v0 ++ replicate pad_len (reward ep))
            [reward ep]
            (((fun t => inject_Z t / inject_Z (Py.len (turn ep)))%Q
                <$> Py.range st ed) ++ replicate pad_len 1%Q)) \/
     (steps <= Py.len tm /\
      d = Datum obs0 tm (Py.slice (pmask ep) st ed) vm
            ((fun x => [x]) <$> Py.slice (action ep) st ed)
            (Py.slice (policy ep) st ed) v0 [reward ep]
            ((fun t => inject_Z t / inject_Z (Py.len (turn ep)))%Q
               <$> Py.range st ed))).
Proof.
  unfold MakeBatch.window. cbv zeta.
  destruct (randrange _ g) as [[st g1]|] eqn:Hr; [|done].
  cbn [mbind option_bind].
  destruct (Py.index (turn ep) st) as [player_st|] eqn:Hturn; [|done].
  cbn [mbind option_bind].
  destruct (observation_at ep player_st st) as [[obs_sample|]|] eqn:Hobs;
    [|done|done].
  cbn [mbind option_bind].
  destruct (if observation_mode a then _ else _) as [obs0|] eqn:Ho; [|done].
  cbn [mbind option_bind].
  destruct (values ep st _) as [v0|] eqn:Hv; [|done].
  cbn [mbind option_bind].
  destruct (mapM _ (Py.slice (turn ep) st _)) as [tm|] eqn:Htm; [|done].
  cbn [mbind option_bind].
  intros Hd. exists st, player_st, obs_sample, obs0, v0, tm.
  destruct (Z.ltb_spec (Py.len tm) (forward_steps a)) as [Hpad|Hfull].
  - destruct (decide (length (reward ep) = length (players ep))); [|done].
    injection Hd as <- <-. repeat (split; [done|]). left. by split.
  - injection Hd as <- <-. repeat (split; [done|]). right. by split.
Qed.

End WithArray.
End WindowMore.

Module WindowSteps.
Import MakeBatch.

Section WithArray.

Context {arr rng : Type} `{PyRandom rng} `{!PyRandomLaws rng}.
Variable zeros_like : arr -> arr.

Abbreviation window := (@window arr rng _ zeros_like).

Lemma lookup_app_pad {X} (raw : list X) (pad : list X) (k : nat) :
  (k < length raw)%nat -> (raw ++ pad) !! k = raw !! k.
Proof. intros Hk. by rewrite lookup_app_l. Qed.

(** The steps of a window of a well-formed episode: the real ones
    carry the arrays of the episode from the start on, the padded
    ones the constants. *)
Lemma window_steps (n_obs : nat) (a : args) (ep : @episode arr) (g g' : rng)
    (d : datum) :
  1 <= forward_steps a -> episode_ok n_obs ep ->
  window a ep g = Some (d, g') ->
  exists st player_st obs_sample,
    let L := Py.len (turn ep) in
    let steps := forward_steps a in
    let real := Z.min steps (L - st) in
    0 <= st < L /\
    randrange (1 + Z.max 0 (L - steps)) g = Some (st, g') /\
    Py.index (turn ep) st = Some player_st /\
    observation_at ep player_st st = Some (Some obs_sample) /\
    (forall k : nat, Z.of_nat k < real ->
       let t := (Z.to_nat st + k)%nat in
       pmsk d !! k = pmask ep !! t /\
       p d !! k = policy ep !! t /\
       act d !! k = (fun x => [x]) <$> (action ep !! t) /\
       progress d !! k = Some (inject_Z (st + Z.of_nat k) / inject_Z L)%Q /\
       v d !! k = mapM (fun player =>
                          l ← value ep !! player;
                          x ← Py.index l (st + Z.of_nat k);
                          Some (default 0%Q x))
                       (players ep) /\
       vmsk d !! k = if observation_mode a
                     then (fun r : list Q => (fun _ => 1%Q) <$> r)
                            <$> (tmsk d !! k)
                     else tmsk d !! k) /\
    (forall k : nat, real <= Z.of_nat k < steps ->
       v d !! k = Some (reward ep) /\
       act d !! k = Some [0] /\
       progress d !! k = Some 1%Q /\
       (exists row, pmask ep !! Z.to_nat st = Some row /\
          pmsk d !! k
          = Some (replicate (length row)
                            (100000000000000000000000000000000 # 1)%Q)) /\
       (exists row, policy ep !! Z.to_nat st = Some row /\
          p d !! k = Some (replicate (length row) 0%Q)) /\
       Forall2 (fun c s => exists w : nat,
                  c !! k = Some (replicate w (zeros_like s)))
               (obs d) obs_sample).
Proof.
  intros Hsteps Hok Hw.
  destruct (WindowMore.window_inv zeros_like a ep g g' d Hw)
    as (st & player_st & obs_sample & obs0 & v0 & tm & Hr & Hturn & Hobs
        & Ho & Hv & Htm & Hd).
  exists st, player_st, obs_sample. cbv zeta in *.
  set (L := Py.len (turn ep)) in *. set (steps := forward_steps a) in *.
  set (ed := Z.min (st + steps) L) in *.
  set (real := Z.min steps (L - st)) in *.
  apply SamplerMore.randrange_inv in Hr as Hst. destruct Hst as [_ [Hst0 _]].
  assert (HstL : st < L).
  { unfold Py.index in Hturn. destruct (Z.ltb_spec st 0); [lia|].
    apply lookup_lt_Some in Hturn. unfold L, Py.len. lia. }
  assert (Hed : st < ed /\ ed <= L /\ ed - st = real) by (unfold real; lia).
  set (r := Z.to_nat real).
  assert (Hreal : 1 <= real) by (unfold real; lia).
  destruct Hok as (Hpm & Hac & Hpo & Hrw & Hok').
  assert (Ltm : length tm = r).
  { apply length_mapM in Htm. rewrite <- Htm.
    rewrite MakeBatchFacts.length_slice_nat by (fold L; lia). unfold r. lia. }
  assert (Lpm : length (Py.slice (pmask ep) st ed) = r).
  { rewrite MakeBatchFacts.length_slice_nat;
      unfold L, Py.len in *; unfold r; lia. }
  assert (Lac : length (Py.slice (action ep) st ed) = r).
  { rewrite MakeBatchFacts.length_slice_nat;
      unfold L, Py.len in *; unfold r; lia. }
  assert (Lpo : length (Py.slice (policy ep) st ed) = r).
  { rewrite MakeBatchFacts.length_slice_nat;
      unfold L, Py.len in *; unfold r; lia. }
  assert (Lv : length v0 = r).
  { apply length_mapM in Hv. rewrite <- Hv, MakeBatchFacts.length_range.
    unfold r. lia. }
  assert (Lpr : length (Py.range st ed) = r).
  { rewrite MakeBatchFacts.length_range. unfold r. lia. }
  assert (Lo : length obs0 = length obs_sample /\
               Forall (fun c => length c = r) obs0).
  { assert (Hn : length obs_sample = n_obs).
    { assert (Hok2 : episode_ok n_obs ep) by (repeat split; tauto).
      destruct (MakeBatchFacts.turn_some n_obs ep Hok2 st ltac:(fold L; lia))
        as (pl & tuple & Hpl & _ & _ & Htu & Hlen).
      rewrite Hturn in Hpl. injection Hpl as <-. rewrite Hobs in Htu.
      by injection Htu as <-. }
    assert (Hok2 : episode_ok n_obs ep) by (repeat split; tauto).
    revert Ho. destruct (observation_mode a); intros Ho.
    - destruct (MakeBatchFacts.obs_full_some n_obs ep Hok2 st ed
                  (zeros_like <$> obs_sample))
        as (o & Eo & Lo1 & Lo2); [lia|fold L; lia|by rewrite length_fmap|].
      pose proof (eq_trans (eq_sym Ho) Eo) as E. injection E as <-.
      split; [lia|].
      eapply Forall_impl; [exact Lo2|]. intros c Hc. simpl in Hc.
      unfold r. lia.
    - destruct (MakeBatchFacts.obs_turn_some n_obs ep Hok2 st ed obs_sample)
        as (o & Eo & Lo1 & Lo2); [lia|fold L; lia|done|].
      pose proof (eq_trans (eq_sym Ho) Eo) as E. injection E as <-.
      split; [lia|].
      eapply Forall_impl; [exact Lo2|]. intros c Hc. simpl in Hc.
      unfold r. lia. }
  destruct Lo as [Lo1 Lo2].
  (* the real steps of the arrays cut out of the episode *)
  assert (Hraw : forall k : nat, Z.of_nat k < real ->
            Py.slice (pmask ep) st ed !! k = pmask ep !! (Z.to_nat st + k)%nat /\
            Py.slice (policy ep) st ed !! k
              = policy ep !! (Z.to_nat st + k)%nat /\
            ((fun x => [x]) <$> Py.slice (action ep) st ed) !! k
              = (fun x => [x]) <$> (action ep !! (Z.to_nat st + k)%nat) /\
            ((fun t => inject_Z t / inject_Z L)%Q <$> Py.range st ed) !! k
              = Some (inject_Z (st + Z.of_nat k) / inject_Z L)%Q /\
            v0 !! k = mapM (fun player =>
                              l ← value ep !! player;
                              x ← Py.index l (st + Z.of_nat k);
                              Some (default 0%Q x))
                           (players ep)).
  { intros k Hk.
    rewrite list_lookup_fmap, !MakeBatchFacts.lookup_slice by lia.
    rewrite list_lookup_fmap, MakeBatchFacts.lookup_range by lia.
    repeat (split; [done|]).
    apply (MakeBatchFacts.mapM_lookup _ _ _ k (st + Z.of_nat k) Hv).
    apply MakeBatchFacts.lookup_range. lia. }
  split; [lia|]. split; [done|]. split; [done|]. split; [done|].
  destruct Hd as [[Hpad ->]|[Hfull ->]];
    cbn [obs tmsk pmsk vmsk act p v progress].
  - (* padded *)
    set (pad_len := Z.to_nat (steps - Py.len tm)).
    assert (Hpl : (r + pad_len = Z.to_nat steps)%nat).
    { unfold pad_len, Py.len, steps, r in *. lia. }
    split.
    + intros k Hk. destruct (Hraw k Hk) as (R1 & R2 & R3 & R4 & R5).
      unfold pad_rows.
      rewrite !lookup_app_pad
        by (rewrite ?length_fmap, ?Lpm, ?Lpo, ?Lac, ?Lv, ?Lpr, ?Ltm;
            unfold r; lia).
      repeat (split; [done|]).
      destruct (observation_mode a);
        rewrite !lookup_app_pad by (rewrite ?length_fmap, ?Ltm; unfold r; lia);
        [|done].
      by rewrite list_lookup_fmap.
    + intros k Hk.
      assert (Hk' : (r <= k < r + pad_len)%nat) by (unfold r; lia).
      split; [|split; [|split; [|split; [|split]]]].
      * rewrite lookup_app_r by lia. apply lookup_replicate_2. lia.
      * rewrite MakeBatchFacts.lookup_pad_rows
          by (rewrite length_fmap, Lac; lia).
        destruct (Py.slice (action ep) st ed) as [|x l] eqn:E;
          [simpl in Lac; unfold r in Lac; lia|]. done.
      * rewrite lookup_app_r by (rewrite length_fmap, Lpr; lia).
        apply lookup_replicate_2. rewrite length_fmap, Lpr. lia.
      * destruct (Hraw 0%nat ltac:(lia)) as (R1 & _).
        rewrite Nat.add_0_r in R1.
        destruct (Py.slice (pmask ep) st ed) as [|row l] eqn:E;
          [simpl in Lpm; unfold r in Lpm; lia|].
        exists row. split; [by rewrite <- R1|].
        by rewrite MakeBatchFacts.lookup_pad_rows by (rewrite Lpm; lia).
      * destruct (Hraw 0%nat ltac:(lia)) as (_ & R2 & _).
        rewrite Nat.add_0_r in R2.
        destruct (Py.slice (policy ep) st ed) as [|row l] eqn:E;
          [simpl in Lpo; unfold r in Lpo; lia|].
        exists row. split; [by rewrite <- R2|].
        by rewrite MakeBatchFacts.lookup_pad_rows by (rewrite Lpo; lia).
      * apply Forall2_same_length_lookup. split.
        { rewrite length_zip_with. lia. }
        intros i c s Hc Hs.
        apply lookup_zip_with_Some in Hc as (o0 & s0 & -> & Ho0 & Hs0).
        rewrite Hs in Hs0. injection Hs0 as <-.
        rewrite Forall_lookup in Lo2. specialize (Lo2 _ _ Ho0).
        exists (length (hd [] o0)).
        rewrite lookup_app_r by lia. apply lookup_replicate_2. lia.
  - (* not padded *)
    assert (Hrs : real = steps).
    { unfold Py.len in Hfull. rewrite Ltm in Hfull. unfold r, real in *. lia. }
    split.
    + intros k Hk. destruct (Hraw k Hk) as (R1 & R2 & R3 & R4 & R5).
      repeat (split; [done|]).
      destruct (observation_mode a); [|done]. by rewrite list_lookup_fmap.
    + intros k Hk. lia.
Qed.

End WithArray.
End WindowSteps.

(** ** The shapes of the arrays of a window *)

Module WindowShapes.
Import MakeBatch.

Lemma Forall_pad_rows {X} (pad_len w : nat) (c : X) (m : list (list X)) :
  m <> [] -> Forall (fun r => length r = w) m ->
  Forall (fun r => length r = w) (pad_rows pad_len c m).
Proof.
  intros Hne Hall. unfold pad_rows. apply Forall_app. split; [done|].
  apply Forall_replicate. rewrite length_replicate.
  destruct m as [|r m]; [done|]. by inversion Hall.
Qed.

Lemma mapM_lookup_inv {X Y} (f : X -> option Y) (l : list X) (k : list Y)
    (i : nat) (y : Y) :
  mapM f l = Some k -> k !! i = Some y ->
  exists x, l !! i = Some x /\ f x = Some y.
Proof.
  intros Hm Hy. apply mapM_Some in Hm.
  destruct (Forall2_lookup_r _ _ _ _ _ Hm Hy) as (x & Hx & Hf).
  by exists x.
Qed.

Lemma index_elem_of {X} (l : list X) (t : Z) (x : X) :
  Py.index l t = Some x -> x ∈ l.
Proof.
  unfold Py.index. destruct (t <? 0); [destruct (_ <? 0); [done|]|];
    apply list_elem_of_lookup_2.
Qed.

Section WithArray.

Context {arr rng : Type} `{PyRandom rng} `{!PyRandomLaws rng}
        `{Np.Shaped arr}.
Variable zeros_like : arr -> arr.
Hypothesis zeros_like_shape :
  forall x, Np.shape (zeros_like x) = Np.shape x.

Variables n_players n_actions : nat.
Variable obs_shapes : list (list nat).
Variable ep : @episode arr.
Hypothesis ok : episode_ok (length obs_shapes) ep.
Hypothesis uniform : episode_uniform n_players n_actions obs_shapes ep.

(** Steps of [w] arrays each, every array of shape [s]. *)
Abbreviation steps_of w s :=
  (Forall (fun step : list arr =>
             length step = w /\
             Forall (fun x => Np.shape x = Some s) step)).

(** An observation of a player has the shapes of the game. *)
Lemma observation_shapes (player t : Z) (tuple : list arr) :
  player ∈ players ep -> observation_at ep player t = Some (Some tuple) ->
  Forall2 (fun x s => Np.shape x = Some s) tuple obs_shapes.
Proof.
  intros Hp Ho. unfold observation_at in Ho.
  destruct (observation ep !! player) as [os|] eqn:Eos; [|done].
  simpl in Ho. apply index_elem_of in Ho.
  pose proof uniform as (_ & _ & _ & Hu). specialize (Hu player os Hp Eos).
  rewrite Forall_forall in Hu. by apply (Hu _ Ho).
Qed.

Lemma obs_full_shapes (st ed : Z) (obs_zeros : list arr)
    (o : list (list (list arr))) :
  Forall2 (fun x s => Np.shape x = Some s) obs_zeros obs_shapes ->
  obs_full ep st ed obs_zeros = Some o ->
  Forall2 (fun c s => steps_of n_players s c) o obs_shapes.
Proof.
  intros Hz Ho. unfold obs_full in Ho.
  apply Forall2_same_length_lookup. split.
  - apply length_mapM in Ho. rewrite length_seq in Ho.
    apply Forall2_length in Hz. lia.
  - intros i c s Hc Hs.
    destruct (mapM_lookup_inv _ _ _ _ _ Ho Hc) as (i' & Hi' & Hci).
    apply lookup_seq in Hi' as [-> _]. simpl in Hci.
    apply Forall_lookup. intros k step Hstep.
    destruct (mapM_lookup_inv _ _ _ _ _ Hci Hstep) as (t & Ht & Hst).
    split.
    + apply length_mapM in Hst. pose proof uniform as [Hp _]. lia.
    + apply Forall_lookup. intros j x Hx.
      destruct (mapM_lookup_inv _ _ _ _ _ Hst Hx) as (player & Hpl & Hfx).
      apply list_elem_of_lookup_2 in Hpl.
      destruct (observation_at ep player t) as [[tuple|]|] eqn:Eo;
        simpl in Hfx; [| |done].
      * pose proof (observation_shapes player t tuple Hpl Eo) as Hsh.
        by apply (Forall2_lookup_lr _ _ _ _ _ _ Hsh Hfx Hs).
      * by apply (Forall2_lookup_lr _ _ _ _ _ _ Hz Hfx Hs).
Qed.

Lemma obs_turn_shapes (st ed : Z) (obs_sample : list arr)
    (o : list (list (list arr))) :
  length obs_sample = length obs_shapes ->
  obs_turn ep st ed obs_sample = Some o ->
  Forall2 (fun c s => steps_of 1%nat s c) o obs_shapes.
Proof.
  intros Hz Ho. unfold obs_turn in Ho.
  apply Forall2_same_length_lookup. split.
  - apply length_mapM in Ho. rewrite length_seq in Ho. lia.
  - intros i c s Hc Hs.
    destruct (mapM_lookup_inv _ _ _ _ _ Ho Hc) as (i' & Hi' & Hci).
    apply lookup_seq in Hi' as [-> _]. simpl in Hci.
    apply Forall_lookup. intros k step Hstep.
    destruct (mapM_lookup_inv _ _ _ _ _ Hci Hstep) as (t & Ht & Hst).
    destruct (Py.index (turn ep) t) as [player|] eqn:Ep; [|done].
    simpl in Hst.
    destruct (observation_at ep player t) as [[tuple|]|] eqn:Eo;
      simpl in Hst; [|done|done].
    destruct (tuple !! i) as [x|] eqn:Ex; [|done]. simpl in Hst.
    injection Hst as <-. split; [done|].
    apply Forall_singleton.
    assert (Hpl : player ∈ players ep).
    { apply index_elem_of in Ep.
      pose proof ok as (_ & _ & _ & _ & Hturn & _).
      rewrite Forall_forall in Hturn. by destruct (Hturn _ Ep). }
    pose proof (observation_shapes player t tuple Hpl Eo) as Hsh.
    by apply (Forall2_lookup_lr _ _ _ _ _ _ Hsh Ex Hs).
Qed.

Lemma obs_pad_shapes (w pad_len : nat) (o : list (list (list arr)))
    (obs_sample : list arr) :
  Forall (fun c => c <> []) o ->
  Forall2 (fun c s => steps_of w s c) o obs_shapes ->
  Forall2 (fun x s => Np.shape x = Some s) obs_sample obs_shapes ->
  Forall2 (fun c s => steps_of w s c)
          (zip_with (fun o s =>
                       o ++ replicate pad_len
                              (replicate (length (hd [] o)) (zeros_like s)))
                    o obs_sample)
          obs_shapes.
Proof.
  intros Hne Ho Hs.
  apply Forall2_same_length_lookup. split.
  - rewrite length_zip_with.
    apply Forall2_length in Ho. apply Forall2_length in Hs. lia.
  - intros i c s Hc Hsi.
    apply lookup_zip_with_Some in Hc as (o0 & x & -> & Ho0 & Hx).
    pose proof (Forall2_lookup_lr _ _ _ _ _ _ Ho Ho0 Hsi) as Hsteps.
    pose proof (Forall2_lookup_lr _ _ _ _ _ _ Hs Hx Hsi) as Hshape.
    rewrite Forall_lookup in Hne. specialize (Hne _ _ Ho0).
    apply Forall_app. split; [done|].
    apply Forall_replicate. rewrite length_replicate.
    destruct o0 as [|step o0]; [done|]. simpl.
    inversion Hsteps as [|? ? [Hl _] _]; subst. split; [done|].
    apply Forall_replicate. by rewrite zeros_like_shape.
Qed.

(** The arrays of a window have the shapes of the game. *)
Lemma window_shaped (a : args) (g g' : rng) (d : datum) :
  1 <= forward_steps a ->
  window zeros_like a ep g = Some (d, g') ->
  datum_shaped a n_players n_actions obs_shapes d.
Proof.
  intros Hsteps Hw.
  destruct (WindowMore.window_inv zeros_like a ep g g' d Hw)
    as (st & player_st & obs_sample & obs0 & v0 & tm & Hr & Hturn & Hobs
        & Ho & Hv & Htm & Hd).
  cbv zeta in *.
  set (L := Py.len (turn ep)) in *. set (steps := forward_steps a) in *.
  set (ed := Z.min (st + steps) L) in *.
  apply SamplerMore.randrange_inv in Hr as Hst. destruct Hst as [_ [Hst0 _]].
  assert (HstL : st < L).
  { unfold Py.index in Hturn. destruct (Z.ltb_spec st 0); [lia|].
    apply lookup_lt_Some in Hturn. unfold L, Py.len. lia. }
  assert (Hed : st < ed /\ ed <= L) by lia.
  set (r := Z.to_nat (ed - st)).
  assert (Hr1 : (1 <= r)%nat) by (unfold r; lia).
  assert (HL : 1 <= L) by lia.
  (* the lengths along the time axis *)
  destruct (MakeBatchWindow.window_spec zeros_like a ep g (length obs_shapes)
              HL Hsteps ok)
    as (st' & g1 & d' & _ & _ & Hw' & _ & T1 & T2 & T3 & T4 & T5 & T6 & T7
        & T8 & T9 & T10 & _).
  rewrite Hw in Hw'. injection Hw' as <- <-.
  fold steps in T1, T2, T3, T4, T5, T6, T7, T8.
  pose proof ok as (Hpm & Hac & Hpo & Hrw & Hturns & Hpl & _).
  pose proof uniform as (HP & HApm & HApo & _).
  assert (Hplayer : player_st ∈ players ep).
  { apply index_elem_of in Hturn. rewrite Forall_forall in Hturns.
    by destruct (Hturns _ Hturn). }
  assert (HP1 : n_players <> 0%nat).
  { rewrite <- HP. destruct (players ep); [by apply elem_of_nil in Hplayer|done]. }
  pose proof (observation_shapes player_st st obs_sample Hplayer Hobs)
    as Hsample.
  (* the raw arrays *)
  assert (Ltm : length tm = r).
  { apply length_mapM in Htm. rewrite <- Htm.
    rewrite MakeBatchFacts.length_slice_nat by (fold L; lia). done. }
  assert (Wtm : Forall (fun row => length row = n_players) tm).
  { apply Forall_lookup. intros k row Hrow.
    destruct (mapM_lookup_inv _ _ _ _ _ Htm Hrow) as (pl & _ & Hpl').
    unfold eye_row in Hpl'. destruct (_ || _); [done|].
    injection Hpl' as <-. by rewrite length_fmap, length_seq. }
  assert (Lpm : length (Py.slice (pmask ep) st ed) = r).
  { rewrite MakeBatchFacts.length_slice_nat;
      unfold L, Py.len in *; unfold r; lia. }
  assert (Lac : length (Py.slice (action ep) st ed) = r).
  { rewrite MakeBatchFacts.length_slice_nat;
      unfold L, Py.len in *; unfold r; lia. }
  assert (Lpo : length (Py.slice (policy ep) st ed) = r).
  { rewrite MakeBatchFacts.length_slice_nat;
      unfold L, Py.len in *; unfold r; lia. }
  assert (Wpm : Forall (fun row => length row = n_actions)
                       (Py.slice (pmask ep) st ed))
    by (by apply MakeBatchFacts.Forall_slice).
  assert (Wpo : Forall (fun row => length row = n_actions)
                       (Py.slice (policy ep) st ed))
    by (by apply MakeBatchFacts.Forall_slice).
  assert (Wac : Forall (fun row : list Z => length row = 1%nat)
                       ((fun x => [x]) <$> Py.slice (action ep) st ed)).
  { apply Forall_fmap, Forall_forall. done. }
  assert (Wv : Forall (fun row => length row = n_players) v0).
  { apply Forall_lookup. intros k row Hrow. unfold values in Hv.
    destruct (mapM_lookup_inv _ _ _ _ _ Hv Hrow) as (t & _ & Ht).
    apply length_mapM in Ht. lia. }
  assert (Wvm : Forall (fun row => length row = n_players)
                       (if observation_mode a
                        then (fun r : list Q => (fun _ => 1%Q) <$> r) <$> tm
                        else tm)).
  { destruct (observation_mode a); [|done].
    apply Forall_fmap. eapply Forall_impl; [exact Wtm|].
    intros row Hrow. simpl. by rewrite length_fmap. }
  assert (Lo : Forall (fun c : list (list arr) => c <> []) obs0).
  { assert (Hlen : Forall (fun c : list (list arr) => length c = r) obs0).
    { assert (Hn : length obs_sample = length obs_shapes)
        by (by apply Forall2_length in Hsample).
      pose proof ok as Hok2.
      revert Ho. destruct (observation_mode a); intros Ho.
      - destruct (MakeBatchFacts.obs_full_some _ ep Hok2 st ed
                    (zeros_like <$> obs_sample))
          as (o & Eo & _ & Lo2); [lia|fold L; lia|by rewrite length_fmap|].
        pose proof (eq_trans (eq_sym Ho) Eo) as E. by injection E as <-.
      - destruct (MakeBatchFacts.obs_turn_some _ ep Hok2 st ed obs_sample)
          as (o & Eo & _ & Lo2); [lia|fold L; lia|done|].
        pose proof (eq_trans (eq_sym Ho) Eo) as E. by injection E as <-. }
    eapply Forall_impl; [exact Hlen|]. intros c Hc.
    destruct c; [simpl in Hc; lia|done]. }
  assert (Wo : Forall2 (fun c s =>
                          steps_of (if observation_mode a
                                    then n_players else 1%nat) s c)
                       obs0 obs_shapes).
  { revert Ho. destruct (observation_mode a); intros Ho.
    - apply (obs_full_shapes st ed (zeros_like <$> obs_sample)); [|done].
      apply Forall2_fmap_l. eapply Forall2_impl; [exact Hsample|].
      intros x s Hx. simpl. by rewrite zeros_like_shape.
    - apply (obs_turn_shapes st ed obs_sample); [|done].
      by apply Forall2_length in Hsample. }
  assert (HT : forall {X} (l : list X),
             Py.len l = steps -> length l = Z.to_nat steps /\ l <> []).
  { intros X l Hl. unfold Py.len in Hl. split; [lia|].
    destruct l; [simpl in Hl; lia|done]. }
  assert (Hobs_final :
            Forall2 (fun c s =>
                       steps_of (if observation_mode a
                                 then n_players else 1%nat) s c)
                    (obs d) obs_shapes ->
            Forall2 (fun c s =>
                       Np.shape c
                       = Some (Z.to_nat steps
                                 :: (if observation_mode a
                                     then n_players else 1%nat) :: s))
                    (obs d) obs_shapes).
  { intros Hall. apply Forall2_same_length_lookup. split.
    - by apply Forall2_length in Hall.
    - intros i c s Hc Hs.
      pose proof (Forall2_lookup_lr _ _ _ _ _ _ Hall Hc Hs) as Hsteps'.
      rewrite Forall_lookup in T8. specialize (T8 _ _ Hc).
      destruct (HT _ c T8) as [<- Hne].
      apply NpFacts.shape_steps; [done| |done].
      by destruct (observation_mode a). }
  assert (Hmat : forall (m : list (list Q)) (w : nat),
             Py.len m = steps -> Forall (fun row => length row = w) m ->
             Np.shape m = Some [Z.to_nat steps; w]).
  { intros m w Hl Hall. destruct (HT _ m Hl) as [<- Hne].
    by apply NpFacts.shape_matrix_Q. }
  unfold datum_shaped. cbv zeta. fold steps.
  assert (Hret : Np.shape [reward ep] = Some [1%nat; n_players]).
  { apply (NpFacts.shape_matrix_Q [reward ep] n_players); [done|].
    apply Forall_singleton. lia. }
  assert (Hprog : Np.shape (progress d) = Some [Z.to_nat steps]).
  { rewrite NpFacts.shape_row_Q. by destruct (HT _ _ T7) as [-> _]. }
  assert (Hact : forall m : list (list Z),
             Py.len m = steps -> Forall (fun row => length row = 1%nat) m ->
             Np.shape m = Some [Z.to_nat steps; 1%nat]).
  { intros m Hl Hall. destruct (HT _ m Hl) as [<- Hne].
    by apply NpFacts.shape_matrix_Z. }
  rewrite T10.
  split; [apply Hmat; [done|]|].
  2: split; [apply Hmat; [done|]|].
  3: split; [apply Hmat; [done|]|].
  4: split; [apply Hact; [done|]|].
  5: split; [apply Hmat; [done|]|].
  6: split; [apply Hmat; [done|]|].
  7: split; [exact Hret|]. 7: split; [exact Hprog|]. 7: apply Hobs_final.
  all: destruct Hd as [[Hpad ->]|[Hfull ->]];
    cbn [obs tmsk pmsk vmsk act p v progress].
  - apply Forall_pad_rows; [destruct tm; [simpl in Ltm; lia|done]|done].
  - done.
  - apply Forall_pad_rows; [|done].
    destruct (Py.slice (pmask ep) st ed); [simpl in Lpm; lia|done].
  - done.
  - apply Forall_pad_rows; [|done].
    destruct (observation_mode a), tm; simpl in Ltm; try lia; done.
  - done.
  - apply Forall_pad_rows; [|done].
    destruct (Py.slice (action ep) st ed); [simpl in Lac; lia|done].
  - done.
  - apply Forall_pad_rows; [|done].
    destruct (Py.slice (policy ep) st ed); [simpl in Lpo; lia|done].
  - done.
  - apply Forall_app. split; [done|]. apply Forall_replicate. lia.
  - done.
  - by apply obs_pad_shapes.
  - done.
Qed.

End WithArray.
End WindowShapes.

(** ** More facts about the assembled batch *)

Module MakeBatchMore.
Import MakeBatch.

(** [swapaxes] on rows of one length: the result has one column per
    position, each column one entry per row, and the two indices are
    exchanged. *)
Lemma swapaxes_lookup {X} (rows t : list (list X)) (n : nat) :
  rows <> [] -> Forall (fun r => length r = n) rows ->
  swapaxes rows = Some t ->
  length t = n /\
  Forall (fun col => length col = length rows) t /\
  forall (k bi : nat) (r : list X),
    (k < n)%nat -> rows !! bi = Some r ->
    t !! k ≫= (fun col => col !! bi) = r !! k.
Proof.
  intros Hne Hall Ht.
  destruct (MakeBatchWindow.swapaxes_spec rows n Hne Hall)
    as (t' & Et & Lt & Kt).
  rewrite Ht in Et. injection Et as <-.
  split; [done|]. split.
  - unfold swapaxes in Ht.
    destruct (forallb _ rows); [|done].
    apply mapM_Some in Ht. apply Forall_forall. intros col Hcol.
    apply list_elem_of_lookup in Hcol as [k Hk].
    destruct (Forall2_lookup_r _ _ _ _ _ Ht Hk) as (i & _ & Hi).
    apply length_mapM in Hi. done.
  - intros k bi r Hk Hr. destruct (Kt k bi r Hk Hr) as (col & Hc & Hb).
    rewrite Hc. simpl. done.
Qed.

(** A tensor that [to_torch] returned was stacked from arrays of one
    shape and then transposed. *)
Lemma to_torch_inv {X} `{Np.Shaped X} (x t : list (list X)) :
  to_torch x true = Some t ->
  swapaxes x = Some t /\
  exists (n : nat) (s : list nat),
    Np.shape x = Some (length x :: n :: s) /\
    Forall (fun r => Np.shape r = Some (n :: s)) x.
Proof.
  unfold to_torch. destruct (Np.shape x) as [sh|] eqn:Es; [|done].
  destruct (NpFacts.shape_inv x sh Es) as (s' & -> & Hall).
  destruct s' as [|n s]; [done|]. intros Ht. split; [done|].
  by exists n, s.
Qed.

(** Arrays of one shape, and at least one of them, are stacked and
    transposed. *)
Lemma to_torch_stack {X} `{Np.Shaped X} (x : list (list X)) (n : nat)
    (s : list nat) :
  x <> [] -> Forall (fun r => Np.shape r = Some (n :: s)) x ->
  to_torch x true = swapaxes x /\ Forall (fun r => length r = n) x.
Proof.
  intros Hne Hall. split.
  - unfold to_torch. by rewrite (NpFacts.shape_regular x (n :: s) Hne Hall).
  - eapply Forall_impl; [exact Hall|]. intros r Hr.
    by apply (NpFacts.shape_length r n s).
Qed.

(** The shape of a stack that was transposed. *)
Lemma swapaxes_shape {X} `{Np.Shaped X} (x t : list (list X)) (n : nat)
    (s : list nat) :
  x <> [] -> n <> 0%nat ->
  Forall (fun r => Np.shape r = Some (n :: s)) x ->
  swapaxes x = Some t ->
  Np.shape t = Some (n :: length x :: s).
Proof.
  intros Hne Hn Hall Ht.
  assert (Hlen : Forall (fun r => length r = n) x).
  { eapply Forall_impl; [exact Hall|]. intros r Hr.
    by apply (NpFacts.shape_length r n s). }
  destruct (swapaxes_lookup x t n Hne Hlen Ht) as (L1 & L2 & L3).
  rewrite <- L1. apply NpFacts.shape_steps.
  - destruct t; [simpl in L1; lia|done].
  - by destruct x.
  - apply Forall_lookup. intros k col Hk.
    rewrite Forall_lookup in L2. split; [by apply (L2 k)|].
    apply Forall_lookup. intros bi e He.
    destruct (lookup_lt_is_Some_2 x bi) as [r Hr];
      [apply lookup_lt_Some in He; rewrite (L2 k col Hk) in He; done|].
    assert (Hkn : (k < n)%nat) by (apply lookup_lt_Some in Hk; lia).
    pose proof (L3 k bi r Hkn Hr) as Hl. rewrite Hk in Hl. simpl in Hl.
    rewrite He in Hl.
    rewrite Forall_lookup in Hall. specialize (Hall bi r Hr).
    destruct (NpFacts.shape_inv r _ Hall) as (s' & [= _ <-] & Hr').
    rewrite Forall_lookup in Hr'. by apply (Hr' k).
Qed.

Lemma omap_lookup_all {X Y} (f : X -> option Y) (l : list X) (i : nat) :
  Forall (fun x => is_Some (f x)) l ->
  omap f l !! i = l !! i ≫= f.
Proof.
  intros Hall. revert i. induction Hall as [|x l [y Hy] _ IH]; intros i.
  - done.
  - simpl. rewrite Hy. destruct i as [|i]; simpl; [done|apply IH].
Qed.

Lemma length_omap_all {X Y} (f : X -> option Y) (l : list X) :
  Forall (fun x => is_Some (f x)) l -> length (omap f l) = length l.
Proof.
  induction 1 as [|x l [y Hy] _ IH]; simpl; [done|].
  rewrite Hy. simpl. f_equal. exact IH.
Qed.

(** Column [i] of rows of one length. *)
Lemma zip_star_lookup {X} (rows : list (list X)) (n i : nat) :
  rows <> [] -> Forall (fun r => length r = n) rows -> (i < n)%nat ->
  exists col,
    zip_star rows !! i = Some col /\ length col = length rows /\
    forall bi, col !! bi = rows !! bi ≫= (fun r => r !! i).
Proof.
  intros Hne Hall Hi. destruct rows as [|r rows]; [done|].
  assert (Hsome : Forall (fun r0 : list X => is_Some (r0 !! i)) (r :: rows)).
  { eapply Forall_impl; [exact Hall|]. intros r0 Hr0. simpl in Hr0.
    apply lookup_lt_is_Some. lia. }
  exists (omap (fun r0 : list X => r0 !! i) (r :: rows)). split; [|split].
  - unfold zip_star. rewrite list_lookup_fmap.
    assert (Hmin : foldr Nat.min (length r) (length <$> rows) = n).
    { inversion Hall as [|? ? Hr Hrest]; subst.
      apply MakeBatchWindow.foldr_min_same.
      apply Forall_fmap. eapply Forall_impl; [exact Hrest|].
      intros r0 Hr0. unfold compose. simpl in *. lia. }
    rewrite Hmin, lookup_seq_lt by done. done.
  - by apply length_omap_all.
  - intros bi. by apply omap_lookup_all.
Qed.

Section WithArray.

Context {arr rng : Type} `{PyRandom rng} `{Np.Shaped arr}.
Variable zeros_like : arr -> arr.

(** A batch that was assembled, taken apart. *)
Lemma make_batch_inv (a : args) (episodes : list (@episode arr)) (g g' : rng)
    (b : batch) :
  make_batch zeros_like a episodes g = Some (b, g') ->
  exists ds,
    windows zeros_like a episodes g = Some (ds, g') /\ ds <> [] /\
    mapM (fun o => to_torch o true) (zip_star (obs <$> ds))
      = Some (b_observation b) /\
    to_torch (tmsk <$> ds) true = Some (b_tmask b) /\
    to_torch (pmsk <$> ds) true = Some (b_pmask b) /\
    to_torch (vmsk <$> ds) true = Some (b_vmask b) /\
    to_torch (act <$> ds) true = Some (b_action b) /\
    to_torch (p <$> ds) true = Some (b_policy b) /\
    to_torch (v <$> ds) true = Some (b_value b) /\
    to_torch (ret <$> ds) true = Some (b_return b) /\
    to_torch (progress <$> ds) true = Some (b_progress b).
Proof.
  unfold make_batch.
  destruct (windows zeros_like a episodes g) as [[ds g1]|]; [|done].
  cbn [mbind option_bind].
  destruct (decide (ds = [])); [done|].
  destruct (mapM _ _) as [o|] eqn:E0; [|done].
  cbn [mbind option_bind].
  destruct (to_torch (tmsk <$> ds) true) as [tm|] eqn:E1; [|done].
  cbn [mbind option_bind].
  destruct (to_torch (pmsk <$> ds) true) as [pm|] eqn:E2; [|done].
  cbn [mbind option_bind].
  destruct (to_torch (vmsk <$> ds) true) as [vm|] eqn:E3; [|done].
  cbn [mbind option_bind].
  destruct (to_torch (act <$> ds) true) as [ac|] eqn:E4; [|done].
  cbn [mbind option_bind].
  destruct (to_torch (p <$> ds) true) as [po|] eqn:E5; [|done].
  cbn [mbind option_bind].
  destruct (to_torch (v <$> ds) true) as [va|] eqn:E6; [|done].
  cbn [mbind option_bind].
  destruct (to_torch (ret <$> ds) true) as [re|] eqn:E7; [|done].
  cbn [mbind option_bind].
  destruct (to_torch (progress <$> ds) true) as [pr|] eqn:E8; [|done].
  cbn [mbind option_bind].
  intros [= <- <-]. exists ds. simpl. repeat (split; [done|]). done.
Qed.

(** Each window of a batch was cut from the episode in its place. *)
Lemma windows_lookup (a : args) (episodes : list (@episode arr)) :
  forall (g g' : rng) (ds : list datum),
    windows zeros_like a episodes g = Some (ds, g') ->
    length ds = length episodes /\
    forall (bi : nat) (ep : @episode arr),
      episodes !! bi = Some ep ->
      exists d gi gi',
        ds !! bi = Some d /\ window zeros_like a ep gi = Some (d, gi').
Proof.
  induction episodes as [|ep0 episodes IH]; intros g g' ds; simpl.
  - intros [= <- <-]. split; [done|]. intros bi ep Hbi. done.
  - destruct (window zeros_like a ep0 g) as [[d0 g1]|] eqn:Hw; [|done].
    cbn [mbind option_bind].
    destruct (windows zeros_like a episodes g1) as [[ds1 g2]|] eqn:Hws;
      [|done].
    cbn [mbind option_bind]. intros [= <- <-].
    destruct (IH _ _ _ Hws) as [Hlen Hk]. split; [simpl; lia|].
    intros [|bi] ep Hbi; simpl in Hbi.
    + injection Hbi as <-. by exists d0, g, g1.
    + destruct (Hk bi ep Hbi) as (d & gi & gi' & Hd & Hwi).
      by exists d, gi, gi'.
Qed.

End WithArray.
Section Uniform.

Context {arr rng : Type} `{PyRandom rng} `{!PyRandomLaws rng}
        `{Np.Shaped arr}.
Variable zeros_like : arr -> arr.
Hypothesis zeros_like_shape :
  forall x, Np.shape (zeros_like x) = Np.shape x.
Variable a : args.
Hypothesis steps_pos : 1 <= forward_steps a.
Variables n_players n_actions : nat.
Variable obs_shapes : list (list nat).

(** Episodes that can be stacked: not empty, well formed, and of one
    game. *)
Abbreviation stackable :=
  (Forall (fun ep : @episode arr =>
             1 <= Py.len (turn ep) /\
             episode_ok (length obs_shapes) ep /\
             episode_uniform n_players n_actions obs_shapes ep)).

Lemma stackable_ok (episodes : list (@episode arr)) :
  stackable episodes ->
  Forall (fun ep => 1 <= Py.len (turn ep) /\
                    episode_ok (length obs_shapes) ep) episodes.
Proof. intros Hs. eapply Forall_impl; [exact Hs|]. simpl. tauto. Qed.

(** Arrays of one shape, and at least one of them: [to_torch] returns
    the stack, transposed. *)
Lemma to_torch_spec {X} `{Np.Shaped X} (x : list (list X)) (n : nat)
    (s : list nat) :
  x <> [] -> n <> 0%nat ->
  Forall (fun r => Np.shape r = Some (n :: s)) x ->
  exists t,
    to_torch x true = Some t /\
    Np.shape t = Some (n :: length x :: s) /\
    length t = n /\
    Forall (fun col => length col = length x) t /\
    forall (k bi : nat) (r : list X),
      (k < n)%nat -> x !! bi = Some r ->
      t !! k ≫= (fun col => col !! bi) = r !! k.
Proof.
  intros Hne Hn Hall.
  destruct (to_torch_stack x n s Hne Hall) as [Ht Hlen].
  destruct (MakeBatchWindow.swapaxes_spec x n Hne Hlen) as (t & Et & _).
  exists t. rewrite Ht. split; [done|].
  split; [by apply (swapaxes_shape x t n s)|].
  by apply swapaxes_lookup.
Qed.

(** [make_batch] on episodes that can be stacked, and at least one of
    them: the batch is built, every tensor has the shape
    [(T, B, ...)], and its entry at step [k] and position [bi] is
    entry [k] of the window cut from episode [bi]. *)
Lemma make_batch_spec (episodes : list (@episode arr)) (g : rng) :
  episodes <> [] -> stackable episodes ->
  exists ds b g',
    make_batch zeros_like a episodes g = Some (b, g') /\
    let T := Z.to_nat (forward_steps a) in
    let B := length episodes in
    let W := if observation_mode a then n_players else 1%nat in
    length ds = B /\
    (forall (bi : nat) (ep : @episode arr),
       episodes !! bi = Some ep ->
       exists d gi gi',
         ds !! bi = Some d /\
         window zeros_like a ep gi = Some (d, gi')) /\
    (Np.shape (b_tmask b) = Some [T; B; n_players] /\
     Np.shape (b_pmask b) = Some [T; B; n_actions] /\
     Np.shape (b_vmask b) = Some [T; B; n_players] /\
     Np.shape (b_action b) = Some [T; B; 1%nat] /\
     Np.shape (b_policy b) = Some [T; B; n_actions] /\
     Np.shape (b_value b) = Some [T; B; n_players] /\
     Np.shape (b_progress b) = Some [T; B] /\
     Np.shape (b_return b) = Some [1%nat; B; n_players] /\
     Forall2 (fun comp s => Np.shape comp = Some (T :: B :: W :: s))
             (b_observation b) obs_shapes) /\
    (TimeMajor.shape B T (b_tmask b) /\ TimeMajor.shape B T (b_pmask b) /\
     TimeMajor.shape B T (b_vmask b) /\ TimeMajor.shape B T (b_action b) /\
     TimeMajor.shape B T (b_policy b) /\ TimeMajor.shape B T (b_value b) /\
     TimeMajor.shape B T (b_progress b) /\
     TimeMajor.shape B 1%nat (b_return b) /\
     length (b_observation b) = length obs_shapes /\
     Forall (TimeMajor.shape B T) (b_observation b)) /\
    forall (k bi : nat) (d : datum),
      (k < T)%nat -> ds !! bi = Some d ->
      TimeMajor.entry (b_tmask b) k bi = tmsk d !! k /\
      TimeMajor.entry (b_pmask b) k bi = pmsk d !! k /\
      TimeMajor.entry (b_vmask b) k bi = vmsk d !! k /\
      TimeMajor.entry (b_action b) k bi = act d !! k /\
      TimeMajor.entry (b_policy b) k bi = p d !! k /\
      TimeMajor.entry (b_value b) k bi = v d !! k /\
      TimeMajor.entry (b_progress b) k bi = progress d !! k /\
      TimeMajor.entry (b_return b) 0 bi = ret d !! 0%nat /\
      forall (i : nat) (comp : list (list (list arr))),
        b_observation b !! i = Some comp ->
        TimeMajor.entry comp k bi = obs d !! i ≫= (fun c => c !! k).
Proof.
  intros Hne Hall.
  set (T := Z.to_nat (forward_steps a)).
  set (B := length episodes).
  set (W := if observation_mode a then n_players else 1%nat).
  assert (HT : T <> 0%nat) by (unfold T; lia).
  destruct (MakeBatchWindow.windows_spec zeros_like a (length obs_shapes)
              steps_pos episodes (stackable_ok episodes Hall) g)
    as (ds & g' & Hws & Hlen & Hsh).
  destruct (windows_lookup zeros_like a episodes g g' ds Hws) as [_ Hwin].
  assert (Hds : ds <> []) by (destruct ds, episodes; done).
  (* the shapes of the windows *)
  assert (Hshaped : Forall (datum_shaped a n_players n_actions obs_shapes) ds).
  { apply Forall_lookup. intros bi d Hd.
    destruct (lookup_lt_is_Some_2 episodes bi) as [ep Hep];
      [apply lookup_lt_Some in Hd; lia|].
    destruct (Hwin bi ep Hep) as (d' & gi & gi' & Hd' & Hw).
    rewrite Hd in Hd'. injection Hd' as <-.
    rewrite Forall_lookup in Hall.
    destruct (Hall bi ep Hep) as (_ & Hok & Hun).
    by apply (WindowShapes.window_shaped zeros_like zeros_like_shape
                n_players n_actions obs_shapes ep Hok Hun a gi gi' d). }
  (* one field after the other *)
  assert (Hfield : forall (X : Type) (HX : Np.Shaped X)
                     (f : datum -> list X) (n : nat) (s : list nat),
             n <> 0%nat ->
             (forall d, datum_shaped a n_players n_actions obs_shapes d ->
                        Np.shape (f d) = Some (n :: s)) ->
             exists t,
               to_torch (f <$> ds) true = Some t /\
               Np.shape t = Some (n :: B :: s) /\
               TimeMajor.shape B n t /\
               forall (k bi : nat) (d : datum),
                 (k < n)%nat -> ds !! bi = Some d ->
                 TimeMajor.entry t k bi = f d !! k).
  { intros X HX f n s Hn Hf.
    destruct (to_torch_spec (f <$> ds) n s) as (t & Et & St & L1 & L2 & L3).
    - by destruct ds.
    - done.
    - apply Forall_fmap. eapply Forall_impl; [exact Hshaped|].
      intros d Hd. simpl. by apply Hf.
    - exists t. rewrite length_fmap, Hlen in St, L2.
      split; [done|]. split; [done|]. split; [by split|].
      intros k bi d Hk Hd. apply L3; [done|].
      by rewrite list_lookup_fmap, Hd. }
  destruct (Hfield _ _ tmsk T [n_players] HT) as (tm & E1 & N1 & S1 & K1);
    [by intros d (? & _)|].
  destruct (Hfield _ _ pmsk T [n_actions] HT) as (pm & E2 & N2 & S2 & K2);
    [by intros d (_ & ? & _)|].
  destruct (Hfield _ _ vmsk T [n_players] HT) as (vm & E3 & N3 & S3 & K3);
    [by intros d (_ & _ & ? & _)|].
  destruct (Hfield _ _ act T [1%nat] HT) as (ac & E4 & N4 & S4 & K4);
    [by intros d (_ & _ & _ & ? & _)|].
  destruct (Hfield _ _ p T [n_actions] HT) as (po & E5 & N5 & S5 & K5);
    [by intros d (_ & _ & _ & _ & ? & _)|].
  destruct (Hfield _ _ v T [n_players] HT) as (va & E6 & N6 & S6 & K6);
    [by intros d (_ & _ & _ & _ & _ & ? & _)|].
  destruct (Hfield _ _ ret 1%nat [n_players] ltac:(lia))
    as (re & E7 & N7 & S7 & K7);
    [by intros d (_ & _ & _ & _ & _ & _ & ? & _)|].
  destruct (Hfield _ _ progress T [] HT) as (pr & E8 & N8 & S8 & K8);
    [by intros d (_ & _ & _ & _ & _ & _ & _ & ? & _)|].
  (* the observation, component by component *)
  set (n_obs := length obs_shapes).
  assert (Hrows : Forall (fun r : list (list (list arr)) => length r = n_obs)
                         (obs <$> ds)).
  { apply Forall_fmap. eapply Forall_impl; [exact Hshaped|].
    intros d (_ & _ & _ & _ & _ & _ & _ & _ & Ho). simpl.
    by apply Forall2_length in Ho. }
  assert (Hrne : obs <$> ds <> []) by (by destruct ds).
  assert (Hzl : length (zip_star (obs <$> ds)) = n_obs).
  { destruct (MakeBatchWindow.zip_star_spec (obs <$> ds) n_obs
                (fun _ => True)) as [Hl _]; [done| |done].
    eapply Forall_impl; [exact Hrows|]. intros r Hr. split; [done|].
    by apply Forall_true. }
  assert (Hcol : forall (i : nat) (col : list (list (list arr))),
             zip_star (obs <$> ds) !! i = Some col ->
             exists s comp,
               obs_shapes !! i = Some s /\
               to_torch col true = Some comp /\
               Np.shape comp = Some (T :: B :: W :: s) /\
               TimeMajor.shape B T comp /\
               forall (k bi : nat) (d : datum),
                 (k < T)%nat -> ds !! bi = Some d ->
                 TimeMajor.entry comp k bi = obs d !! i ≫= (fun c => c !! k)).
  { intros i col Hi.
    assert (Hin : (i < n_obs)%nat) by (apply lookup_lt_Some in Hi; lia).
    destruct (lookup_lt_is_Some_2 obs_shapes i Hin) as [s Hs].
    destruct (zip_star_lookup (obs <$> ds) n_obs i Hrne Hrows Hin)
      as (col' & Hcol' & Lcol & Kcol).
    rewrite Hi in Hcol'. injection Hcol' as <-.
    rewrite length_fmap in Lcol.
    assert (Hcs : Forall (fun c : list (list arr) =>
                            Np.shape c = Some (T :: W :: s)) col).
    { apply Forall_lookup. intros bi c Hc. rewrite Kcol in Hc.
      rewrite list_lookup_fmap in Hc.
      destruct (ds !! bi) as [d|] eqn:Hd; [|done]. simpl in Hc.
      rewrite Forall_lookup in Hshaped.
      destruct (Hshaped _ _ Hd) as (_ & _ & _ & _ & _ & _ & _ & _ & Ho).
      by apply (Forall2_lookup_lr _ _ _ _ _ _ Ho Hc Hs). }
    destruct (to_torch_spec col T (W :: s)) as (comp & Et & St & L1 & L2 & L3);
      [destruct col; [simpl in Lcol; destruct ds; done|done]|done|done|].
    exists s, comp. rewrite Lcol, Hlen in St, L2.
    split; [done|]. split; [done|]. split; [done|]. split; [by split|].
    intros k bi d Hk Hd.
    destruct (lookup_lt_is_Some_2 col bi) as [c Hc];
      [apply lookup_lt_Some in Hd; lia|].
    unfold TimeMajor.entry. rewrite (L3 k bi c Hk Hc).
    rewrite Kcol, list_lookup_fmap, Hd in Hc. simpl in Hc.
    by rewrite Hc. }
  destruct (MakeBatchFacts.mapM_prop (fun o => to_torch o true)
              (fun _ => True) (zip_star (obs <$> ds)))
    as (ob & E0 & L0 & _).
  { intros col Hcol'. apply list_elem_of_lookup in Hcol' as [i Hi].
    destruct (Hcol i col Hi) as (s & comp & _ & Et & _). by exists comp. }
  assert (Hobs : forall (i : nat) (comp : list (list (list arr))),
             ob !! i = Some comp ->
             exists s,
               obs_shapes !! i = Some s /\
               Np.shape comp = Some (T :: B :: W :: s) /\
               TimeMajor.shape B T comp /\
               forall (k bi : nat) (d : datum),
                 (k < T)%nat -> ds !! bi = Some d ->
                 TimeMajor.entry comp k bi = obs d !! i ≫= (fun c => c !! k)).
  { intros i comp Hi.
    destruct (WindowShapes.mapM_lookup_inv _ _ _ _ _ E0 Hi)
      as (col & Hc & Et).
    destruct (Hcol i col Hc) as (s & comp' & Hs & Et' & Hrest).
    rewrite Et in Et'. injection Et' as <-. by exists s. }
  exists ds, (Batch ob tm pm vm ac po va re pr), g'.
  split.
  { unfold make_batch. rewrite Hws. cbn.
    rewrite decide_False by done.
    rewrite E0. cbn. rewrite E1. cbn. rewrite E2. cbn. rewrite E3. cbn.
    rewrite E4. cbn. rewrite E5. cbn. rewrite E6. cbn. rewrite E7. cbn.
    rewrite E8. cbn. done. }
  cbv zeta. fold T B W. cbn [b_observation b_tmask b_pmask b_vmask b_action
                             b_policy b_value b_return b_progress].
  split; [done|]. split; [done|]. split.
  { do 8 (split; [done|]).
    apply Forall2_same_length_lookup. split; [lia|].
    intros i comp s Hi Hs. destruct (Hobs i comp Hi) as (s' & Hs' & Hsh' & _).
    rewrite Hs in Hs'. by injection Hs' as <-. }
  split.
  { do 8 (split; [done|]). split; [lia|].
    apply Forall_lookup. intros i comp Hi.
    by destruct (Hobs i comp Hi) as (s' & _ & _ & ? & _). }
  intros k bi d Hk Hd.
  rewrite (K1 k bi d), (K2 k bi d), (K3 k bi d), (K4 k bi d), (K5 k bi d),
    (K6 k bi d), (K8 k bi d) by done.
  do 7 (split; [done|]).
  split; [apply K7; [lia|done]|].
  intros i comp Hi. destruct (Hobs i comp Hi) as (s' & _ & _ & _ & Hk').
  by apply Hk'.
Qed.

End Uniform.

End MakeBatchMore.

(** ** The example episode is one of a game *)

Module WindowFixtureMore.
Import WindowFixture.

(** Two players, two actions, and one observation component that is a
    number. *)
Lemma ep_uniform : MakeBatch.episode_uniform 2 2 [[]] ep.
Proof.
  unfold MakeBatch.episode_uniform.
  rewrite WindowFixtureFacts.players_ep. simpl.
  split; [done|]. split; [by repeat constructor|].
  split; [by repeat constructor|].
  intros player os Hp Hos.
  apply elem_of_cons in Hp as [->|Hp];
    [|apply list_elem_of_singleton in Hp as ->];
    vm_compute in Hos; injection Hos as <-;
    repeat constructor; intros tuple [= <-]; by repeat constructor.
Qed.

(** The windows of a two-player episode and of a one-player episode
    are built, and cannot be stacked: [to_torch] refuses them. *)
Lemma ragged_batch_refused :
  let episodes := [ep; ep1] in
  (exists ds g',
     MakeBatch.windows (fun _ : Z => 0) a episodes (7 : Z) = Some (ds, g')) /\
  MakeBatch.make_batch (fun _ : Z => 0) a episodes (7 : Z) = None.
Proof. split; [do 2 eexists|]; vm_compute; reflexivity. Qed.

End WindowFixtureMore.

(** ** What the coordinator keeps *)

Module ReachableFacts.
Import Learner Reachable.

Section WithModel.

Context {model state_dict episode : Type}.
Variable get_state_dict : model -> state_dict.
Variable model_class : model.
Variable load_state_dict : model -> state_dict -> model.

Abbreviation learner := (@learner model state_dict episode).
Abbreviation serve := (@serve model state_dict episode model_class load_state_dict).
Abbreviation update := (@update model state_dict episode get_state_dict).
Abbreviation run := (@run model state_dict episode get_state_dict model_class load_state_dict).

Lemma init_consistent (a : args) (random_model : model)
    (files0 : gmap string state_dict) :
  consistent a (@init model state_dict episode random_model files0).
Proof.
  unfold consistent, init. simpl. split; [lia|]. split; [lia|].
  split; [lia|]. split; [intros e He; lia|]. split.
  - intros model_id distribution Hl. by rewrite lookup_empty in Hl.
  - intros Hm. unfold Py.len. simpl. lia.
Qed.

Lemma serve_consistent (a : args) (st st' : learner) (req : request)
    (rep : reply) :
  consistent a st -> serve a st req = Some (st', rep) -> consistent a st'.
Proof.
  intros (He & Hn & Hr & Hf & Hres & Hb) Hs.
  destruct req as [multi count|multi count|multi data|multi data|multi data];
    unfold Learner.serve in Hs.
  - rewrite ServeFacts.gargs_iter_items in Hs. injection Hs as <- _.
    unfold consistent. simpl.
    split; [done|]. split; [lia|]. do 3 (split; [done|]). done.
  - rewrite ServeFacts.eargs_iter_items in Hs. injection Hs as <- _.
    unfold consistent. simpl.
    split; [done|]. split; [done|]. split; [lia|]. do 2 (split; [done|]). done.
  - destruct (Store.feed_episodes _ _ _) as [eps|] eqn:Ef; [|done].
    injection Hs as <- _. unfold consistent. simpl.
    do 5 (split; [done|]). intros Hm.
    unfold Store.feed_episodes in Ef.
    rewrite StoreFacts.evict_newest in Ef by done. injection Ef as <-.
    by apply StoreFacts.length_newest.
  - injection Hs as <- _. unfold consistent. simpl.
    do 4 (split; [done|]). split; [|done].
    by apply LearnerFacts.feed_results_ok.
  - by injection Hs as <- _.
Qed.

Lemma update_consistent (a : args) (st st' : learner)
    (polls : list (option model * Z)) (rep : report) :
  consistent a st -> update a st polls = Some (st', rep) -> consistent a st'.
Proof.
  intros (He & Hn & Hr & Hf & Hres & Hb) Hu.
  unfold Learner.update in Hu. destruct (win_rate _ _); [|done].
  destruct (trainer_update _ _ _) as [[m steps]|]; [|done].
  injection Hu as <- _. unfold consistent, update_model. simpl.
  split; [lia|]. split; [done|]. split; [done|]. split; [|done].
  intros e Hle. destruct (decide (e = model_era st + 1)) as [->|Hne].
  - rewrite lookup_insert_eq. by eexists.
  - rewrite lookup_insert_ne.
    + apply Hf. lia.
    + intros Heq%LearnerFacts.model_path_inj. lia.
Qed.

Lemma run_consistent (a : args) (evs : list event) :
  forall st st' : learner,
    consistent a st -> run a st evs = Some st' -> consistent a st'.
Proof.
  induction evs as [|ev evs IH]; intros st st' Hc H; simpl in H.
  - by injection H as <-.
  - destruct (step _ _ _ a st ev) as [s|] eqn:Es; [|done].
    apply (IH s st'); [|done].
    destruct ev as [req|polls]; simpl in Es.
    + destruct (serve a st req) as [[s' rep]|] eqn:E; [|done].
      injection Es as <-. by apply (serve_consistent a st s' req rep).
    + destruct (update a st polls) as [[s' rep]|] eqn:E; [|done].
      injection Es as <-. by apply (update_consistent a st s' polls rep).
Qed.

Lemma run_saved (a : args) (evs : list event) :
  forall st st' : learner,
    saved get_state_dict st -> run a st evs = Some st' ->
    saved get_state_dict st'.
Proof.
  induction evs as [|ev evs IH]; intros st st' Hc H; simpl in H.
  - by injection H as <-.
  - destruct (step _ _ _ a st ev) as [s|] eqn:Es; [|done].
    apply (IH s st'); [|done].
    destruct ev as [req|polls]; simpl in Es.
    + destruct (serve a st req) as [[s' rep]|] eqn:E; [|done].
      injection Es as <-.
      apply LearnerFacts.serve_keeps in E as (He & _ & Hf & _).
      intros e Hle. rewrite Hf. apply Hc. lia.
    + destruct (update a st polls) as [[s' rep]|] eqn:E; [|done].
      injection Es as <-.
      apply LearnerFacts.update_spec in E as (He & Hf & _).
      intros e Hle. rewrite Hf.
      destruct (decide (e = model_era s')) as [->|Hne].
      * rewrite lookup_insert_eq. by eexists.
      * rewrite lookup_insert_ne.
        -- apply Hc. lia.
        -- intros Heq%LearnerFacts.model_path_inj. lia.
Qed.

End WithModel.
End ReachableFacts.

(** ** More facts about [vtrace_base] and [vtrace] *)

Module VTraceMore.
Import VTrace VTraceFacts.

Lemma clamp_ge (lo hi x : Q) : (lo <= hi)%Q -> (lo <= clamp lo hi x)%Q.
Proof.
  intros Hlh. unfold clamp.
  destruct (Qlt_le_dec x lo); [apply Qle_refl|].
  destruct (Qlt_le_dec hi x); done.
Qed.

End VTraceMore.

(** ** Entries of broadcast operations *)

Module TensorFacts.
Import VTrace VTraceFacts TimeMajor.

Lemma bzip_singleton_r {A B C} (f : A -> B -> C) (xs : list A) (y : B) :
  bzip f xs [y] = (fun x => f x y) <$> xs.
Proof. by destruct xs as [|x [|x' xs]]. Qed.

Lemma entry_Some {X} (t : list (list X)) (k bi : nat) (r : X) :
  entry t k bi = Some r <-> exists s, t !! k = Some s /\ s !! bi = Some r.
Proof.
  unfold entry. destruct (t !! k) as [s|]; simpl.
  - split; [by exists s|]. by intros (s' & [= <-] & ?).
  - split; [done|]. by intros (s' & ? & ?).
Qed.

Lemma entry3_Some {X} (t : list (list (list X))) (k bi j : nat) (x : X) :
  entry3 t k bi j = Some x <->
  exists s r, t !! k = Some s /\ s !! bi = Some r /\ r !! j = Some x.
Proof.
  unfold entry3. destruct (entry t k bi) as [r|] eqn:E; simpl.
  - apply entry_Some in E as (s & Hs & Hr). split.
    + intros Hx. by exists s, r.
    + intros (s' & r' & Hs' & Hr' & Hx). congruence.
  - split; [done|]. intros (s & r & Hs & Hr & Hx).
    assert (entry t k bi = Some r) by (apply entry_Some; by exists s).
    congruence.
Qed.

Lemma shaped_lookup {X} (T B P : nat) (t : list (list (list X)))
    (k bi : nat) (s : list (list X)) (r : list X) :
  shaped T B P t -> t !! k = Some s -> s !! bi = Some r ->
  length s = B /\ length r = P /\ (k < T)%nat /\ (bi < B)%nat.
Proof.
  intros [Ht Hall] Hs Hr. rewrite Forall_lookup in Hall.
  destruct (Hall _ _ Hs) as [Hb Hrows]. rewrite Forall_lookup in Hrows.
  apply lookup_lt_Some in Hs as Hk. apply lookup_lt_Some in Hr as Hbi.
  split; [done|]. split; [by apply (Hrows _ _ Hr)|]. lia.
Qed.

(** One axis. *)
Lemma Forall_bzip_same {A B C} (f : A -> B -> C) (PA : A -> Prop)
    (PB : B -> Prop) (PC : C -> Prop) (xs : list A) (ys : list B) :
  length xs = length ys -> Forall PA xs -> Forall PB ys ->
  (forall x y, PA x -> PB y -> PC (f x y)) ->
  Forall PC (bzip f xs ys).
Proof.
  intros Hl Hx Hy Hf. rewrite bzip_same by done.
  apply Forall_lookup. intros i c Hc.
  apply lookup_zip_with_Some in Hc as (x & y & -> & Hx' & Hy').
  rewrite Forall_lookup in Hx. rewrite Forall_lookup in Hy. eauto.
Qed.

Lemma Forall_bzip_l1 {A B C} (f : A -> B -> C) (PB : B -> Prop)
    (PC : C -> Prop) (x : A) (ys : list B) :
  Forall PB ys -> (forall y, PB y -> PC (f x y)) ->
  Forall PC (bzip f [x] ys).
Proof.
  intros Hy Hf. change (bzip f [x] ys) with (f x <$> ys).
  apply Forall_fmap. eapply Forall_impl; [exact Hy|]. done.
Qed.

(** Shapes of the three kinds of product met in [vtrace_base]. *)
Lemma shaped_bzip3_same (f : Q -> Q -> Q) (T B P : nat) (X Y : tensor) :
  shaped T B P X -> shaped T B P Y ->
  shaped T B P (bzip (bzip (bzip f)) X Y).
Proof.
  intros [HX HXs] [HY HYs]. split; [rewrite bzip_length_same; lia|].
  apply (Forall_bzip_same _ _ _ _ X Y ltac:(lia) HXs HYs).
  intros s s' [Hs Hr] [Hs' Hr']. split; [rewrite bzip_length_same; lia|].
  apply (Forall_bzip_same _ _ _ _ s s' ltac:(lia) Hr Hr').
  intros r r' Hl Hl'. simpl in *. rewrite bzip_length_same; lia.
Qed.

Lemma shaped_bzip3_last1 (f : Q -> Q -> Q) (T B P : nat) (X Y : tensor) :
  shaped T B P X -> shaped T B 1 Y ->
  shaped T B P (bzip (bzip (bzip f)) X Y).
Proof.
  intros [HX HXs] [HY HYs]. split; [rewrite bzip_length_same; lia|].
  apply (Forall_bzip_same _ _ _ _ X Y ltac:(lia) HXs HYs).
  intros s s' [Hs Hr] [Hs' Hr']. split; [rewrite bzip_length_same; lia|].
  apply (Forall_bzip_same _ _ _ _ s s' ltac:(lia) Hr Hr').
  intros r r' Hl Hl'. simpl in *.
  destruct r' as [|y [|y' r']]; try done.
  by rewrite bzip_singleton_r, length_fmap.
Qed.

Lemma shaped_bzip3_first1_last1 (f : Q -> Q -> Q) (T B P : nat)
    (X Y : tensor) :
  shaped 1 B P X -> shaped T B 1 Y ->
  shaped T B P (bzip (bzip (bzip f)) X Y).
Proof.
  intros [HX HXs] [HY HYs].
  destruct X as [|s [|s'' X]]; try done.
  apply Forall_singleton in HXs as [Hs Hr].
  split; [by rewrite bzip_length_one_l|].
  apply (Forall_bzip_l1 _ _ _ s Y HYs).
  intros s' [Hs' Hr']. split; [rewrite bzip_length_same; lia|].
  apply (Forall_bzip_same _ _ _ _ s s' ltac:(lia) Hr Hr').
  intros r r' Hl Hl'. simpl in *.
  destruct r' as [|y [|y' r']]; try done.
  by rewrite bzip_singleton_r, length_fmap.
Qed.

Lemma shaped_tmap (f : Q -> Q) (T B P : nat) (X : tensor) :
  shaped T B P X -> shaped T B P (tmap f X).
Proof.
  intros [HX HXs]. unfold tmap. split; [by rewrite length_fmap|].
  apply Forall_fmap. eapply Forall_impl; [exact HXs|].
  intros s [Hs Hr]. simpl. split; [by rewrite length_fmap|].
  apply Forall_fmap. eapply Forall_impl; [exact Hr|].
  intros r Hl. simpl. by rewrite length_fmap.
Qed.

Lemma shaped_sum_last (T B P : nat) (X : tensor) :
  shaped T B P X -> shaped T B 1 (sum_last X).
Proof.
  intros [HX HXs]. unfold sum_last. split; [by rewrite length_fmap|].
  apply Forall_fmap. eapply Forall_impl; [exact HXs|].
  intros s [Hs Hr]. simpl. split; [by rewrite length_fmap|].
  apply Forall_fmap. by apply Forall_true.
Qed.

Lemma shaped_opponent (T B P : nat) (X : tensor) :
  shaped T B P X -> shaped T B 2 (opponent X).
Proof.
  intros [HX HXs]. unfold opponent. split; [by rewrite length_fmap|].
  apply Forall_fmap. eapply Forall_impl; [exact HXs|].
  intros s [Hs Hr]. simpl. split; [by rewrite length_fmap|].
  apply Forall_fmap. by apply Forall_true.
Qed.

(** Entries of the three kinds of product. *)
Lemma entry3_bzip3_same (f : Q -> Q -> Q) (T B P : nat) (X Y : tensor)
    (k bi j : nat) (x y : Q) :
  shaped T B P X -> shaped T B P Y ->
  entry3 X k bi j = Some x -> entry3 Y k bi j = Some y ->
  entry3 (bzip (bzip (bzip f)) X Y) k bi j = Some (f x y).
Proof.
  intros HX HY Hx Hy.
  apply entry3_Some in Hx as (s & r & Hs & Hr & Hx).
  apply entry3_Some in Hy as (s' & r' & Hs' & Hr' & Hy).
  destruct (shaped_lookup _ _ _ _ _ _ _ _ HX Hs Hr) as (L1 & L2 & _).
  destruct (shaped_lookup _ _ _ _ _ _ _ _ HY Hs' Hr') as (L1' & L2' & _).
  apply entry3_Some. exists (bzip (bzip f) s s'), (bzip f r r').
  split; [|split].
  - apply bzip_lookup; [|done|done]. destruct HX, HY. lia.
  - apply bzip_lookup; [lia|done|done].
  - apply bzip_lookup; [lia|done|done].
Qed.

Lemma entry3_bzip3_last1 (f : Q -> Q -> Q) (T B P : nat) (X Y : tensor)
    (k bi j : nat) (x y : Q) :
  shaped T B P X -> shaped T B 1 Y ->
  entry3 X k bi j = Some x -> entry3 Y k bi 0 = Some y ->
  entry3 (bzip (bzip (bzip f)) X Y) k bi j = Some (f x y).
Proof.
  intros HX HY Hx Hy.
  apply entry3_Some in Hx as (s & r & Hs & Hr & Hx).
  apply entry3_Some in Hy as (s' & r' & Hs' & Hr' & Hy).
  destruct (shaped_lookup _ _ _ _ _ _ _ _ HX Hs Hr) as (L1 & L2 & _).
  destruct (shaped_lookup _ _ _ _ _ _ _ _ HY Hs' Hr') as (L1' & L2' & _).
  destruct r' as [|y0 [|y' r']]; try done. injection Hy as ->.
  apply entry3_Some. exists (bzip (bzip f) s s'), (bzip f r [y]).
  split; [|split].
  - apply bzip_lookup; [|done|done]. destruct HX, HY. lia.
  - apply bzip_lookup; [lia|done|done].
  - by rewrite bzip_singleton_r, list_lookup_fmap, Hx.
Qed.

Lemma entry3_bzip3_first1_last1 (f : Q -> Q -> Q) (T B P : nat)
    (X Y : tensor) (k bi j : nat) (x y : Q) :
  shaped 1 B P X -> shaped T B 1 Y ->
  entry3 X 0 bi j = Some x -> entry3 Y k bi 0 = Some y ->
  entry3 (bzip (bzip (bzip f)) X Y) k bi j = Some (f x y).
Proof.
  intros HX HY Hx Hy.
  apply entry3_Some in Hx as (s & r & Hs & Hr & Hx).
  apply entry3_Some in Hy as (s' & r' & Hs' & Hr' & Hy).
  destruct (shaped_lookup _ _ _ _ _ _ _ _ HX Hs Hr) as (L1 & L2 & _).
  destruct (shaped_lookup _ _ _ _ _ _ _ _ HY Hs' Hr') as (L1' & L2' & _).
  destruct r' as [|y0 [|y' r']]; try done. injection Hy as ->.
  destruct HX as [HX _]. destruct X as [|s0 [|s'' X]]; try done.
  injection Hs as ->.
  apply entry3_Some. exists (bzip (bzip f) s s'), (bzip f r [y]).
  split; [|split].
  - change (bzip (bzip (bzip f)) [s] Y) with (bzip (bzip f) s <$> Y).
    by rewrite list_lookup_fmap, Hs'.
  - apply bzip_lookup; [lia|done|done].
  - by rewrite bzip_singleton_r, list_lookup_fmap, Hx.
Qed.

Lemma entry3_tmap (f : Q -> Q) (X : tensor) (k bi j : nat) :
  entry3 (tmap f X) k bi j = f <$> entry3 X k bi j.
Proof.
  unfold entry3, entry, tmap. rewrite list_lookup_fmap.
  destruct (X !! k) as [s|]; simpl; [|done].
  rewrite list_lookup_fmap. destruct (s !! bi) as [r|]; simpl; [|done].
  by rewrite list_lookup_fmap.
Qed.

Lemma entry3_sum_last (X : tensor) (k bi : nat) :
  entry3 (sum_last X) k bi 0 = foldr Qplus 0%Q <$> entry X k bi.
Proof.
  unfold entry3, entry, sum_last. rewrite list_lookup_fmap.
  destruct (X !! k) as [s|]; simpl; [|done].
  rewrite list_lookup_fmap. by destruct (s !! bi) as [r|].
Qed.

Lemma entry3_opponent (X : tensor) (k bi j : nat) (r : row) :
  entry X k bi = Some r -> (j < 2)%nat ->
  entry3 (opponent X) k bi j = Some (- nth (1 - j) r 0)%Q.
Proof.
  intros Hr Hj. apply entry_Some in Hr as (s & Hs & Hr).
  unfold entry3, entry, opponent. rewrite list_lookup_fmap, Hs. simpl.
  rewrite list_lookup_fmap, Hr. simpl.
  destruct j as [|[|j]]; [done|done|lia].
Qed.

End TensorFacts.

Module Fixture2Facts.
Import Fixture2.

Lemma b_ok : VTrace.batch_ok 2 1 2 1 b t_policies t_values.
Proof.
  unfold VTrace.batch_ok, VTrace.shaped. simpl.
  repeat split; repeat constructor; lia.
Qed.

End Fixture2Facts.

(** ** Facts about [softmax] *)

Module ModelFacts.
Import Model.

Lemma foldl_max_spec (xs : list Q) :
  forall x0 : Q,
    let m := foldl (fun m v => if Qlt_le_dec m v then v else m) x0 xs in
    m ∈ x0 :: xs /\ Forall (fun v => (v <= m)%Q) (x0 :: xs).
Proof.
  induction xs as [|x xs IH]; intros x0; simpl.
  - split; [by left|]. apply Forall_singleton. apply Qle_refl.
  - destruct (Qlt_le_dec x0 x) as [Hlt|Hle].
    + destruct (IH x) as [Hin Hall]. split; [by right|].
      apply Forall_cons in Hall as [Hx Hall].
      apply Forall_cons. split; [|by apply Forall_cons].
      eapply Qle_trans; [apply Qlt_le_weak; exact Hlt|exact Hx].
    + destruct (IH x0) as [Hin Hall]. split.
      * apply elem_of_cons in Hin as [->|Hin]; [by left|by do 2 right].
      * apply Forall_cons in Hall as [Hx Hall].
        apply Forall_cons. split; [done|]. apply Forall_cons. split; [|done].
        eapply Qle_trans; [exact Hle|exact Hx].
Qed.

Lemma sum_pos (e : list Q) :
  e <> [] -> Forall (fun v => (0 < v)%Q) e -> (0 < foldr Qplus 0 e)%Q.
Proof.
  intros Hne Hall. destruct Hall as [|v e Hv Hall]; [done|]. simpl.
  assert (0 <= foldr Qplus 0 e)%Q.
  { clear Hne Hv. induction Hall as [|w e Hw _ IH]; simpl; [apply Qle_refl|].
    lra. }
  lra.
Qed.

Lemma sum_div (s : Q) (e : list Q) :
  (foldr Qplus 0 ((fun v => v / s) <$> e) == foldr Qplus 0 e / s)%Q.
Proof.
  induction e as [|v e IH]; simpl.
  - unfold Qdiv. ring.
  - rewrite IH. unfold Qdiv. ring.
Qed.

End ModelFacts.

(** ** Facts about the training thread *)

Module TrainerRunFacts.
Import TrainLoop TrainerRun.

Lemma train_returned (tr tr' : TrainLoop.trainer) (flag : nat -> bool)
    (batches : list batch_result) (printed : gmap string Q) (c : locals) :
  train tr flag batches = Returned tr' printed c ->
  has_optimizer tr = true /\ has_optimizer tr' = true /\
  trainer_steps tr + 1 <= trainer_steps tr'.
Proof.
  unfold train. destruct (has_optimizer tr); simpl; [|done].
  destruct (loop flag 0 _ batches) as [c0|] eqn:El; [|done].
  destruct (TrainLoopFacts.loop_spec _ _ _ _ _ El)
    as (n & Hn & Hb & Hs & Hd & Hz & Hf).
  simpl in Hs, Hd.
  destruct (_ && _); [done|]. intros [= <- _ _]. simpl.
  split; [done|]. split; [done|].
  destruct n as [|n]; [|lia]. exfalso. apply Hz. rewrite Hd. simpl. lra.
Qed.

Lemma train_no_parameters (tr : TrainLoop.trainer) (flag : nat -> bool)
    (batches : list batch_result) :
  train tr flag batches = NoParameters <-> has_optimizer tr = false.
Proof.
  unfold train. destruct (has_optimizer tr); simpl; [|done].
  split; [|done]. destruct (loop flag 0 _ batches); [|done].
  by destruct (_ && _).
Qed.

Section WithModel.

Context {model : Type}.

Abbreviation thread := (@TrainerRun.thread model).
Abbreviation pass := (@TrainerRun.pass model).

Lemma len_training_cons (m : Z) (p : pass) (passes : list pass) :
  Py.len (training_passes m (p :: passes))
  = (if stored p <? m then 0 else 1) + Py.len (training_passes m passes).
Proof.
  unfold training_passes, Py.len. rewrite filter_cons.
  destruct (Z.ltb_spec (stored p) m).
  - rewrite decide_False by lia. lia.
  - rewrite decide_True by lia. simpl. lia.
Qed.

(** Without parameters every training pass starts the batcher again and
    reports no model. *)
Lemma run_without_parameters (m : Z) (passes : list pass) :
  forall th th' : thread,
    has_optimizer (trainer th) = false ->
    trainer_steps (trainer th) = 0 ->
    run m th passes = Some th' ->
    let n := Py.len (training_passes m passes) in
    trainer th' = trainer th /\
    reported th' = reported th ++ replicate (Z.to_nat n) (None, 0) /\
    batcher_runs th' = batcher_runs th + n.
Proof.
  induction passes as [|p passes IH]; intros th th' Ho Hs; simpl.
  - intros [= <-]. unfold Py.len. simpl. rewrite app_nil_r.
    split; [done|]. split; [done|]. lia.
  - rewrite len_training_cons. unfold run_pass.
    pose proof (PyFacts.len_nonneg (training_passes m passes)) as Hnn.
    destruct (Z.ltb_spec (stored p) m).
    + intros Hr. destruct (IH _ _ Ho Hs Hr) as (H1 & H2 & H3).
      rewrite Z.add_0_l. done.
    + rewrite (proj2 (train_no_parameters _ (flag p) (batches p)) Ho).
      rewrite Hs. simpl. intros Hr.
      eapply IH in Hr; [|exact Ho|exact Hs].
      destruct Hr as (H1 & H2 & H3). simpl in *.
      split; [done|]. split; [|lia].
      rewrite H2, <- app_assoc. f_equal.
      replace (Z.to_nat (1 + Py.len (training_passes m passes)))
        with (S (Z.to_nat (Py.len (training_passes m passes)))) by lia.
      done.
Qed.

(** With parameters every training pass reports a model with a larger
    step count, and only a pass that starts at step 0 starts the
    batcher. *)
Lemma run_with_parameters (m : Z) (passes : list pass) :
  forall th th' : thread,
    has_optimizer (trainer th) = true ->
    0 <= trainer_steps (trainer th) ->
    run m th passes = Some th' ->
    let n := Py.len (training_passes m passes) in
    exists new,
      reported th' = reported th ++ new /\ Py.len new = n /\
      Forall (fun r => is_Some r.1 /\ trainer_steps (trainer th) + 1 <= r.2)
             new /\
      batcher_runs th'
      = batcher_runs th
        + (if trainer_steps (trainer th) =? 0 then Z.min 1 n else 0).
Proof.
  induction passes as [|p passes IH]; intros th th' Ho Hs; simpl.
  - intros [= <-]. exists []. rewrite app_nil_r. unfold Py.len. simpl.
    split; [done|]. split; [done|]. split; [done|].
    destruct (_ =? 0); lia.
  - rewrite len_training_cons. unfold run_pass.
    pose proof (PyFacts.len_nonneg (training_passes m passes)) as Hnn.
    destruct (Z.ltb_spec (stored p) m).
    + intros Hr. destruct (IH _ _ Ho Hs Hr) as (new & H1 & H2 & H3 & H4).
      exists new. rewrite Z.add_0_l. done.
    + destruct (train (trainer th) (flag p) (batches p))
        as [| | |tr' printed c] eqn:Et; try done.
      { apply train_no_parameters in Et. congruence. }
      apply train_returned in Et as (_ & Ho' & Hst).
      intros Hr. eapply IH in Hr; [|exact Ho'|simpl; lia].
      destruct Hr as (new & H1 & H2 & H3 & H4).
      simpl in *.
      exists ((Some (trained p), trainer_steps tr') :: new).
      split; [by rewrite H1, <- app_assoc|].
      split; [unfold Py.len in *; simpl; lia|]. split.
      * apply Forall_cons. split; [split; [by eexists|simpl; lia]|].
        eapply Forall_impl; [exact H3|]. intros r [Hr1 Hr2]. split; [done|lia].
      * rewrite H4. destruct (Z.eqb_spec (trainer_steps tr') 0); [lia|].
        destruct (Z.eqb_spec (trainer_steps (trainer th)) 0); lia.
Qed.

End WithModel.
End TrainerRunFacts.

(** ** Facts about the losses *)

Module LossesFacts.
Import VTrace Losses.

Lemma rsum_nonneg (r : row) : Forall (fun x => (0 <= x)%Q) r -> (0 <= rsum r)%Q.
Proof.
  unfold rsum. induction 1 as [|x r Hx _ IH]; simpl; [apply Qle_refl|]. lra.
Qed.

Lemma rsum_zero (r : row) : Forall (fun x => (x == 0)%Q) r -> (rsum r == 0)%Q.
Proof.
  unfold rsum. induction 1 as [|x r Hx _ IH]; simpl; [reflexivity|].
  rewrite Hx, IH. ring.
Qed.

Lemma rsum_zero_inv (r : row) :
  Forall (fun x => (0 <= x)%Q) r -> (rsum r == 0)%Q ->
  Forall (fun x => (x == 0)%Q) r.
Proof.
  induction 1 as [|x r Hx Hr IH]; intros Hs; [done|].
  pose proof (rsum_nonneg r Hr) as Hn. unfold rsum in *. simpl in Hs.
  apply Forall_cons. split; [lra|]. apply IH. lra.
Qed.

(** Any entry of a broadcast product is the product of an entry of each
    operand. *)
Lemma Forall_bzip {A B C} (f : A -> B -> C) (PA : A -> Prop)
    (PB : B -> Prop) (PC : C -> Prop) (xs : list A) (ys : list B) :
  Forall PA xs -> Forall PB ys ->
  (forall x y, PA x -> PB y -> PC (f x y)) ->
  Forall PC (bzip f xs ys).
Proof.
  intros Hx Hy Hf.
  assert (Hzip : Forall PC (zip_with f xs ys)).
  { apply Forall_lookup. intros i c Hc.
    apply lookup_zip_with_Some in Hc as (x & y & -> & Hx' & Hy').
    rewrite Forall_lookup in Hx. rewrite Forall_lookup in Hy. eauto. }
  assert (Hl : forall x, PA x -> Forall PC (f x <$> ys)).
  { intros x HPx. apply Forall_fmap. eapply Forall_impl; [exact Hy|].
    intros y HPy. by apply Hf. }
  assert (Hr : forall y, PB y -> Forall PC ((fun x => f x y) <$> xs)).
  { intros y HPy. apply Forall_fmap. eapply Forall_impl; [exact Hx|].
    intros x HPx. by apply Hf. }
  unfold bzip.
  destruct xs as [|x [|x' xs]].
  - destruct ys as [|y [|y' ys]]; try done;
      apply Hr; by rewrite Forall_singleton in Hy.
  - apply Hl. by rewrite Forall_singleton in Hx.
  - destruct ys as [|y [|y' ys]]; try done;
      apply Hr; by rewrite Forall_singleton in Hy.
Qed.

Abbreviation all3 P := (Forall (Forall (Forall P))) (only parsing).
Abbreviation all2 P := (Forall (Forall P)) (only parsing).

Lemma all3_tmul (PA PB PC : Q -> Prop) (X Y : tensor) :
  all3 PA X -> all3 PB Y ->
  (forall x y, PA x -> PB y -> PC (x * y)%Q) ->
  all3 PC (tmul X Y).
Proof.
  intros HX HY Hf. unfold tmul, smul.
  apply (Forall_bzip _ _ _ _ X Y HX HY). intros s s' Hs Hs'.
  apply (Forall_bzip _ _ _ _ s s' Hs Hs'). intros r r' Hr Hr'.
  by apply (Forall_bzip _ _ _ _ r r' Hr Hr').
Qed.

Lemma all2_smul (PA PB PC : Q -> Prop) (X Y : slice) :
  all2 PA X -> all2 PB Y ->
  (forall x y, PA x -> PB y -> PC (x * y)%Q) ->
  all2 PC (bzip (bzip Qmult) X Y).
Proof.
  intros HX HY Hf.
  apply (Forall_bzip _ _ _ _ X Y HX HY). intros r r' Hr Hr'.
  by apply (Forall_bzip _ _ _ _ r r' Hr Hr').
Qed.

Lemma all3_true (t : tensor) : all3 (fun _ => True) t.
Proof. apply Forall_true. intros s. apply Forall_true. intros r.
  by apply Forall_true. Qed.

Lemma all2_true (s : slice) : all2 (fun _ => True) s.
Proof. apply Forall_true. intros r. by apply Forall_true. Qed.

Lemma ssum_nonneg (s : slice) : all2 (fun x => (0 <= x)%Q) s -> (0 <= ssum s)%Q.
Proof.
  intros Hs. unfold ssum. apply rsum_nonneg, Forall_fmap.
  eapply Forall_impl; [exact Hs|]. intros r Hr. by apply rsum_nonneg.
Qed.

Lemma tsum_nonneg (t : tensor) : all3 (fun x => (0 <= x)%Q) t -> (0 <= tsum t)%Q.
Proof.
  intros Ht. unfold tsum. apply rsum_nonneg, Forall_fmap.
  eapply Forall_impl; [exact Ht|]. intros s Hs. by apply ssum_nonneg.
Qed.

Lemma ssum_zero (s : slice) : all2 (fun x => (x == 0)%Q) s -> (ssum s == 0)%Q.
Proof.
  intros Hs. unfold ssum. apply rsum_zero, Forall_fmap.
  eapply Forall_impl; [exact Hs|]. intros r Hr. by apply rsum_zero.
Qed.

Lemma tsum_zero (t : tensor) : all3 (fun x => (x == 0)%Q) t -> (tsum t == 0)%Q.
Proof.
  intros Ht. unfold tsum. apply rsum_zero, Forall_fmap.
  eapply Forall_impl; [exact Ht|]. intros s Hs. by apply ssum_zero.
Qed.

Lemma tsum_zero_inv (t : tensor) :
  all3 (fun x => (0 <= x)%Q) t -> (tsum t == 0)%Q ->
  all3 (fun x => (x == 0)%Q) t.
Proof.
  intros Ht Hs. unfold tsum in Hs.
  assert (H1 : Forall (fun x => (x == 0)%Q) (ssum <$> t)).
  { apply rsum_zero_inv; [|done]. apply Forall_fmap.
    eapply Forall_impl; [exact Ht|]. intros s Hs'. by apply ssum_nonneg. }
  apply Forall_fmap in H1.
  apply Forall_lookup. intros k s Hk.
  rewrite Forall_lookup in Ht. rewrite Forall_lookup in H1.
  specialize (Ht _ _ Hk). specialize (H1 _ _ Hk). simpl in H1.
  unfold ssum in H1.
  assert (H2 : Forall (fun x => (x == 0)%Q) (rsum <$> s)).
  { apply rsum_zero_inv; [|done]. apply Forall_fmap.
    eapply Forall_impl; [exact Ht|]. intros r Hr. by apply rsum_nonneg. }
  apply Forall_fmap in H2.
  apply Forall_lookup. intros bi r Hbi.
  rewrite Forall_lookup in Ht. rewrite Forall_lookup in H2.
  specialize (Ht _ _ Hbi). specialize (H2 _ _ Hbi). simpl in H2.
  by apply rsum_zero_inv.
Qed.

Lemma all3_sum_last_zero (t : tensor) :
  all3 (fun x => (x == 0)%Q) t -> all3 (fun x => (x == 0)%Q) (sum_last t).
Proof.
  intros Ht. unfold sum_last. apply Forall_fmap.
  eapply Forall_impl; [exact Ht|]. intros s Hs. simpl.
  apply Forall_fmap. eapply Forall_impl; [exact Hs|]. intros r Hr. simpl.
  apply Forall_singleton. by apply rsum_zero.
Qed.

End LossesFacts.


(** * The claims *)

(** C1. On a batch of time length [T >= 1] with return estimator TD0:
    [delta[t] = rho[t] * (value[t+1] - value[t])] with the final return
    in the place of [value[T]]; [vs[T-1] = delta[T-1]] and
    [vs[t] = delta[t] + c[t] * vs[t+1]] below; [rho] and [c] are at most
    1; the value target is [vs + value]; and the advantage is [rho]
    times the value target shifted by one step, ending in the return,
    minus [value]. *)
Theorem vtrace_td0_recursion (exp : Q -> Q)
    (log_softmax : VTrace.row -> VTrace.row) (observation : bool)
    (b : VTrace.batch) (t_policies t_values : VTrace.tensor)
    (T B P A : nat) :
  (1 <= T)%nat ->
  (forall r, length (log_softmax r) = length r) ->
  VTrace.batch_ok T B P A b t_policies t_values ->
  exists base deltas vs value_targets advantages,
    VTrace.vtrace_base exp log_softmax observation b t_policies t_values
      = Some base /\
    VTrace.vtrace exp log_softmax "TD0" observation b t_policies t_values
      = Some (value_targets, advantages) /\
    let value := VTrace.values_nograd base in
    let rho := VTrace.clipped_rhos base in
    let c := VTrace.cs base in
    length value = T /\ length rho = T /\ length c = T /\
    length deltas = T /\ length vs = T /\
    Forall (Forall (Forall (fun x => (x <= 1)%Q))) rho /\
    Forall (Forall (Forall (fun x => (x <= 1)%Q))) c /\
    (forall t rho_t v_t v_t1,
       rho !! t = Some rho_t -> value !! t = Some v_t ->
       (value ++ VTrace.returns b) !! S t = Some v_t1 ->
       deltas !! t = Some (VTrace.smul rho_t (VTrace.ssub v_t1 v_t))) /\
    vs !! (T - 1)%nat = deltas !! (T - 1)%nat /\
    (forall t d_t c_t x,
       (S t < T)%nat ->
       deltas !! t = Some d_t -> c !! t = Some c_t -> vs !! S t = Some x ->
       vs !! t = Some (VTrace.sadd d_t (VTrace.smul c_t x))) /\
    value_targets = VTrace.tadd vs value /\
    advantages
      = VTrace.tmul rho
          (VTrace.tsub (drop 1 value_targets ++ VTrace.returns b) value).
Proof.
  intros HT Hls Hok.
  destruct (VTraceFacts.vtrace_base_some exp log_softmax Hls observation b
              t_policies t_values T B P A Hok)
    as ([l v r c] & Hbase & Hv & Hr & Hc & Hler & Hlec).
  simpl in Hv, Hr, Hc, Hler, Hlec.
  destruct Hok as (_ & _ & _ & [Hvm _] & _ & [Hret _] & _ & _).
  destruct (VTraceRun.vtrace_td0_run exp log_softmax observation b
              t_policies t_values T l v r c Hbase HT Hv Hr Hc Hvm Hret)
    as [Hd Hrun].
  set (deltas := VTrace.tmul r (VTrace.tsub (drop 1 v ++ VTrace.returns b) v))
    in *.
  exists (VTrace.Base l v r c), deltas, (VTrace.td0_rec deltas c),
    (VTrace.tadd (VTrace.td0_rec deltas c) v),
    (VTrace.tmul r
       (VTrace.tsub (drop 1 (VTrace.tadd (VTrace.td0_rec deltas c) v)
                     ++ VTrace.returns b) v)).
  split; [done|]. split; [exact Hrun|]. simpl.
  assert (Hx : length (VTrace.tsub (drop 1 v ++ VTrace.returns b) v) = T).
  { unfold VTrace.tsub. rewrite VTraceFacts.bzip_length_same;
      rewrite length_app, length_drop; lia. }
  repeat (split; [done|]).
  split; [by rewrite VTraceFacts.length_td0_rec|].
  do 2 (split; [done|]). split; [|split; [|split; [|done]]].
  - intros t rho_t v_t v_t1 Hrt Hvt Hvt1. unfold deltas, VTrace.tmul.
    apply VTraceFacts.bzip_lookup; [lia|done|].
    unfold VTrace.tsub. apply VTraceFacts.bzip_lookup; [|..|done].
    + rewrite length_app, length_drop. lia.
    + rewrite <- Hvt1. destruct v as [|v0 v]; [done|]. done.
  - rewrite <- Hd. apply VTraceFacts.td0_rec_last.
  - intros t d_t c_t x _ Hdt Hct Hxt. by apply VTraceFacts.td0_rec_step.
Qed.

Lemma vtrace_td0_recursion_witness :
  (1 <= 2)%nat /\
  (forall r, length (Fixture.log_softmax r) = length r) /\
  VTrace.batch_ok 2 1 1 1 Fixture.b2 Fixture.t_policies Fixture.t_values /\
  exists base deltas vs value_targets advantages,
    VTrace.vtrace_base Fixture.exp Fixture.log_softmax false Fixture.b2
      Fixture.t_policies Fixture.t_values = Some base /\
    VTrace.vtrace Fixture.exp Fixture.log_softmax "TD0" false Fixture.b2
      Fixture.t_policies Fixture.t_values
      = Some (value_targets, advantages) /\
    let value := VTrace.values_nograd base in
    let rho := VTrace.clipped_rhos base in
    let c := VTrace.cs base in
    length value = 2%nat /\ length rho = 2%nat /\ length c = 2%nat /\
    length deltas = 2%nat /\ length vs = 2%nat /\
    Forall (Forall (Forall (fun x => (x <= 1)%Q))) rho /\
    Forall (Forall (Forall (fun x => (x <= 1)%Q))) c /\
    (forall t rho_t v_t v_t1,
       rho !! t = Some rho_t -> value !! t = Some v_t ->
       (value ++ VTrace.returns Fixture.b2) !! S t = Some v_t1 ->
       deltas !! t = Some (VTrace.smul rho_t (VTrace.ssub v_t1 v_t))) /\
    vs !! (2 - 1)%nat = deltas !! (2 - 1)%nat /\
    (forall t d_t c_t x,
       (S t < 2)%nat ->
       deltas !! t = Some d_t -> c !! t = Some c_t -> vs !! S t = Some x ->
       vs !! t = Some (VTrace.sadd d_t (VTrace.smul c_t x))) /\
    value_targets = VTrace.tadd vs value /\
    advantages
      = VTrace.tmul rho
          (VTrace.tsub (drop 1 value_targets ++ VTrace.returns Fixture.b2)
                       value).
Proof.
  split; [lia|]. split; [exact FixtureFacts.log_softmax_length|].
  split; [exact FixtureFacts.b2_ok|].
  apply (vtrace_td0_recursion Fixture.exp Fixture.log_softmax false
           Fixture.b2 Fixture.t_policies Fixture.t_values 2 1 1 1).
  - lia.
  - exact FixtureFacts.log_softmax_length.
  - exact FixtureFacts.b2_ok.
Defined.

(** C2 as stated fails.  On the two-step batch with values [0; 1] and
    return 0 the TDLAMBDA target at step 0 is [0.3 * 1 + 0.7 * 0]: the
    loop blends in the value of step 1, not the value of step 0, with
    which the claimed formula gives 0. *)
Lemma tdlambda_counterexample :
  exists base value_targets advantages v0 v1 x0 x1,
    VTrace.vtrace_base Fixture.exp Fixture.log_softmax false Fixture.b2
      Fixture.t_policies Fixture.t_values = Some base /\
    VTrace.vtrace Fixture.exp Fixture.log_softmax "TDLAMBDA" false Fixture.b2
      Fixture.t_policies Fixture.t_values
      = Some (value_targets, advantages) /\
    VTrace.values_nograd base = [[[v0]]; [[v1]]] /\
    value_targets = [[[x0]]; [[x1]]] /\
    (v0 == 0)%Q /\ (v1 == 1)%Q /\ (x1 == 0)%Q /\ (x0 == 3 # 10)%Q /\
    ~ (x0 == (1 - (7 # 10)) * v0 + (7 # 10) * x1)%Q.
Proof.
  do 7 eexists. split; [vm_compute; reflexivity|].
  split; [vm_compute; reflexivity|].
  split; [reflexivity|]. split; [reflexivity|].
  repeat split; try reflexivity. vm_compute. discriminate.
Qed.

(** C2 (amended). On a batch of time length [T >= 1] with return
    estimator TDLAMBDA and [lambda = 0.7]: [target[T-1]] is the return,
    and [target[t] = (1 - lambda) * value[t+1] + lambda * target[t+1]]
    below, with the value of the following step; the advantage is [rho]
    times [target - value]. *)
Theorem vtrace_tdlambda_recursion (exp : Q -> Q)
    (log_softmax : VTrace.row -> VTrace.row) (observation : bool)
    (b : VTrace.batch) (t_policies t_values : VTrace.tensor)
    (T B P A : nat) :
  (1 <= T)%nat ->
  (forall r, length (log_softmax r) = length r) ->
  VTrace.batch_ok T B P A b t_policies t_values ->
  exists base ret value_targets advantages,
    VTrace.vtrace_base exp log_softmax observation b t_policies t_values
      = Some base /\
    VTrace.vtrace exp log_softmax "TDLAMBDA" observation b t_policies t_values
      = Some (value_targets, advantages) /\
    let value := VTrace.values_nograd base in
    let rho := VTrace.clipped_rhos base in
    let lmb := (7 # 10)%Q in
    VTrace.returns b = [ret] /\
    length value = T /\ length rho = T /\ length value_targets = T /\
    Forall (Forall (Forall (fun x => (x <= 1)%Q))) rho /\
    value_targets !! (T - 1)%nat = Some ret /\
    (forall t v_t1 x,
       (S t < T)%nat ->
       value !! S t = Some v_t1 -> value_targets !! S t = Some x ->
       value_targets !! t
       = Some (VTrace.sadd (VTrace.sscale (1 - lmb) v_t1)
                           (VTrace.sscale lmb x))) /\
    advantages = VTrace.tmul rho (VTrace.tsub value_targets value).
Proof.
  intros HT Hls Hok.
  destruct (VTraceFacts.vtrace_base_some exp log_softmax Hls observation b
              t_policies t_values T B P A Hok)
    as ([l v r c] & Hbase & Hv & Hr & Hc & Hler & Hlec).
  simpl in Hv, Hr, Hc, Hler, Hlec.
  destruct Hok as (_ & _ & _ & [Hvm _] & _ & [Hret _] & _ & _).
  destruct (VTrace.returns b) as [|ret [|]] eqn:Eret; try discriminate.
  pose proof (VTraceRun.vtrace_tdlambda_run exp log_softmax observation b
                t_policies t_values T l v r c ret Hbase HT Hv Hvm Eret)
    as Hrun.
  exists (VTrace.Base l v r c), ret,
    (VTrace.lambda_rec (7 # 10) (drop 1 v) ret),
    (VTrace.tmul r
       (VTrace.tsub (VTrace.lambda_rec (7 # 10) (drop 1 v) ret) v)).
  split; [done|]. split; [exact Hrun|]. simpl.
  assert (Hl : length (drop 1 v) = (T - 1)%nat) by (rewrite length_drop; lia).
  repeat (split; [done|]).
  split; [rewrite VTraceFacts.length_lambda_rec; lia|].
  split; [done|]. split; [|split; [|done]].
  - rewrite <- Hl. apply VTraceFacts.lambda_rec_last.
  - intros t v_t1 x _ Hvt Hxt. apply VTraceFacts.lambda_rec_step; [|done].
    by rewrite lookup_drop.
Qed.

Lemma vtrace_tdlambda_recursion_witness :
  (1 <= 2)%nat /\
  (forall r, length (Fixture.log_softmax r) = length r) /\
  VTrace.batch_ok 2 1 1 1 Fixture.b2 Fixture.t_policies Fixture.t_values /\
  exists base ret value_targets advantages,
    VTrace.vtrace_base Fixture.exp Fixture.log_softmax false Fixture.b2
      Fixture.t_policies Fixture.t_values = Some base /\
    VTrace.vtrace Fixture.exp Fixture.log_softmax "TDLAMBDA" false Fixture.b2
      Fixture.t_policies Fixture.t_values
      = Some (value_targets, advantages) /\
    let value := VTrace.values_nograd base in
    let rho := VTrace.clipped_rhos base in
    let lmb := (7 # 10)%Q in
    VTrace.returns Fixture.b2 = [ret] /\
    length value = 2%nat /\ length rho = 2%nat /\
    length value_targets = 2%nat /\
    Forall (Forall (Forall (fun x => (x <= 1)%Q))) rho /\
    value_targets !! (2 - 1)%nat = Some ret /\
    (forall t v_t1 x,
       (S t < 2)%nat ->
       value !! S t = Some v_t1 -> value_targets !! S t = Some x ->
       value_targets !! t
       = Some (VTrace.sadd (VTrace.sscale (1 - lmb) v_t1)
                           (VTrace.sscale lmb x))) /\
    advantages = VTrace.tmul rho (VTrace.tsub value_targets value).
Proof.
  split; [lia|]. split; [exact FixtureFacts.log_softmax_length|].
  split; [exact FixtureFacts.b2_ok|].
  apply (vtrace_tdlambda_recursion Fixture.exp Fixture.log_softmax false
           Fixture.b2 Fixture.t_policies Fixture.t_values 2 1 1 1).
  - lia.
  - exact FixtureFacts.log_softmax_length.
  - exact FixtureFacts.b2_ok.
Defined.

(** C3, at an era that was never saved.  Era 0 is the [RandomModel] and
    has no file.  After one update the current model is the trained
    network (here with weights [5; 7]); a request for era 0 then fails
    to load and is answered with the network as its constructor
    initialised it (here [0; 0]), which is not the current model. *)
Lemma model_fetch_failed_load_returns_new_network :
  let a := Learner.Args 0 10 2 in
  let st0 := @Learner.init (list Z) (list Z) nat [] ∅ in
  exists st,
    Learner.run id [0; 0] (fun _ sd => sd) a st0
      [Learner.Update [(Some [5; 7], 3)]] = Some st /\
    Learner.model_era st = 1 /\
    Learner.current st = [5; 7] /\
    Learner.files st !! Learner.model_path 0 = None /\
    Learner.serve [0; 0] (fun _ sd => sd) a st (Learner.Models false [0])
      = Some (st, Learner.One (Learner.Snapshot [0; 0])) /\
    Learner.fetch_model [0; 0] (fun _ sd => sd) st 0 <> Learner.current st.
Proof.
  intros a st0. eexists. split; [reflexivity|].
  repeat split; try reflexivity. vm_compute. discriminate.
Qed.

(** C4. With [1 <= N <= maximum_episodes] episodes in the store, each
    pass of the loop draws its index with [randrange(N)], so from
    [0 .. N-1], and accepts it exactly when [random.random()] falls
    below [1 - (N-1-i) / maximum_episodes].  That rate lies in the unit
    interval, and of any [k * maximum_episodes] equally spaced values of
    [random.random()] exactly that fraction is accepted.  A rejected
    draw is followed by a fresh one; the newest index has rate 1 and is
    accepted whatever [random.random()] returns. *)
Theorem select_episode_recency_bias {episode rng : Type} `{PyRandom rng}
    `{!PyRandomLaws rng}
    (episodes : list episode) (maximum_episodes : Z) (g : rng) :
  1 <= Py.len episodes ->
  Py.len episodes <= maximum_episodes ->
  exists i g1 ep,
    randrange (Py.len episodes) g = Some (i, g1) /\
    0 <= i < Py.len episodes /\
    Py.index episodes i = Some ep /\
    let N := Py.len episodes in
    let rate := (1 - inject_Z (N - 1 - i) / inject_Z maximum_episodes)%Q in
    let u := (random g1).1 in
    let g2 := (random g1).2 in
    (0 < rate)%Q /\ (rate <= 1)%Q /\
    (forall k, 0 < k ->
       (inject_Z (Py.len (Sampler.accepted_grid N maximum_episodes i k))
          == rate * inject_Z (k * maximum_episodes))%Q) /\
    ((u < rate)%Q ->
       forall fuel,
         Sampler.select_episode (S fuel) episodes maximum_episodes g
           = Some (ep, g2)) /\
    (~ (u < rate)%Q ->
       forall fuel,
         Sampler.select_episode (S fuel) episodes maximum_episodes g
           = Sampler.select_episode fuel episodes maximum_episodes g2) /\
    (i = N - 1 -> (rate == 1)%Q /\ (u < rate)%Q).
Proof.
  intros Hn Hm.
  destruct (randrange_some (Py.len episodes) g ltac:(lia))
    as (i & g1 & Hr & Hi).
  assert (Hidx : is_Some (Py.index episodes i)).
  { replace i with (Z.of_nat (Z.to_nat i)) by lia.
    rewrite PyFacts.index_nonneg. apply lookup_lt_is_Some. unfold Py.len in Hi. lia. }
  destruct Hidx as [ep Hep]. exists i, g1, ep.
  split; [done|]. split; [done|]. split; [done|].
  intros N rate u g2.
  change rate with (Sampler.accept_rate N maximum_episodes i).
  destruct (SamplerFacts.accept_rate_bounds N maximum_episodes i Hn Hm Hi)
    as [Hpos Hle].
  assert (Hdraw : Sampler.draw episodes maximum_episodes g
                  = Some (i, if Qlt_le_dec u (Sampler.accept_rate N maximum_episodes i)
                             then true else false, g2)).
  { unfold Sampler.draw. rewrite Z.min_l by lia. rewrite Hr.
    unfold u, g2. by destruct (random g1). }
  split; [done|]. split; [done|]. split.
  { intros k Hk. by apply SamplerFacts.accepted_grid_count. }
  split; [|split].
  - intros Hu fuel. simpl. rewrite Hdraw.
    destruct (Qlt_le_dec _ _) as [_|Hge]; [by rewrite Hep|].
    exfalso. exact (Qlt_not_le _ _ Hu Hge).
  - intros Hu fuel. simpl. rewrite Hdraw.
    by destruct (Qlt_le_dec _ _) as [Hlt|_].
  - intros ->. assert (E : (Sampler.accept_rate N maximum_episodes (N - 1) == 1)%Q).
    { apply SamplerFacts.accept_rate_newest. lia. }
    split; [done|]. rewrite E. apply random_unit.
Qed.

Lemma select_episode_recency_bias_witness :
  let episodes := [20%nat; 21%nat; 22%nat] in
  1 <= Py.len episodes /\
  Py.len episodes <= 4 /\
  exists i g1 ep,
    randrange (Py.len episodes) 5 = Some (i, g1) /\
    0 <= i < Py.len episodes /\
    Py.index episodes i = Some ep /\
    let N := Py.len episodes in
    let rate := (1 - inject_Z (N - 1 - i) / inject_Z 4)%Q in
    let u := (random g1).1 in
    let g2 := (random g1).2 in
    (0 < rate)%Q /\ (rate <= 1)%Q /\
    (forall k, 0 < k ->
       (inject_Z (Py.len (Sampler.accepted_grid N 4 i k))
          == rate * inject_Z (k * 4))%Q) /\
    ((u < rate)%Q ->
       forall fuel,
         Sampler.select_episode (S fuel) episodes 4 5 = Some (ep, g2)) /\
    (~ (u < rate)%Q ->
       forall fuel,
         Sampler.select_episode (S fuel) episodes 4 5
           = Sampler.select_episode fuel episodes 4 g2) /\
    (i = N - 1 -> (rate == 1)%Q /\ (u < rate)%Q).
Proof.
  intros episodes.
  assert (H1 : 1 <= Py.len episodes) by (vm_compute; discriminate).
  assert (H2 : Py.len episodes <= 4) by (vm_compute; discriminate).
  split; [exact H1|]. split; [exact H2|].
  exact (select_episode_recency_bias episodes 4 (5 : Z) H1 H2).
Defined.

(** C5. With a non-negative [maximum_episodes], every run of admits
    succeeds, and after each admit the store holds at most
    [maximum_episodes] episodes; what is kept is exactly the newest end of
    everything admitted so far, in order, so only the oldest episodes are
    ever dropped. *)
Theorem feed_episodes_bounded {episode : Type} (maximum_episodes : Z)
  (d : list episode) (r : list (option episode))
  (reqs : list (list (option episode))) :
0 <= maximum_episodes ->
exists d',
  Store.feed_all maximum_episodes d (reqs ++ [r]) = Some d' /\
  Py.len d' <= maximum_episodes /\
  d' = Store.newest maximum_episodes (Store.admitted d (reqs ++ [r])) /\
  exists evicted, Store.admitted d (reqs ++ [r]) = evicted ++ d'.
Proof.
intros Hm.
exists (Store.newest maximum_episodes (Store.admitted d (reqs ++ [r]))).
split; [|split; [|split]].
- rewrite StoreFacts.feed_all_newest by done.
  destruct (reqs ++ [r]) eqn:E; [by destruct reqs|]. reflexivity.
- by apply StoreFacts.length_newest.
- reflexivity.
- exists (take (length (Store.admitted d (reqs ++ [r]))
                - Z.to_nat maximum_episodes)
               (Store.admitted d (reqs ++ [r]))).
  unfold Store.newest. by rewrite take_drop.
Qed.

Lemma feed_episodes_bounded_witness :
0 <= 2 /\
exists d',
  Store.feed_all 2 [10%nat] ([[Some 11%nat; None; Some 12%nat]] ++ [[Some 13%nat]])
    = Some d' /\
  Py.len d' <= 2 /\
  d' = Store.newest 2
         (Store.admitted [10%nat]
            ([[Some 11%nat; None; Some 12%nat]] ++ [[Some 13%nat]])) /\
  exists evicted,
    Store.admitted [10%nat]
      ([[Some 11%nat; None; Some 12%nat]] ++ [[Some 13%nat]])
    = evicted ++ d'.
Proof.
split; [lia|].
apply (feed_episodes_bounded 2 [10%nat] [Some 13%nat]
         [[Some 11%nat; None; Some 12%nat]]).
lia.
Defined.

(** C6. For an episode of length [L >= 1] and [forward_steps >= 1], the
    window start is drawn with [randrange(1 + max(0, L - forward_steps))];
    the window covers [min(forward_steps, L)] real steps, on which the
    turn mask is the one-hot row of the turn player; every per-step
    array of the assembled window has exactly [forward_steps] steps; and
    on the padded steps after the real ones the turn mask and the value
    mask are rows of zeros. *)
Theorem make_batch_window {arr rng : Type} `{PyRandom rng}
    `{!PyRandomLaws rng}
    (zeros_like : arr -> arr) (a : MakeBatch.args)
    (ep : @MakeBatch.episode arr) (g : rng) (n_obs : nat) :
  1 <= Py.len (MakeBatch.turn ep) ->
  1 <= MakeBatch.forward_steps a ->
  MakeBatch.episode_ok n_obs ep ->
  exists st g' d,
    let L := Py.len (MakeBatch.turn ep) in
    let steps := MakeBatch.forward_steps a in
    let real := Z.min (st + steps) L - st in
    let P := length (MakeBatch.players ep) in
    randrange (1 + Z.max 0 (L - steps)) g = Some (st, g') /\
    0 <= st < 1 + Z.max 0 (L - steps) /\
    MakeBatch.window zeros_like a ep g = Some (d, g') /\
    real = Z.min steps L /\
    Py.len (MakeBatch.tmsk d) = steps /\
    Py.len (MakeBatch.vmsk d) = steps /\
    Py.len (MakeBatch.pmsk d) = steps /\
    Py.len (MakeBatch.act d) = steps /\
    Py.len (MakeBatch.p d) = steps /\
    Py.len (MakeBatch.v d) = steps /\
    Py.len (MakeBatch.progress d) = steps /\
    Forall (fun c => Py.len c = steps) (MakeBatch.obs d) /\
    (forall k : nat, Z.of_nat k < real ->
       exists player,
         MakeBatch.turn ep !! (Z.to_nat st + k)%nat = Some player /\
         MakeBatch.tmsk d !! k = MakeBatch.eye_row P player) /\
    (forall k : nat, real <= Z.of_nat k < steps ->
       MakeBatch.tmsk d !! k = Some (replicate P 0%Q) /\
       MakeBatch.vmsk d !! k = Some (replicate P 0%Q)).
Proof.
  intros HL Hsteps Hok.
  destruct (MakeBatchWindow.window_spec zeros_like a ep g n_obs HL Hsteps Hok)
    as (st & g' & d & H1 & H2 & H3 & H4 & H5 & H6 & H7 & H8 & H9 & H10 & H11
        & H12 & _ & _ & H13 & H14).
  exists st, g', d. repeat (split; [assumption|]). assumption.
Qed.

Lemma make_batch_window_witness :
  let ep := WindowFixture.ep in
  let a := WindowFixture.a in
  1 <= Py.len (MakeBatch.turn ep) /\
  1 <= MakeBatch.forward_steps a /\
  MakeBatch.episode_ok 1 ep /\
  exists st g' d,
    let L := Py.len (MakeBatch.turn ep) in
    let steps := MakeBatch.forward_steps a in
    let real := Z.min (st + steps) L - st in
    let P := length (MakeBatch.players ep) in
    randrange (1 + Z.max 0 (L - steps)) (7 : Z) = Some (st, g') /\
    0 <= st < 1 + Z.max 0 (L - steps) /\
    MakeBatch.window (fun _ : Z => 0) a ep (7 : Z) = Some (d, g') /\
    real = Z.min steps L /\
    Py.len (MakeBatch.tmsk d) = steps /\
    Py.len (MakeBatch.vmsk d) = steps /\
    Py.len (MakeBatch.pmsk d) = steps /\
    Py.len (MakeBatch.act d) = steps /\
    Py.len (MakeBatch.p d) = steps /\
    Py.len (MakeBatch.v d) = steps /\
    Py.len (MakeBatch.progress d) = steps /\
    Forall (fun c => Py.len c = steps) (MakeBatch.obs d) /\
    (forall k : nat, Z.of_nat k < real ->
       exists player,
         MakeBatch.turn ep !! (Z.to_nat st + k)%nat = Some player /\
         MakeBatch.tmsk d !! k = MakeBatch.eye_row P player) /\
    (forall k : nat, real <= Z.of_nat k < steps ->
       MakeBatch.tmsk d !! k = Some (replicate P 0%Q) /\
       MakeBatch.vmsk d !! k = Some (replicate P 0%Q)).
Proof.
  intros ep a.
  assert (H1 : 1 <= Py.len (MakeBatch.turn ep)) by (vm_compute; discriminate).
  assert (H2 : 1 <= MakeBatch.forward_steps a) by (vm_compute; discriminate).
  split; [exact H1|]. split; [exact H2|]. split; [exact WindowFixtureFacts.ep_ok|].
  exact (make_batch_window (fun _ : Z => 0) a ep (7 : Z) 1 H1 H2
           WindowFixtureFacts.ep_ok).
Defined.

(** The window of the fixture, evaluated: two real steps and one padded
    step with zero turn and value masks. *)
Example make_batch_window_example :
  exists d g',
    MakeBatch.window (fun _ : Z => 0) WindowFixture.a WindowFixture.ep (7 : Z)
      = Some (d, g') /\
    MakeBatch.tmsk d = [[1%Q; 0%Q]; [0%Q; 1%Q]; [0%Q; 0%Q]] /\
    MakeBatch.vmsk d = [[1%Q; 0%Q]; [0%Q; 1%Q]; [0%Q; 0%Q]] /\
    MakeBatch.obs d = [[[5]; [6]; [0]]] /\
    MakeBatch.act d = [[1]; [0]; [0]] /\
    MakeBatch.v d = [[1 # 2; 0]; [0; - (1 # 2)]; [1; -1]]%Q.
Proof. do 2 eexists. split; [vm_compute; reflexivity|]. by repeat split. Qed.

(** C7. Each [update()] that returns raises the era by exactly one and
    saves the new current model under the path of the new era; whatever
    the coordinator does afterwards, the era never goes down, it has
    grown by the number of later updates, and the files of that era and
    of all earlier eras are still there with the same contents. *)
Theorem model_era_strictly_increasing {model state_dict episode : Type}
    (get_state_dict : model -> state_dict) (model_class : model)
    (load_state_dict : model -> state_dict -> model)
    (a : Learner.args) (st st2 : @Learner.learner model state_dict episode)
    (evs1 evs2 : list Learner.event) (polls : list (option model * Z)) :
  Learner.run get_state_dict model_class load_state_dict a st
    (evs1 ++ Learner.Update polls :: evs2) = Some st2 ->
  exists st0 st1 rep,
    Learner.run get_state_dict model_class load_state_dict a st evs1
      = Some st0 /\
    Learner.update get_state_dict a st0 polls = Some (st1, rep) /\
    Learner.model_era st1 = Learner.model_era st0 + 1 /\
    Learner.files st1 !! Learner.model_path (Learner.model_era st1)
      = Some (get_state_dict (Learner.current st1)) /\
    Learner.model_era st2 = Learner.model_era st1 + Learner.updates evs2 /\
    Learner.model_era st0 < Learner.model_era st2 /\
    Learner.files st2 !! Learner.model_path (Learner.model_era st1)
      = Some (get_state_dict (Learner.current st1)) /\
    forall e, e <= Learner.model_era st1 ->
      Learner.files st2 !! Learner.model_path e
        = Learner.files st1 !! Learner.model_path e.
Proof.
  intros H. apply LearnerFacts.run_app in H as (st0 & H0 & H).
  simpl in H.
  destruct (Learner.update get_state_dict a st0 polls) as [[st1 rep]|] eqn:E;
    [|done].
  simpl in H. exists st0, st1, rep.
  pose proof (LearnerFacts.update_spec _ _ _ _ _ _ E) as (E1 & E2 & _).
  pose proof (LearnerFacts.run_era _ _ _ _ _ _ _ H) as (R1 & R2 & _).
  pose proof (LearnerFacts.updates_nonneg evs2).
  assert (Hsaved : Learner.files st1 !! Learner.model_path (Learner.model_era st1)
                   = Some (get_state_dict (Learner.current st1))).
  { rewrite E2. apply lookup_insert_eq. }
  repeat split; try done.
  - lia.
  - rewrite R2 by lia. exact Hsaved.
Qed.

Lemma model_era_strictly_increasing_witness :
  let a := Learner.Args 0 10 2 in
  let st := @Learner.init (list Z) (list Z) nat [] ∅ in
  let polls : list (option (list Z) * Z) := [(None, -1); (Some [5; 7], 3)] in
  let evs2 : list (@Learner.event (list Z) nat) :=
    [Learner.Request (Learner.Models false [0]);
     Learner.Update [(Some [8; 9], 6)]] in
  let st2 := Learner.Learner_ 2 [8; 9] 0 ∅ 0 []
               (<[Learner.model_path 2 := [8; 9]]>
                  (<[Learner.model_path 1 := [5; 7]]> ∅)) in
  Learner.run id [0; 0] (fun _ sd => sd) a st
    ([] ++ Learner.Update polls :: evs2) = Some st2 /\
  exists st0 st1 rep,
    Learner.run id [0; 0] (fun _ sd => sd) a st [] = Some st0 /\
    Learner.update id a st0 polls = Some (st1, rep) /\
    Learner.model_era st1 = Learner.model_era st0 + 1 /\
    Learner.files st1 !! Learner.model_path (Learner.model_era st1)
      = Some (id (Learner.current st1)) /\
    Learner.model_era st2 = Learner.model_era st1 + Learner.updates evs2 /\
    Learner.model_era st0 < Learner.model_era st2 /\
    Learner.files st2 !! Learner.model_path (Learner.model_era st1)
      = Some (id (Learner.current st1)) /\
    forall e, e <= Learner.model_era st1 ->
      Learner.files st2 !! Learner.model_path e
        = Learner.files st1 !! Learner.model_path e.
Proof.
  intros a st polls evs2 st2.
  assert (H : Learner.run id [0; 0] (fun _ sd => sd) a st
                ([] ++ Learner.Update polls :: evs2) = Some st2)
    by reflexivity.
  split; [exact H|].
  exact (model_era_strictly_increasing id [0; 0] (fun _ sd => sd) a st st2
           [] evs2 polls H).
Defined.

(** The histogram [{+1: 3, -1: 1}] is reported as [0.75]: three wins
    out of four games. *)
Example win_rate_three_of_four :
  exists rate win,
    Learner.win_rate {[ 0 := {[ 1 := 3; -1 := 1 ]} ]} 0
      = Some (Learner.WinRate rate win 4) /\
    Qred rate = (3 # 4)%Q /\ Qred win = 3%Q.
Proof. do 2 eexists. repeat split; vm_compute; reflexivity. Qed.

(** C8. For a non-empty histogram of outcomes in [{+1, 0, -1}] with
    positive counts, the win-rate line is printed, and the rate it shows
    is the count-weighted mean of [(outcome + 1) / 2]: wins count 1,
    draws 1/2 and losses 0, over the number of games. *)
Theorem win_rate_weighted_mean (results : gmap Z (gmap Z Z))
    (model_era : Z) (distribution : gmap Z Z) :
  results !! model_era = Some distribution ->
  distribution <> ∅ ->
  (forall r cnt, distribution !! r = Some cnt -> r ∈ [1; 0; -1] /\ 0 < cnt) ->
  exists rate win n,
    Learner.win_rate results model_era = Some (Learner.WinRate rate win n) /\
    (rate == Learner.weighted_mean (map_to_list distribution))%Q /\
    let wins := inject_Z (default 0 (distribution !! 1)) in
    let draws := inject_Z (default 0 (distribution !! 0)) in
    let losses := inject_Z (default 0 (distribution !! (-1))) in
    (rate == (wins * 1 + draws * (1 # 2) + losses * 0)
               / (wins + draws + losses))%Q.
Proof.
  intros Hlook Hne Hd.
  pose proof (merge_sort_Permutation Learner.key_ge (map_to_list distribution))
    as Hperm. fold (Learner.items_desc distribution) in Hperm.
  destruct (WinRate.tally_sums (Learner.items_desc distribution)) as [Hn Hw].
  rewrite (WinRate.zsum_perm _ _ Hperm) in Hn.
  rewrite (WinRate.qsum_perm _ _ _ Hperm) in Hw.
  assert (Hpos : 0 < Learner.zsum (map_to_list distribution)).
  { apply WinRate.zsum_pos.
    - intros E. by apply map_to_list_empty_iff in E.
    - apply Forall_forall. intros [r cnt] Hin.
      apply elem_of_map_to_list in Hin. simpl. by apply Hd in Hin as [_ ?]. }
  unfold Learner.win_rate. rewrite Hlook.
  destruct (Learner.tally (Learner.items_desc distribution)) as [n win].
  simpl in Hn, Hw. subst n.
  destruct (Z.eqb_spec (Learner.zsum (map_to_list distribution)) 0); [lia|].
  exists (win / inject_Z (Learner.zsum (map_to_list distribution)))%Q, win,
         (Learner.zsum (map_to_list distribution)).
  split; [reflexivity|].
  assert (Hmean : (win / inject_Z (Learner.zsum (map_to_list distribution))
                   == Learner.weighted_mean (map_to_list distribution))%Q).
  { rewrite WinRate.weighted_mean_unfold. by rewrite Hw. }
  split; [exact Hmean|].
  rewrite Hmean, WinRate.weighted_mean_unfold.
  assert (Hkeys : NoDup [1; 0; -1]).
  { compute_done. }
  assert (Hdom : forall r cnt, distribution !! r = Some cnt -> r ∈ [1; 0; -1]).
  { intros r cnt Hr. by apply Hd in Hr as [? _]. }
  rewrite WinRate.inject_zsum.
  rewrite (WinRate.qsum_by_keys Learner.score [1; 0; -1]); [|intros r; unfold Learner.score; simpl; ring|done|done].
  rewrite (WinRate.qsum_by_keys (fun _ cnt => inject_Z cnt) [1; 0; -1]); [|intros r; reflexivity|done|done].
  simpl foldr. unfold Learner.score.
  change (inject_Z (1 + 1)) with 2%Q. change (inject_Z (0 + 1)) with 1%Q.
  change (inject_Z (-1 + 1)) with 0%Q.
  apply Qdiv_comp; [field|ring].
Qed.

Lemma win_rate_weighted_mean_witness :
  let distribution : gmap Z Z := {[ 1 := 3; -1 := 1 ]} in
  let results : gmap Z (gmap Z Z) := {[ 0 := distribution ]} in
  results !! 0 = Some distribution /\
  exists rate win n,
    Learner.win_rate results 0 = Some (Learner.WinRate rate win n) /\
    (rate == Learner.weighted_mean (map_to_list distribution))%Q /\
    let wins := inject_Z (default 0 (distribution !! 1)) in
    let draws := inject_Z (default 0 (distribution !! 0)) in
    let losses := inject_Z (default 0 (distribution !! (-1))) in
    (rate == (wins * 1 + draws * (1 # 2) + losses * 0)
               / (wins + draws + losses))%Q.
Proof.
  intros distribution results. split; [reflexivity|].
  apply (win_rate_weighted_mean results 0 distribution).
  - reflexivity.
  - intros E. apply (f_equal (fun m : gmap Z Z => m !! 1)) in E.
    vm_compute in E. discriminate.
  - intros r cnt Hr. unfold distribution in Hr.
    destruct (decide (r = 1)) as [->|?];
      [vm_compute in Hr; inversion Hr; split; [compute_done|lia]|].
    destruct (decide (r = -1)) as [->|?];
      [vm_compute in Hr; inversion Hr; split; [compute_done|lia]|].
    rewrite lookup_insert_ne in Hr by done.
    rewrite lookup_singleton_ne in Hr by done. discriminate.
Defined.

(** C9 as stated fails: after three slots at rate [1.0] there are one
    generator and two evaluators, the ratio 2/1 exceeds the rate, and the
    next slot is still made an evaluator. *)
Lemma entry_ratio_counterexample :
  let rate := Num.Float (Num.of_int 1) in
  let st := Entry.entry_server rate [3] in
  Entry.total_gids st = [2] /\ Entry.total_eids st = [0; 1] /\
  (Entry.handshake rate st 1).1.2 = [] /\
  (Entry.handshake rate st 1).2 = [3] /\
  ~ (3 ∈ (Entry.handshake rate st 1).1.2 <-> Entry.ratio_exceeds_rate rate st).
Proof.
  intros rate st.
  assert (Hg : (Entry.handshake rate st 1).1.2 = [])
    by (vm_compute; reflexivity).
  split; [vm_compute; reflexivity|]. split; [vm_compute; reflexivity|].
  split; [exact Hg|]. split; [vm_compute; reflexivity|].
  rewrite Hg. intros [_ H]. apply (not_elem_of_nil 3), H.
  eexists. split; [vm_compute; reflexivity|]. vm_compute. reflexivity.
Qed.

(** C9 (amended). In every handshake, slot [k] receives the id
    [worker_cnt + k]; it is made a generator if and only if Python's
    test [len(total_gids) * eworker_rate < len(total_eids) - 1] holds
    for the ids assigned before it, and an evaluator otherwise.  For a
    float rate the product in the test is the double nearest to the
    exact product; for an [int] rate the test is the exact inequality.
    The ids issued earlier stay where they are, the new id is not among
    them, and no id is ever issued twice. *)
Theorem entry_server_assignment (eworker_rate : Num.number)
    (reqs : list Z) (num_process : Z) (k : nat) :
  (k < Z.to_nat num_process)%nat ->
  let st := Entry.entry_server eworker_rate reqs in
  let before := Entry.slot_state eworker_rate st k in
  let id := Entry.worker_cnt st + Z.of_nat k in
  let st' := (Entry.handshake eworker_rate st num_process).1.1 in
  let gids := (Entry.handshake eworker_rate st num_process).1.2 in
  let eids := (Entry.handshake eworker_rate st num_process).2 in
  let product :=
    Num.mul (Num.Int (Py.len (Entry.total_gids before))) eworker_rate in
  let bound := Num.Int (Py.len (Entry.total_eids before) - 1) in
  Entry.worker_cnt before = id /\
  (id ∈ gids <-> Num.ltb product bound = true) /\
  (id ∈ eids <-> Num.ltb product bound = false) /\
  (forall r : Z, eworker_rate = Num.Int r ->
     (id ∈ gids <->
        Py.len (Entry.total_gids before) * r
          < Py.len (Entry.total_eids before) - 1)) /\
  Entry.total_gids st' = Entry.total_gids st ++ gids /\
  Entry.total_eids st' = Entry.total_eids st ++ eids /\
  Entry.worker_cnt st' = Entry.worker_cnt st + num_process /\
  (id ∉ Entry.total_gids st ++ Entry.total_eids st) /\
  NoDup (Entry.total_gids st' ++ Entry.total_eids st').
Proof.
  intros Hk st before id st' gids eids product bound.
  pose proof (EntryFacts.entry_server_issued_ok eworker_rate reqs) as Hok. fold st in Hok.
  pose proof (EntryFacts.slots_ids eworker_rate st (Z.to_nat num_process))
    as [Hg He].
  pose proof (EntryFacts.slots_totals eworker_rate st (Z.to_nat num_process))
    as [Htg Hte].
  assert (Hmem : forall (P : nat -> Prop) `{!forall j, Decision (P j)},
             id ∈ (fun j => Entry.worker_cnt st + Z.of_nat j)
                    <$> filter P (seq 0 (Z.to_nat num_process)) <-> P k).
  { intros P HP. rewrite list_elem_of_fmap. split.
    - intros (j & Hj & Hin). apply list_elem_of_filter in Hin as [HPj _].
      assert (j = k) as -> by (unfold id in Hj; lia). done.
    - intros HPk. exists k. split; [done|].
      apply list_elem_of_filter. split; [done|]. apply elem_of_seq. lia. }
  assert (Hgen : id ∈ gids <-> Num.ltb product bound = true).
  { unfold gids, Entry.handshake. rewrite Hg, Hmem. done. }
  split; [apply EntryFacts.slot_state_cnt|].
  split; [exact Hgen|].
  split.
  { unfold eids, Entry.handshake. rewrite He, Hmem.
    change (Entry.wants_generator eworker_rate
              (Entry.slot_state eworker_rate st k))
      with (Num.ltb product bound).
    by destruct (Num.ltb product bound). }
  split.
  { intros r ->. rewrite Hgen. apply EntryFacts.wants_generator_int. }
  split; [exact Htg|]. split; [exact Hte|].
  split.
  { unfold st', Entry.handshake.
    change ((Entry.slots eworker_rate st (Z.to_nat num_process)).1.1)
      with (Entry.slot_state eworker_rate st (Z.to_nat num_process)).
    rewrite EntryFacts.slot_state_cnt. lia. }
  split.
  { destruct Hok as (_ & Hall & _). intros Hin.
    rewrite Forall_forall in Hall. specialize (Hall _ Hin).
    unfold id in Hall. lia. }
  apply (EntryFacts.slots_issued_ok eworker_rate st (Z.to_nat num_process) Hok).
Qed.

Lemma entry_server_assignment_witness :
  let eworker_rate := Num.Float (Num.quotient 57 100) in
  let st := Entry.entry_server eworker_rate [158] in
  let before := Entry.slot_state eworker_rate st 0 in
  let id := Entry.worker_cnt st + Z.of_nat 0 in
  let st' := (Entry.handshake eworker_rate st 2).1.1 in
  let gids := (Entry.handshake eworker_rate st 2).1.2 in
  let eids := (Entry.handshake eworker_rate st 2).2 in
  let product :=
    Num.mul (Num.Int (Py.len (Entry.total_gids before))) eworker_rate in
  let bound := Num.Int (Py.len (Entry.total_eids before) - 1) in
  (0 < Z.to_nat 2)%nat /\
  Entry.worker_cnt before = id /\
  (id ∈ gids <-> Num.ltb product bound = true) /\
  (id ∈ eids <-> Num.ltb product bound = false) /\
  (forall r : Z, eworker_rate = Num.Int r ->
     (id ∈ gids <->
        Py.len (Entry.total_gids before) * r
          < Py.len (Entry.total_eids before) - 1)) /\
  Entry.total_gids st' = Entry.total_gids st ++ gids /\
  Entry.total_eids st' = Entry.total_eids st ++ eids /\
  Entry.worker_cnt st' = Entry.worker_cnt st + 2 /\
  (id ∉ Entry.total_gids st ++ Entry.total_eids st) /\
  NoDup (Entry.total_gids st' ++ Entry.total_eids st').
Proof.
  split; [simpl; lia|].
  apply (entry_server_assignment (Num.Float (Num.quotient 57 100)) [158] 2 0).
  simpl. lia.
Defined.

(** C10. While the store holds fewer than [minimum_episodes] episodes,
    [Trainer.update] returns [(None, 0)] whatever the training thread
    does, without polling it at all, and [Learner.update] still moves to
    the next era: the current model stays the same object and is saved
    under the path of the new era. *)
Theorem update_below_minimum {model state_dict episode : Type}
    (get_state_dict : model -> state_dict)
    (a : Learner.args) (st : @Learner.learner model state_dict episode)
    (polls : list (option model * Z)) :
  Learner.results_ok (Learner.results st) ->
  Py.len (Learner.episodes st) < Learner.minimum_episodes a ->
  Learner.trainer_update a (Learner.episodes st) polls = Some (None, 0) /\
  @Learner.trainer_update model episode a (Learner.episodes st) []
    = Some (None, 0) /\
  exists rep,
    Learner.update get_state_dict a st polls
      = Some (Learner.Learner_
                (Learner.model_era st + 1) (Learner.current st)
                (Learner.num_episodes st) (Learner.results st)
                (Learner.num_results st) (Learner.episodes st)
                (<[Learner.model_path (Learner.model_era st + 1)
                   := get_state_dict (Learner.current st)]>
                   (Learner.files st)),
              rep).
Proof.
  intros Hok Hlt.
  assert (Ht : forall p : list (option model * Z),
             Learner.trainer_update a (Learner.episodes st) p
             = Some (None, 0)).
  { intros p. unfold Learner.trainer_update.
    destruct (Z.ltb_spec (Py.len (Learner.episodes st))
                         (Learner.minimum_episodes a)); [done|lia]. }
  split; [apply Ht|]. split; [apply Ht|].
  destruct (LearnerFacts.win_rate_is_Some _ (Learner.model_era st) Hok)
    as [rep Hrep].
  exists rep. unfold Learner.update. by rewrite Hrep, Ht.
Qed.

Lemma update_below_minimum_witness :
  let a := Learner.Args 2 10 2 in
  let st := Learner.Learner_ 0 ([] : list Z) 5 ∅ 0 [7%nat]
              (∅ : gmap string (list Z)) in
  Learner.results_ok (Learner.results st) /\
  Py.len (Learner.episodes st) < Learner.minimum_episodes a /\
  Learner.trainer_update a (Learner.episodes st) [(Some [1], 4)]
    = Some (None, 0) /\
  @Learner.trainer_update (list Z) nat a (Learner.episodes st) []
    = Some (None, 0) /\
  exists rep,
    Learner.update id a st [(Some [1], 4)]
      = Some (Learner.Learner_
                (Learner.model_era st + 1) (Learner.current st)
                (Learner.num_episodes st) (Learner.results st)
                (Learner.num_results st) (Learner.episodes st)
                (<[Learner.model_path (Learner.model_era st + 1)
                   := id (Learner.current st)]>
                   (Learner.files st)),
              rep).
Proof.
  intros a st.
  assert (Hok : Learner.results_ok (Learner.results st)).
  { intros i d Hi. simpl in Hi. by rewrite lookup_empty in Hi. }
  assert (Hlt : Py.len (Learner.episodes st) < Learner.minimum_episodes a)
    by (vm_compute; reflexivity).
  split; [exact Hok|]. split; [exact Hlt|].
  exact (update_below_minimum id a st [(Some [1], 4)] Hok Hlt).
Defined.

(** The server loop reaches that case on its own: with
    [minimum_episodes = 2] and [update_episodes = 2], four generation
    requests and no submitted episode bring the loop to its first
    update, which saves the untrained [RandomModel] (here [[]]) as era
    1 without polling the trainer. *)
Example server_advances_without_training :
  Learner.server id [0; 0] (fun _ sd => sd) (Learner.Args 2 10 2)
    (@Learner.init (list Z) (list Z) nat [] ∅)
    [Learner.Gargs false 1; Learner.Gargs true 3] [[]]
  = Some (Learner.Learner_ 1 [] 4 ∅ 0 [] {[ "models/1.pth" := [] ]}, []).
Proof. reflexivity. Qed.


(** * Further properties of the code *)

(** X1. [feed_episodes] raises exactly when [maximum_episodes] is
    negative: the loop then empties the deque and pops from the empty
    deque.  Otherwise the store becomes the old episodes followed by
    the submitted ones that are not [None], in order: all of them if
    they fit within [maximum_episodes], and the newest
    [maximum_episodes] of them if not. *)
Theorem feed_episodes_cases {episode : Type} (maximum_episodes : Z)
    (d : list episode) (episodes : list (option episode)) :
  let stored := d ++ Store.not_none episodes in
  Store.feed_episodes maximum_episodes d episodes
  = if maximum_episodes <? 0 then None
    else if Py.len stored <=? maximum_episodes then Some stored
    else Some (Store.newest maximum_episodes stored).
Proof.
  intros stored. unfold Store.feed_episodes. fold stored.
  destruct (Z.ltb_spec maximum_episodes 0) as [Hneg|Hpos].
  - by apply StoreMore.evict_negative.
  - rewrite StoreFacts.evict_newest by done.
    destruct (Z.leb_spec (Py.len stored) maximum_episodes) as [Hfit|Hover];
      [|done].
    unfold Store.newest. unfold Py.len in Hfit.
    by replace (length stored - Z.to_nat maximum_episodes)%nat
      with 0%nat by lia.
Qed.

(** X2. [feed_results] counts: afterwards the count kept for a model id
    and an outcome is the count before plus the number of reports of
    that pair in the payload; reports whose outcome is [None] are
    skipped, and missing keys count as zero. *)
Theorem feed_results_counts (results : gmap Z (gmap Z Z))
    (data : list (Z * option Z)) (model_id reward : Z) :
  Coordinator.count_of (Learner.feed_results results data) model_id reward
  = Coordinator.count_of results model_id reward
    + Coordinator.occurrences data model_id reward.
Proof.
  unfold Learner.feed_results, Coordinator.occurrences. revert results.
  induction data as [|x data IH]; intros results; simpl.
  - unfold Py.len. simpl. lia.
  - rewrite IH, ResultsFacts.count_of_feed_result, filter_cons.
    destruct (decide (x = (model_id, Some reward))); unfold Py.len; simpl; lia.
Qed.

(** X3. For a histogram of outcomes between [-1] and [+1] with positive
    counts the win-rate line is printed and the rate lies between 0 and
    1. *)
Theorem win_rate_in_unit_interval (results : gmap Z (gmap Z Z))
    (model_era : Z) (distribution : gmap Z Z) :
  results !! model_era = Some distribution ->
  distribution <> ∅ ->
  (forall r cnt, distribution !! r = Some cnt -> -1 <= r <= 1 /\ 0 < cnt) ->
  exists rate win n,
    Learner.win_rate results model_era = Some (Learner.WinRate rate win n) /\
    (0 <= rate)%Q /\ (rate <= 1)%Q /\ 0 < n.
Proof.
  intros Hlook Hne Hd.
  pose proof (merge_sort_Permutation Learner.key_ge (map_to_list distribution))
    as Hperm. fold (Learner.items_desc distribution) in Hperm.
  destruct (WinRate.tally_sums (Learner.items_desc distribution)) as [Hn Hw].
  assert (Hall : Forall (fun item => -1 <= item.1 <= 1 /\ 0 < item.2)
                        (Learner.items_desc distribution)).
  { rewrite Hperm. apply Forall_forall. intros [r cnt] Hin.
    apply elem_of_map_to_list in Hin. by apply Hd. }
  destruct (ResultsFacts.tally_bounds _ Hall) as [Hb0 Hb1].
  assert (Hpos : 0 < Learner.zsum (Learner.items_desc distribution)).
  { apply WinRate.zsum_pos.
    - intros E. rewrite E in Hperm. symmetry in Hperm.
      apply Permutation_nil_r in Hperm. by apply map_to_list_empty_iff in Hperm.
    - eapply Forall_impl; [exact Hall|]. by intros item [_ ?]. }
  unfold Learner.win_rate. rewrite Hlook.
  destruct (Learner.tally (Learner.items_desc distribution)) as [n win].
  simpl in Hn, Hw. subst n.
  destruct (Z.eqb_spec (Learner.zsum (Learner.items_desc distribution)) 0);
    [lia|].
  do 3 eexists. split; [reflexivity|].
  assert (Hq : (0 < inject_Z (Learner.zsum (Learner.items_desc distribution)))%Q).
  { change 0%Q with (inject_Z 0). rewrite <- Zlt_Qlt. lia. }
  rewrite Hw. split; [|split; [|done]].
  - apply Qle_shift_div_l; [done|]. by rewrite Qmult_0_l.
  - apply Qle_shift_div_r; [done|]. by rewrite Qmult_1_l.
Qed.

Lemma win_rate_in_unit_interval_witness :
  let distribution : gmap Z Z := {[ 1 := 3; -1 := 1 ]} in
  let results : gmap Z (gmap Z Z) := {[ 0 := distribution ]} in
  results !! 0 = Some distribution /\
  exists rate win n,
    Learner.win_rate results 0 = Some (Learner.WinRate rate win n) /\
    (0 <= rate)%Q /\ (rate <= 1)%Q /\ 0 < n.
Proof.
  intros distribution results. split; [reflexivity|].
  apply (win_rate_in_unit_interval results 0 distribution).
  - reflexivity.
  - intros E. apply (f_equal (fun m : gmap Z Z => m !! 1)) in E.
    vm_compute in E. discriminate.
  - intros r cnt Hr. unfold distribution in Hr.
    destruct (decide (r = 1)) as [->|?];
      [vm_compute in Hr; inversion Hr; lia|].
    destruct (decide (r = -1)) as [->|?];
      [vm_compute in Hr; inversion Hr; lia|].
    rewrite lookup_insert_ne in Hr by done.
    rewrite lookup_singleton_ne in Hr by done. discriminate.
Defined.

(** X4. A [gargs] request for [count] items always succeeds; item [k]
    of its reply carries the episode id [num_episodes + k], the seat
    [(num_episodes + k) % 2] and the current era for both seats, and
    afterwards [num_episodes] has grown by [count] while nothing else
    of the coordinator's state has changed. *)
Theorem serve_gargs_episode_ids {model state_dict episode : Type}
    (model_class : model) (load_state_dict : model -> state_dict -> model)
    (a : Learner.args) (st : @Learner.learner model state_dict episode)
    (multi : bool) (count : nat) :
  exists rep,
    Learner.serve model_class load_state_dict a st (Learner.Gargs multi count)
    = Some (Learner.Learner_
              (Learner.model_era st) (Learner.current st)
              (Learner.num_episodes st + Z.of_nat count)
              (Learner.results st) (Learner.num_results st)
              (Learner.episodes st) (Learner.files st), rep) /\
    Coordinator.reply_items rep
    = (fun k : nat =>
         Learner.GenArgs (Learner.num_episodes st + Z.of_nat k)
                         ((Learner.num_episodes st + Z.of_nat k) `mod` 2)
                         [Learner.model_era st] [Learner.model_era st])
        <$> seq 0 count.
Proof.
  unfold Learner.serve. rewrite ServeFacts.gargs_iter_items.
  eexists. split; [reflexivity|]. by rewrite ServeFacts.reply_items_shape.
Qed.

(** X5. An [eargs] request for [count] items always succeeds; item [k]
    of its reply names the current era and the seat
    [(num_results + k) % 2], and afterwards [num_results] has grown by
    [count] while nothing else has changed: evaluation requests never
    move [num_episodes], so they cannot bring on an update. *)
Theorem serve_eargs_seats {model state_dict episode : Type}
    (model_class : model) (load_state_dict : model -> state_dict -> model)
    (a : Learner.args) (st : @Learner.learner model state_dict episode)
    (multi : bool) (count : nat) :
  exists rep,
    Learner.serve model_class load_state_dict a st (Learner.Eargs multi count)
    = Some (Learner.Learner_
              (Learner.model_era st) (Learner.current st)
              (Learner.num_episodes st) (Learner.results st)
              (Learner.num_results st + Z.of_nat count)
              (Learner.episodes st) (Learner.files st), rep) /\
    Coordinator.reply_items rep
    = (fun k : nat =>
         Learner.EvalArgs (Learner.model_era st)
                          ((Learner.num_results st + Z.of_nat k) `mod` 2))
        <$> seq 0 count.
Proof.
  unfold Learner.serve. rewrite ServeFacts.eargs_iter_items.
  eexists. split; [reflexivity|]. by rewrite ServeFacts.reply_items_shape.
Qed.

(** X6. Whatever the request, a reply holds one item per item of the
    payload, and it is sent bare, not as a list, exactly when the
    payload did not come as a list and holds one item: a list of one
    item is answered by a list of one item. *)
Theorem server_reply_shape {model state_dict episode : Type}
    (model_class : model) (load_state_dict : model -> state_dict -> model)
    (a : Learner.args) (st st' : @Learner.learner model state_dict episode)
    (req : Learner.request) (rep : Learner.reply) :
  Learner.serve model_class load_state_dict a st req = Some (st', rep) ->
  length (Coordinator.reply_items rep) = Coordinator.payload_length req /\
  ((exists x, rep = Learner.One x)
   <-> Coordinator.is_multi req = false /\
       Coordinator.payload_length req = 1%nat).
Proof.
  destruct req as [multi count|multi count|multi data|multi data|multi data];
    unfold Learner.serve.
  - rewrite ServeFacts.gargs_iter_items. intros [= _ <-].
    rewrite ServeFacts.reply_items_shape, ServeFacts.shape_one.
    simpl. by rewrite length_fmap, length_seq.
  - rewrite ServeFacts.eargs_iter_items. intros [= _ <-].
    rewrite ServeFacts.reply_items_shape, ServeFacts.shape_one.
    simpl. by rewrite length_fmap, length_seq.
  - destruct (Store.feed_episodes _ _ _); [|done]. intros [= _ <-].
    rewrite ServeFacts.reply_items_shape, ServeFacts.shape_one.
    simpl. by rewrite length_replicate.
  - intros [= _ <-].
    rewrite ServeFacts.reply_items_shape, ServeFacts.shape_one.
    simpl. by rewrite length_replicate.
  - intros [= _ <-].
    rewrite ServeFacts.reply_items_shape, ServeFacts.shape_one.
    simpl. by rewrite length_fmap.
Qed.

Lemma server_reply_shape_witness :
  let a := Learner.Args 0 10 2 in
  let st := @Learner.init (list Z) (list Z) nat [] ∅ in
  let req := @Learner.Episodes nat true [Some 4%nat] in
  let st' := Learner.Learner_ 0 ([] : list Z) 0 ∅ 0 [4%nat]
               (∅ : gmap string (list Z)) in
  let rep := @Learner.Many (list Z) [Learner.Ack] in
  Learner.serve [0; 0] (fun _ sd => sd) a st req = Some (st', rep) /\
  length (Coordinator.reply_items rep) = Coordinator.payload_length req /\
  ((exists x, rep = Learner.One x)
   <-> Coordinator.is_multi req = false /\
       Coordinator.payload_length req = 1%nat).
Proof.
  intros a st req st' rep.
  assert (H : Learner.serve [0; 0] (fun _ sd => sd) a st req = Some (st', rep))
    by reflexivity.
  split; [exact H|].
  exact (server_reply_shape [0; 0] (fun _ sd => sd) a st st' req rep H).
Defined.

(** X7. What [update_model] saves is what a later [model] request
    gives to [load_state_dict].  Once an update has made a model
    current, the file of its era holds the state dict of that model.  A
    request for that era is answered with that very object as long as
    no further update has happened.  After any further update it is
    answered with the new network as [load_state_dict], called with the
    saved state dict, left it: if the call returned, the network holds
    the saved state dict, by the contract of [load_state_dict]; if it
    raised, the reply is what the failed call left, for the state dict
    of the [RandomModel] a network that is not trained. *)
Theorem saved_model_round_trip {model state_dict episode : Type}
    (get_state_dict : model -> state_dict) (model_class : model)
    (try_load : model -> state_dict -> Loader.attempt)
    (a : Learner.args) (st0 st1 st2 : @Learner.learner model state_dict episode)
    (polls : list (option model * Z)) (rep : Learner.report)
    (evs : list Learner.event) :
  Loader.installs get_state_dict try_load ->
  Learner.update get_state_dict a st0 polls = Some (st1, rep) ->
  Learner.run get_state_dict model_class (Loader.load_state_dict try_load)
    a st1 evs = Some st2 ->
  let saved := get_state_dict (Learner.current st1) in
  let loading := try_load model_class saved in
  let reply :=
    Learner.fetch_model model_class (Loader.load_state_dict try_load) st2
      (Learner.model_era st1) in
  Learner.files st2 !! Learner.model_path (Learner.model_era st1)
    = Some saved /\
  reply = (if decide (Learner.updates evs = 0) then Learner.current st1
           else Loader.network loading) /\
  (Learner.updates evs <> 0 -> Loader.raised loading = false ->
   get_state_dict reply = saved).
Proof.
  intros Hload Hu Hrun saved loading reply.
  apply LearnerFacts.update_spec in Hu as (_ & Hf & _).
  destruct (LearnerFacts.run_era _ _ _ _ _ _ _ Hrun) as (He & Hfiles & _).
  pose proof (LearnerFacts.updates_nonneg evs) as Hnn.
  assert (Hfile : Learner.files st2
                    !! Learner.model_path (Learner.model_era st1)
                  = Some saved).
  { rewrite Hfiles by lia. rewrite Hf. apply lookup_insert_eq. }
  assert (Hreply : reply
                   = if decide (Learner.updates evs = 0)
                     then Learner.current st1 else Loader.network loading).
  { unfold reply. destruct (decide (Learner.updates evs = 0)) as [H0|Hpos].
    - rewrite <- (ServeFacts.run_requests_current _ _ _ _ _ _ _ Hrun H0).
      replace (Learner.model_era st1) with (Learner.model_era st2) by lia.
      apply LearnerFacts.fetch_model_current.
    - change (Loader.network loading)
        with (Loader.load_state_dict try_load model_class saved).
      apply LearnerFacts.fetch_model_loaded; [lia|exact Hfile]. }
  split; [exact Hfile|]. split; [exact Hreply|].
  intros Hpos Hok. rewrite Hreply, decide_False by done.
  by apply (Hload model_class (Learner.current st1)).
Qed.

Lemma saved_model_round_trip_witness :
  let a := Learner.Args 0 10 2 in
  let st0 := @Learner.init (list Z) (list Z) nat [] ∅ in
  let st1 := Learner.Learner_ 1 [5; 7] 0 ∅ 0 ([] : list nat)
               (<[Learner.model_path 1 := [5; 7]]> ∅) in
  let evs : list (@Learner.event (list Z) nat) :=
    [Learner.Update [(Some [8; 9], 6)]] in
  let st2 := Learner.Learner_ 2 [8; 9] 0 ∅ 0 ([] : list nat)
               (<[Learner.model_path 2 := [8; 9]]>
                  (<[Learner.model_path 1 := [5; 7]]> ∅)) in
  let try_load := LoaderFixture.try_load in
  Loader.installs id try_load /\
  Learner.update id a st0 [(Some [5; 7], 3)] = Some (st1, Learner.WinRateNan) /\
  Learner.run id [0; 0] (Loader.load_state_dict try_load) a st1 evs
    = Some st2 /\
  let saved := id (Learner.current st1) in
  let loading := try_load [0; 0] saved in
  let reply :=
    Learner.fetch_model [0; 0] (Loader.load_state_dict try_load) st2
      (Learner.model_era st1) in
  Learner.files st2 !! Learner.model_path (Learner.model_era st1)
    = Some saved /\
  reply = (if decide (Learner.updates evs = 0) then Learner.current st1
           else Loader.network loading) /\
  (Learner.updates evs <> 0 -> Loader.raised loading = false ->
   id reply = saved).
Proof.
  intros a st0 st1 evs st2 try_load.
  assert (H0 : Loader.installs id try_load)
    by exact LoaderFacts.fixture_installs.
  assert (H1 : Learner.update id a st0 [(Some [5; 7], 3)]
               = Some (st1, Learner.WinRateNan)) by reflexivity.
  assert (H2 : Learner.run id [0; 0] (Loader.load_state_dict try_load) a
                 st1 evs = Some st2)
    by reflexivity.
  split; [exact H0|]. split; [exact H1|]. split; [exact H2|].
  exact (saved_model_round_trip id [0; 0] try_load a st0 st1 st2
           [(Some [5; 7], 3)] Learner.WinRateNan evs H0 H1 H2).
Defined.

(** X8. The server calls [update] for the [k]-th time only after at
    least [minimum_episodes + k * update_episodes] episode ids have
    been handed out, and the requests it has served by then are a
    prefix of what the workers sent. *)
Theorem server_update_gated {model state_dict episode : Type}
    (get_state_dict : model -> state_dict) (model_class : model)
    (load_state_dict : model -> state_dict -> model)
    (a : Learner.args) (st st' : @Learner.learner model state_dict episode)
    (inbox rest : list Learner.request)
    (pollss : list (list (option model * Z))) :
  pollss <> [] ->
  Learner.server get_state_dict model_class load_state_dict a st inbox pollss
    = Some (st', rest) ->
  Learner.minimum_episodes a + Py.len pollss * Learner.update_episodes a
    <= Learner.num_episodes st' /\
  exists served, inbox = served ++ rest.
Proof.
  intros Hne Hs. unfold Learner.server in Hs.
  by apply (ServeFacts.server_from_reaches _ _ _ _ _ _ _ _ _ _ Hne Hs).
Qed.

Lemma server_update_gated_witness :
  let a := Learner.Args 2 10 2 in
  let st := @Learner.init (list Z) (list Z) nat [] ∅ in
  let inbox := [@Learner.Gargs nat false 1; Learner.Gargs true 3;
                Learner.Eargs false 1] in
  let pollss : list (list (option (list Z) * Z)) := [[]] in
  let st' := Learner.Learner_ 1 ([] : list Z) 4 ∅ 0 ([] : list nat)
               ({[ "models/1.pth" := [] ]} : gmap string (list Z)) in
  let rest := [@Learner.Eargs nat false 1] in
  pollss <> [] /\
  Learner.server id [0; 0] (fun _ sd => sd) a st inbox pollss
    = Some (st', rest) /\
  Learner.minimum_episodes a + Py.len pollss * Learner.update_episodes a
    <= Learner.num_episodes st' /\
  exists served, inbox = served ++ rest.
Proof.
  intros a st inbox pollss st' rest.
  assert (H1 : pollss <> []) by discriminate.
  assert (H2 : Learner.server id [0; 0] (fun _ sd => sd) a st inbox pollss
               = Some (st', rest)) by (vm_compute; reflexivity).
  split; [exact H1|]. split; [exact H2|].
  exact (server_update_gated id [0; 0] (fun _ sd => sd) a st st' inbox rest
           pollss H1 H2).
Defined.

(** X9. On an empty store, or with [maximum_episodes] not positive,
    [select_episode] raises in its first pass: [randrange] is called
    with a range that is not positive. *)
Theorem select_episode_empty_store {episode rng : Type} `{PyRandom rng}
    `{!PyRandomLaws rng}
    (episodes : list episode) (maximum_episodes : Z) (g : rng) :
  Z.min (Py.len episodes) maximum_episodes <= 0 ->
  Sampler.draw episodes maximum_episodes g = None /\
  forall fuel, Sampler.select_episode fuel episodes maximum_episodes g = None.
Proof.
  intros Hn.
  assert (Hd : Sampler.draw episodes maximum_episodes g = None).
  { unfold Sampler.draw. by rewrite (randrange_none _ g Hn). }
  split; [done|]. intros [|fuel]; simpl; [done|]. by rewrite Hd.
Qed.

Lemma select_episode_empty_store_witness :
  Z.min (Py.len ([] : list nat)) 4 <= 0 /\
  Sampler.draw ([] : list nat) 4 (5 : Z) = None /\
  forall fuel, Sampler.select_episode fuel ([] : list nat) 4 (5 : Z) = None.
Proof.
  assert (H : Z.min (Py.len ([] : list nat)) 4 <= 0) by (vm_compute; discriminate).
  split; [exact H|].
  exact (select_episode_empty_store ([] : list nat) 4 (5 : Z) H).
Defined.

(** X10. Whatever the random source does, an episode returned by
    [select_episode] is the store's entry at an index below
    [min(len(episodes), maximum_episodes)] that lies less than
    [maximum_episodes] positions behind the newest entry. *)
Theorem select_episode_returns_stored {episode rng : Type} `{PyRandom rng}
    `{!PyRandomLaws rng}
    (fuel : nat) (episodes : list episode) (maximum_episodes : Z)
    (g g' : rng) (ep : episode) :
  Sampler.select_episode fuel episodes maximum_episodes g = Some (ep, g') ->
  exists ep_idx,
    0 <= ep_idx < Z.min (Py.len episodes) maximum_episodes /\
    Py.len episodes - 1 - maximum_episodes < ep_idx /\
    episodes !! Z.to_nat ep_idx = Some ep.
Proof.
  revert g. induction fuel as [|fuel IH]; intros g; simpl; [done|].
  destruct (Sampler.draw episodes maximum_episodes g)
    as [[[ep_idx [|]] g1]|] eqn:Hd; [| |done].
  - destruct (SamplerMore.draw_accepted _ _ _ _ _ Hd) as [Hi Hnew].
    destruct (Py.index episodes ep_idx) as [e|] eqn:He; [|done].
    intros [= -> _]. exists ep_idx. split; [done|]. split; [done|].
    unfold Py.index in He. destruct (Z.ltb_spec ep_idx 0); [lia|done].
  - apply IH.
Qed.

Lemma select_episode_returns_stored_witness :
  let episodes := [20%nat; 21%nat; 22%nat] in
  Sampler.select_episode 3 episodes 4 (6 : Z) = Some (22%nat, 10) /\
  exists ep_idx,
    0 <= ep_idx < Z.min (Py.len episodes) 4 /\
    Py.len episodes - 1 - 4 < ep_idx /\
    episodes !! Z.to_nat ep_idx = Some 22%nat.
Proof.
  intros episodes.
  assert (Hs : Sampler.select_episode 3 episodes 4 (6 : Z) = Some (22%nat, 10))
    by (vm_compute; reflexivity).
  split; [exact Hs|].
  exact (select_episode_returns_stored 3 episodes 4 (6 : Z) 10 22%nat Hs).
Defined.

(** X11. The ids sent back by a handshake, generators and evaluators
    together, are exactly the [num_process] ids from [worker_cnt] on,
    each once; a handshake asking for no process, or for a negative
    number, gets no id. *)
Theorem entry_handshake_partition (eworker_rate : Num.number)
    (st : Entry.state) (num_process : Z) :
  let gids := (Entry.handshake eworker_rate st num_process).1.2 in
  let eids := (Entry.handshake eworker_rate st num_process).2 in
  gids ++ eids
    ≡ₚ (fun j : nat => Entry.worker_cnt st + Z.of_nat j)
         <$> seq 0 (Z.to_nat num_process) /\
  Py.len gids + Py.len eids = Z.max 0 num_process.
Proof.
  intros gids eids.
  destruct (EntryFacts.slots_ids eworker_rate st (Z.to_nat num_process))
    as [Hg He].
  assert (Hperm : gids ++ eids
                    ≡ₚ (fun j : nat => Entry.worker_cnt st + Z.of_nat j)
                         <$> seq 0 (Z.to_nat num_process)).
  { unfold gids, eids, Entry.handshake. rewrite Hg, He, <- fmap_app.
    apply fmap_Permutation.
    apply (filter_app_complement
             (fun j => Entry.wants_generator eworker_rate
                         (Entry.slot_state eworker_rate st j) = true)). }
  split; [done|].
  apply Permutation_length in Hperm.
  rewrite length_app, length_fmap, length_seq in Hperm.
  unfold Py.len. lia.
Qed.

(** X12. With an [eworker_rate] that is not below zero, an [int] or a
    float, at every point of the registration loop no generator has
    been issued before two evaluators.  With an [int] rate, where the
    product of the test is exact, the evaluators issued so far are
    moreover at most two ahead of [eworker_rate] times the generators,
    and once there is a generator they are more than one ahead of
    [eworker_rate] times the generators but one. *)
Theorem entry_server_balance (eworker_rate : Num.number) (reqs : list Z)
    (k : nat) :
  Num.ltb eworker_rate (Num.Int 0) = false ->
  let st := Entry.slot_state eworker_rate
              (Entry.entry_server eworker_rate reqs) k in
  let G := Py.len (Entry.total_gids st) in
  let E := Py.len (Entry.total_eids st) in
  (1 <= G -> 2 <= E) /\
  (forall r : Z, eworker_rate = Num.Int r ->
     E <= G * r + 2 /\ (1 <= G -> (G - 1) * r + 1 < E)).
Proof.
  intros Hrate st G E. split.
  - apply (EntryMore.slots_two_first eworker_rate _ k Hrate
             (EntryMore.entry_server_two_first eworker_rate reqs Hrate)).
  - intros r Hr. subst eworker_rate.
    apply NumFacts.ltb_int_false in Hrate.
    apply (EntryMore.slots_balanced r _ k Hrate
             (EntryMore.entry_server_balanced r reqs Hrate)).
Qed.

Lemma entry_server_balance_witness :
  let eworker_rate := Num.Float (Num.quotient 57 100) in
  Num.ltb eworker_rate (Num.Int 0) = false /\
  let st := Entry.slot_state eworker_rate
              (Entry.entry_server eworker_rate [3; 2]) 1 in
  let G := Py.len (Entry.total_gids st) in
  let E := Py.len (Entry.total_eids st) in
  (1 <= G -> 2 <= E) /\
  (forall r : Z, eworker_rate = Num.Int r ->
     E <= G * r + 2 /\ (1 <= G -> (G - 1) * r + 1 < E)).
Proof.
  intros eworker_rate.
  assert (H : Num.ltb eworker_rate (Num.Int 0) = false)
    by (vm_compute; reflexivity).
  split; [exact H|].
  exact (entry_server_balance eworker_rate [3; 2] 1 H).
Defined.

(** X13. A model returned by [Trainer.update] is never a stale one:
    whatever pair was left in [updated_model] by earlier rounds, the
    call returns a model only if the store holds [minimum_episodes]
    episodes, and then the pair it returns is the last report the
    training thread made during one of the sleeps of this call; the
    flag is down again afterwards. *)
Theorem trainer_update_returns_fresh_report {model episode : Type}
    (a : Learner.args) (eps : list episode) (st st' : @Trainer.state model)
    (schedule : list (list (option model * Z))) (m : model) (steps : Z) :
  Trainer.update a eps st schedule = Some (Some m, steps, st') ->
  Learner.minimum_episodes a <= Py.len eps /\
  st' = Trainer.State false (Some m, steps) /\
  exists (k : nat) (rs : list (option model * Z)),
    schedule !! k = Some rs /\ last rs = Some (Some m, steps).
Proof.
  unfold Trainer.update.
  destruct (Z.ltb_spec (Py.len eps) (Learner.minimum_episodes a)); [done|].
  destruct (Trainer.poll _ schedule) as [[[m0 s0] st0]|] eqn:Hp; [|done].
  intros [= -> -> ->]. split; [done|].
  destruct (TrainerFacts.poll_fresh schedule
              (Trainer.State true (Trainer.updated_model st)) _ _ _ eq_refl Hp)
    as (k & rs & Hk & Hl & ->).
  split; [done|]. by exists k, rs.
Qed.

Lemma trainer_update_returns_fresh_report_witness :
  let a := Learner.Args 1 10 2 in
  let st := Trainer.State false (Some [1], 3) in
  let schedule : list (list (option (list Z) * Z)) :=
    [[]; [(None, 4); (Some [2], 5)]] in
  let st' := Trainer.State false (Some [2], 5) in
  Trainer.update a [7%nat] st schedule = Some (Some [2], 5, st') /\
  Learner.minimum_episodes a <= Py.len [7%nat] /\
  st' = Trainer.State false (Some [2], 5) /\
  exists (k : nat) (rs : list (option (list Z) * Z)),
    schedule !! k = Some rs /\ last rs = Some (Some [2], 5).
Proof.
  intros a st schedule st'.
  assert (H : Trainer.update a [7%nat] st schedule = Some (Some [2], 5, st'))
    by reflexivity.
  split; [exact H|].
  exact (trainer_update_returns_fresh_report a [7%nat] st st' schedule [2] 5 H).
Defined.

(** X14. [Trainer.update] over the flag and the reports returns what the
    coordinator's model of it returns on the values the successive
    calls of [recheck_update] give once the flag is up: [(None, 0)]
    below [minimum_episodes], and otherwise the first of those values
    that carries a model. *)
Theorem trainer_update_polls_rechecks {model episode : Type}
    (a : Learner.args) (eps : list episode) (st : @Trainer.state model)
    (schedule : list (list (option model * Z))) :
  (fun x : option model * Z * Trainer.state => x.1)
    <$> Trainer.update a eps st schedule
  = Learner.trainer_update a eps
      (Trainer.rechecks (Trainer.State true (Trainer.updated_model st))
                        schedule).
Proof.
  unfold Trainer.update, Learner.trainer_update.
  destruct (Py.len eps <? Learner.minimum_episodes a); [done|].
  rewrite <- TrainerFacts.poll_rechecks.
  by destruct (Trainer.poll _ schedule) as [[[m0 s0] st0]|].
Qed.

(** X15. If the training thread only ever reports [None] in the place
    of a model, as [Trainer.run] does for a network without parameters,
    for which [train] returns nothing, then once the store holds
    [minimum_episodes] episodes [Trainer.update] never returns,
    however long it polls. *)
Theorem trainer_update_waits_forever {model episode : Type}
    (a : Learner.args) (eps : list episode) (st : @Trainer.state model)
    (schedule : list (list (option model * Z))) :
  Learner.minimum_episodes a <= Py.len eps ->
  Forall (Forall (fun r => r.1 = None)) schedule ->
  Trainer.update a eps st schedule = None.
Proof.
  intros Hmin Hnone. unfold Trainer.update.
  destruct (Z.ltb_spec (Py.len eps) (Learner.minimum_episodes a)); [lia|].
  by rewrite (TrainerFacts.poll_none schedule Hnone).
Qed.

Lemma trainer_update_waits_forever_witness :
  let a := Learner.Args 1 10 2 in
  let schedule : list (list (option (list Z) * Z)) :=
    [[]; [(None, 0)]; []; [(None, 0); (None, 0)]] in
  Learner.minimum_episodes a <= Py.len [7%nat] /\
  Forall (Forall (fun r : option (list Z) * Z => r.1 = None)) schedule /\
  Trainer.update a [7%nat] Trainer.init schedule = None.
Proof.
  intros a schedule.
  assert (H1 : Learner.minimum_episodes a <= Py.len [7%nat])
    by (vm_compute; discriminate).
  assert (H2 : Forall (Forall (fun r : option (list Z) * Z => r.1 = None))
                      schedule)
    by (repeat (constructor; simpl; try reflexivity)).
  split; [exact H1|]. split; [exact H2|].
  exact (trainer_update_waits_forever a [7%nat] Trainer.init schedule H1 H2).
Defined.

(** X16. [Trainer.train] never divides by zero when it prints the
    losses.  It is either still in its loop, or has returned at once
    for a network without parameters, or has returned after [n >= 1]
    batches, even when a flag was up from the start: then [batch_cnt]
    is [n], [self.steps] has grown by [n], [data_cnt] is the sum of the
    counts of those batches and is not zero, and the test that ended
    the loop found one of the flags up. *)
Theorem train_outcomes (tr : TrainLoop.trainer) (flag : nat -> bool)
    (batches : list TrainLoop.batch_result) :
  TrainLoop.train tr flag batches = TrainLoop.Waiting \/
  TrainLoop.train tr flag batches = TrainLoop.NoParameters \/
  exists tr' printed c (n : nat),
    TrainLoop.train tr flag batches = TrainLoop.Returned tr' printed c /\
    (1 <= n <= length batches)%nat /\
    TrainLoop.batch_cnt c = Z.of_nat n /\
    TrainLoop.trainer_steps tr' = TrainLoop.trainer_steps tr + Z.of_nat n /\
    (TrainLoop.data_cnt c == TrainLoop.total (take n batches))%Q /\
    ~ (TrainLoop.data_cnt c == 0)%Q /\
    flag n = true.
Proof.
  unfold TrainLoop.train.
  destruct (TrainLoop.has_optimizer tr); simpl; [|by right; left].
  destruct (TrainLoop.loop flag 0 _ batches) as [c|] eqn:El; [|by left].
  right; right.
  destruct (TrainLoopFacts.loop_spec _ _ _ _ _ El)
    as (n & Hn & Hb & Hs & Hd & Hz & Hf).
  simpl in Hb, Hs, Hd, Hf.
  assert (E0 : Qeq_bool (TrainLoop.data_cnt c) 0 = false).
  { destruct (Qeq_bool (TrainLoop.data_cnt c) 0) eqn:E; [|done].
    by apply Qeq_bool_eq in E. }
  rewrite E0. simpl.
  assert (Hd' : (TrainLoop.data_cnt c == TrainLoop.total (take n batches))%Q)
    by (rewrite Hd; lra).
  do 3 eexists. exists n. split; [reflexivity|]. simpl.
  split; [|done]. split; [|lia].
  destruct n as [|n]; [|lia]. simpl in Hd'. done.
Qed.

(** X17. Counts of training data are sums of masks and so not negative.
    With such batches, a positive [defalut_lr], a positive
    [data_cnt_ema] and a [self.steps] that is not negative, a call of
    [train] that returns a model leaves [data_cnt_ema] and the learning
    rate positive and [self.steps] not negative: the next call starts
    from the same conditions. *)
Theorem train_keeps_rates_positive (tr tr' : TrainLoop.trainer)
    (flag : nat -> bool) (batches : list TrainLoop.batch_result)
    (printed : gmap string Q) (c : TrainLoop.locals) :
  (0 < TrainLoop.defalut_lr tr)%Q ->
  (0 < TrainLoop.data_cnt_ema tr)%Q ->
  0 <= TrainLoop.trainer_steps tr ->
  Forall (fun b => (0 <= TrainLoop.dcnt b)%Q) batches ->
  TrainLoop.train tr flag batches = TrainLoop.Returned tr' printed c ->
  (0 < TrainLoop.data_cnt_ema tr')%Q /\ (0 < TrainLoop.lr tr')%Q /\
  0 <= TrainLoop.trainer_steps tr' /\
  TrainLoop.defalut_lr tr' = TrainLoop.defalut_lr tr.
Proof.
  intros Hlr Hema Hsteps Hall. unfold TrainLoop.train.
  destruct (TrainLoop.has_optimizer tr); simpl; [|done].
  destruct (TrainLoop.loop flag 0 _ batches) as [c0|] eqn:El; [|done].
  destruct (TrainLoopFacts.loop_spec _ _ _ _ _ El)
    as (n & Hn & Hb & Hs & Hd & Hz & Hf).
  simpl in Hb, Hs, Hd. rewrite Z.add_0_l in Hb.
  destruct (_ && _); [done|]. intros [= <- _ _]. simpl.
  assert (Ht : (0 <= TrainLoop.total (take n batches))%Q).
  { apply TrainLoopFacts.total_nonneg. by apply Forall_take. }
  assert (Hpos : (0 < TrainLoop.data_cnt c0)%Q).
  { destruct (Qlt_le_dec 0 (TrainLoop.data_cnt c0)) as [|Hle]; [done|].
    exfalso. apply Hz. lra. }
  assert (Hden : (0 < (1 # 100) + inject_Z (TrainLoop.batch_cnt c0))%Q).
  { rewrite Hb. assert (0 <= inject_Z (Z.of_nat n))%Q
      by (change 0%Q with (inject_Z 0); rewrite <- Zle_Qle; lia).
    lra. }
  assert (Hq : (0 < TrainLoop.data_cnt c0
                    / ((1 # 100) + inject_Z (TrainLoop.batch_cnt c0)))%Q).
  { apply Qlt_shift_div_l; [done|]. lra. }
  assert (Hema' : (0 < TrainLoop.data_cnt_ema tr * (8 # 10)
                       + TrainLoop.data_cnt c0
                         / ((1 # 100) + inject_Z (TrainLoop.batch_cnt c0))
                         * (2 # 10))%Q) by lra.
  split; [done|]. split; [|split; [lia|done]].
  apply Qmult_lt_0_compat; [by apply Qmult_lt_0_compat|].
  assert (0 <= inject_Z (TrainLoop.steps c0))%Q
    by (change 0%Q with (inject_Z 0); rewrite <- Zle_Qle; lia).
  lra.
Qed.

Lemma train_keeps_rates_positive_witness :
  let tr := TrainLoop.Trainer_ true (3 # 100000000) 64 (2 # 1000000) 0 in
  let flag := fun k : nat => Nat.leb 2 k in
  let batches := [TrainLoop.BatchResult [("p", 1 # 2); ("v", 1 # 4)]%Q 6;
                  TrainLoop.BatchResult [("p", 1 # 4); ("v", 1 # 4)]%Q 8;
                  TrainLoop.BatchResult [("p", 1 # 4); ("v", 1 # 4)]%Q 8] in
  (0 < TrainLoop.defalut_lr tr)%Q /\
  (0 < TrainLoop.data_cnt_ema tr)%Q /\
  0 <= TrainLoop.trainer_steps tr /\
  Forall (fun b => (0 <= TrainLoop.dcnt b)%Q) batches /\
  exists tr' printed c,
    TrainLoop.train tr flag batches = TrainLoop.Returned tr' printed c /\
    TrainLoop.batch_cnt c = 2 /\
    (0 < TrainLoop.data_cnt_ema tr')%Q /\ (0 < TrainLoop.lr tr')%Q /\
    0 <= TrainLoop.trainer_steps tr' /\
    TrainLoop.defalut_lr tr' = TrainLoop.defalut_lr tr.
Proof.
  intros tr flag batches.
  assert (H1 : (0 < TrainLoop.defalut_lr tr)%Q) by reflexivity.
  assert (H2 : (0 < TrainLoop.data_cnt_ema tr)%Q) by reflexivity.
  assert (H3 : 0 <= TrainLoop.trainer_steps tr) by (simpl; lia).
  assert (H4 : Forall (fun b => (0 <= TrainLoop.dcnt b)%Q) batches)
    by (repeat constructor; simpl; discriminate).
  assert (E : exists tr' printed c,
             TrainLoop.train tr flag batches
             = TrainLoop.Returned tr' printed c /\ TrainLoop.batch_cnt c = 2)
    by (do 3 eexists; vm_compute; split; reflexivity).
  destruct E as (tr' & printed & c & E & Ec).
  split; [exact H1|]. split; [exact H2|]. split; [exact H3|].
  split; [exact H4|]. exists tr', printed, c.
  split; [exact E|]. split; [exact Ec|].
  exact (train_keeps_rates_positive tr tr' flag batches printed c
           H1 H2 H3 H4 E).
Defined.

(** X18. The worker of [Batcher] calls [make_batch] on consecutive
    groups of the episodes it receives, in order: every group holds
    [max(1, batch_size)] episodes, so none is empty, and fewer than
    that many episodes are left waiting. *)
Theorem batcher_worker_chunks {episode : Type} (batch_size : Z)
    (received : list episode) :
  let calls := (Batcher.worker batch_size [] received).1 in
  let waiting := (Batcher.worker batch_size [] received).2 in
  concat calls ++ waiting = received /\
  Forall (fun call => Py.len call = Z.max 1 batch_size) calls /\
  Py.len waiting < Z.max 1 batch_size.
Proof.
  intros calls waiting.
  apply (BatcherFacts.worker_chunks batch_size received []).
  unfold Py.len. simpl. lia.
Qed.

(** X19. On episodes that are not empty, well formed and of one game
    (the same number of players, action masks and policies of one
    width, observation components of fixed shapes, which
    [np.zeros_like] keeps), and with [forward_steps >= 1], every call
    of [make_batch] the worker makes returns a batch, whatever the
    state of the random generator at the call, and the batch has
    [forward_steps] time steps. *)
Theorem batcher_worker_batches_built {arr rng : Type} `{PyRandom rng}
    `{!PyRandomLaws rng} `{Np.Shaped arr}
    (zeros_like : arr -> arr) (a : MakeBatch.args)
    (n_players n_actions : nat) (obs_shapes : list (list nat))
    (batch_size : Z) (received : list (@MakeBatch.episode arr)) :
  (forall x, Np.shape (zeros_like x) = Np.shape x) ->
  1 <= MakeBatch.forward_steps a ->
  Forall (fun ep => 1 <= Py.len (MakeBatch.turn ep) /\
                    MakeBatch.episode_ok (length obs_shapes) ep /\
                    MakeBatch.episode_uniform n_players n_actions
                      obs_shapes ep) received ->
  Forall (fun call =>
            Py.len call = Z.max 1 batch_size /\
            forall g : rng,
            exists b g',
              MakeBatch.make_batch zeros_like a call g = Some (b, g') /\
              Py.len (MakeBatch.b_tmask b) = MakeBatch.forward_steps a)
         (Batcher.worker batch_size [] received).1.
Proof.
  intros Hzeros Hsteps Hall.
  destruct (BatcherFacts.worker_chunks batch_size received [])
    as (Hc & Hlen & _); [unfold Py.len; simpl; lia|].
  simpl in Hc.
  apply Forall_forall. intros call Hcall.
  rewrite Forall_forall in Hlen. specialize (Hlen _ Hcall).
  split; [done|]. intros g.
  assert (Hok : Forall (fun ep => 1 <= Py.len (MakeBatch.turn ep) /\
                                  MakeBatch.episode_ok (length obs_shapes) ep /\
                                  MakeBatch.episode_uniform n_players
                                    n_actions obs_shapes ep) call).
  { apply Forall_forall. intros ep Hep.
    rewrite Forall_forall in Hall. apply Hall. rewrite <- Hc.
    apply elem_of_app. left. apply list_elem_of_In, in_concat.
    exists call. by split; apply list_elem_of_In. }
  assert (Hne : call <> []).
  { intros ->. unfold Py.len in Hlen. simpl in Hlen. lia. }
  destruct (MakeBatchMore.make_batch_spec zeros_like Hzeros a Hsteps
              n_players n_actions obs_shapes call g Hne Hok)
    as (ds & b & g' & Hb & _ & _ & _ & ((Ht & _) & _) & _).
  exists b, g'. split; [done|]. unfold Py.len. rewrite Ht. lia.
Qed.

Lemma batcher_worker_batches_built_witness :
  let received := [WindowFixture.ep; WindowFixture.ep; WindowFixture.ep] in
  (forall x : Z, Np.shape ((fun _ : Z => 0) x) = Np.shape x) /\
  1 <= MakeBatch.forward_steps WindowFixture.a /\
  Forall (fun ep => 1 <= Py.len (MakeBatch.turn ep) /\
                    MakeBatch.episode_ok (length [[] : list nat]) ep /\
                    MakeBatch.episode_uniform 2 2 [[]] ep) received /\
  Forall (fun call =>
            Py.len call = Z.max 1 2 /\
            forall g : Z,
            exists b g',
              MakeBatch.make_batch (fun _ : Z => 0) WindowFixture.a call g
                = Some (b, g') /\
              Py.len (MakeBatch.b_tmask b)
                = MakeBatch.forward_steps WindowFixture.a)
         (Batcher.worker 2 [] received).1.
Proof.
  intros received.
  assert (H0 : forall x : Z, Np.shape ((fun _ : Z => 0) x) = Np.shape x)
    by reflexivity.
  assert (H1 : 1 <= MakeBatch.forward_steps WindowFixture.a)
    by (vm_compute; discriminate).
  assert (H2 : Forall (fun ep => 1 <= Py.len (MakeBatch.turn ep) /\
                                 MakeBatch.episode_ok (length [[] : list nat]) ep /\
                                 MakeBatch.episode_uniform 2 2 [[]] ep)
                      received).
  { assert (Hep : 1 <= Py.len (MakeBatch.turn WindowFixture.ep) /\
                   MakeBatch.episode_ok (length [[] : list nat])
                     WindowFixture.ep /\
                   MakeBatch.episode_uniform 2 2 [[]] WindowFixture.ep)
      by (split; [vm_compute; discriminate|
          split; [exact WindowFixtureFacts.ep_ok
                 |exact WindowFixtureMore.ep_uniform]]).
    repeat (apply Forall_cons; split; [exact Hep|]). apply Forall_nil_2. }
  split; [exact H0|]. split; [exact H1|]. split; [exact H2|].
  exact (batcher_worker_batches_built (fun _ : Z => 0) WindowFixture.a 2 2
           [[]] 2 received H0 H1 H2).
Defined.

(** X20. On a list, not empty, of well-formed episodes of one game
    (the same number [P] of players, action masks and policies of one
    width [A], observation components of fixed shapes, which
    [np.zeros_like] keeps) [make_batch] returns a time-major batch.
    With [T = forward_steps] and [B] the number of episodes, the masks
    and values have shape [(T, B, P)], the action mask and the policy
    [(T, B, A)], the action [(T, B, 1)], the progress [(T, B)], the
    return [(1, B, P)], and an observation component [(T, B, P, ...)],
    or [(T, B, 1, ...)] when only the turn player is observed; the
    entry at step [k] and position [bi] is entry [k] of the window cut
    from episode [bi], and the same holds for every component of the
    observation. *)
Theorem make_batch_time_major {arr rng : Type} `{PyRandom rng}
    `{!PyRandomLaws rng} `{Np.Shaped arr}
    (zeros_like : arr -> arr) (a : MakeBatch.args)
    (n_players n_actions : nat) (obs_shapes : list (list nat))
    (episodes : list (@MakeBatch.episode arr)) (g : rng) :
  (forall x, Np.shape (zeros_like x) = Np.shape x) ->
  1 <= MakeBatch.forward_steps a ->
  episodes <> [] ->
  Forall (fun ep => 1 <= Py.len (MakeBatch.turn ep) /\
                    MakeBatch.episode_ok (length obs_shapes) ep /\
                    MakeBatch.episode_uniform n_players n_actions
                      obs_shapes ep) episodes ->
  exists ds b g',
    MakeBatch.make_batch zeros_like a episodes g = Some (b, g') /\
    let T := Z.to_nat (MakeBatch.forward_steps a) in
    let B := length episodes in
    let W := if MakeBatch.observation_mode a then n_players else 1%nat in
    length ds = B /\
    (forall (bi : nat) (ep : @MakeBatch.episode arr),
       episodes !! bi = Some ep ->
       exists d gi gi',
         ds !! bi = Some d /\
         MakeBatch.window zeros_like a ep gi = Some (d, gi')) /\
    (Np.shape (MakeBatch.b_tmask b) = Some [T; B; n_players] /\
     Np.shape (MakeBatch.b_pmask b) = Some [T; B; n_actions] /\
     Np.shape (MakeBatch.b_vmask b) = Some [T; B; n_players] /\
     Np.shape (MakeBatch.b_action b) = Some [T; B; 1%nat] /\
     Np.shape (MakeBatch.b_policy b) = Some [T; B; n_actions] /\
     Np.shape (MakeBatch.b_value b) = Some [T; B; n_players] /\
     Np.shape (MakeBatch.b_progress b) = Some [T; B] /\
     Np.shape (MakeBatch.b_return b) = Some [1%nat; B; n_players] /\
     Forall2 (fun comp s => Np.shape comp = Some (T :: B :: W :: s))
             (MakeBatch.b_observation b) obs_shapes) /\
    (TimeMajor.shape B T (MakeBatch.b_tmask b) /\
     TimeMajor.shape B T (MakeBatch.b_pmask b) /\
     TimeMajor.shape B T (MakeBatch.b_vmask b) /\
     TimeMajor.shape B T (MakeBatch.b_action b) /\
     TimeMajor.shape B T (MakeBatch.b_policy b) /\
     TimeMajor.shape B T (MakeBatch.b_value b) /\
     TimeMajor.shape B T (MakeBatch.b_progress b) /\
     TimeMajor.shape B 1%nat (MakeBatch.b_return b) /\
     length (MakeBatch.b_observation b) = length obs_shapes /\
     Forall (TimeMajor.shape B T) (MakeBatch.b_observation b)) /\
    forall (k bi : nat) (d : MakeBatch.datum),
      (k < T)%nat -> ds !! bi = Some d ->
      TimeMajor.entry (MakeBatch.b_tmask b) k bi = MakeBatch.tmsk d !! k /\
      TimeMajor.entry (MakeBatch.b_pmask b) k bi = MakeBatch.pmsk d !! k /\
      TimeMajor.entry (MakeBatch.b_vmask b) k bi = MakeBatch.vmsk d !! k /\
      TimeMajor.entry (MakeBatch.b_action b) k bi = MakeBatch.act d !! k /\
      TimeMajor.entry (MakeBatch.b_policy b) k bi = MakeBatch.p d !! k /\
      TimeMajor.entry (MakeBatch.b_value b) k bi = MakeBatch.v d !! k /\
      TimeMajor.entry (MakeBatch.b_progress b) k bi = MakeBatch.progress d !! k /\
      TimeMajor.entry (MakeBatch.b_return b) 0 bi
        = MakeBatch.ret d !! 0%nat /\
      forall (i : nat) (comp : list (list (list arr))),
        MakeBatch.b_observation b !! i = Some comp ->
        TimeMajor.entry comp k bi
        = MakeBatch.obs d !! i ≫= (fun c => c !! k).
Proof.
  intros Hzeros Hsteps Hne Hall.
  exact (MakeBatchMore.make_batch_spec zeros_like Hzeros a Hsteps
           n_players n_actions obs_shapes episodes g Hne Hall).
Qed.

Lemma make_batch_time_major_witness :
  let a := WindowFixture.a in
  let episodes := [WindowFixture.ep; WindowFixture.ep] in
  let zeros_like := fun _ : Z => 0 in
  (forall x : Z, Np.shape (zeros_like x) = Np.shape x) /\
  1 <= MakeBatch.forward_steps a /\
  episodes <> [] /\
  Forall (fun ep => 1 <= Py.len (MakeBatch.turn ep) /\
                    MakeBatch.episode_ok (length [[] : list nat]) ep /\
                    MakeBatch.episode_uniform 2 2 [[]] ep) episodes /\
  exists ds b g',
    MakeBatch.make_batch zeros_like a episodes (7 : Z) = Some (b, g') /\
    let T := Z.to_nat (MakeBatch.forward_steps a) in
    let B := length episodes in
    let W := if MakeBatch.observation_mode a then 2%nat else 1%nat in
    length ds = B /\
    (forall (bi : nat) (ep : @MakeBatch.episode Z),
       episodes !! bi = Some ep ->
       exists d gi gi',
         ds !! bi = Some d /\
         MakeBatch.window zeros_like a ep gi = Some (d, gi')) /\
    (Np.shape (MakeBatch.b_tmask b) = Some [T; B; 2%nat] /\
     Np.shape (MakeBatch.b_pmask b) = Some [T; B; 2%nat] /\
     Np.shape (MakeBatch.b_vmask b) = Some [T; B; 2%nat] /\
     Np.shape (MakeBatch.b_action b) = Some [T; B; 1%nat] /\
     Np.shape (MakeBatch.b_policy b) = Some [T; B; 2%nat] /\
     Np.shape (MakeBatch.b_value b) = Some [T; B; 2%nat] /\
     Np.shape (MakeBatch.b_progress b) = Some [T; B] /\
     Np.shape (MakeBatch.b_return b) = Some [1%nat; B; 2%nat] /\
     Forall2 (fun comp s => Np.shape comp = Some (T :: B :: W :: s))
             (MakeBatch.b_observation b) [[]]) /\
    (TimeMajor.shape B T (MakeBatch.b_tmask b) /\
     TimeMajor.shape B T (MakeBatch.b_pmask b) /\
     TimeMajor.shape B T (MakeBatch.b_vmask b) /\
     TimeMajor.shape B T (MakeBatch.b_action b) /\
     TimeMajor.shape B T (MakeBatch.b_policy b) /\
     TimeMajor.shape B T (MakeBatch.b_value b) /\
     TimeMajor.shape B T (MakeBatch.b_progress b) /\
     TimeMajor.shape B 1%nat (MakeBatch.b_return b) /\
     length (MakeBatch.b_observation b) = length [[] : list nat] /\
     Forall (TimeMajor.shape B T) (MakeBatch.b_observation b)) /\
    forall (k bi : nat) (d : MakeBatch.datum),
      (k < T)%nat -> ds !! bi = Some d ->
      TimeMajor.entry (MakeBatch.b_tmask b) k bi = MakeBatch.tmsk d !! k /\
      TimeMajor.entry (MakeBatch.b_pmask b) k bi = MakeBatch.pmsk d !! k /\
      TimeMajor.entry (MakeBatch.b_vmask b) k bi = MakeBatch.vmsk d !! k /\
      TimeMajor.entry (MakeBatch.b_action b) k bi = MakeBatch.act d !! k /\
      TimeMajor.entry (MakeBatch.b_policy b) k bi = MakeBatch.p d !! k /\
      TimeMajor.entry (MakeBatch.b_value b) k bi = MakeBatch.v d !! k /\
      TimeMajor.entry (MakeBatch.b_progress b) k bi
        = MakeBatch.progress d !! k /\
      TimeMajor.entry (MakeBatch.b_return b) 0 bi
        = MakeBatch.ret d !! 0%nat /\
      forall (i : nat) (comp : list (list (list Z))),
        MakeBatch.b_observation b !! i = Some comp ->
        TimeMajor.entry comp k bi
        = MakeBatch.obs d !! i ≫= (fun c => c !! k).
Proof.
  intros a episodes zeros_like.
  assert (H0 : forall x : Z, Np.shape (zeros_like x) = Np.shape x)
    by reflexivity.
  assert (H1 : 1 <= MakeBatch.forward_steps a) by (vm_compute; discriminate).
  assert (H2 : episodes <> []) by discriminate.
  assert (H3 : Forall (fun ep => 1 <= Py.len (MakeBatch.turn ep) /\
                                 MakeBatch.episode_ok (length [[] : list nat]) ep /\
                                 MakeBatch.episode_uniform 2 2 [[]] ep)
                      episodes).
  { assert (Hep : 1 <= Py.len (MakeBatch.turn WindowFixture.ep) /\
                   MakeBatch.episode_ok (length [[] : list nat])
                     WindowFixture.ep /\
                   MakeBatch.episode_uniform 2 2 [[]] WindowFixture.ep)
      by (split; [vm_compute; discriminate|
          split; [exact WindowFixtureFacts.ep_ok
                 |exact WindowFixtureMore.ep_uniform]]).
    repeat (apply Forall_cons; split; [exact Hep|]). apply Forall_nil_2. }
  split; [exact H0|]. split; [exact H1|]. split; [exact H2|].
  split; [exact H3|].
  exact (make_batch_time_major zeros_like a 2 2 [[]] episodes (7 : Z)
           H0 H1 H2 H3).
Defined.

(** X21. On the real steps of a window of a well-formed episode, that
    is the first [min(forward_steps, L - st)] steps for the start [st]
    that was drawn, the action mask, the policy, the action and the
    values are those of the episode from turn [st] on, a value [None]
    being replaced by 0; the progress is the turn over the length of
    the episode; and the value mask is all ones in observation mode
    and the turn mask otherwise. *)
Theorem window_real_steps {arr rng : Type} `{PyRandom rng}
    `{!PyRandomLaws rng}
    (zeros_like : arr -> arr) (a : MakeBatch.args)
    (ep : @MakeBatch.episode arr) (g g' : rng) (d : MakeBatch.datum)
    (n_obs : nat) :
  1 <= MakeBatch.forward_steps a ->
  MakeBatch.episode_ok n_obs ep ->
  MakeBatch.window zeros_like a ep g = Some (d, g') ->
  exists st,
    let L := Py.len (MakeBatch.turn ep) in
    let steps := MakeBatch.forward_steps a in
    0 <= st < L /\
    randrange (1 + Z.max 0 (L - steps)) g = Some (st, g') /\
    forall k : nat, Z.of_nat k < Z.min steps (L - st) ->
      let t := (Z.to_nat st + k)%nat in
      MakeBatch.pmsk d !! k = MakeBatch.pmask ep !! t /\
      MakeBatch.p d !! k = MakeBatch.policy ep !! t /\
      MakeBatch.act d !! k = (fun x => [x]) <$> (MakeBatch.action ep !! t) /\
      MakeBatch.progress d !! k
        = Some (inject_Z (st + Z.of_nat k) / inject_Z L)%Q /\
      MakeBatch.v d !! k
        = mapM (fun player =>
                  l ← MakeBatch.value ep !! player;
                  x ← Py.index l (st + Z.of_nat k);
                  Some (default 0%Q x))
               (MakeBatch.players ep) /\
      MakeBatch.vmsk d !! k
        = if MakeBatch.observation_mode a
          then (fun r : list Q => (fun _ => 1%Q) <$> r)
                 <$> (MakeBatch.tmsk d !! k)
          else MakeBatch.tmsk d !! k.
Proof.
  intros Hsteps Hok Hw.
  destruct (WindowSteps.window_steps zeros_like n_obs a ep g g' d
              Hsteps Hok Hw)
    as (st & player_st & obs_sample & Hst & Hr & _ & _ & Hreal & _).
  exists st. split; [done|]. split; [done|]. exact Hreal.
Qed.

Lemma window_real_steps_witness :
  let a := WindowFixture.a in
  let ep := WindowFixture.ep in
  let zeros_like := fun _ : Z => 0 in
  1 <= MakeBatch.forward_steps a /\
  MakeBatch.episode_ok 1 ep /\
  exists d g',
    MakeBatch.window zeros_like a ep (7 : Z) = Some (d, g') /\
    exists st,
      let L := Py.len (MakeBatch.turn ep) in
      let steps := MakeBatch.forward_steps a in
      0 <= st < L /\
      randrange (1 + Z.max 0 (L - steps)) (7 : Z) = Some (st, g') /\
      forall k : nat, Z.of_nat k < Z.min steps (L - st) ->
        let t := (Z.to_nat st + k)%nat in
        MakeBatch.pmsk d !! k = MakeBatch.pmask ep !! t /\
        MakeBatch.p d !! k = MakeBatch.policy ep !! t /\
        MakeBatch.act d !! k
          = (fun x => [x]) <$> (MakeBatch.action ep !! t) /\
        MakeBatch.progress d !! k
          = Some (inject_Z (st + Z.of_nat k) / inject_Z L)%Q /\
        MakeBatch.v d !! k
          = mapM (fun player =>
                    l ← MakeBatch.value ep !! player;
                    x ← Py.index l (st + Z.of_nat k);
                    Some (default 0%Q x))
                 (MakeBatch.players ep) /\
        MakeBatch.vmsk d !! k
          = if MakeBatch.observation_mode a
            then (fun r : list Q => (fun _ => 1%Q) <$> r)
                   <$> (MakeBatch.tmsk d !! k)
            else MakeBatch.tmsk d !! k.
Proof.
  intros a ep zeros_like.
  assert (H1 : 1 <= MakeBatch.forward_steps a) by (vm_compute; discriminate).
  assert (E : exists d g',
             MakeBatch.window zeros_like a ep (7 : Z) = Some (d, g'))
    by (do 2 eexists; vm_compute; reflexivity).
  destruct E as (d & g' & E).
  split; [exact H1|]. split; [exact WindowFixtureFacts.ep_ok|].
  exists d, g'. split; [exact E|].
  exact (window_real_steps zeros_like a ep (7 : Z) g' d 1 H1
           WindowFixtureFacts.ep_ok E).
Defined.

(** X22. On the padded steps of a window of a well-formed episode, the
    steps from [min(forward_steps, L - st)] up to [forward_steps], the
    value is the final reward of the episode, the action is 0, the
    progress is 1, the action mask is a row of [1e32], the policy a row
    of zeros, and every component of the observation is made of zero
    arrays shaped like the sample taken at the first step. *)
Theorem window_padded_steps {arr rng : Type} `{PyRandom rng}
    `{!PyRandomLaws rng}
    (zeros_like : arr -> arr) (a : MakeBatch.args)
    (ep : @MakeBatch.episode arr) (g g' : rng) (d : MakeBatch.datum)
    (n_obs : nat) :
  1 <= MakeBatch.forward_steps a ->
  MakeBatch.episode_ok n_obs ep ->
  MakeBatch.window zeros_like a ep g = Some (d, g') ->
  exists st player_st obs_sample,
    let L := Py.len (MakeBatch.turn ep) in
    let steps := MakeBatch.forward_steps a in
    0 <= st < L /\
    randrange (1 + Z.max 0 (L - steps)) g = Some (st, g') /\
    Py.index (MakeBatch.turn ep) st = Some player_st /\
    MakeBatch.observation_at ep player_st st = Some (Some obs_sample) /\
    forall k : nat, Z.min steps (L - st) <= Z.of_nat k < steps ->
      MakeBatch.v d !! k = Some (MakeBatch.reward ep) /\
      MakeBatch.act d !! k = Some [0] /\
      MakeBatch.progress d !! k = Some 1%Q /\
      (exists row, MakeBatch.pmask ep !! Z.to_nat st = Some row /\
         MakeBatch.pmsk d !! k
         = Some (replicate (length row)
                           (100000000000000000000000000000000 # 1)%Q)) /\
      (exists row, MakeBatch.policy ep !! Z.to_nat st = Some row /\
         MakeBatch.p d !! k = Some (replicate (length row) 0%Q)) /\
      Forall2 (fun c s => exists w : nat,
                 c !! k = Some (replicate w (zeros_like s)))
              (MakeBatch.obs d) obs_sample.
Proof.
  intros Hsteps Hok Hw.
  destruct (WindowSteps.window_steps zeros_like n_obs a ep g g' d
              Hsteps Hok Hw)
    as (st & player_st & obs_sample & Hst & Hr & Ht & Ho & _ & Hpad).
  exists st, player_st, obs_sample. repeat (split; [done|]). exact Hpad.
Qed.

Lemma window_padded_steps_witness :
  let a := WindowFixture.a in
  let ep := WindowFixture.ep in
  let zeros_like := fun _ : Z => 0 in
  1 <= MakeBatch.forward_steps a /\
  MakeBatch.episode_ok 1 ep /\
  exists d g',
    MakeBatch.window zeros_like a ep (7 : Z) = Some (d, g') /\
    exists st player_st obs_sample,
      let L := Py.len (MakeBatch.turn ep) in
      let steps := MakeBatch.forward_steps a in
      0 <= st < L /\
      randrange (1 + Z.max 0 (L - steps)) (7 : Z) = Some (st, g') /\
      Py.index (MakeBatch.turn ep) st = Some player_st /\
      MakeBatch.observation_at ep player_st st = Some (Some obs_sample) /\
      forall k : nat, Z.min steps (L - st) <= Z.of_nat k < steps ->
        MakeBatch.v d !! k = Some (MakeBatch.reward ep) /\
        MakeBatch.act d !! k = Some [0] /\
        MakeBatch.progress d !! k = Some 1%Q /\
        (exists row, MakeBatch.pmask ep !! Z.to_nat st = Some row /\
           MakeBatch.pmsk d !! k
           = Some (replicate (length row)
                             (100000000000000000000000000000000 # 1)%Q)) /\
        (exists row, MakeBatch.policy ep !! Z.to_nat st = Some row /\
           MakeBatch.p d !! k = Some (replicate (length row) 0%Q)) /\
        Forall2 (fun c s => exists w : nat,
                   c !! k = Some (replicate w (zeros_like s)))
                (MakeBatch.obs d) obs_sample.
Proof.
  intros a ep zeros_like.
  assert (H1 : 1 <= MakeBatch.forward_steps a) by (vm_compute; discriminate).
  assert (E : exists d g',
             MakeBatch.window zeros_like a ep (7 : Z) = Some (d, g'))
    by (do 2 eexists; vm_compute; reflexivity).
  destruct E as (d & g' & E).
  split; [exact H1|]. split; [exact WindowFixtureFacts.ep_ok|].
  exists d, g'. split; [exact E|].
  exact (window_padded_steps zeros_like a ep (7 : Z) g' d 1 H1
           WindowFixtureFacts.ep_ok E).
Defined.

(** X23. In every state the coordinator can reach from its initial
    state, the win-rate line of [Learner.update] is defined, so the
    division [win / n] never fails: a call of [Learner.update] returns
    exactly when its call of [Trainer.update] returns. *)
Theorem update_never_divides_by_zero {model state_dict episode : Type}
    (get_state_dict : model -> state_dict) (model_class : model)
    (load_state_dict : model -> state_dict -> model)
    (a : Learner.args) (random_model : model)
    (files0 : gmap string state_dict)
    (evs : list Learner.event)
    (st : @Learner.learner model state_dict episode) :
  Learner.run get_state_dict model_class load_state_dict a
    (Learner.init random_model files0) evs = Some st ->
  is_Some (Learner.win_rate (Learner.results st) (Learner.model_era st)) /\
  forall polls,
    is_Some (Learner.update get_state_dict a st polls)
    <-> is_Some (Learner.trainer_update a (Learner.episodes st) polls).
Proof.
  intros Hrun.
  pose proof (ReachableFacts.run_consistent get_state_dict model_class
                load_state_dict a evs _ st
                (ReachableFacts.init_consistent a random_model files0) Hrun)
    as (_ & _ & _ & _ & Hres & _).
  pose proof (LearnerFacts.win_rate_is_Some _ (Learner.model_era st) Hres)
    as [rep Hrep].
  split; [by exists rep|]. intros polls. unfold Learner.update.
  rewrite Hrep.
  destruct (Learner.trainer_update a (Learner.episodes st) polls)
    as [[m steps]|]; split; intros [x Hx]; try done; by eexists.
Qed.

Lemma update_never_divides_by_zero_witness :
  let a := Learner.Args 0 10 2 in
  let evs : list (@Learner.event (list Z) nat) :=
    [Learner.Request (Learner.Results true [(0, Some 1); (0, Some (-1))]);
     Learner.Request (Learner.Results false [(1, None)])] in
  let st := Learner.Learner_ 0 ([] : list Z) 0
              (<[0 := <[(-1) := 1]> (<[1 := 1]> ∅)]> ∅) 0 ([] : list nat)
              (∅ : gmap string (list Z)) in
  Learner.run id [0; 0] (fun _ sd => sd) a (Learner.init [] ∅) evs = Some st /\
  is_Some (Learner.win_rate (Learner.results st) (Learner.model_era st)) /\
  forall polls,
    is_Some (Learner.update id a st polls)
    <-> is_Some (Learner.trainer_update a (Learner.episodes st) polls).
Proof.
  intros a evs st.
  assert (H : Learner.run id [0; 0] (fun _ sd => sd) a (Learner.init [] ∅) evs
              = Some st) by (vm_compute; reflexivity).
  split; [exact H|].
  exact (update_never_divides_by_zero id [0; 0] (fun _ sd => sd) a [] ∅ evs
           st H).
Defined.

(** X24. In every state the coordinator can reach from its initial
    state, the era is the number of updates made, the two counters are
    not negative, the store respects a non-negative
    [maximum_episodes], and every era from 1 up to the one before the
    current has a saved file, which holds the state dict of a model.
    A [model] request for such an era is answered with the new network
    as [load_state_dict], called with the state dict of that file,
    left it: holding that state dict if the call returned, by the
    contract of [load_state_dict], and whatever the failed call left
    if it raised. *)
Theorem reachable_state_saved_eras {model state_dict episode : Type}
    (get_state_dict : model -> state_dict) (model_class : model)
    (try_load : model -> state_dict -> Loader.attempt)
    (a : Learner.args) (random_model : model)
    (files0 : gmap string state_dict)
    (evs : list Learner.event)
    (st : @Learner.learner model state_dict episode) :
  Loader.installs get_state_dict try_load ->
  Learner.run get_state_dict model_class (Loader.load_state_dict try_load) a
    (Learner.init random_model files0) evs = Some st ->
  Learner.model_era st = Learner.updates evs /\
  0 <= Learner.num_episodes st /\ 0 <= Learner.num_results st /\
  (0 <= Learner.maximum_episodes a ->
   Py.len (Learner.episodes st) <= Learner.maximum_episodes a) /\
  forall e, 1 <= e < Learner.model_era st ->
    exists saved : model,
      let sd := get_state_dict saved in
      let loading := try_load model_class sd in
      let reply :=
        Learner.fetch_model model_class (Loader.load_state_dict try_load)
          st e in
      Learner.files st !! Learner.model_path e = Some sd /\
      reply = Loader.network loading /\
      (Loader.raised loading = false -> get_state_dict reply = sd).
Proof.
  intros Hload Hrun.
  pose proof (ReachableFacts.run_consistent get_state_dict model_class
                (Loader.load_state_dict try_load) a evs _ st
                (ReachableFacts.init_consistent a random_model files0) Hrun)
    as (_ & Hn & Hr & _ & _ & Hb).
  assert (Hf : Reachable.saved get_state_dict st).
  { apply (ReachableFacts.run_saved get_state_dict model_class
             (Loader.load_state_dict try_load) a evs
             (Learner.init random_model files0) st); [|done].
    intros e He. simpl in He. lia. }
  destruct (LearnerFacts.run_era _ _ _ _ _ _ _ Hrun) as (He & _).
  simpl in He. split; [lia|]. do 3 (split; [done|]).
  intros e Hle. destruct (Hf e ltac:(lia)) as [saved Hsd]. exists saved.
  cbv zeta. split; [done|].
  assert (Hreply : Learner.fetch_model model_class
                     (Loader.load_state_dict try_load) st e
                   = Loader.load_state_dict try_load model_class
                       (get_state_dict saved))
    by (apply LearnerFacts.fetch_model_loaded; [lia|done]).
  split; [exact Hreply|]. intros Hok. rewrite Hreply. by apply Hload.
Qed.

Lemma reachable_state_saved_eras_witness :
  let a := Learner.Args 0 10 2 in
  let evs : list (@Learner.event (list Z) nat) :=
    [Learner.Update [(Some [5; 7], 3)];
     Learner.Request (Learner.Gargs true 3);
     Learner.Update [(Some [8; 9], 6)]] in
  let st := Learner.Learner_ 2 [8; 9] 3 ∅ 0 ([] : list nat)
              (<[Learner.model_path 2 := [8; 9]]>
                 (<[Learner.model_path 1 := [5; 7]]> ∅)) in
  let try_load := LoaderFixture.try_load in
  Loader.installs id try_load /\
  Learner.run id [0; 0] (Loader.load_state_dict try_load) a
    (Learner.init [] ∅) evs = Some st /\
  Learner.model_era st = Learner.updates evs /\
  0 <= Learner.num_episodes st /\ 0 <= Learner.num_results st /\
  (0 <= Learner.maximum_episodes a ->
   Py.len (Learner.episodes st) <= Learner.maximum_episodes a) /\
  forall e, 1 <= e < Learner.model_era st ->
    exists saved : list Z,
      let sd := id saved in
      let loading := try_load [0; 0] sd in
      let reply :=
        Learner.fetch_model [0; 0] (Loader.load_state_dict try_load) st e in
      Learner.files st !! Learner.model_path e = Some sd /\
      reply = Loader.network loading /\
      (Loader.raised loading = false -> id reply = sd).
Proof.
  intros a evs st try_load.
  assert (H0 : Loader.installs id try_load)
    by exact LoaderFacts.fixture_installs.
  assert (H : Learner.run id [0; 0] (Loader.load_state_dict try_load) a
                (Learner.init [] ∅) evs = Some st)
    by (vm_compute; reflexivity).
  split; [exact H0|]. split; [exact H|].
  exact (reachable_state_saved_eras id [0; 0] try_load a [] ∅ evs st H0 H).
Defined.

(** X25. Whenever [vtrace_base] returns, the two clipped importance
    ratios it hands on are the same tensor, both thresholds being 1,
    and every entry of it lies between 0 and 1, whatever the policies
    and whatever [torch.exp] returns. *)
Theorem vtrace_base_clips_to_unit_interval (exp : Q -> Q)
    (log_softmax : VTrace.row -> VTrace.row) (observation : bool)
    (b : VTrace.batch) (t_policies t_values : VTrace.tensor)
    (base : VTrace.base) :
  VTrace.vtrace_base exp log_softmax observation b t_policies t_values
    = Some base ->
  VTrace.cs base = VTrace.clipped_rhos base /\
  Forall (Forall (Forall (fun x => (0 <= x)%Q /\ (x <= 1)%Q)))
         (VTrace.clipped_rhos base).
Proof.
  unfold VTrace.vtrace_base.
  destruct (VTrace.gather (VTrace.softmax_last log_softmax (VTrace.policy b))
                          (VTrace.action b)); [|done].
  cbn [mbind option_bind].
  destruct (VTrace.gather (VTrace.softmax_last log_softmax t_policies)
                          (VTrace.action b)); [|done].
  cbn [mbind option_bind]. intros [= <-]. simpl. split; [done|].
  apply VTraceFacts.Forall_tmap. intros x.
  split; [by apply VTraceMore.clamp_ge|by apply VTraceFacts.clamp_le].
Qed.

Lemma vtrace_base_clips_to_unit_interval_witness :
  exists base,
    VTrace.vtrace_base Fixture.exp Fixture.log_softmax false Fixture.b2
      Fixture.t_policies Fixture.t_values = Some base /\
    VTrace.cs base = VTrace.clipped_rhos base /\
    Forall (Forall (Forall (fun x => (0 <= x)%Q /\ (x <= 1)%Q)))
           (VTrace.clipped_rhos base).
Proof.
  assert (E : exists base,
             VTrace.vtrace_base Fixture.exp Fixture.log_softmax false
               Fixture.b2 Fixture.t_policies Fixture.t_values = Some base)
    by (eexists; vm_compute; reflexivity).
  destruct E as (base & E). exists base. split; [exact E|].
  exact (vtrace_base_clips_to_unit_interval Fixture.exp Fixture.log_softmax
           false Fixture.b2 Fixture.t_policies Fixture.t_values base E).
Defined.

(** X26. On a well-shaped batch the return estimator MC takes the
    returns themselves as value targets and [rho * (returns - value)]
    as advantages; with a name other than MC, TD0 and TDLAMBDA
    [vtrace] raises, the targets and advantages being unbound at the
    call of [compose_losses]. *)
Theorem vtrace_mc_and_unknown_estimator (exp : Q -> Q)
    (log_softmax : VTrace.row -> VTrace.row) (observation : bool)
    (b : VTrace.batch) (t_policies t_values : VTrace.tensor)
    (T B P A : nat) :
  (forall r, length (log_softmax r) = length r) ->
  VTrace.batch_ok T B P A b t_policies t_values ->
  exists base,
    VTrace.vtrace_base exp log_softmax observation b t_policies t_values
      = Some base /\
    VTrace.vtrace exp log_softmax "MC" observation b t_policies t_values
      = Some (VTrace.returns b,
              VTrace.tmul (VTrace.clipped_rhos base)
                (VTrace.tsub (VTrace.returns b) (VTrace.values_nograd base))) /\
    forall ret : string,
      ret <> "MC" -> ret <> "TD0" -> ret <> "TDLAMBDA" ->
      VTrace.vtrace exp log_softmax ret observation b t_policies t_values
        = None.
Proof.
  intros Hls Hok.
  destruct (VTraceFacts.vtrace_base_some exp log_softmax Hls observation b
              t_policies t_values T B P A Hok) as (base & Hbase & _).
  exists base. split; [done|]. unfold VTrace.vtrace. rewrite Hbase.
  destruct base as [l v r c]. cbn [mbind option_bind]. split.
  - by rewrite decide_True.
  - intros ret H1 H2 H3. by rewrite !decide_False.
Qed.

Lemma vtrace_mc_and_unknown_estimator_witness :
  (forall r, length (Fixture.log_softmax r) = length r) /\
  VTrace.batch_ok 2 1 1 1 Fixture.b2 Fixture.t_policies Fixture.t_values /\
  exists base,
    VTrace.vtrace_base Fixture.exp Fixture.log_softmax false Fixture.b2
      Fixture.t_policies Fixture.t_values = Some base /\
    VTrace.vtrace Fixture.exp Fixture.log_softmax "MC" false Fixture.b2
      Fixture.t_policies Fixture.t_values
      = Some (VTrace.returns Fixture.b2,
              VTrace.tmul (VTrace.clipped_rhos base)
                (VTrace.tsub (VTrace.returns Fixture.b2)
                             (VTrace.values_nograd base))) /\
    forall ret : string,
      ret <> "MC" -> ret <> "TD0" -> ret <> "TDLAMBDA" ->
      VTrace.vtrace Fixture.exp Fixture.log_softmax ret false Fixture.b2
        Fixture.t_policies Fixture.t_values = None.
Proof.
  split; [exact FixtureFacts.log_softmax_length|].
  split; [exact FixtureFacts.b2_ok|].
  exact (vtrace_mc_and_unknown_estimator Fixture.exp Fixture.log_softmax false
           Fixture.b2 Fixture.t_policies Fixture.t_values 2 1 1 1
           FixtureFacts.log_softmax_length FixtureFacts.b2_ok).
Defined.

(** X27. The values [vtrace_base] hands on mix the network's value and
    the return by the turn mask.  With [g] the sum of the turn mask at
    a step of an episode, the entry for player [j] is
    [own * g + return * (1 - g)], where [own] is the network's value,
    for two players combined with the negated value of the opponent
    (and halved in observation mode).  So on a padded step, where the
    turn mask is zero, the value is the return, and on a real step,
    where it sums to one, it is [own]. *)
Theorem values_nograd_mixes_value_and_return (exp : Q -> Q)
    (log_softmax : VTrace.row -> VTrace.row) (observation : bool)
    (b : VTrace.batch) (t_policies t_values : VTrace.tensor)
    (T B P A : nat) (base : VTrace.base) (k bi j : nat)
    (trow vrow : VTrace.row) (v_j ret_j : Q) :
  VTrace.batch_ok T B P A b t_policies t_values ->
  VTrace.vtrace_base exp log_softmax observation b t_policies t_values
    = Some base ->
  TimeMajor.entry (VTrace.tmask b) k bi = Some trow ->
  TimeMajor.entry t_values k bi = Some vrow ->
  vrow !! j = Some v_j ->
  TimeMajor.entry3 (VTrace.returns b) 0 bi j = Some ret_j ->
  let g := foldr Qplus 0%Q trow in
  let own :=
    (if decide (P = 2%nat)
     then if observation
          then (v_j + - nth (1 - j) vrow 0) / 2
          else v_j + - nth (1 - j) vrow 0
     else v_j)%Q in
  exists x,
    TimeMajor.entry3 (VTrace.values_nograd base) k bi j = Some x /\
    x = (own * g + ret_j * (1 - g))%Q /\
    ((g == 0)%Q -> (x == ret_j)%Q) /\
    ((g == 1)%Q -> (x == own)%Q).
Proof.
  intros (Hact & Hrange & Htm & Hvm & Hpol & Hret & Htp & Htv) Hbase
         Htrow Hvrow Hvj Hretj g own.
  unfold VTrace.vtrace_base in Hbase.
  destruct (VTrace.gather (VTrace.softmax_last log_softmax (VTrace.policy b))
                          (VTrace.action b)); [|done].
  cbn [mbind option_bind] in Hbase.
  destruct (VTrace.gather (VTrace.softmax_last log_softmax t_policies)
                          (VTrace.action b)); [|done].
  cbn [mbind option_bind] in Hbase. injection Hbase as <-.
  cbn [VTrace.values_nograd].
  assert (Hv3 : TimeMajor.entry3 t_values k bi j = Some v_j).
  { unfold TimeMajor.entry3. by rewrite Hvrow. }
  apply TensorFacts.entry_Some in Hvrow as Hvs. destruct Hvs as (s & Hs & Hr).
  destruct (TensorFacts.shaped_lookup _ _ _ _ _ _ _ _ Htv Hs Hr)
    as (Ls & Lr & Hk & Hbi).
  assert (Hj : (j < P)%nat) by (apply lookup_lt_Some in Hvj; lia).
  assert (Hsize : VTrace.size2 t_values = Z.of_nat P).
  { unfold VTrace.size2, Py.len. destruct Htv as [Ht Hall].
    destruct t_values as [|s0 tv]; [simpl in Ht; lia|].
    apply Forall_cons in Hall as [[Hb0 Hr0] _].
    destruct s0 as [|r0 s0]; [simpl in Hb0; lia|].
    apply Forall_cons in Hr0 as [Hr0 _]. simpl. by rewrite Hr0. }
  rewrite Hsize.
  set (V := if Z.of_nat P =? 2
            then if observation
                 then VTrace.tmap (fun x => x / 2)%Q
                        (VTrace.tadd t_values (VTrace.opponent t_values))
                 else VTrace.tadd t_values (VTrace.opponent t_values)
            else t_values).
  assert (HV : VTrace.shaped T B P V /\
               TimeMajor.entry3 V k bi j = Some own).
  { unfold V, own. destruct (Z.eqb_spec (Z.of_nat P) 2) as [HP|HP].
    - assert (P = 2%nat) as -> by lia. rewrite decide_True by done.
      assert (Hsum : VTrace.shaped T B 2
                       (VTrace.tadd t_values (VTrace.opponent t_values)) /\
                     TimeMajor.entry3
                       (VTrace.tadd t_values (VTrace.opponent t_values))
                       k bi j
                     = Some (v_j + - nth (1 - j) vrow 0)%Q).
      { split.
        - apply TensorFacts.shaped_bzip3_same; [done|].
          by apply (TensorFacts.shaped_opponent T B 2).
        - apply (TensorFacts.entry3_bzip3_same Qplus T B 2); [done| |done|].
          + by apply (TensorFacts.shaped_opponent T B 2).
          + by apply TensorFacts.entry3_opponent. }
      destruct Hsum as [Hsh He]. destruct observation.
      + split; [by apply TensorFacts.shaped_tmap|].
        by rewrite TensorFacts.entry3_tmap, He.
      + done.
    - rewrite decide_False by lia. done. }
  destruct HV as [HVs HVe].
  assert (Hg : VTrace.shaped T B 1 (VTrace.sum_last (VTrace.tmask b)) /\
               TimeMajor.entry3 (VTrace.sum_last (VTrace.tmask b)) k bi 0
               = Some g).
  { split; [by apply (TensorFacts.shaped_sum_last T B P)|].
    by rewrite TensorFacts.entry3_sum_last, Htrow. }
  destruct Hg as [Hgs Hge].
  assert (Hx : TimeMajor.entry3
                 (VTrace.tmul V (VTrace.sum_last (VTrace.tmask b))) k bi j
               = Some (own * g)%Q)
    by (by apply (TensorFacts.entry3_bzip3_last1 Qmult T B P)).
  assert (Hy : TimeMajor.entry3
                 (VTrace.tmul (VTrace.returns b)
                    (VTrace.tmap (fun g0 => 1 - g0)%Q
                       (VTrace.sum_last (VTrace.tmask b)))) k bi j
               = Some (ret_j * (1 - g))%Q).
  { apply (TensorFacts.entry3_bzip3_first1_last1 Qmult T B P); [done| |done|].
    - by apply TensorFacts.shaped_tmap.
    - by rewrite TensorFacts.entry3_tmap, Hge. }
  exists (own * g + ret_j * (1 - g))%Q. split; [|split; [done|split]].
  - apply (TensorFacts.entry3_bzip3_same Qplus T B P); [| |done|done].
    + by apply TensorFacts.shaped_bzip3_last1.
    + apply TensorFacts.shaped_bzip3_first1_last1; [done|].
      by apply TensorFacts.shaped_tmap.
  - intros H0. rewrite H0. ring.
  - intros H1. rewrite H1. ring.
Qed.

Lemma values_nograd_mixes_value_and_return_witness :
  let trow := [0%Q; 0%Q] in
  let vrow := [(3 # 4)%Q; 0%Q] in
  VTrace.batch_ok 2 1 2 1 Fixture2.b Fixture2.t_policies Fixture2.t_values /\
  TimeMajor.entry (VTrace.tmask Fixture2.b) 1 0 = Some trow /\
  TimeMajor.entry Fixture2.t_values 1 0 = Some vrow /\
  vrow !! 0%nat = Some (3 # 4)%Q /\
  TimeMajor.entry3 (VTrace.returns Fixture2.b) 0 0 0 = Some 1%Q /\
  exists base,
    VTrace.vtrace_base Fixture.exp Fixture.log_softmax true Fixture2.b
      Fixture2.t_policies Fixture2.t_values = Some base /\
    let g := foldr Qplus 0%Q trow in
    let own :=
      (if decide (2%nat = 2%nat)
       then if true
            then ((3 # 4) + - nth (1 - 0) vrow 0) / 2
            else (3 # 4) + - nth (1 - 0) vrow 0
       else 3 # 4)%Q in
    exists x,
      TimeMajor.entry3 (VTrace.values_nograd base) 1 0 0 = Some x /\
      x = (own * g + 1 * (1 - g))%Q /\
      ((g == 0)%Q -> (x == 1)%Q) /\
      ((g == 1)%Q -> (x == own)%Q).
Proof.
  intros trow vrow.
  assert (E : exists base,
             VTrace.vtrace_base Fixture.exp Fixture.log_softmax true
               Fixture2.b Fixture2.t_policies Fixture2.t_values = Some base)
    by (eexists; vm_compute; reflexivity).
  destruct E as (base & E).
  assert (H1 : TimeMajor.entry (VTrace.tmask Fixture2.b) 1 0 = Some trow)
    by reflexivity.
  assert (H2 : TimeMajor.entry Fixture2.t_values 1 0 = Some vrow)
    by reflexivity.
  assert (H3 : vrow !! 0%nat = Some (3 # 4)%Q) by reflexivity.
  assert (H4 : TimeMajor.entry3 (VTrace.returns Fixture2.b) 0 0 0 = Some 1%Q)
    by reflexivity.
  split; [exact Fixture2Facts.b_ok|]. split; [exact H1|]. split; [exact H2|].
  split; [exact H3|]. split; [exact H4|]. exists base. split; [exact E|].
  exact (values_nograd_mixes_value_and_return Fixture.exp Fixture.log_softmax
           true Fixture2.b Fixture2.t_policies Fixture2.t_values 2 1 2 1 base
           1 0 0 trow vrow (3 # 4)%Q 1%Q Fixture2Facts.b_ok E H1 H2 H3 H4).
Defined.

(** X28. [softmax] of [model.py] on a vector that is not empty, with an
    exponential that is positive: the maximum subtracted is an entry of
    the vector and no entry exceeds it, so no exponent is positive;
    the result has one positive entry per logit, and its entries sum to
    one. *)
Theorem softmax_is_a_distribution (exp : Q -> Q) (x : list Q) :
  (forall v, (0 < exp v)%Q) ->
  x <> [] ->
  exists m p,
    Model.max x = Some m /\ m ∈ x /\
    Forall (fun v => (v - m <= 0)%Q) x /\
    Model.softmax exp x = Some p /\
    length p = length x /\
    Forall (fun v => (0 < v)%Q) p /\
    (foldr Qplus 0 p == 1)%Q.
Proof.
  intros Hexp Hne. destruct x as [|x0 xs]; [done|].
  destruct (ModelFacts.foldl_max_spec xs x0) as [Hin Hall].
  set (m := foldl (fun m v => if Qlt_le_dec m v then v else m) x0 xs) in *.
  set (e := (fun v : Q => exp (v - m)%Q) <$> (x0 :: xs)).
  assert (He : Forall (fun v => (0 < v)%Q) e).
  { apply Forall_fmap, Forall_true. intros v. apply Hexp. }
  assert (Hs : (0 < foldr Qplus 0 e)%Q) by (by apply ModelFacts.sum_pos).
  exists m, ((fun v => v / foldr Qplus 0 e)%Q <$> e).
  split; [done|]. split; [done|]. split.
  { eapply Forall_impl; [exact Hall|]. intros v Hv. simpl in Hv. lra. }
  split; [reflexivity|]. split; [unfold e; by rewrite !length_fmap|]. split.
  - apply Forall_fmap. eapply Forall_impl; [exact He|].
    intros v Hv. simpl in Hv |- *. apply Qlt_shift_div_l; [done|].
    by rewrite Qmult_0_l.
  - rewrite ModelFacts.sum_div. unfold Qdiv. apply Qmult_inv_r.
    intros H0. rewrite H0 in Hs. by apply Qlt_irrefl in Hs.
Qed.

Lemma softmax_is_a_distribution_witness :
  let exp := fun v : Q => (1 + v * v)%Q in
  let x := [1%Q; 3%Q; 2%Q] in
  (forall v, (0 < exp v)%Q) /\
  x <> [] /\
  exists m p,
    Model.max x = Some m /\ m ∈ x /\
    Forall (fun v => (v - m <= 0)%Q) x /\
    Model.softmax exp x = Some p /\
    length p = length x /\
    Forall (fun v => (0 < v)%Q) p /\
    (foldr Qplus 0 p == 1)%Q.
Proof.
  intros exp x.
  assert (H1 : forall v, (0 < exp v)%Q) by (intros v; unfold exp; nra).
  assert (H2 : x <> []) by discriminate.
  split; [exact H1|]. split; [exact H2|].
  exact (softmax_is_a_distribution exp x H1 H2).
Defined.

(** X29. The trace of the training thread, from its start, over the
    passes of [Trainer.run] that found [minimum_episodes] episodes
    stored: each makes one report.  For a network with parameters the
    batcher is started once, in the first of these passes, and every
    report carries a model and a positive step count.  For a network
    without parameters the batcher is started again in every one of
    these passes and every report is [(None, 0)]. *)
Theorem trainer_run_trace {model : Type} (tr : TrainLoop.trainer)
    (minimum_episodes : Z) (passes : list (@TrainerRun.pass model))
    (th : TrainerRun.thread) :
  TrainerRun.run minimum_episodes (TrainerRun.start tr) passes = Some th ->
  let n := Py.len (TrainerRun.training_passes minimum_episodes passes) in
  Py.len (TrainerRun.reported th) = n /\
  if TrainLoop.has_optimizer tr
  then TrainerRun.batcher_runs th = Z.min 1 n /\
       Forall (fun r => is_Some r.1 /\ 1 <= r.2) (TrainerRun.reported th)
  else TrainerRun.batcher_runs th = n /\
       Forall (fun r => r = (None, 0)) (TrainerRun.reported th).
Proof.
  intros Hrun n.
  pose proof (PyFacts.len_nonneg
                (TrainerRun.training_passes minimum_episodes passes)) as Hnn.
  destruct (TrainLoop.has_optimizer tr) eqn:Ho.
  - eapply TrainerRunFacts.run_with_parameters in Hrun;
      [|exact Ho|simpl; lia].
    destruct Hrun as (new & H1 & H2 & H3 & H4). simpl in *.
    rewrite H1. split; [done|]. split; [lia|].
    eapply Forall_impl; [exact H3|]. intros r [Hr1 Hr2]. split; [done|lia].
  - eapply TrainerRunFacts.run_without_parameters in Hrun;
      [|exact Ho|reflexivity].
    destruct Hrun as (_ & H2 & H3). simpl in *. rewrite H2.
    split; [unfold n; unfold Py.len at 1; rewrite length_replicate; lia|].
    split; [unfold n; lia|]. apply Forall_forall. intros r Hr.
    by apply elem_of_replicate in Hr as [-> _].
Qed.

Lemma trainer_run_trace_witness :
  let tr := TrainLoop.Trainer_ true (3 # 100000000) 64 (2 # 1000000) 0 in
  let passes : list (@TrainerRun.pass (list Z)) :=
    [TrainerRun.Pass 0 (fun _ => true) [] [0];
     TrainerRun.Pass 5 (fun _ => true) [TrainLoop.BatchResult [] 6] [1];
     TrainerRun.Pass 5 (fun k => Nat.leb 2 k)
       [TrainLoop.BatchResult [] 6; TrainLoop.BatchResult [] 4] [2]] in
  exists th,
    TrainerRun.run 2 (TrainerRun.start tr) passes = Some th /\
    TrainerRun.reported th = [(Some [1], 1); (Some [2], 3)] /\
    let n := Py.len (TrainerRun.training_passes 2 passes) in
    Py.len (TrainerRun.reported th) = n /\
    if TrainLoop.has_optimizer tr
    then TrainerRun.batcher_runs th = Z.min 1 n /\
         Forall (fun r => is_Some r.1 /\ 1 <= r.2) (TrainerRun.reported th)
    else TrainerRun.batcher_runs th = n /\
         Forall (fun r => r = (None, 0)) (TrainerRun.reported th).
Proof.
  intros tr passes.
  assert (E : exists th,
             TrainerRun.run 2 (TrainerRun.start tr) passes = Some th /\
             TrainerRun.reported th = [(Some [1], 1); (Some [2], 3)])
    by (eexists; vm_compute; split; reflexivity).
  destruct E as (th & E & Er). exists th. split; [exact E|].
  split; [exact Er|].
  exact (trainer_run_trace tr 2 passes th E).
Defined.

(** X30. [compose_losses] with masks whose entries are not negative:
    the count of training data and the value loss are not negative;
    and for a batch without training data, the count being zero, the
    policy loss and the entropy are zero and the total loss is the
    value loss. *)
Theorem compose_losses_masks (entropy : VTrace.row -> Q)
    (policies values log_selected_policies advantages value_targets
       tmasks vmasks : VTrace.tensor) (progress : VTrace.slice) :
  Forall (Forall (Forall (fun x => (0 <= x)%Q))) tmasks ->
  Forall (Forall (Forall (fun x => (0 <= x)%Q))) vmasks ->
  let result :=
    Losses.compose_losses entropy policies values log_selected_policies
      advantages value_targets tmasks vmasks progress in
  let losses := result.1 in
  let dcnt := result.2 in
  (0 <= dcnt)%Q /\ (0 <= Losses.v losses)%Q /\
  ((dcnt == 0)%Q ->
   (Losses.p losses == 0)%Q /\ (Losses.ent losses == 0)%Q /\
   (Losses.total losses == Losses.v losses)%Q).
Proof.
  intros Ht Hv result losses dcnt.
  unfold losses, dcnt, result, Losses.compose_losses.
  cbn [fst snd Losses.p Losses.v Losses.ent Losses.total].
  split; [by apply LossesFacts.tsum_nonneg|]. split.
  - apply Qle_shift_div_l; [reflexivity|]. rewrite Qmult_0_l.
    apply LossesFacts.tsum_nonneg.
    apply (LossesFacts.all3_tmul (fun x => (0 <= x)%Q) (fun x => (0 <= x)%Q));
      [|done|intros x y; apply Qmult_le_0_compat].
    apply VTraceFacts.Forall_tmap. intros x. simpl.
    unfold Qpower_positive. simpl. nra.
  - intros Hd.
    assert (Hz : Forall (Forall (Forall (fun x => (x == 0)%Q))) tmasks)
      by (by apply LossesFacts.tsum_zero_inv).
    assert (Hmul : forall x y : Q, True -> (y == 0)%Q -> (x * y == 0)%Q)
      by (intros x y _ ->; ring).
    assert (Hmul' : forall x y : Q, (x == 0)%Q -> True -> (x * y == 0)%Q)
      by (intros x y -> _; ring).
    assert (Hp : (Losses.tsum
                    (VTrace.tmul (VTrace.tmap Qopp log_selected_policies)
                       (VTrace.sum_last (VTrace.tmul advantages tmasks)))
                  == 0)%Q).
    { apply LossesFacts.tsum_zero.
      apply (LossesFacts.all3_tmul (fun _ => True) (fun x => (x == 0)%Q));
        [apply LossesFacts.all3_true| |done].
      apply LossesFacts.all3_sum_last_zero.
      by apply (LossesFacts.all3_tmul (fun _ => True) (fun x => (x == 0)%Q));
        [apply LossesFacts.all3_true| |]. }
    assert (He : Forall (Forall (fun x => (x == 0)%Q))
                        (Losses.masked_entropy entropy policies tmasks)).
    { unfold Losses.masked_entropy.
      apply (LossesFacts.all2_smul (fun _ => True) (fun x => (x == 0)%Q));
        [apply LossesFacts.all2_true| |done].
      apply Forall_fmap. eapply Forall_impl; [exact Hz|]. intros s Hs. simpl.
      apply Forall_fmap. eapply Forall_impl; [exact Hs|]. intros r Hr. simpl.
      by apply LossesFacts.rsum_zero. }
    split; [done|]. split; [by apply LossesFacts.ssum_zero|].
    assert (Hw : (Losses.ssum
                    (VTrace.bzip (VTrace.bzip Qmult)
                       (Losses.masked_entropy entropy policies tmasks)
                       ((fun r : VTrace.row =>
                           (fun x => 1 - x * (9 # 10))%Q <$> r) <$> progress))
                  == 0)%Q).
    { apply LossesFacts.ssum_zero.
      by apply (LossesFacts.all2_smul (fun x => (x == 0)%Q) (fun _ => True));
        [|apply LossesFacts.all2_true|]. }
    rewrite Hp, Hw. ring.
Qed.

Lemma compose_losses_masks_witness :
  let entropy := fun r : VTrace.row => 1%Q in
  let tmasks := VTrace.tmask Fixture2.b in
  let vmasks := VTrace.vmask Fixture2.b in
  Forall (Forall (Forall (fun x => (0 <= x)%Q))) tmasks /\
  Forall (Forall (Forall (fun x => (0 <= x)%Q))) vmasks /\
  let result :=
    Losses.compose_losses entropy Fixture2.t_policies Fixture2.t_values
      [[[0%Q]]; [[0%Q]]] [[[1%Q; 0%Q]]; [[0%Q; 0%Q]]]
      (VTrace.returns Fixture2.b) tmasks vmasks [[0%Q]; [1%Q]] in
  let losses := result.1 in
  let dcnt := result.2 in
  (0 <= dcnt)%Q /\ (0 <= Losses.v losses)%Q /\
  ((dcnt == 0)%Q ->
   (Losses.p losses == 0)%Q /\ (Losses.ent losses == 0)%Q /\
   (Losses.total losses == Losses.v losses)%Q).
Proof.
  intros entropy tmasks vmasks.
  assert (H1 : Forall (Forall (Forall (fun x => (0 <= x)%Q))) tmasks)
    by (repeat constructor; discriminate).
  assert (H2 : Forall (Forall (Forall (fun x => (0 <= x)%Q))) vmasks)
    by (repeat constructor; discriminate).
  split; [exact H1|]. split; [exact H2|].
  exact (compose_losses_masks entropy Fixture2.t_policies Fixture2.t_values
           [[[0%Q]]; [[0%Q]]] [[[1%Q; 0%Q]]; [[0%Q; 0%Q]]]
           (VTrace.returns Fixture2.b) tmasks vmasks [[0%Q]; [1%Q]] H1 H2).
Defined.
